(** * DomainMate: check orchestration, resolver fallback and alert state machine

    A shallow embedding of the core of the DomainMate scanner:
    - [src/cli.py]: [clean_domain], [get_parent_domain],
      [get_connectable_hostname] and the scan loop of [main];
    - [src/utils/dns_helpers.py]: [RobustResolver];
    - [src/monitors/blacklist_monitor.py]: [BlacklistMonitor.check_blacklist];
    - [src/notifications/manager.py]: [NotificationManager];
    - [src/notifications/service.py]: the channels of [NotificationService];
    - [src/reporting/html_generator.py]: the statistics of [generate];
    - [api/api.py]: [analyze_domain];
    - [src/monitors/dns_monitor.py], [src/monitors/ssl_monitor.py] and
      [src/monitors/domain_monitor.py]: the DNS monitor and the two expiry
      checks.

    Python [str] values are modelled as [string] (8-bit characters); host
    names are ASCII, and the character classes below are the ASCII part of
    Python's.  Python [int] is [Z].  A [dict] used as a key-value store is a
    [gmap]; a [dict] used as a record is a [Record]: the keys that every
    Check Result carries when it reaches the core ([domain], [monitor],
    [status]) are mandatory fields, the other keys are optional fields.

    The network, the clock and the four external check adapters are the
    world outside the program: the network and the adapters answer as
    oracles that may depend on everything that happened before, and the
    instant [now] of a cycle is a parameter.  Exceptions are values: a
    computation returns [inl e] when it raises [e]. *)

From Stdlib Require Import ZArith Ascii String List Bool Lia.
From stdpp Require Import base option list strings gmap pretty.

Local Open Scope string_scope.

(** ** Python string primitives *)

Module PyStr.

(** [str.isspace] on one ASCII character: TAB..CR, FS..US and SPACE. *)
Definition isspace (c : ascii) : bool :=
  let n := nat_of_ascii c in
  ((9 <=? n)%nat && (n <=? 13)%nat) || ((28 <=? n)%nat && (n <=? 32)%nat).

Definition lower_char (c : ascii) : ascii :=
  let n := nat_of_ascii c in
  if ((65 <=? n)%nat && (n <=? 90)%nat) then ascii_of_nat (n + 32) else c.

Definition upper_char (c : ascii) : ascii :=
  let n := nat_of_ascii c in
  if ((97 <=? n)%nat && (n <=? 122)%nat) then ascii_of_nat (n - 32) else c.

Fixpoint map_chars (f : ascii -> ascii) (s : string) : string :=
  match s with
  | EmptyString => EmptyString
  | String c s' => String (f c) (map_chars f s')
  end.

(** [s.lower()] and [s.upper()]. *)
Definition lower (s : string) : string := map_chars lower_char s.
Definition upper (s : string) : string := map_chars upper_char s.

(** [s.lstrip()], [s.rstrip()], [s.strip()]. *)
Fixpoint lstrip (s : string) : string :=
  match s with
  | EmptyString => EmptyString
  | String c s' => if isspace c then lstrip s' else s
  end.

Fixpoint rstrip (s : string) : string :=
  match s with
  | EmptyString => EmptyString
  | String c s' =>
      match rstrip s' with
      | EmptyString => if isspace c then EmptyString else String c EmptyString
      | r => String c r
      end
  end.

Definition strip (s : string) : string := rstrip (lstrip s).

(** [sub in s]. *)
Fixpoint contains (sub s : string) : bool :=
  match s with
  | EmptyString => String.prefix sub EmptyString
  | String _ s' => String.prefix sub s || contains sub s'
  end.

(** [s.startswith(p)]. *)
Definition startswith (s p : string) : bool := String.prefix p s.

(** [s.split(sep)] for a non-empty [sep]: the pieces between the
    non-overlapping occurrences of [sep], scanned from the left.  [skip]
    counts the characters of a matched separator still to be dropped and
    [cur] is the piece being read. *)
Fixpoint split_go (sep s : string) (skip : nat) (cur : string) : list string :=
  match s with
  | EmptyString => [cur]
  | String c s' =>
      match skip with
      | S k => split_go sep s' k cur
      | O =>
          if String.prefix sep s
          then cur :: split_go sep s' (String.length sep - 1) EmptyString
          else split_go sep s' 0 (cur ++ String c EmptyString)
      end
  end.

Definition split (sep s : string) : list string := split_go sep s 0 EmptyString.

(** [sep.join(l)]. *)
Definition join (sep : string) (l : list string) : string := String.concat sep l.

(** [l[i]] on a list of strings.  The callers below only index positions
    that exist: piece 0 of a split, piece 1 of a split by a separator that
    occurs, and the last two of more than two pieces. *)
Definition item (l : list string) (i : nat) : string := default EmptyString (l !! i).

(** The line feed of ["\n".join(lines)]. *)
Definition newline : string := String (ascii_of_nat 10) EmptyString.

(** [str(n)] for an [int]. *)
Definition of_int (n : Z) : string := pretty n.

End PyStr.

(** ** Target selection ([src/cli.py]) *)

Definition clean_domain (raw_domain : string) : string :=
  (* Remove protocol *)
  let raw_domain :=
    if PyStr.contains "://" raw_domain
    then PyStr.item (PyStr.split "://" raw_domain) 1
    else raw_domain in
  (* Remove path/params *)
  let raw_domain :=
    PyStr.item (PyStr.split "?" (PyStr.item (PyStr.split "/" raw_domain) 0)) 0 in
  (* Remove port if present *)
  let raw_domain :=
    if PyStr.contains ":" raw_domain
    then PyStr.item (PyStr.split ":" raw_domain) 0
    else raw_domain in
  PyStr.lower (PyStr.strip raw_domain).

Definition get_parent_domain (domain : string) : string :=
  let parts := PyStr.split "." domain in
  if (2 <? length parts)%nat
  then PyStr.item parts (length parts - 2) ++ "." ++ PyStr.item parts (length parts - 1)
  else domain.


(** ** Auxiliary notions used to state facts about the string primitives *)

Module PyStrAux.
Import PyStr.

(** The piece of [s] before the first occurrence of the character [c]. *)
Fixpoint take_until (c : ascii) (s : string) : string :=
  match s with
  | EmptyString => EmptyString
  | String a s' => if ascii_dec c a then EmptyString else String a (take_until c s')
  end.

Fixpoint has_char (c : ascii) (s : string) : bool :=
  match s with
  | EmptyString => false
  | String a s' => if ascii_dec c a then true else has_char c s'
  end.

(** A string that does not start with white space keeps its first
    character under [rstrip], unless it is empty. *)
Definition starts_clean (s : string) : bool :=
  match s with
  | EmptyString => true
  | String c _ => negb (isspace c)
  end.

(** The string left after the port has been cut off, before [strip] and
    [lower]. *)
Definition strip_url (raw_domain : string) : string :=
  let raw_domain :=
    if contains "://" raw_domain then item (split "://" raw_domain) 1 else raw_domain in
  let raw_domain := item (split "?" (item (split "/" raw_domain) 0)) 0 in
  if contains ":" raw_domain then item (split ":" raw_domain) 0 else raw_domain.

End PyStrAux.

(** ** Data model *)

(** The [details] payload of a result: the digest only tells a list and a
    string apart from everything else (a [dict], a WHOIS entry, ...). *)
Inductive Details :=
| DetailsList (items : list string)
| DetailsStr (text : string)
| DetailsDict (entries : list (string * string))
| DetailsOther.

(** A Check Result, the [dict] an adapter returns, with the keys the scan
    loop, the notification manager and the report read.  [domain] is written
    by the scan loop ([res["domain"] = domain]); [alert_count] is written by
    the notification manager.  The key [monitor] is missing from one result
    of [check_domain] (the one for a WHOIS entry without expiration date),
    so it is optional; every other result has it.  The last three fields are
    the payload of the blacklist monitor. *)
Record CheckResult := mkResult {
  domain : string;
  monitor : option string;
  status : string;
  message : option string;
  details : option Details;
  alert_count : option Z;
  ip : option string;
  listed_in : option (list string);
  checked_rbls : option Z
}.

Definition set_domain (d : string) (r : CheckResult) : CheckResult :=
  mkResult d (monitor r) (status r) (message r) (details r) (alert_count r)
           (ip r) (listed_in r) (checked_rbls r).

Definition set_message (m : string) (r : CheckResult) : CheckResult :=
  mkResult (domain r) (monitor r) (status r) (Some m) (details r) (alert_count r)
           (ip r) (listed_in r) (checked_rbls r).

Definition set_alert_count (n : Z) (r : CheckResult) : CheckResult :=
  mkResult (domain r) (monitor r) (status r) (message r) (details r) (Some n)
           (ip r) (listed_in r) (checked_rbls r).

(** ** Exceptions, events and the world outside the program *)

(** The class of a raised exception, as far as the code tells classes
    apart ([isinstance] in [resolve], the [except] clauses of
    [check_blacklist]), and its text [str(e)]. *)
Inductive ExnClass := NXDOMAIN | NoAnswer | OtherException.

Record Exn := mkExn { exn_class : ExnClass; exn_text : string }.

Inductive MonitorKind := MDomain | MSsl | MDns | MSecurity | MBlacklist.

Inductive LogLevel := LInfo | LWarning | LError | LSuccess.

(** What a run does to the outside world, in order. *)
Inductive Event :=
| EvPoolQuery (nameservers : list string) (qname rdtype : string)
| EvDohQuery (qname rdtype : string)
| EvSystemQuery (qname rdtype : string)
| EvAdapter (m : MonitorKind) (target : string)
| EvLog (level : LogLevel) (text : string).

(** The JSON body of a DNS-over-HTTPS answer: [Status] and the
    [(type, data)] pairs of [Answer], each possibly missing. *)
Record DohJson := mkDoh {
  doh_status : option Z;
  doh_answer : option (list (Z * string))
}.

(** The outside world.  Every answer may depend on everything that
    happened before (the first argument), so the same query can be answered
    differently at different moments.
    - [w_shuffle]: [random.shuffle] of the resolver pool;
    - [w_pool]: dnspython's [Resolver.resolve] against the given name
      servers, giving the texts of the answer records;
    - [w_doh]: [requests.get], [raise_for_status] and [response.json()],
      giving the body or the text of the exception of the HTTP layer (never
      one of the resolver's exception classes);
    - [w_system]: the system resolver used for the RBL queries;
    - the four external check adapters, which return a result or raise. *)
Record World := mkWorld {
  w_shuffle : list Event -> list string -> list string;
  w_pool : list Event -> list string -> string -> string -> Exn + list string;
  w_doh : list Event -> string -> string -> string + DohJson;
  w_system : list Event -> string -> string -> Exn + list string;
  w_check_domain : list Event -> string -> Exn + CheckResult;
  w_check_ssl : list Event -> string -> Exn + CheckResult;
  w_check_dns : list Event -> string -> Exn + CheckResult;
  w_check_security : list Event -> string -> Exn + CheckResult
}.

(** ** The monad of the embedding

    A computation reads the history of events so far and returns a value or
    an exception together with the events it adds. *)

Module Eff.

Definition M (A : Type) : Type := list Event -> (Exn + A) * list Event.

Definition ret {A} (a : A) : M A := fun _ => (inr a, []).

Definition raise {A} (e : Exn) : M A := fun _ => (inl e, []).

Definition bind {A B} (m : M A) (f : A -> M B) : M B :=
  fun h =>
    match m h with
    | (inl e, ev) => (inl e, ev)
    | (inr a, ev) =>
        match f a (h ++ ev)%list with
        | (r, ev') => (r, (ev ++ ev')%list)
        end
    end.

(** [try: m except Exception as e: handler(e)]. *)
Definition try_catch {A} (m : M A) (handler : Exn -> M A) : M A :=
  fun h =>
    match m h with
    | (inl e, ev) =>
        match handler e (h ++ ev)%list with
        | (r, ev') => (r, (ev ++ ev')%list)
        end
    | (inr a, ev) => (inr a, ev)
    end.

(** One interaction with the world: the event is recorded and the answer
    is the one the world gives after the history so far. *)
Definition ask {A} (ev : Event) (answer : list Event -> Exn + A) : M A :=
  fun h => (answer h, [ev]).

(** An event that asks nothing of the world. *)
Definition emit (ev : Event) : M unit := fun _ => (inr tt, [ev]).

Definition log (level : LogLevel) (text : string) : M unit :=
  emit (EvLog level text).

(** [for x in l: body(x, acc)], threading the loop variables [acc]. *)
Fixpoint for_each {A S} (l : list A) (body : A -> S -> M S) (acc : S) : M S :=
  match l with
  | [] => ret acc
  | x :: l' => bind (body x acc) (for_each l' body)
  end.

End Eff.

Notation "x <- m ;; k" := (Eff.bind m (fun x => k))
  (at level 100, m at next level, k at level 200, right associativity).
Notation "m ;;; k" := (Eff.bind m (fun _ => k))
  (at level 100, k at level 200, right associativity).

(** ** The resilient resolver ([src/utils/dns_helpers.py]) *)

Module RobustResolver.
Import Eff.

Definition resolvers : list string :=
  [ "1.1.1.1"; "1.0.0.1";           (* Cloudflare *)
    "8.8.8.8"; "8.8.4.4";           (* Google *)
    "9.9.9.9"; "149.112.112.112";   (* Quad9 *)
    "208.67.222.222";               (* OpenDNS *)
    "64.6.64.6" ].                  (* Verisign *)

(** [isinstance(e, (dns.resolver.NXDOMAIN, dns.resolver.NoAnswer))]. *)
Definition authoritative_negative (e : Exn) : bool :=
  match exn_class e with
  | NXDOMAIN | NoAnswer => true
  | OtherException => false
  end.

(** [str(data.get("Status"))]. *)
Definition status_text (data : DohJson) : string :=
  match doh_status data with
  | Some n => PyStr.of_int n
  | None => "None"
  end.

(** Fallback to Cloudflare DNS-over-HTTPS. *)
Definition _resolve_doh (w : World) (qname rdtype : string) : M (list string) :=
  try_catch
    (data <- ask (EvDohQuery qname rdtype)
                 (fun h => match w_doh w h qname rdtype with
                           | inl text => inl (mkExn OtherException text)
                           | inr data => inr data
                           end) ;;
     let refused : M (list string) :=
       raise (mkExn OtherException ("DoH Refused or No Data: " ++ status_text data)) in
     match doh_status data, doh_answer data with
     | Some 0%Z, Some answer =>
         (* A records only *)
         let answers := map snd (filter (fun ans => fst ans = 1%Z) answer) in
         match answers with
         | _ :: _ => ret answers
         | [] => refused
         end
     | _, _ => refused
     end)
    (fun e =>
       log LWarning ("DoH resolution failed for " ++ qname ++ ": " ++ exn_text e) ;;;
       raise e).

(** Resolve a query against the shuffled pool; an answer that is not an
    authoritative negative falls back to DNS-over-HTTPS.  The shuffle is
    whatever the world makes of the pool. *)
Definition resolve (w : World) (qname rdtype : string) : M (list string) :=
  fun h =>
    let current_resolvers := w_shuffle w h resolvers in
    try_catch
      (ask (EvPoolQuery current_resolvers qname rdtype)
           (fun h => w_pool w h current_resolvers qname rdtype))
      (fun e =>
         if authoritative_negative e
         then raise e
         else _resolve_doh w qname rdtype)
      h.

(** Simple helper to get a single IP. *)
Definition get_ip (w : World) (domain : string) : M string :=
  try_catch
    (answers <- resolve w domain "A" ;;
     match answers with
     | rdata :: _ => ret rdata
     | [] => raise (mkExn OtherException "No A records found")
     end)
    (fun e =>
       raise (mkExn OtherException
                ("Failed to resolve IP for " ++ domain ++ ": " ++ exn_text e))).

End RobustResolver.

(** [get_connectable_hostname] of [src/cli.py]: the exact domain if it
    resolves, else [www.domain] if that resolves, else [None]. *)
Definition get_connectable_hostname (w : World) (domain : string) : Eff.M (option string) :=
  Eff.try_catch
    (RobustResolver.get_ip w domain ;;; Eff.ret (Some domain))
    (fun _ =>
       Eff.try_catch
         (let www := "www." ++ domain in
          RobustResolver.get_ip w www ;;;
          Eff.log LInfo ("Root " ++ domain ++ " not reachable, falling back to " ++ www) ;;;
          Eff.ret (Some www))
         (fun _ => Eff.ret None)).

(** ** The blacklist monitor ([src/monitors/blacklist_monitor.py]) *)

Module BlacklistMonitor.
Import Eff.

(** Common free RBLs (Real-time Blackhole Lists). *)
Definition rbls : list string :=
  [ "zen.spamhaus.org";
    "bl.spamcop.net";
    "cbl.abuseat.org";
    "dnsbl.sorbs.net";
    "b.barracudacentral.org";
    "dnsbl-1.uceprotect.net" ].

(** [x in l] for a list of strings. *)
Definition mem (x : string) (l : list string) : bool := existsb (String.eqb x) l.

(** The body of [for rdata in answers] for one RBL: the loop variable is
    [listed_in]. *)
Definition scan_answer (rbl domain result_ip : string) (listed_in : list string)
  : M (list string) :=
  (* 1. Query Refused / Blocked *)
  if PyStr.startswith result_ip "127.255.255."
  then
    log LWarning ("RBL " ++ rbl ++ " blocked query for " ++ domain ++
                  " (Code: " ++ result_ip ++ "). Using public DNS?") ;;;
    ret listed_in
  (* 2. PBL / Policy Listings *)
  else if mem result_ip ["127.0.0.10"; "127.0.0.11"]
  then ret listed_in
  (* Valid Listing *)
  else if mem rbl listed_in
  then ret listed_in
  else ret (listed_in ++ [rbl])%list.

(** The body of [for rbl in self.rbls]: the loop variables are
    [listed_in] and [errors]. *)
Definition query_rbl (w : World) (domain reversed_ip rbl : string)
    (acc : list string * list string) : M (list string * list string) :=
  let '(listed_in, errors) := acc in
  let query := reversed_ip ++ "." ++ rbl in
  try_catch
    (answers <- ask (EvSystemQuery query "A") (fun h => w_system w h query "A") ;;
     listed_in' <- for_each answers (scan_answer rbl domain) listed_in ;;
     ret (listed_in', errors))
    (fun e =>
       match exn_class e with
       | NXDOMAIN => ret (listed_in, errors)      (* Not listed *)
       | NoAnswer => ret (listed_in, errors)      (* Not listed *)
       | OtherException =>                        (* Timeout or other error *)
           ret (listed_in, (errors ++ [(rbl ++ ": " ++ exn_text e)%string])%list)
       end).

Definition error_result (text : string) : CheckResult :=
  mkResult "" (Some "blacklist") "error" (Some text) None None None None None.

(** Resolve domain to IP and check against common RBLs. *)
Definition check_blacklist (w : World) (domain : string) : M CheckResult :=
  try_catch
    (* 1. Resolve Domain to IP *)
    (r <- try_catch (ip <- RobustResolver.get_ip w domain ;; ret (inr ip))
                    (fun e => ret (inl e)) ;;
     match r with
     | inl e => ret (error_result ("Could not resolve domain: " ++ exn_text e))
     | inr ip =>
         (* 2. Prepare Reverse IP for DNSBL query (1.2.3.4 -> 4.3.2.1) *)
         let reversed_ip := PyStr.join "." (rev (PyStr.split "." ip)) in
         (* 3. Query RBLs *)
         acc <- for_each rbls (query_rbl w domain reversed_ip) ([], []) ;;
         let listed_in := fst acc in
         let status := match listed_in with [] => "ok" | _ :: _ => "critical" end in
         ret (mkResult "" (Some "blacklist") status
                (Some match listed_in with
                      | [] => "Not listed in any common RBL"
                      | _ :: _ =>
                          "Listed in " ++ PyStr.of_int (Z.of_nat (length listed_in))
                          ++ " blacklists"
                      end)
                None None (Some ip) (Some listed_in)
                (Some (Z.of_nat (length rbls))))
     end)
    (fun e =>
       log LError ("Error checking blacklist for " ++ domain ++ ": " ++ exn_text e) ;;;
       ret (error_result (exn_text e))).

End BlacklistMonitor.

(** ** The alert state machine ([src/notifications/manager.py]) *)

(** An Issue Record of the persisted state.  Time stamps are readings of
    the clock in microseconds (the resolution of [datetime]);
    [fromisoformat] of what [isoformat] wrote gives the same reading back. *)
Record IssueRecord := mkIssue {
  first_seen : Z;
  last_sent : Z;
  count : Z;
  issue_monitor : string;
  issue_domain : string
}.

Module NotificationManager.

(** [self.state] is loaded from the state file when the manager is created
    and written back by [_save_state].  The embedding passes the state from
    one call to the next; the write is the effect [SaveState] (an I/O error
    in it is logged and swallowed by [_save_state], and what the file then
    holds is not modelled). *)

(** What a call does besides returning: log lines, the write of the state
    file, and the messages handed to the notification service. *)
Inductive Effect :=
| LogResend (issue_id : string) (n : Z)
| LogSnooze (issue_id : string) (sent : Z)
| LogResolved (issue_id : string)
| LogNoAlerts
| SaveState (state : gmap string IssueRecord)
| Send (title text : string).

(** The exceptions that end a call: a subscript with a key the [dict] does
    not have, and a method the object does not have.  Nothing in the class
    catches them. *)
Inductive Raised :=
| KeyError (key : string)
| AttributeError (class_name attribute : string).

(** [datetime.now()]: the clock is read anew at every use.  [clock n] is
    the [n]-th reading of a call, a naive local time in microseconds. *)
Definition Clock : Type := nat -> Z.

(** [timedelta(hours=24)]. *)
Definition resend_window : Z := 24 * 3600 * 1000000.

(** Create a unique ID for an issue (Domain + Monitor Type):
    [f"{result['domain']}:{result['monitor']}"]. *)
Definition _get_issue_id (result : CheckResult) : Raised + string :=
  match monitor result with
  | Some m => inr (domain result ++ ":" ++ m)
  | None => inl (KeyError "monitor")
  end.

(** [res.get("status") in ["critical", "error", "warning"]]. *)
Definition is_issue (res : CheckResult) : bool :=
  existsb (String.eqb (status res)) ["critical"; "error"; "warning"].

(** The variables of the first loop of [process_and_send]: [self.state],
    [current_issues], [alerts_to_send], the results seen so far (with the
    [alert_count] the loop writes into them) and the log. *)
Record Scan := mkScan {
  scan_state : gmap string IssueRecord;
  current_issues : gmap string CheckResult;
  alerts_to_send : list CheckResult;
  seen_results : list CheckResult;
  scan_log : list Effect
}.

(** The body of [for res in results]; [k] readings of the clock were taken
    before it.  The value is the exception raised, or the variables and the
    number of readings after it. *)
Definition scan_result (clock : Clock) (s : Scan) (k : nat) (res : CheckResult)
  : Raised + Scan * nat :=
  if is_issue res then
    match _get_issue_id res with
    | inl e => inl e
    | inr issue_id =>
        (* current_issues[issue_id] holds the very result the branches below write to *)
        let current := fun r => <[issue_id := r]> (current_issues s) in
        (* Check state *)
        match scan_state s !! issue_id with
        | Some data =>
            (* Policy: Only resend if > 24h passed *)
            if (resend_window <? clock k - last_sent data)%Z then
              let data' := mkIssue (first_seen data) (clock (S k)) (count data + 1)
                                   (issue_monitor data) (issue_domain data) in
              let res' := set_alert_count (count data') res in
              inr (mkScan (<[issue_id := data']> (scan_state s)) (current res')
                          (alerts_to_send s ++ [res'])%list
                          (seen_results s ++ [res'])%list
                          (scan_log s ++ [LogResend issue_id (count data')])%list,
                   S (S k))
            else
              inr (mkScan (scan_state s) (current res) (alerts_to_send s)
                          (seen_results s ++ [res])%list
                          (scan_log s ++ [LogSnooze issue_id (last_sent data)])%list,
                   S k)
        | None =>
            (* New Issue *)
            match monitor res with
            | None => inl (KeyError "monitor")
            | Some m =>
                let data := mkIssue (clock k) (clock (S k)) 1 m (domain res) in
                let res' := set_alert_count 1 res in
                inr (mkScan (<[issue_id := data]> (scan_state s)) (current res')
                            (alerts_to_send s ++ [res'])%list
                            (seen_results s ++ [res'])%list
                            (scan_log s),
                     S (S k))
            end
        end
    end
  else
    inr (mkScan (scan_state s) (current_issues s) (alerts_to_send s)
                (seen_results s ++ [res])%list (scan_log s),
         k).

(** [for res in results]: the loop ends with the first exception, and the
    results from there on are left as they were. *)
Fixpoint scan_results (clock : Clock) (results : list CheckResult) (s : Scan) (k : nat)
  : Scan * option Raised :=
  match results with
  | [] => (s, None)
  | res :: rest =>
      match scan_result clock s k res with
      | inl e =>
          (mkScan (scan_state s) (current_issues s) (alerts_to_send s)
                  (seen_results s ++ res :: rest)%list (scan_log s),
           Some e)
      | inr (s', k') => scan_results clock rest s' k'
      end
  end.

(** The ids of [self.state] that are not in [current_issues].  A Python
    [dict] is walked in insertion order; the map is walked in the order of
    [map_to_list]. *)
Definition ids_to_remove (state : gmap string IssueRecord)
    (current : gmap string CheckResult) : list string :=
  filter (fun issue_id => current !! issue_id = None) (map fst (map_to_list state)).

(** [domain_groups[alert["domain"]].append(alert)] on a [defaultdict(list)],
    kept in the order in which the domains first appear. *)
Fixpoint group_append (d : string) (alert : CheckResult)
    (groups : list (string * list CheckResult)) : list (string * list CheckResult) :=
  match groups with
  | [] => [(d, [alert])]
  | (d', alerts) :: rest =>
      if String.eqb d' d
      then (d', (alerts ++ [alert])%list) :: rest
      else (d', alerts) :: group_append d alert rest
  end.

Definition domain_groups (alerts : list CheckResult) : list (string * list CheckResult) :=
  fold_left (fun groups alert => group_append (domain alert) alert groups) alerts [].

(** The icon and the repeat annotation of one digest entry. *)
Definition icon (alert : CheckResult) : string :=
  if String.eqb (status alert) "critical" then "🔴" else "⚠️".

Definition cnt (alert : CheckResult) : string :=
  if (1 <? default 0%Z (alert_count alert))%Z
  then "(Repeated " ++ PyStr.of_int (default 0%Z (alert_count alert)) ++ "x)"
  else "(New)".

(** The lines one alert adds to the digest: its entry, which reads
    [alert['monitor']], and up to three detail lines. *)
Definition alert_lines (alert : CheckResult) : Raised + list string :=
  match monitor alert with
  | None => inl (KeyError "monitor")
  | Some m =>
      inr ((icon alert ++ " **" ++ PyStr.upper m ++ "**: "
              ++ default "Unknown Error" (message alert) ++ " " ++ cnt alert)
           :: match details alert with
              | Some (DetailsList dets) => map (fun d => "   - " ++ d) (take 3 dets)
              | Some (DetailsStr dets) => ["   - " ++ dets]
              | _ => []
              end)
  end.

(** [for alert in alerts:] of [_send_aggregated_alert], from the lines so
    far. *)
Fixpoint digest_lines (alerts : list CheckResult) (lines : list string)
  : Raised + list string :=
  match alerts with
  | [] => inr lines
  | alert :: rest =>
      match alert_lines alert with
      | inl e => inl e
      | inr new => digest_lines rest (lines ++ new)%list
      end
  end.

(** The attributes of [self.service], an object of the class
    [NotificationService] of [src/notifications/service.py]: the field that
    [__init__] sets and the methods of the class. *)
Definition service_attributes : list string :=
  ["config"; "__init__"; "send_notification"; "_send_github_issue"; "_send_gitlab_issue";
   "_send_telegram"; "_send_teams"; "_send_email"; "_send_webhook"].

(** [self.service.send(title, message)]: the attribute is looked up
    first. *)
Definition service_send (title message : string) : Raised + Effect :=
  if existsb (String.eqb "send") service_attributes
  then inr (Send title message)
  else inl (AttributeError "NotificationService" "send").

(** Constructs a digest message for the domain. *)
Definition _send_aggregated_alert (d : string) (alerts : list CheckResult)
  : Raised + Effect :=
  let title := "🚨 Security Alert: " ++ d in
  let lines :=
    ["Found " ++ PyStr.of_int (Z.of_nat (length alerts)) ++ " issues for **" ++ d ++ "**:"] in
  match digest_lines alerts lines with
  | inl e => inl e
  | inr lines =>
      let message := PyStr.join PyStr.newline lines in
      service_send title message
  end.

(** [for domain, alerts in domain_groups.items()]: the messages handed
    over, and the exception that ended the loop, if any. *)
Fixpoint send_all (groups : list (string * list CheckResult))
  : list Effect * option Raised :=
  match groups with
  | [] => ([], None)
  | (d, alerts) :: rest =>
      match _send_aggregated_alert d alerts with
      | inl e => ([], Some e)
      | inr sent =>
          match send_all rest with
          | (effects, raised) => (sent :: effects, raised)
          end
      end
  end.

(** What a call of [process_and_send] leaves behind: [self.state], the
    results as the call left them, the alerts selected, the groups built,
    the effects in order, and the exception that ended the call, if any. *)
Record Outcome := mkOutcome {
  out_state : gmap string IssueRecord;
  out_results : list CheckResult;
  out_alerts : list CheckResult;
  out_digests : list (string * list CheckResult);
  out_effects : list Effect;
  out_raised : option Raised
}.

(** Steps 2 to 4 of [process_and_send], from the variables the first loop
    left. *)
Definition finish (s : Scan) : Outcome :=
  (* 2. Cleanup Resolved Issues *)
  let removed := ids_to_remove (scan_state s) (current_issues s) in
  let state' := fold_left (fun st i => delete i st) removed (scan_state s) in
  let effects :=
    (scan_log s ++ map LogResolved removed ++ [SaveState state'])%list in
  (* 3. Aggregate by Domain *)
  match alerts_to_send s with
  | [] => mkOutcome state' (seen_results s) [] [] (effects ++ [LogNoAlerts])%list None
  | _ :: _ =>
      let groups := domain_groups (alerts_to_send s) in
      (* 4. Send Aggregated Messages *)
      match send_all groups with
      | (sent, raised) =>
          mkOutcome state' (seen_results s) (alerts_to_send s) groups
                    (effects ++ sent)%list raised
      end
  end.

(** Process scan results, update state, aggregate, and send notifications. *)
Definition process_and_send (clock : Clock) (state : gmap string IssueRecord)
    (results : list CheckResult) : Outcome :=
  (* 1. Identify current issues *)
  match scan_results clock results (mkScan state ∅ [] [] []) 0 with
  | (s, Some e) =>
      mkOutcome (scan_state s) (seen_results s) (alerts_to_send s) [] (scan_log s) (Some e)
  | (s, None) => finish s
  end.

End NotificationManager.

(** ** The scan loop of [main] ([src/cli.py]) *)

(** [config["monitors"][...]["enabled"]]. *)
Record Config := mkConfig {
  domain_enabled : bool;
  ssl_enabled : bool;
  dns_enabled : bool;
  security_enabled : bool;
  blacklist_enabled : bool
}.

Module Cli.
Import Eff.

(** [res.get('message', '')]. *)
Definition get_message (res : CheckResult) : string := default "" (message res).

(** The result appended in place of a connection check when no host name
    resolves. *)
Definition dns_failed_result (d kind : string) : CheckResult :=
  mkResult d (Some kind) "critical" (Some "DNS Resolution Failed")
           (Some (DetailsDict [("error", "Could not resolve hostname or www subdomain")]))
           None None None None.

(** [if connectable_host:] holds for a host name that is not empty. *)
Definition truthy (connectable_host : option string) : option string :=
  match connectable_host with
  | Some EmptyString => None
  | other => other
  end.

(** 1. Domain (WHOIS always uses root/parent) *)
Definition domain_step (cfg : Config) (w : World) (d parent_domain : string)
    (all_results : list CheckResult) : M (list CheckResult) :=
  if domain_enabled cfg then
    try_catch
      (let check_target := parent_domain in
       res <- ask (EvAdapter MDomain check_target)
                  (fun h => w_check_domain w h check_target) ;;
       let res := set_domain d res in (* Keep original label *)
       let res :=
         if String.eqb check_target d then res
         else set_message ("(Parent: " ++ check_target ++ ") " ++ get_message res) res in
       ret (all_results ++ [res])%list)
      (fun e =>
         log LError ("Domain monitor failed for " ++ d ++ ": " ++ exn_text e) ;;;
         ret all_results)
  else ret all_results.

(** 2. SSL (Use connectable host) *)
Definition ssl_step (cfg : Config) (w : World) (d : string)
    (connectable_host : option string)
    (all_results : list CheckResult) : M (list CheckResult) :=
  if ssl_enabled cfg then
    match truthy connectable_host with
    | Some host =>
        res <- ask (EvAdapter MSsl host) (fun h => w_check_ssl w h host) ;;
        let res :=
          if String.eqb host d then res
          else set_message ("(Checked " ++ host ++ ") " ++ get_message res) res in
        let res := set_domain d res in
        ret (all_results ++ [res])%list
    | None =>
        log LWarning ("Skipping SSL check for " ++ d ++ ": DNS resolution failed.") ;;;
        ret (all_results ++ [dns_failed_result d "ssl"])%list
    end
  else ret all_results.

(** 3. DNS (Always root/parent) *)
Definition dns_step (cfg : Config) (w : World) (d parent_domain : string)
    (all_results : list CheckResult) : M (list CheckResult) :=
  if dns_enabled cfg then
    let check_target := parent_domain in
    res <- ask (EvAdapter MDns check_target) (fun h => w_check_dns w h check_target) ;;
    let res := set_domain d res in
    let res :=
      if String.eqb check_target d then res
      else set_message ("(Parent: " ++ check_target ++ ") " ++ get_message res) res in
    ret (all_results ++ [res])%list
  else ret all_results.

(** 4. Security (Use connectable host) *)
Definition security_step (cfg : Config) (w : World) (d : string)
    (connectable_host : option string)
    (all_results : list CheckResult) : M (list CheckResult) :=
  if security_enabled cfg then
    match truthy connectable_host with
    | Some host =>
        res <- ask (EvAdapter MSecurity host) (fun h => w_check_security w h host) ;;
        let res :=
          if String.eqb host d then res
          else set_message ("(Checked " ++ host ++ ") " ++ get_message res) res in
        let res := set_domain d res in
        ret (all_results ++ [res])%list
    | None =>
        log LWarning ("Skipping Security check for " ++ d ++ ": DNS resolution failed.") ;;;
        ret (all_results ++ [dns_failed_result d "security"])%list
    end
  else ret all_results.

(** 5. Blacklist (Always root/IP mainly) *)
Definition blacklist_step (cfg : Config) (w : World) (d : string)
    (all_results : list CheckResult) : M (list CheckResult) :=
  if blacklist_enabled cfg then
    res <- (emit (EvAdapter MBlacklist d) ;;; BlacklistMonitor.check_blacklist w d) ;;
    let res := set_domain d res in
    ret (all_results ++ [res])%list
  else ret all_results.

(** The body of [for raw_domain in domains]. *)
Definition scan_domain (cfg : Config) (w : World) (raw_domain : string)
    (all_results : list CheckResult) : M (list CheckResult) :=
  let d := clean_domain raw_domain in
  log LInfo ("Checking " ++ d ++ "...") ;;;
  (* Determine best target for connection-based checks (SSL, Security) *)
  connectable_host <- get_connectable_hostname w d ;;
  let parent_domain := get_parent_domain d in
  all_results <- domain_step cfg w d parent_domain all_results ;;
  all_results <- ssl_step cfg w d connectable_host all_results ;;
  all_results <- dns_step cfg w d parent_domain all_results ;;
  all_results <- security_step cfg w d connectable_host all_results ;;
  blacklist_step cfg w d all_results.

(** The scan cycle: every configured domain in turn, from an empty result
    sequence. *)
Definition scan_cycle (cfg : Config) (w : World) (domains : list string)
  : M (list CheckResult) :=
  for_each domains (scan_domain cfg w) [].

End Cli.

(** ** Notions used to state the properties of the alert state machine *)

Module ManagerAux.
Import NotificationManager.

(** The id of a pair as the specification writes it, [domain:monitor]. *)
Definition pair_id (d m : string) : string := d ++ ":" ++ m.

(** The id of the pair of a result; a result without monitor belongs to no
    pair, and is filed under the empty monitor name here. *)
Definition key (res : CheckResult) : string :=
  pair_id (domain res) (default "" (monitor res)).

(** A non-ok status, as the specification lists them. *)
Definition non_ok (res : CheckResult) : Prop :=
  status res = "warning" \/ status res = "critical" \/ status res = "error".

(** Every non-ok result names its monitor. *)
Definition named (results : list CheckResult) : Prop :=
  Forall (fun res => non_ok res -> is_Some (monitor res)) results.

(** A non-ok result without monitor, at which a call stops, and the results
    before the first of them. *)
Definition nameless (res : CheckResult) : bool :=
  is_issue res && match monitor res with None => true | Some _ => false end.

Fixpoint named_prefix (results : list CheckResult) : list CheckResult :=
  match results with
  | [] => []
  | res :: rest => if nameless res then [] else res :: named_prefix rest
  end.

(** A clock that stands still at [now] during a call. *)
Definition steady (now : Z) : Clock := fun _ => now.

(** A clock no two readings of which, in whatever order, lie more than 24
    hours apart: a call takes less than a day and the clock is not set
    forward by more than that meanwhile. *)
Definition calm (clock : Clock) : Prop :=
  forall i j, (clock j - clock i <= 86400000000)%Z.

(** The ids of the pairs that report a non-ok status in a result sequence. *)
Definition issue_ids (results : list CheckResult) : gset string :=
  list_to_set (map key (List.filter is_issue results)).

Definition has_id (issue_id : string) (res : CheckResult) : bool :=
  String.eqb (key res) issue_id.

(** The first non-ok result of a pair. *)
Definition first_issue (issue_id : string) (results : list CheckResult)
  : option CheckResult :=
  List.find (fun res => is_issue res && has_id issue_id res) results.

(** The resend window has elapsed since the record was last sent. *)
Definition expired (now : Z) (data : IssueRecord) : bool :=
  (resend_window <? now - last_sent data)%Z.

Definition resent (now : Z) (data : IssueRecord) : IssueRecord :=
  mkIssue (first_seen data) now (count data + 1) (issue_monitor data) (issue_domain data).

Definition created (now : Z) (res : CheckResult) : IssueRecord :=
  mkIssue now now 1 (default "" (monitor res)) (domain res).

(** The transition of one pair in one cycle, from its record before the
    cycle and its first non-ok result in the cycle. *)
Inductive Transition := New | Resend | Snoozed | Resolved.

Definition transition (now : Z) (before : option IssueRecord)
    (first : option CheckResult) : Transition :=
  match first, before with
  | None, _ => Resolved
  | Some _, None => New
  | Some _, Some data => if expired now data then Resend else Snoozed
  end.

(** The record of the pair after the first loop. *)
Definition settle (now : Z) (before : option IssueRecord)
    (first : option CheckResult) : option IssueRecord :=
  match first, before with
  | None, _ => before
  | Some res, None => Some (created now res)
  | Some _, Some data => Some (if expired now data then resent now data else data)
  end.

(** The alert the pair contributes, if any. *)
Definition alert_for (now : Z) (before : option IssueRecord)
    (first : option CheckResult) : list CheckResult :=
  match first, before with
  | None, _ => []
  | Some res, None => [set_alert_count 1 res]
  | Some res, Some data =>
      if expired now data then [set_alert_count (count data + 1) res] else []
  end.

(** The states written to the store and the messages sent, read off the
    effects of a call. *)
Definition saves (effects : list Effect) : list (gmap string IssueRecord) :=
  omap (fun e => match e with SaveState st => Some st | _ => None end) effects.

Definition sends (effects : list Effect) : list (string * string) :=
  omap (fun e => match e with Send title text => Some (title, text) | _ => None end) effects.

(** The order the specification asks of the entries of a digest: by
    severity, critical before warning and error, then by monitor name. *)
Definition severity_rank (res : CheckResult) : nat :=
  if String.eqb (status res) "critical" then 0 else 1.

Definition monitor_name (res : CheckResult) : string := default "" (monitor res).

Definition entry_leb (a b : CheckResult) : bool :=
  (severity_rank a <? severity_rank b)%nat
  || ((severity_rank a =? severity_rank b)%nat
      && String.leb (monitor_name a) (monitor_name b)).

Fixpoint spec_sorted (entries : list CheckResult) : bool :=
  match entries with
  | a :: ((b :: _) as rest) => entry_leb a b && spec_sorted rest
  | _ => true
  end.

(** The group filed under a domain ([domain_groups[d]], if present). *)
Fixpoint group_of (d : string) (groups : list (string * list CheckResult))
  : option (list CheckResult) :=
  match groups with
  | [] => None
  | (d', alerts) :: rest => if String.eqb d' d then Some alerts else group_of d rest
  end.

Definition in_domain (d : string) (alert : CheckResult) : bool :=
  String.eqb (domain alert) d.

(** The log of a run in which every non-ok result is snoozed: one line
    per non-ok result, with the instant its record was last sent. *)
Definition snooze_log (state : gmap string IssueRecord) (results : list CheckResult)
  : list Effect :=
  map (fun res =>
         LogSnooze (key res)
                   (default 0%Z (last_sent <$> state !! key res)))
      (List.filter is_issue results).

(** A run at the instant [now] that sends nothing and leaves the state as
    it found it: every non-ok result meets a record still inside the resend
    window and is snoozed; the state is written back unchanged and the call
    returns. *)
Definition silent_run (now : Z) (state : gmap string IssueRecord)
    (results : list CheckResult) : Prop :=
  let o := process_and_send (steady now) state results in
  out_raised o = None /\
  out_alerts o = [] /\
  out_digests o = [] /\
  sends (out_effects o) = [] /\
  out_state o = state /\
  out_effects o = (snooze_log state results ++ [SaveState state; LogNoAlerts])%list /\
  Forall (fun res =>
            is_issue res = true ->
            exists data, state !! key res = Some data /\
                         (now - last_sent data <= resend_window)%Z) results.

(** Two results that differ at most in [alert_count]. *)
Definition same_report (a b : CheckResult) : Prop :=
  b = mkResult (domain a) (monitor a) (status a) (message a) (details a)
               (alert_count b) (ip a) (listed_in a) (checked_rbls a).

(** The ids the clean-up of a call removes. *)
Definition removed_ids (s : Scan) : list string :=
  ids_to_remove (scan_state s) (current_issues s).

(** The variables of the first loop when it stops with [rest] left. *)
Definition stopped (s : Scan) (rest : list CheckResult) : Scan :=
  mkScan (scan_state s) (current_issues s) (alerts_to_send s)
         (seen_results s ++ rest)%list (scan_log s).

(** A record inside the resend window at every reading of the clock stays
    as it is, and its pair is not alerted. *)
Definition inside (clock : Clock) (data : IssueRecord) : Prop :=
  forall j, (clock j - last_sent data <= resend_window)%Z.

(** Every alert names its monitor and carries its count. *)
Definition labelled (alert : CheckResult) : Prop :=
  is_Some (monitor alert) /\ is_Some (alert_count alert).

(** The details of an alert that its digest shows: the first three items of
    a list, a string as it is, and nothing of anything else. *)
Definition shown_details (alert : CheckResult) : list string :=
  match details alert with
  | Some (DetailsList dets) => take 3 dets
  | Some (DetailsStr dets) => [dets]
  | _ => []
  end.

(** What the first loop comes to when the clock stands still at [now] and
    every non-ok result names its monitor: one pure step per result. *)
Module Steady.

Definition step (now : Z) (s : Scan) (res : CheckResult) : Scan :=
  if is_issue res then
    let issue_id := key res in
    let current := fun r => <[issue_id := r]> (current_issues s) in
    match scan_state s !! issue_id with
    | Some data =>
        if expired now data then
          let res' := set_alert_count (count data + 1) res in
          mkScan (<[issue_id := resent now data]> (scan_state s)) (current res')
                 (alerts_to_send s ++ [res'])%list
                 (seen_results s ++ [res'])%list
                 (scan_log s ++ [LogResend issue_id (count data + 1)])%list
        else
          mkScan (scan_state s) (current res) (alerts_to_send s)
                 (seen_results s ++ [res])%list
                 (scan_log s ++ [LogSnooze issue_id (last_sent data)])%list
    | None =>
        let res' := set_alert_count 1 res in
        mkScan (<[issue_id := created now res]> (scan_state s)) (current res')
               (alerts_to_send s ++ [res'])%list
               (seen_results s ++ [res'])%list
               (scan_log s)
    end
  else
    mkScan (scan_state s) (current_issues s) (alerts_to_send s)
           (seen_results s ++ [res])%list (scan_log s).

Definition run (now : Z) (state : gmap string IssueRecord)
    (results : list CheckResult) : Outcome :=
  finish (fold_left (step now) results (mkScan state ∅ [] [] [])).

End Steady.

End ManagerAux.

(** ** Notions used to state the properties of the resolver and the scan loop *)

Module EventAux.

(** The DNS-over-HTTPS queries and the pool queries among the events of a
    run. *)
Definition doh_queries (evs : list Event) : list (string * string) :=
  omap (fun ev => match ev with EvDohQuery q t => Some (q, t) | _ => None end) evs.

Definition pool_queries (evs : list Event) : list (string * string) :=
  omap (fun ev => match ev with EvPoolQuery _ q t => Some (q, t) | _ => None end) evs.

(** An event that is not the invocation of a connection-based adapter
    (certificate or HTTP security). *)
Definition no_connection (ev : Event) : bool :=
  match ev with
  | EvAdapter MSsl _ | EvAdapter MSecurity _ => false
  | _ => true
  end.

Definition offline_event (ev : Event) : Prop := no_connection ev = true.

Definition monitor_eqb (a b : MonitorKind) : bool :=
  match a, b with
  | MDomain, MDomain | MSsl, MSsl | MDns, MDns
  | MSecurity, MSecurity | MBlacklist, MBlacklist => true
  | _, _ => false
  end.

(** What is counted in the events of a scan: the invocations of an
    adapter, the exceptions of the WHOIS adapter caught by the loop (its
    error line in the log), and the connection checks skipped for want of a
    resolvable host name (their warning line). *)
Inductive Counter :=
| Calls (m : MonitorKind)
| WhoisFailures
| SslSkips
| SecuritySkips.

Definition counts (c : Counter) (ev : Event) : bool :=
  match c, ev with
  | Calls m, EvAdapter m' _ => monitor_eqb m m'
  | WhoisFailures, EvLog LError text => String.prefix "Domain monitor failed for " text
  | SslSkips, EvLog LWarning text => String.prefix "Skipping SSL check for " text
  | SecuritySkips, EvLog LWarning text => String.prefix "Skipping Security check for " text
  | _, _ => false
  end.

Definition tally (c : Counter) (evs : list Event) : nat :=
  length (List.filter (counts c) evs).

(** An event that no counter counts. *)
Definition neutral (ev : Event) : Prop := forall c, counts c ev = false.

(** A computation all of whose events satisfy [P]; one all of whose events
    are neutral; and one that never raises. *)
Definition emits (P : Event -> Prop) {A} (m : Eff.M A) : Prop :=
  forall h, Forall P (snd (m h)).

Definition quiet {A} (m : Eff.M A) : Prop := emits neutral m.

Definition total {A} (m : Eff.M A) : Prop := forall h, exists a, fst (m h) = inr a.

Definition b2n (b : bool) : nat := if b then 1 else 0.

Definition enabled (cfg : Config) (m : MonitorKind) : bool :=
  match m with
  | MDomain => domain_enabled cfg
  | MSsl => ssl_enabled cfg
  | MDns => dns_enabled cfg
  | MSecurity => security_enabled cfg
  | MBlacklist => blacklist_enabled cfg
  end.

(** The number of monitors the configuration enables. *)
Definition n_enabled (cfg : Config) : nat :=
  b2n (domain_enabled cfg) + b2n (ssl_enabled cfg) + b2n (dns_enabled cfg)
  + b2n (security_enabled cfg) + b2n (blacklist_enabled cfg).

(** The three external adapters that the scan loop calls without a guard
    return normally, whatever happened before. *)
Definition unguarded_adapters_return (w : World) : Prop :=
  (forall h target, exists res, w_check_ssl w h target = inr res) /\
  (forall h target, exists res, w_check_dns w h target = inr res) /\
  (forall h target, exists res, w_check_security w h target = inr res).

(** A reserved answer of an RBL: a blocked-query code [127.255.255.x] or a
    policy listing [127.0.0.10], [127.0.0.11]. *)
Definition reserved (result_ip : string) : bool :=
  PyStr.startswith result_ip "127.255.255."
  || BlacklistMonitor.mem result_ip ["127.0.0.10"; "127.0.0.11"].

(** Every answer the system resolver ever gives for a query to [rbl] is
    reserved. *)
Definition only_reserved_answers (w : World) (rbl : string) : Prop :=
  forall h reversed_ip answers,
    w_system w h (reversed_ip ++ "." ++ rbl) "A" = inr answers ->
    forallb reserved answers = true.

(** At some moment the system resolver answers a query to [rbl] with an
    address that is not reserved. *)
Definition gave_listing (w : World) (rbl : string) : Prop :=
  exists h reversed_ip answers result_ip,
    w_system w h (reversed_ip ++ "." ++ rbl) "A" = inr answers /\
    In result_ip answers /\
    reserved result_ip = false.

(** Every RBL in [listed_in] is one of the monitor's RBLs and gave an
    answer that is not reserved. *)
Definition genuine (w : World) (listed_in : list string) : Prop :=
  forall rbl, In rbl listed_in -> In rbl BlacklistMonitor.rbls /\ gave_listing w rbl.

(** The RBLs a blacklist result lists ([res.get("listed_in", [])]). *)
Definition listed (res : CheckResult) : list string := default [] (listed_in res).

End EventAux.

(** ** Notions used to state the properties of the scan loop *)

Module CliAux.
Import Eff EventAux.

(** The five checks of one domain, once its targets are chosen. *)
Definition checks (cfg : Config) (w : World) (d : string)
    (connectable_host : option string) (parent_domain : string)
    (all_results : list CheckResult) : M (list CheckResult) :=
  all_results <- Cli.domain_step cfg w d parent_domain all_results ;;
  all_results <- Cli.ssl_step cfg w d connectable_host all_results ;;
  all_results <- Cli.dns_step cfg w d parent_domain all_results ;;
  all_results <- Cli.security_step cfg w d connectable_host all_results ;;
  Cli.blacklist_step cfg w d all_results.

(** A step of the loop that never raises and appends results: the number
    of results it appends and its events satisfy [P]. *)
Definition grows_by (step : list CheckResult -> M (list CheckResult))
    (P : nat -> list Event -> Prop) : Prop :=
  forall all_results h,
    exists new evs,
      step all_results h = (inr (all_results ++ new)%list, evs) /\ P (length new) evs.

(** The account of a scan of [n] domains that appended [appended] results:
    - every invocation of an enabled adapter yields one result, except the
      invocations of the WHOIS adapter that raised, which yield none;
    - the WHOIS, DNS and blacklist adapters are invoked once per domain;
    - the certificate and security adapters are invoked once per domain,
      or skipped for want of a resolvable host name. *)
Definition cycle_tally (cfg : Config) (n appended : nat) (evs : list Event) : Prop :=
  appended + tally WhoisFailures evs = n_enabled cfg * n /\
  tally (Calls MDomain) evs = b2n (domain_enabled cfg) * n /\
  tally (Calls MDns) evs = b2n (dns_enabled cfg) * n /\
  tally (Calls MBlacklist) evs = b2n (blacklist_enabled cfg) * n /\
  tally (Calls MSsl) evs + tally SslSkips evs = b2n (ssl_enabled cfg) * n /\
  tally (Calls MSecurity) evs + tally SecuritySkips evs = b2n (security_enabled cfg) * n.

(** A step that, when it returns, has only appended results. *)
Definition extends (step : list CheckResult -> M (list CheckResult)) : Prop :=
  forall all_results h all_results' evs,
    step all_results h = (inr all_results', evs) ->
    exists new, all_results' = (all_results ++ new)%list.

End CliAux.

(** ** The statistics of the report ([src/reporting/html_generator.py]) *)

Module HTMLGenerator.

(** What [generate] reads of a result: [r.get("status", "ok")] and
    [r.get("monitor", "unknown")].  Either key may be missing. *)
Record Row := mkRow {
  row_status : option string;
  row_monitor : option string
}.

Definition row_of (r : CheckResult) : Row := mkRow (Some (status r)) (monitor r).

(** The two counters handed to the template. *)
Record Stats := mkStats {
  stats : gmap string Z;
  cat_stats : gmap string Z
}.

(** [counter[key] += 1]: a [KeyError] ([None]) for a key the counter does
    not hold. *)
Definition incr (key : string) (counter : gmap string Z) : option (gmap string Z) :=
  match counter !! key with
  | Some n => Some (<[key := (n + 1)%Z]> counter)
  | None => None
  end.

(** The body of [for r in results]. *)
Definition count_result (acc : Stats) (r : Row) : option Stats :=
  let s := default "ok" (row_status r) in
  let s := if String.eqb s "error" then "critical" else s in
  (* Global Stats *)
  match (if decide (is_Some (stats acc !! s))
         then incr s (stats acc)
         else incr "critical" (stats acc)) with
  | None => None
  | Some stats' =>
      (* Category Stats (Count only if NOT ok) *)
      match (if negb (String.eqb s "ok")
             then
               let monitor := PyStr.lower (default "unknown" (row_monitor r)) in
               if decide (is_Some (cat_stats acc !! monitor))
               then incr monitor (cat_stats acc)
               else Some (cat_stats acc)
             else Some (cat_stats acc)) with
      | None => None
      | Some cat_stats' => Some (mkStats stats' cat_stats')
      end
  end.

Fixpoint count_all (acc : Stats) (results : list Row) : option Stats :=
  match results with
  | [] => Some acc
  | r :: results' =>
      match count_result acc r with
      | Some acc' => count_all acc' results'
      | None => None
      end
  end.

(** The statistics [generate] computes before it renders the template:
    the arguments [stats] and [cat_stats] of [template.render].  The
    rendering and the two files written are outside the embedding. *)
Definition generate (results : list Row) : option Stats :=
  (* Stats *)
  let stats :=
    {[ "ok" := 0%Z; "warning" := 0%Z; "critical" := 0%Z ]} in
  let cat_stats :=
    {[ "domain" := 0%Z; "ssl" := 0%Z; "security" := 0%Z; "blacklist" := 0%Z ]} in
  count_all (mkStats stats cat_stats) results.

End HTMLGenerator.

(** ** Notions used to state the properties of the statistics *)

Module ReportAux.
Import HTMLGenerator.

(** The bucket of the global statistics a result belongs to: [ok] for the
    status ok or no status, [warning] for the status warning, and
    [critical] for every other status. *)
Definition bucket (r : Row) : string :=
  let s := default "ok" (row_status r) in
  if String.eqb s "ok" then "ok"
  else if String.eqb s "warning" then "warning"
  else "critical".

(** The lower-cased monitor name of a result. *)
Definition category (r : Row) : string := PyStr.lower (default "unknown" (row_monitor r)).

Definition counted_in (key : string) (r : Row) : bool := String.eqb (bucket r) key.

(** A result that is not ok and comes from the monitor [key]. *)
Definition filed_under (key : string) (r : Row) : bool :=
  negb (String.eqb (bucket r) "ok") && String.eqb (category r) key.

(** The number of results that satisfy [p]. *)
Definition number (p : Row -> bool) (results : list Row) : Z :=
  Z.of_nat (length (List.filter p results)).

Definition buckets : gset string := {[ "ok"; "warning"; "critical" ]}.

Definition categories : gset string := {[ "domain"; "ssl"; "security"; "blacklist" ]}.

End ReportAux.

(** ** The notification channels ([src/notifications/service.py]) *)

Module NotificationService.

(** [NotificationSettings]: the values read from the environment. *)
Record NotificationSettings := mkSettings {
  (* GitHub *)
  GITHUB_TOKEN : option string;
  GITHUB_REPO : option string;
  (* GitLab *)
  GITLAB_URL : string;
  GITLAB_TOKEN : option string;
  GITLAB_PROJECT_ID : option string;
  (* Telegram *)
  TELEGRAM_BOT_TOKEN : option string;
  TELEGRAM_CHAT_ID : option string;
  (* Teams *)
  TEAMS_WEBHOOK_URL : option string;
  (* Email *)
  EMAIL_SMTP_SERVER : option string;
  EMAIL_SMTP_PORT : Z;
  EMAIL_USER : option string;
  EMAIL_PASSWORD : option string;
  EMAIL_FROM : option string;
  EMAIL_TO : option string;
  (* Generic Webhook *)
  GENERIC_WEBHOOK_URL : option string
}.

(** [self.config.get("notifications", {})]: the sections of the
    configuration file, each a [dict] of strings. *)
Definition Notifications : Type := gmap string (gmap string string).

(** [notifications.get(section, {}).get(key)]. *)
Definition config_get (notifications : Notifications) (section key : string)
  : option string :=
  default ∅ (notifications !! section) !! key.

(** [a or b] on optional strings: [None] and the empty string are false. *)
Definition py_or (a b : option string) : option string :=
  match a with
  | Some (String _ _) => a
  | _ => b
  end.

(** The value of an optional string when it is true. *)
Definition truthy (a : option string) : option string :=
  match a with
  | Some (String _ _) => a
  | _ => None
  end.

(** A JSON payload. *)
#[warnings="-register-all"]
Inductive Json :=
| JString (text : string)
| JObject (fields : list (string * Json))
| JArray (items : list Json).

(** What the service does to the outside world: the operations on the
    remote services, one per request that the libraries make, and the lines
    it logs. *)
Inductive Action :=
| Log (level : LogLevel) (text : string)
| GetRepo (token repo : string)
| CreateGithubIssue (token repo title body : string) (labels : list string)
| GetProject (url token project_id : string)
| CreateGitlabIssue (url token project_id title description : string)
| Post (url : string) (json : Json)
| Connect (server : string) (port : Z)
| StartTls (server : string)
| Login (server user password : string)
| SendMail (server sender recipient subject content : string)
| Quit (server : string).

(** The remote services: after the actions so far, an operation succeeds
    ([None]) or raises an exception with the given text. *)
Definition Remote : Type := list Action -> Action -> option string.

(** The operations [calls] in order, up to the first that raises: the
    operations made and the text of the exception, if any. *)
Fixpoint perform (remote : Remote) (calls : list Action) (h : list Action)
  : list Action * option string :=
  match calls with
  | [] => ([], None)
  | call :: rest =>
      match remote h call with
      | Some text => ([call], Some text)
      | None =>
          match perform remote rest (h ++ [call])%list with
          | (made, raised) => (call :: made, raised)
          end
      end
  end.

(** The end of a [try] block: [logger.info(done)], or, in the handler,
    [logger.error(f"{failed}{e}")]. *)
Definition outcome (raised : option string) (done failed : string) : Action :=
  match raised with
  | None => Log LInfo done
  | Some text => Log LError (failed ++ text)
  end.

(** [try: calls; logger.info(done) except Exception as e:
    logger.error(f"{failed}{e}")]. *)
Definition attempt (remote : Remote) (calls : list Action) (done failed : string)
    (h : list Action) : list Action :=
  match perform remote calls h with
  | (made, raised) => (made ++ [outcome raised done failed])%list
  end.

(** [str.splitlines]: the characters that end a line. *)
Definition line_boundary (c : ascii) : bool :=
  existsb (fun n => Ascii.eqb c (ascii_of_nat n)) [10; 11; 12; 13; 28; 29; 30; 133].

(** [len(s.splitlines())]; [pending] tells that a line has begun.  A
    carriage return followed by a line feed ends one line. *)
Fixpoint count_lines (pending : bool) (s : string) : nat :=
  match s with
  | EmptyString => if pending then 1 else 0
  | String c s' =>
      if line_boundary c then
        S (match s' with
           | String c' s'' =>
               if Ascii.eqb c (ascii_of_nat 13) && Ascii.eqb c' (ascii_of_nat 10)
               then count_lines false s''
               else count_lines false s'
           | EmptyString => 0
           end)
      else count_lines true s'
  end.

(** [msg[name] = value] on an [EmailMessage]: a value of more than one line
    is refused with a [ValueError]. *)
Definition refused_header (value : string) : bool := (1 <? count_lines false value)%nat.

Definition header_error : string :=
  "Header values may not contain linefeed or carriage return characters".

Section Channels.
Variable settings : NotificationSettings.
Variable config : Notifications.
Variable remote : Remote.

Definition _send_github_issue (title body level : string) (h : list Action) : list Action :=
  let token := py_or (GITHUB_TOKEN settings) (config_get config "github" "token") in
  let repo_name := py_or (GITHUB_REPO settings) (config_get config "github" "repo") in
  match truthy token, truthy repo_name, String.eqb level "critical" with
  | Some token, Some repo_name, true =>
      attempt remote
        [GetRepo token repo_name;
         CreateGithubIssue token repo_name ("[" ++ PyStr.upper level ++ "] " ++ title)
                           body [level]]
        "GitHub Issue created." "GitHub notification failed: " h
  | _, _, _ => []
  end.

Definition _send_gitlab_issue (title body level : string) (h : list Action) : list Action :=
  let token := py_or (GITLAB_TOKEN settings) (config_get config "gitlab" "token") in
  let pid := py_or (GITLAB_PROJECT_ID settings) (config_get config "gitlab" "project_id") in
  match truthy token, truthy pid, String.eqb level "critical" with
  | Some token, Some pid, true =>
      attempt remote
        [GetProject (GITLAB_URL settings) token pid;
         CreateGitlabIssue (GITLAB_URL settings) token pid
                           ("[" ++ PyStr.upper level ++ "] " ++ title) body]
        "GitLab Issue created." "GitLab notification failed: " h
  | _, _, _ => []
  end.

Definition _send_telegram (title message : string) (h : list Action) : list Action :=
  let token :=
    py_or (TELEGRAM_BOT_TOKEN settings) (config_get config "telegram" "bot_token") in
  let chat_id :=
    py_or (TELEGRAM_CHAT_ID settings) (config_get config "telegram" "chat_id") in
  match truthy token, truthy chat_id with
  | Some token, Some chat_id =>
      let url := "https://api.telegram.org/bot" ++ token ++ "/sendMessage" in
      let payload :=
        JObject [("chat_id", JString chat_id);
                 ("text", JString ("*" ++ title ++ "*" ++ PyStr.newline ++ PyStr.newline
                                   ++ message));
                 ("parse_mode", JString "Markdown")] in
      attempt remote [Post url payload]
              "Telegram message sent." "Telegram notification failed: " h
  | _, _ => []
  end.

Definition _send_teams (title message level : string) (h : list Action) : list Action :=
  let url := py_or (TEAMS_WEBHOOK_URL settings) (config_get config "teams" "webhook_url") in
  match truthy url with
  | Some url =>
      let color := if String.eqb level "critical" then "FF0000" else "00FF00" in
      let payload :=
        JObject [("@type", JString "MessageCard");
                 ("@context", JString "http://schema.org/extensions");
                 ("themeColor", JString color);
                 ("summary", JString title);
                 ("sections",
                  JArray [JObject [("activityTitle", JString title);
                                   ("activitySubtitle", JString ("Level: " ++ level));
                                   ("text", JString message)]])] in
      attempt remote [Post url payload] "Teams webhook sent." "Teams notification failed: " h
  | None => []
  end.

(** [with smtplib.SMTP(server, port) as server: body]: the connection, the
    operations of the body up to the first that raises, and, once
    connected, the [QUIT] of the end of the block, whose exception, if any,
    is the one that leaves the block. *)
Definition smtp_session (srv : string) (port : Z) (body : list Action) (h : list Action)
  : list Action * option string :=
  match remote h (Connect srv port) with
  | Some text => ([Connect srv port], Some text)
  | None =>
      match perform remote body (h ++ [Connect srv port])%list with
      | (made, raised) =>
          let actions := (Connect srv port :: made ++ [Quit srv])%list in
          match remote (h ++ Connect srv port :: made)%list (Quit srv) with
          | Some text => (actions, Some text)
          | None => (actions, raised)
          end
      end
  end.

Definition _send_email (title body : string) (h : list Action) : list Action :=
  (* Email config is complex, usually prefer ENV but support config too *)
  let srv := EMAIL_SMTP_SERVER settings in
  let to := EMAIL_TO settings in
  match truthy srv, truthy to with
  | Some srv, Some to =>
      let sender := default "monitor@domainmate.local" (truthy (EMAIL_FROM settings)) in
      (* msg['Subject'] = title; msg['From'] = ...; msg['To'] = to *)
      if refused_header title || refused_header sender || refused_header to
      then [outcome (Some header_error) "Email sent." "Email notification failed: "]
      else
        let login :=
          match truthy (EMAIL_USER settings), truthy (EMAIL_PASSWORD settings) with
          | Some user, Some password => [StartTls srv; Login srv user password]
          | _, _ => []
          end in
        match smtp_session srv (EMAIL_SMTP_PORT settings)
                           (login ++ [SendMail srv sender to title body]) h with
        | (made, raised) =>
            (made ++ [outcome raised "Email sent." "Email notification failed: "])%list
        end
  | _, _ => []
  end.

(** [timestamp] is [datetime.now().isoformat()]. *)
Definition _send_webhook (timestamp title message level : string) (h : list Action)
  : list Action :=
  let url := py_or (GENERIC_WEBHOOK_URL settings) (config_get config "webhook" "url") in
  match truthy url with
  | Some url =>
      let payload :=
        JObject [("title", JString title);
                 ("message", JString message);
                 ("level", JString level);
                 ("timestamp", JString timestamp)] in
      attempt remote [Post url payload] "Generic Webhook sent." "Generic Webhook failed: " h
  | None => []
  end.

(** Send notification to all configured channels.  The result is the
    sequence of actions of the call, after the actions [h]. *)
Definition send_notification (timestamp title message level : string) (h : list Action)
  : list Action :=
  let a0 := [Log LInfo ("Sending notification: " ++ title ++ " [" ++ level ++ "]")] in
  let a1 := _send_github_issue title message level (h ++ a0) in
  let a2 := _send_gitlab_issue title message level (h ++ a0 ++ a1) in
  let a3 := _send_telegram title message (h ++ a0 ++ a1 ++ a2) in
  let a4 := _send_teams title message level (h ++ a0 ++ a1 ++ a2 ++ a3) in
  let a5 := _send_email title message (h ++ a0 ++ a1 ++ a2 ++ a3 ++ a4) in
  let a6 := _send_webhook timestamp title message level
                          (h ++ a0 ++ a1 ++ a2 ++ a3 ++ a4 ++ a5) in
  a0 ++ a1 ++ a2 ++ a3 ++ a4 ++ a5 ++ a6.

End Channels.

End NotificationService.

(** ** Notions used to state the properties of the notification channels *)

Module ServiceAux.
Import NotificationService.

Definition is_call (a : Action) : bool :=
  match a with
  | Log _ _ => false
  | _ => true
  end.

(** The operations on the remote services among the actions of a run, and
    the lines logged. *)
Definition calls (actions : list Action) : list Action := List.filter is_call actions.

Definition logged (actions : list Action) : list Action :=
  List.filter (fun a => negb (is_call a)) actions.

(** An action that opens an issue on GitHub or GitLab. *)
Definition opens_issue (a : Action) : bool :=
  match a with
  | CreateGithubIssue _ _ _ _ _ | CreateGitlabIssue _ _ _ _ _ => true
  | _ => false
  end.

(** An operation of the mail channel. *)
Definition is_mail (a : Action) : bool :=
  match a with
  | Connect _ _ | StartTls _ | Login _ _ _ | SendMail _ _ _ _ _ | Quit _ => true
  | _ => false
  end.

(** The title under which an action opens an issue. *)
Definition issue_title (a : Action) : option string :=
  match a with
  | CreateGithubIssue _ _ title _ _ | CreateGitlabIssue _ _ _ title _ => Some title
  | _ => None
  end.

(** The environment names every value a channel reads from the
    configuration file. *)
Definition environment_complete (s : NotificationSettings) : Prop :=
  Forall (fun value => is_Some (truthy value))
         [GITHUB_TOKEN s; GITHUB_REPO s; GITLAB_TOKEN s; GITLAB_PROJECT_ID s;
          TELEGRAM_BOT_TOKEN s; TELEGRAM_CHAT_ID s; TEAMS_WEBHOOK_URL s;
          GENERIC_WEBHOOK_URL s].

(** Settings with nothing set but the defaults of the class. *)
Definition no_settings : NotificationSettings :=
  mkSettings None None "https://gitlab.com" None None None None None
             None 587 None None None None None.

(** A remote world in which every operation is refused. *)
Definition unreachable : Remote := fun _ _ => Some "Connection refused".

(** A remote world in which every operation succeeds. *)
Definition reachable : Remote := fun _ _ => None.

(** What a channel does in every remote world: it starts with the
    operations [first] (none, or the first operation of the channel), it
    logs [lines] lines, and when every operation is refused it makes no
    other operation. *)
Definition begins_with (channel : Remote -> list Action -> list Action)
    (first : list Action) (lines : nat) : Prop :=
  forall remote h,
    (exists more, calls (channel remote h) = (first ++ more)%list) /\
    length (logged (channel remote h)) = lines /\
    calls (channel unreachable h) = first.

(** The number of channels a call enters: those whose settings are
    complete, the two issue trackers for a critical alert only. *)
Definition entered (s : NotificationSettings) (config : Notifications) (level : string)
  : nat :=
  let set (a b : option string) := if truthy (py_or a b) is Some _ then 1 else 0 in
  let both (x y : nat) := x * y in
  let critical := if String.eqb level "critical" then 1 else 0 in
  both (both (set (GITHUB_TOKEN s) (config_get config "github" "token"))
             (set (GITHUB_REPO s) (config_get config "github" "repo"))) critical
  + both (both (set (GITLAB_TOKEN s) (config_get config "gitlab" "token"))
               (set (GITLAB_PROJECT_ID s) (config_get config "gitlab" "project_id"))) critical
  + both (set (TELEGRAM_BOT_TOKEN s) (config_get config "telegram" "bot_token"))
         (set (TELEGRAM_CHAT_ID s) (config_get config "telegram" "chat_id"))
  + set (TEAMS_WEBHOOK_URL s) (config_get config "teams" "webhook_url")
  + both (set (EMAIL_SMTP_SERVER s) None) (set (EMAIL_TO s) None)
  + set (GENERIC_WEBHOOK_URL s) (config_get config "webhook" "url").

End ServiceAux.

(** ** The analysis endpoint ([api/api.py]) *)

Module Api.
Import Eff.

Record AnalyzeRequest := mkRequest {
  req_domain : string;
  check_domain : bool;
  check_ssl : bool;
  check_dns : bool;
  check_security : bool;
  check_blacklist : bool
}.

(** A call of [notifier.send_notification] added to the background
    tasks. *)
Record Task := mkTask {
  task_title : string;
  task_message : string;
  task_level : string
}.

(** The body of the answer.  [results] is the [dict] of the results by
    monitor name, in the order in which the keys were added. *)
Record AnalyzeResponse := mkResponse {
  resp_domain : string;
  resp_timestamp : string;
  resp_results : list (string * CheckResult);
  issues_found : Z
}.

(** The body of [for monitor_name, res in results.items()]: the line the
    result adds to [issues], if any. *)
Definition issue_of (entry : string * CheckResult) : list string :=
  let '(monitor_name, res) := entry in
  if BlacklistMonitor.mem (status res) ["critical"; "error"]
  then ["[" ++ PyStr.upper monitor_name ++ "] Status: " ++ status res ++ " - "
        ++ default "Check details" (message res)]
  else if String.eqb (status res) "warning"
  then ["[" ++ PyStr.upper monitor_name ++ "] Warning: "
        ++ default "Expiring soon or missing config" (message res)]
  else [].

(** [any("critical" in i or "error" in i for i in issues)]. *)
Definition level_of (issues : list string) : string :=
  if existsb (fun i => PyStr.contains "critical" i || PyStr.contains "error" i) issues
  then "critical"
  else "warning".

(** Run selected monitors for a domain.  If critical issues are found,
    trigger notifications.  The value is the body of the answer and the
    background tasks added; [timestamp] is [datetime.now().isoformat()] at
    the end of the call. *)
Definition analyze_domain (w : World) (timestamp : string) (req : AnalyzeRequest)
  : M (AnalyzeResponse * list Task) :=
  let results : list (string * CheckResult) := [] in
  (* 1. Domain Check *)
  results <-
    (if check_domain req
     then res <- ask (EvAdapter MDomain (req_domain req))
                     (fun h => w_check_domain w h (req_domain req)) ;;
          ret (results ++ [("domain", res)])%list
     else ret results) ;;
  (* 2. SSL Check *)
  results <-
    (if check_ssl req
     then res <- ask (EvAdapter MSsl (req_domain req))
                     (fun h => w_check_ssl w h (req_domain req)) ;;
          ret (results ++ [("ssl", res)])%list
     else ret results) ;;
  (* 3. DNS Check *)
  results <-
    (if check_dns req
     then res <- ask (EvAdapter MDns (req_domain req))
                     (fun h => w_check_dns w h (req_domain req)) ;;
          ret (results ++ [("dns", res)])%list
     else ret results) ;;
  (* 4. Security Check *)
  results <-
    (if check_security req
     then res <- ask (EvAdapter MSecurity (req_domain req))
                     (fun h => w_check_security w h (req_domain req)) ;;
          ret (results ++ [("security", res)])%list
     else ret results) ;;
  (* 5. Blacklist Check *)
  results <-
    (if check_blacklist req
     then res <- (emit (EvAdapter MBlacklist (req_domain req)) ;;;
                  BlacklistMonitor.check_blacklist w (req_domain req)) ;;
          ret (results ++ [("blacklist", res)])%list
     else ret results) ;;
  (* Check for critical/warning issues to notify *)
  let issues := concat (map issue_of results) in
  let tasks :=
    match issues with
    | [] => []
    | _ :: _ =>
        (* Send Notification in background *)
        let summary :=
          "Issues found for " ++ req_domain req ++ ":" ++ PyStr.newline
          ++ PyStr.join PyStr.newline issues in
        [mkTask ("DomainMate Alert: " ++ req_domain req) summary (level_of issues)]
    end in
  ret (mkResponse (req_domain req) timestamp results (Z.of_nat (length issues)), tasks).

End Api.

(** ** Notions used to state the properties of the analysis endpoint *)

Module ApiAux.
Import Api.

(** The number of checks a request asks for. *)
Definition requested (req : AnalyzeRequest) : nat :=
  EventAux.b2n (check_domain req) + EventAux.b2n (check_ssl req)
  + EventAux.b2n (check_dns req) + EventAux.b2n (check_security req)
  + EventAux.b2n (check_blacklist req).

(** A result with the status critical or error. *)
Definition is_failure (res : CheckResult) : bool :=
  BlacklistMonitor.mem (status res) ["critical"; "error"].

(** A request for all five checks. *)
Definition full_request (d : string) : AnalyzeRequest :=
  mkRequest d true true true true true.

End ApiAux.

(** ** The DNS monitor ([src/monitors/dns_monitor.py]) *)

Module PyStrMore.

(** [c in chars]. *)
Definition in_chars (c : ascii) (chars : list ascii) : bool :=
  existsb (Ascii.eqb c) chars.

(** [s.lstrip(chars)], [s.rstrip(chars)] and [s.strip(chars)]. *)
Fixpoint lstrip_chars (chars : list ascii) (s : string) : string :=
  match s with
  | EmptyString => EmptyString
  | String c s' => if in_chars c chars then lstrip_chars chars s' else s
  end.

Fixpoint rstrip_chars (chars : list ascii) (s : string) : string :=
  match s with
  | EmptyString => EmptyString
  | String c s' =>
      match rstrip_chars chars s' with
      | EmptyString => if in_chars c chars then EmptyString else String c EmptyString
      | r => String c r
      end
  end.

Definition strip_chars (chars : list ascii) (s : string) : string :=
  rstrip_chars chars (lstrip_chars chars s).

(** The double quote. *)
Definition quote : ascii := ascii_of_nat 34.

End PyStrMore.

Module DNSMonitor.
Import Eff.

(** [{"status": ..., "record": ...}]. *)
Record Entry := mkEntry {
  entry_status : string;
  entry_record : option string
}.

(** The two shapes of the [dict] that [check_dns] returns, both with
    [monitor] set to [dns]: the findings with the overall status, or the
    error result of the outer handler. *)
Inductive DnsResult :=
| DnsChecked (spf dmarc : Entry) (txt : list string) (status : string)
| DnsError (message : string).

(** [r.to_text()] stripped of the double quotes at both ends. *)
Definition txt_val (r : string) : string := PyStrMore.strip_chars [PyStrMore.quote] r.

(** The body of the first [for r in txt_records]: the loop variables are
    [results["spf"]] and [results["txt"]]. *)
Definition spf_step (acc : Entry * list string) (r : string) : Entry * list string :=
  let '(spf, txt) := acc in
  let txt := (txt ++ [txt_val r])%list in
  if PyStr.startswith (txt_val r) "v=spf1"
  then (mkEntry "present" (Some (txt_val r)), txt)
  else (spf, txt).

(** The body of the second loop: the loop variable is [results["dmarc"]]. *)
Definition dmarc_step (dmarc : Entry) (r : string) : Entry :=
  if PyStr.startswith (txt_val r) "v=DMARC1"
  then mkEntry "present" (Some (txt_val r))
  else dmarc.

(** Check DNS records for SPF, DMARC.  The look-ups go to the system
    resolver and give the texts of the TXT records. *)
Definition check_dns (w : World) (domain : string) : M DnsResult :=
  let missing := mkEntry "missing" None in
  try_catch
    ((* SPF Check *)
     found <- try_catch
                (txt_records <- ask (EvSystemQuery domain "TXT")
                                    (fun h => w_system w h domain "TXT") ;;
                 ret (fold_left spf_step txt_records (missing, [])))
                (fun _ => ret (missing, [])) ;;
     (* DMARC Check (_dmarc.domain) *)
     dmarc <- try_catch
                (dmarc_records <- ask (EvSystemQuery ("_dmarc." ++ domain) "TXT")
                                      (fun h => w_system w h ("_dmarc." ++ domain) "TXT") ;;
                 ret (fold_left dmarc_step dmarc_records missing))
                (fun _ => ret missing) ;;
     (* Logic for overall status: if SPF or DMARC missing -> Warning *)
     let status :=
       if String.eqb (entry_status (fst found)) "missing"
          || String.eqb (entry_status dmarc) "missing"
       then "warning" else "ok" in
     ret (DnsChecked (fst found) dmarc (snd found) status))
    (fun e =>
       log LError ("Error checking DNS for " ++ domain ++ ": " ++ exn_text e) ;;;
       ret (DnsError (exn_text e))).

End DNSMonitor.

(** [check_dns], as the scan loop and the report read it. *)
Module DnsResults.
Import DNSMonitor.

Definition as_result (r : DnsResult) : CheckResult :=
  match r with
  | DnsChecked _ _ _ status => mkResult "" (Some "dns") status None None None None None None
  | DnsError text => mkResult "" (Some "dns") "error" (Some text) None None None None None
  end.

End DnsResults.

(** ** The expiry checks ([src/monitors/ssl_monitor.py],
    [src/monitors/domain_monitor.py])

    A naive [datetime] is a wall-clock reading without zone, in
    microseconds.  [datetime.now()] is the naive reading of the local time
    of the machine; the difference of two naive readings is the
    [timedelta] the code computes, and its [days] are the whole days,
    rounded down. *)

Module Expiry.

(** The clock of the machine: the instant, in microseconds of UTC, and the
    offset of the local time zone from UTC. *)
Record Machine := mkMachine {
  instant : Z;
  utc_offset : Z
}.

(** [datetime.now()]. *)
Definition datetime_now (machine : Machine) : Z := instant machine + utc_offset machine.

(** One day, in microseconds. *)
Definition day : Z := 24 * 3600 * 1000000.

(** [(expiration_date - now).days] for two readings. *)
Definition days_between (expiration_date now : Z) : Z := (expiration_date - now) / day.

End Expiry.

Module SSLMonitor.

(** What [check_ssl] reads of the peer certificate: [notAfter] as parsed by
    [strptime], a naive [datetime] whose reading is the GMT time at which
    the certificate expires, that is, the instant of expiry; the
    [commonName] of the issuer if it has one; and the version. *)
Record Certificate := mkCertificate {
  not_after : Z;
  issuer_common_name : option string;
  cert_version : Z
}.

(** The [dict] that [check_ssl] returns, with the keys it may hold.  The
    expiration date is kept as the date that [strftime] formats. *)
Record SslReport := mkSslReport {
  ssl_monitor : string;
  ssl_status : string;
  ssl_message : option string;
  ssl_expiration_date : option Z;
  ssl_days_until_expiry : option Z;
  ssl_issuer : option string;
  ssl_version : option Z
}.

(** Check SSL certificate validity and expiration.  [socket] is the
    exception raised, if any, by creating and wrapping the socket, before
    the [try]; [peer] is the outcome of the connection, of [getpeercert] and
    of parsing [notAfter].  The value is the result or the exception
    raised, and the lines logged. *)
Definition check_ssl (machine : Expiry.Machine) (domain : string) (socket : option Exn)
    (peer : Exn + Certificate) : (Exn + SslReport) * list (LogLevel * string) :=
  match socket with
  | Some e => (inl e, [])
  | None =>
      match peer with
      | inr cert =>
          let expiration_date := not_after cert in
          let days_until_expiry :=
            Expiry.days_between expiration_date (Expiry.datetime_now machine) in
          let status := "ok" in
          let status := if (days_until_expiry <? 30)%Z then "warning" else status in
          let status := if (days_until_expiry <? 7)%Z then "critical" else status in
          let common_name := default "Unknown" (issuer_common_name cert) in
          (inr (mkSslReport "ssl" status None (Some expiration_date)
                            (Some days_until_expiry) (Some common_name)
                            (Some (cert_version cert))), [])
      | inl e =>
          (inr (mkSslReport "ssl" "error" (Some (exn_text e)) None None None None),
           [(LError, "Error checking SSL for " ++ domain ++ ": " ++ exn_text e)])
      end
  end.

(** The result as the scan loop and the report read it. *)
Definition as_result (r : SslReport) : CheckResult :=
  mkResult "" (Some (ssl_monitor r)) (ssl_status r) (ssl_message r) None None None None None.

End SSLMonitor.

Module DomainMonitor.

(** A [datetime] of a WHOIS entry: its wall-clock reading and, when it is
    aware, the offset of its zone from UTC. *)
Record WhoisDate := mkDate {
  wall : Z;
  tzinfo : option Z
}.

(** [w.expiration_date] of a WHOIS entry: nothing, a date, or a list of
    dates. *)
Inductive ExpirationDate :=
| DateNone
| DateOne (date : WhoisDate)
| DateList (dates : list WhoisDate).

(** What [check_domain] reads of the WHOIS entry. *)
Record WhoisEntry := mkWhois {
  expiration_date : ExpirationDate;
  registrar : option string
}.

(** The [dict] that [check_domain] returns, with the keys it may hold;
    [monitor] is one of them.  The expiration date is kept as the date that
    [strftime] formats. *)
Record DomainReport := mkDomainReport {
  domain_monitor : option string;
  domain_status : string;
  domain_message : option string;
  domain_expiration_date : option WhoisDate;
  domain_days_until_expiry : option Z;
  domain_registrar : option (option string);
  domain_details : option WhoisEntry
}.

Definition error_report (text : string) : DomainReport :=
  mkDomainReport (Some "domain") "error" (Some text) None None None None.

(** [(expiration_date - now).days], after [now.replace(tzinfo=...)] for an
    aware expiration date: [now] keeps its reading and takes the zone of
    the date, and the difference of two aware datetimes is the difference
    of their instants. *)
Definition days_until (expiration_date : WhoisDate) (now : Z) : Z :=
  match tzinfo expiration_date with
  | Some tz => Expiry.days_between (wall expiration_date - tz) (now - tz)
  | None => Expiry.days_between (wall expiration_date) now
  end.

(** Check domain expiration and status using WHOIS.  [entry] is the
    outcome of [whois.whois(domain)].  The value is the result and the
    lines logged. *)
Definition check_domain (machine : Expiry.Machine) (domain : string)
    (entry : Exn + WhoisEntry) : DomainReport * list (LogLevel * string) :=
  let failed (text : string) :=
    (error_report text, [(LError, "Error checking domain " ++ domain ++ ": " ++ text)]) in
  match entry with
  | inl e => failed (exn_text e)
  | inr w =>
      (* Handle list of dates (some registrars return list) *)
      let first_date :=
        match expiration_date w with
        | DateList [] => inl "list index out of range"
        | DateList (date :: _) => inr (Some date)
        | DateOne date => inr (Some date)
        | DateNone => inr None
        end in
      match first_date with
      | inl text => failed text
      | inr None =>
          (mkDomainReport None "error" (Some "Could not retrieve expiration date")
                          None None None None, [])
      | inr (Some expiration_date) =>
          (* Handle Timedeltas with potentially timezone-aware datetimes *)
          let now := Expiry.datetime_now machine in
          let days_until_expiry := days_until expiration_date now in
          let status := "ok" in
          let status := if (days_until_expiry <? 30)%Z then "warning" else status in
          let status := if (days_until_expiry <? 7)%Z then "critical" else status in
          (mkDomainReport (Some "domain") status None (Some expiration_date)
                          (Some days_until_expiry) (Some (registrar w)) (Some w), [])
      end
  end.

(** The result as the scan loop, the notification manager and the report
    read it; [details] is the WHOIS entry, neither a list nor a string. *)
Definition as_result (r : DomainReport) : CheckResult :=
  mkResult "" (domain_monitor r) (domain_status r) (domain_message r)
           (match domain_details r with Some _ => Some DetailsOther | None => None end)
           None None None None.

End DomainMonitor.

(** ** The security monitor ([src/monitors/security_monitor.py]) *)

Module SecurityMonitor.

(** The headers of the response that [check_security] reads. *)
Record Headers := mkHeaders {
  strict_transport_security : option string;
  x_frame_options : option string;
  x_content_type_options : option string;
  content_security_policy : option string;
  server : option string;
  x_powered_by : option string;
  x_aspnet_version : option string
}.

(** The exceptions of [requests.head], by the [except] clause that catches
    them, with their text. *)
Inductive HeadError :=
| SSLError (text : string)
| Timeout (text : string)
| OtherError (text : string).

(** [checks]: the four security headers and, when they are not empty, the
    leaks and the weak protocols. *)
Record Checks := mkChecks {
  checks_headers : list (string * option string);
  checks_info_leakage : option (list string);
  checks_weak_protocols : option (list string)
}.

(** The [dict] that [check_security] returns, with the keys it may hold. *)
Record SecurityReport := mkSecurityReport {
  sec_monitor : string;
  sec_status : string;
  sec_message : string;
  sec_details : option Details;
  sec_checks : option Checks
}.

(** [not v] for a header value that may be missing. *)
Definition empty (v : option string) : bool :=
  match v with
  | None | Some EmptyString => true
  | Some _ => false
  end.

(** Check for info leakage in headers (Server, X-Powered-By). *)
Definition check_info_leakage (headers : Headers) : list string :=
  let leaks := [] in
  let leaks :=
    match server headers with
    | Some v => app leaks ["Server Version Disclosed: " ++ v]
    | None => leaks
    end in
  let leaks :=
    match x_powered_by headers with
    | Some v => app leaks ["Tech Stack Disclosed: " ++ v]
    | None => leaks
    end in
  let leaks :=
    match x_aspnet_version headers with
    | Some v => app leaks ["ASP.NET Version Disclosed: " ++ v]
    | None => leaks
    end in
  leaks.

(** Comprehensive security checks: Headers, Info Leakage, and Weak
    Protocols.  [response] is the outcome of [requests.head(url,
    timeout=5)], [unverified] the exception, if any, of the same request
    with [verify=False], and [weak_protocols] what [check_protocols]
    returns (it catches every exception of its connections).  The value is
    the result and the lines logged. *)
Definition check_security (domain : string) (response : HeadError + Headers)
    (unverified : option Exn) (weak_protocols : list string)
  : SecurityReport * list (LogLevel * string) :=
  match response with
  | inr headers =>
      (* 1. Header Checks *)
      let security_headers :=
        [("HSTS", strict_transport_security headers);
         ("X-Frame-Options", x_frame_options headers);
         ("X-Content-Type-Options", x_content_type_options headers);
         ("Content-Security-Policy", content_security_policy headers)] in
      let issues := [] in
      let issues :=
        if empty (strict_transport_security headers)
        then app issues ["Missing HSTS (OWASP A05)"] else issues in
      let issues :=
        if empty (content_security_policy headers)
        then app issues ["Missing CSP (OWASP A05 - XSS Risk)"] else issues in
      (* 2. Info Leakage *)
      let leaks := check_info_leakage headers in
      let issues := app issues leaks in
      (* 3. Protocol Check *)
      let issues :=
        match weak_protocols with
        | [] => issues
        | _ :: _ =>
            let s := "Weak Ciphers Detected: " ++ PyStr.join ", " weak_protocols
                     ++ " (OWASP A02: Cryptographic Failures)" in
            app issues [s]
        end in
      let status := "ok" in
      let status := match issues with [] => status | _ :: _ => "warning" end in
      (* Critical triggers *)
      let status := match weak_protocols with [] => status | _ :: _ => "critical" end in
      (mkSecurityReport "security" status
         (match issues with
          | [] => "Secure"
          | _ :: _ => PyStr.of_int (Z.of_nat (length issues)) ++ " Security Issues"
          end)
         (Some (DetailsList issues))
         (Some (mkChecks security_headers
                         (match leaks with [] => None | _ :: _ => Some leaks end)
                         (match weak_protocols with
                          | [] => None
                          | _ :: _ => Some weak_protocols
                          end))),
       [])
  | inl (SSLError text) =>
      (* Fallback: Check if it works without verification *)
      match unverified with
      | None =>
          (mkSecurityReport "security" "warning"
             "SSL Certificate Untrusted (Check Chain/Root)" (Some (DetailsStr text)) None,
           [(LWarning, "SSL Valid but Untrusted for " ++ domain ++ ": " ++ text)])
      | Some _ =>
          (* Real handshake failure *)
          (mkSecurityReport "security" "critical" "SSL Verification Failed"
             (Some (DetailsStr text)) None,
           [(LWarning, "SSL Verification failed for " ++ domain ++ ": " ++ text)])
      end
  | inl (Timeout _) =>
      (mkSecurityReport "security" "warning" "Connection Timeout" None None,
       [(LWarning, "Timeout connecting to " ++ domain)])
  | inl (OtherError text) =>
      (* Clean up the error message for display *)
      let clean_error :=
        if PyStr.contains "(" text then hd EmptyString (PyStr.split "(" text) else text in
      (mkSecurityReport "security" "error" "Connection Failed" (Some (DetailsStr text)) None,
       [(LWarning, "Could not check security headers for " ++ domain ++ ": " ++ clean_error)])
  end.

(** The result as the scan loop, the notification manager and the report
    read it. *)
Definition as_result (r : SecurityReport) : CheckResult :=
  mkResult "" (Some (sec_monitor r)) (sec_status r) (Some (sec_message r)) (sec_details r)
           None None None None.

End SecurityMonitor.

(** ** The adapters of the repository as the world of the scan loop *)

Module Repository.

(** What the four external adapters ask of the libraries they use, each
    answer depending on what happened before:
    - [l_machine]: the clock of the machine;
    - [l_whois]: [whois.whois];
    - [l_socket]: creating and wrapping the socket of the certificate check
      (the exception, if any);
    - [l_peer]: the TLS connection, [getpeercert] and the parsing of
      [notAfter];
    - [l_head], [l_head_unverified]: the two [requests.head];
    - [l_protocols]: the connections of [check_protocols]. *)
Record Library := mkLibrary {
  l_machine : list Event -> Expiry.Machine;
  l_whois : list Event -> string -> Exn + DomainMonitor.WhoisEntry;
  l_socket : list Event -> string -> option Exn;
  l_peer : list Event -> string -> Exn + SSLMonitor.Certificate;
  l_head : list Event -> string -> SecurityMonitor.HeadError + SecurityMonitor.Headers;
  l_head_unverified : list Event -> string -> option Exn;
  l_protocols : list Event -> string -> list string
}.

(** The resolvers of a world. *)
Record Resolvers := mkResolvers {
  r_shuffle : list Event -> list string -> list string;
  r_pool : list Event -> list string -> string -> string -> Exn + list string;
  r_doh : list Event -> string -> string -> string + DohJson;
  r_system : list Event -> string -> string -> Exn + list string
}.

Definition check_domain (lib : Library) (h : list Event) (target : string)
  : Exn + CheckResult :=
  inr (DomainMonitor.as_result
         (fst (DomainMonitor.check_domain (l_machine lib h) target (l_whois lib h target)))).

Definition check_ssl (lib : Library) (h : list Event) (target : string)
  : Exn + CheckResult :=
  match fst (SSLMonitor.check_ssl (l_machine lib h) target (l_socket lib h target)
                                  (l_peer lib h target)) with
  | inl e => inl e
  | inr r => inr (SSLMonitor.as_result r)
  end.

Definition check_security (lib : Library) (h : list Event) (target : string)
  : Exn + CheckResult :=
  inr (SecurityMonitor.as_result
         (fst (SecurityMonitor.check_security target (l_head lib h target)
                 (l_head_unverified lib h target) (l_protocols lib h target)))).

(** A world with the given resolvers; [check_dns] asks its TXT look-ups of
    the system resolver. *)
Definition with_adapters (r : Resolvers)
    (domain ssl dns security : list Event -> string -> Exn + CheckResult) : World :=
  mkWorld (r_shuffle r) (r_pool r) (r_doh r) (r_system r) domain ssl dns security.

Definition no_adapter : list Event -> string -> Exn + CheckResult :=
  fun _ _ => inl (mkExn OtherException "no adapter").

Definition check_dns (r : Resolvers) (h : list Event) (target : string)
  : Exn + CheckResult :=
  match fst (DNSMonitor.check_dns
               (with_adapters r no_adapter no_adapter no_adapter no_adapter) target h) with
  | inl e => inl e
  | inr res => inr (DnsResults.as_result res)
  end.

(** The world in which the external adapters are the ones of the
    repository.  Of what an adapter does only its result reaches the scan
    loop; its log lines and look-ups are not among the events of the
    scan. *)
Definition world (r : Resolvers) (lib : Library) : World :=
  with_adapters r (check_domain lib) (check_ssl lib) (check_dns r) (check_security lib).

End Repository.

(** ** Notions used to state the properties of the monitors *)

Module MonitorAux.
Import DNSMonitor.

(** The entry of a record that was found, or the entry so far. *)
Definition entry_of (found : option string) (otherwise : Entry) : Entry :=
  match found with
  | Some v => mkEntry "present" (Some v)
  | None => otherwise
  end.

(** A look-up answered with a record that starts with [prefix] once its
    quotes are stripped. *)
Definition has_record (prefix : string) (answer : Exn + list string) : bool :=
  match answer with
  | inr records => existsb (fun r => PyStr.startswith (txt_val r) prefix) records
  | inl _ => false
  end.

(** The stripped records of an answer that start with [prefix]. *)
Definition matching (prefix : string) (answer : Exn + list string) : list string :=
  match answer with
  | inr records =>
      List.filter (fun v => PyStr.startswith v prefix) (map txt_val records)
  | inl _ => []
  end.

End MonitorAux.

(** ** Notions used to state further properties of the scan and of the alerts *)

Module MoreAux.
Import Eff EventAux NotificationManager.

(** The queries sent to the system resolver among the events of a run. *)
Definition system_queries (evs : list Event) : list (string * string) :=
  omap (fun ev => match ev with EvSystemQuery q t => Some (q, t) | _ => None end) evs.

(** An event that is not a query to the system resolver. *)
Definition not_system (ev : Event) : Prop :=
  match ev with EvSystemQuery _ _ => False | _ => True end.

(** A step of the scan loop that, when it returns, has appended results
    that satisfy [P] and has touched none of the earlier ones. *)
Definition appends (step : list CheckResult -> M (list CheckResult))
    (P : list CheckResult -> Prop) : Prop :=
  forall all_results h all_results' evs,
    step all_results h = (inr all_results', evs) ->
    exists new, all_results' = (all_results ++ new)%list /\ P new.

(** At most [n] results, all of them labelled with the domain [d]. *)
Definition block_of (d : string) (n : nat) (new : list CheckResult) : Prop :=
  Forall (fun res => domain res = d) new /\ length new <= n.

(** The result [res] that a step of the loop appends for the answer of an
    adapter: the answer labelled with the domain, its message possibly
    prefixed with a note that names the target checked. *)
Definition from_answer (d : string) (answer res : CheckResult) : Prop :=
  domain res = d /\
  monitor res = monitor answer /\
  status res = status answer /\
  details res = details answer /\
  (message res = message answer \/
   exists note, message res = Some (note ++ default "" (message answer))).

(** A result of the monitor [m] for the domain [d]: an answer of the
    adapter of that monitor, labelled with [d], or, for the two connection
    checks, the result that stands for a host name that does not resolve. *)
Definition produced (w : World) (d : string) (m : MonitorKind) (res : CheckResult) : Prop :=
  match m with
  | MDomain =>
      exists h target answer, w_check_domain w h target = inr answer /\ from_answer d answer res
  | MSsl =>
      res = Cli.dns_failed_result d "ssl" \/
      exists h target answer, w_check_ssl w h target = inr answer /\ from_answer d answer res
  | MDns =>
      exists h target answer, w_check_dns w h target = inr answer /\ from_answer d answer res
  | MSecurity =>
      res = Cli.dns_failed_result d "security" \/
      exists h target answer,
        w_check_security w h target = inr answer /\ from_answer d answer res
  | MBlacklist =>
      exists h answer,
        fst (BlacklistMonitor.check_blacklist w d h) = inr answer /\ res = set_domain d answer
  end.

(** The monitors after the WHOIS check, in the order of the loop, and
    those of them that the configuration enables. *)
Definition later_monitors : list MonitorKind := [MSsl; MDns; MSecurity; MBlacklist].

Definition enabled_later (cfg : Config) : list MonitorKind :=
  List.filter (enabled cfg) later_monitors.

(** The results of one domain: at most one of the WHOIS check, and then
    exactly one per enabled monitor, in the order of the loop. *)
Definition domain_block (cfg : Config) (w : World) (d : string)
    (block : list CheckResult) : Prop :=
  exists whois rest,
    block = (whois ++ rest)%list /\
    length whois <= b2n (domain_enabled cfg) /\
    Forall (produced w d MDomain) whois /\
    Forall2 (produced w d) (enabled_later cfg) rest.

(** The name of a monitor in the results. *)
Definition kind_name (m : MonitorKind) : string :=
  match m with
  | MDomain => "domain"
  | MSsl => "ssl"
  | MDns => "dns"
  | MSecurity => "security"
  | MBlacklist => "blacklist"
  end.

(** The monitors that the configuration enables, in the order of the
    loop. *)
Definition enabled_monitors (cfg : Config) : list MonitorKind :=
  List.filter (enabled cfg) (MDomain :: later_monitors).


(** The monitor [m] if it is enabled. *)
Definition one_if (b : bool) (m : MonitorKind) : list MonitorKind := if b then [m] else [].

(** The name a result of the repository's adapters carries. *)
Definition labelled_as (m : MonitorKind) (res : CheckResult) : Prop :=
  monitor res = Some (kind_name m) \/
  m = MDomain /\ monitor res = None /\ status res = "error".

(** An event that is not a failure of the WHOIS step. *)
Definition no_failure (ev : Event) : Prop := counts WhoisFailures ev = false.

End MoreAux.

(** ** Notions used to state further properties of the target selection *)

Module TargetAux.

(** The policy of the scan loop for the domain [d]: the WHOIS and DNS
    adapters are invoked on the parent domain, the certificate and security
    adapters on the domain or on its [www] name, and the blacklist adapter
    on the domain itself. *)
Definition on_target (d : string) (ev : Event) : Prop :=
  match ev with
  | EvAdapter MDomain target | EvAdapter MDns target => target = get_parent_domain d
  | EvAdapter MSsl target | EvAdapter MSecurity target =>
      target = d \/ target = "www." ++ d
  | EvAdapter MBlacklist target => target = d
  | _ => True
  end.

(** The labels of a host name. *)
Definition labels (d : string) : list string := PyStr.split "." d.

End TargetAux.

(** ** Sample data for the concrete instances below *)

Module Samples.
Import NotificationManager.

Definition ssl_warning : CheckResult :=
  mkResult "a.com" (Some "ssl") "warning" (Some "Certificate expires in 20 days")
           None None None None None.

Definition ssl_ok : CheckResult :=
  mkResult "a.com" (Some "ssl") "ok" None None None None None None.

Definition dns_critical : CheckResult :=
  mkResult "a.com" (Some "dns") "critical" (Some "Expires in 5 days")
           None None None None None.

(** The result of [check_domain] for a WHOIS entry without expiration
    date, as the scan loop appends it for [example.com]. *)
Definition no_expiration_date : CheckResult :=
  mkResult "example.com" None "error" (Some "Could not retrieve expiration date")
           None None None None None.

(** A record of the pair [a.com:ssl], alerted once at instant 0. *)
Definition ssl_record : IssueRecord := mkIssue 0 0 1 "ssl" "a.com".

Definition ssl_state : gmap string IssueRecord := {[ "a.com:ssl" := ssl_record ]}.

(** 24 hours and one second after instant 0, and one second before the
    window closes. *)
Definition day_plus_1s : Z := 86401000000.
Definition day_minus_1s : Z := 86399000000.

(** A clock that advances by one microsecond per reading, for the first
    ten readings. *)
Definition ticking : Clock := fun n => Z.of_nat (Nat.min n 10).


Definition all_monitors : Config := mkConfig true true true true true.

Definition ok_result (kind : string) : CheckResult :=
  mkResult "" (Some kind) "ok" None None None None None None.

Definition timed_out : Exn := mkExn OtherException "The DNS operation timed out.".

Definition refused : Exn := mkExn OtherException "Connection refused".

Definition not_listed : Exn := mkExn NXDOMAIN "The DNS query name does not exist.".

(** A machine on UTC at instant 0, a certificate and a registration that
    expire in a year, and a response with the two security headers and
    nothing else. *)
Definition utc_machine : Expiry.Machine := Expiry.mkMachine 0 0.

Definition a_year : Z := 365 * Expiry.day.

Definition good_certificate : SSLMonitor.Certificate :=
  SSLMonitor.mkCertificate a_year (Some "Example CA") 3.

Definition good_entry : DomainMonitor.WhoisEntry :=
  DomainMonitor.mkWhois (DomainMonitor.DateOne (DomainMonitor.mkDate a_year None))
                        (Some "Example Registrar").

Definition good_headers : SecurityMonitor.Headers :=
  SecurityMonitor.mkHeaders (Some "max-age=31536000") None None (Some "default-src 'self'")
                            None None None.

(** Libraries in which every query of an adapter succeeds; in which the
    WHOIS query times out; and in which, besides, the HTTP request times
    out. *)
Definition healthy : Repository.Library :=
  Repository.mkLibrary (fun _ => utc_machine)
                       (fun _ _ => inr good_entry)
                       (fun _ _ => None)
                       (fun _ _ => inr good_certificate)
                       (fun _ _ => inr good_headers)
                       (fun _ _ => None)
                       (fun _ _ => []).

Definition whois_times_out : Repository.Library :=
  Repository.mkLibrary (fun _ => utc_machine)
                       (fun _ _ => inl timed_out)
                       (fun _ _ => None)
                       (fun _ _ => inr good_certificate)
                       (fun _ _ => inr good_headers)
                       (fun _ _ => None)
                       (fun _ _ => []).

Definition http_times_out : Repository.Library :=
  Repository.mkLibrary (fun _ => utc_machine)
                       (fun _ _ => inr good_entry)
                       (fun _ _ => None)
                       (fun _ _ => inr good_certificate)
                       (fun _ _ => inl (SecurityMonitor.Timeout "Read timed out."))
                       (fun _ _ => None)
                       (fun _ _ => []).

(** A library in which the socket of the certificate check cannot be
    created. *)
Definition no_sockets : Repository.Library :=
  Repository.mkLibrary (fun _ => utc_machine)
                       (fun _ _ => inr good_entry)
                       (fun _ _ => Some (mkExn OtherException "[Errno 24] Too many open files"))
                       (fun _ _ => inr good_certificate)
                       (fun _ _ => inr good_headers)
                       (fun _ _ => None)
                       (fun _ _ => []).

(** Resolvers for which [example.com] resolves and no other name exists,
    and no RBL lists anything. *)
Definition only_example_com : Repository.Resolvers :=
  Repository.mkResolvers
    (fun _ pool => pool)
    (fun _ _ qname _ =>
       if String.eqb qname "example.com" then inr ["93.184.216.34"]
       else inl not_listed)
    (fun _ _ _ => inl "Connection refused")
    (fun _ _ _ => inl not_listed).

(** The world of the repository's adapters in which [example.com] resolves
    and the WHOIS query times out. *)
Definition whois_down : World := Repository.world only_example_com whois_times_out.

(** The same resolvers with a system resolver that answers the queries to
    Spamhaus with the given addresses. *)
Definition spamhaus_answers (answers : list string) : World :=
  Repository.world
    (Repository.mkResolvers
       (Repository.r_shuffle only_example_com) (Repository.r_pool only_example_com)
       (Repository.r_doh only_example_com)
       (fun _ query _ =>
          if String.eqb query "34.216.184.93.zen.spamhaus.org" then inr answers
          else inl not_listed))
    whois_times_out.

(** A world in which no resolver can be reached: the pool times out and
    the DNS-over-HTTPS request is refused. *)
Definition unreachable : Repository.Resolvers :=
  Repository.mkResolvers
    (fun _ pool => pool)
    (fun _ _ _ _ => inl timed_out)
    (fun _ _ _ => inl "Connection refused")
    (fun _ _ _ => inl timed_out).

Definition offline : World := Repository.world unreachable healthy.

End Samples.
(** ** Facts about the string primitives *)

Module PyStrFacts.
Import PyStr PyStrAux.


Lemma append_cons a s t : String a s ++ t = String a (s ++ t).
Proof. reflexivity. Qed.

Lemma append_empty_l t : EmptyString ++ t = t.
Proof. reflexivity. Qed.

Lemma append_assoc_char cur a s :
  (cur ++ String a EmptyString) ++ s = cur ++ String a s.
Proof.
  induction cur as [|b cur IH]; [reflexivity|].
  now rewrite !append_cons, IH.
Qed.

Lemma append_empty_r s : s ++ EmptyString = s.
Proof.
  induction s as [|a s IH]; [reflexivity|]. now rewrite append_cons, IH.
Qed.

Lemma prefix_empty s : String.prefix EmptyString s = true.
Proof. destruct s; reflexivity. Qed.

Lemma prefix_app p s : String.prefix p (p ++ s) = true.
Proof.
  induction p as [|a p IH]; [apply prefix_empty|].
  rewrite append_cons. cbn [String.prefix].
  destruct (ascii_dec a a); [exact IH | contradiction].
Qed.

Lemma split_go_char_head c s cur :
  item (split_go (String c EmptyString) s 0 cur) 0 = cur ++ take_until c s.
Proof.
  revert cur. induction s as [|a s IH]; intros cur; simpl.
  - now rewrite append_empty_r.
  - destruct (ascii_dec c a) as [->|Hne]; simpl.
    + rewrite prefix_empty, append_empty_r. reflexivity.
    + rewrite IH. apply append_assoc_char.
Qed.

Lemma split_char_head c s :
  item (split (String c EmptyString) s) 0 = take_until c s.
Proof. unfold split. now rewrite split_go_char_head. Qed.

Lemma contains_char c s : contains (String c EmptyString) s = has_char c s.
Proof.
  induction s as [|a s IH]; simpl; [reflexivity|].
  destruct (ascii_dec c a); simpl; [now rewrite prefix_empty | exact IH].
Qed.

Lemma contains_no_first_char c rest s :
  has_char c s = false -> contains (String c rest) s = false.
Proof.
  induction s as [|a s IH]; simpl; [reflexivity|].
  destruct (ascii_dec c a); [discriminate | simpl; exact IH].
Qed.

Lemma take_until_no_char c s : has_char c (take_until c s) = false.
Proof.
  induction s as [|a s IH]; simpl; [reflexivity|].
  destruct (ascii_dec c a) as [|Hne]; simpl; [reflexivity|].
  destruct (ascii_dec c a); [contradiction | exact IH].
Qed.

Lemma take_until_keeps_absent d c s :
  has_char d s = false -> has_char d (take_until c s) = false.
Proof.
  induction s as [|a s IH]; simpl; [reflexivity|].
  destruct (ascii_dec d a); [discriminate|]. intros H.
  destruct (ascii_dec c a); simpl; [reflexivity|].
  destruct (ascii_dec d a); [contradiction | now apply IH].
Qed.

Lemma take_until_absent c s : has_char c s = false -> take_until c s = s.
Proof.
  induction s as [|a s IH]; simpl; [reflexivity|].
  destruct (ascii_dec c a); [discriminate|]. intros H. now rewrite IH.
Qed.

Lemma lstrip_keeps_absent d s : has_char d s = false -> has_char d (lstrip s) = false.
Proof.
  induction s as [|a s IH]; simpl; [reflexivity|].
  destruct (ascii_dec d a); [discriminate|]. intros H.
  destruct (isspace a); [now apply IH|].
  simpl. destruct (ascii_dec d a); [contradiction | exact H].
Qed.

Lemma rstrip_keeps_absent d s : has_char d s = false -> has_char d (rstrip s) = false.
Proof.
  induction s as [|a s IH]; simpl; [reflexivity|].
  destruct (ascii_dec d a) as [|Hne]; [discriminate|]. intros H.
  specialize (IH H). destruct (rstrip s) as [|b r].
  - destruct (isspace a); simpl; [reflexivity|].
    destruct (ascii_dec d a); [contradiction | reflexivity].
  - change (has_char d (String a (String b r)) = false). simpl in *.
    destruct (ascii_dec d a); [contradiction | exact IH].
Qed.

Lemma strip_keeps_absent d s : has_char d s = false -> has_char d (strip s) = false.
Proof. intros H. unfold strip. now apply rstrip_keeps_absent, lstrip_keeps_absent. Qed.

(** Character-level facts, checked on all 256 characters. *)
Ltac all_chars c :=
  destruct c as [[] [] [] [] [] [] [] []]; vm_compute; try reflexivity; try congruence.

Lemma lower_char_idem c : lower_char (lower_char c) = lower_char c.
Proof. all_chars c. Qed.

Lemma isspace_lower_char c : isspace (lower_char c) = isspace c.
Proof. all_chars c. Qed.

Lemma lower_char_colon c : lower_char c = ":"%char -> c = ":"%char.
Proof. all_chars c. Qed.

Lemma lower_char_slash c : lower_char c = "/"%char -> c = "/"%char.
Proof. all_chars c. Qed.

Lemma lower_char_qmark c : lower_char c = "?"%char -> c = "?"%char.
Proof. all_chars c. Qed.

Lemma lower_keeps_absent d s :
  (forall c, lower_char c = d -> c = d) ->
  has_char d s = false -> has_char d (lower s) = false.
Proof.
  intros Hd. induction s as [|a s IH]; simpl; [reflexivity|].
  destruct (ascii_dec d a) as [|Hne]; [discriminate|]. intros H.
  destruct (ascii_dec d (lower_char a)) as [Heq|_]; [|now apply IH].
  exfalso. apply Hne. symmetry. now apply Hd.
Qed.

Lemma lower_idem s : lower (lower s) = lower s.
Proof.
  induction s as [|a s IH]; simpl; [reflexivity|].
  unfold lower in *. simpl. now rewrite lower_char_idem, IH.
Qed.

Lemma lstrip_lower s : lstrip (lower s) = lower (lstrip s).
Proof.
  induction s as [|a s IH]; simpl; [reflexivity|].
  rewrite isspace_lower_char. destruct (isspace a); [exact IH | reflexivity].
Qed.

Lemma rstrip_lower s : rstrip (lower s) = lower (rstrip s).
Proof.
  unfold lower. induction s as [|a s IH]; simpl; [reflexivity|].
  rewrite IH, isspace_lower_char.
  destruct (rstrip s) as [|b r]; simpl; [|reflexivity].
  destruct (isspace a); reflexivity.
Qed.

Lemma strip_lower s : strip (lower s) = lower (strip s).
Proof. unfold strip. now rewrite lstrip_lower, rstrip_lower. Qed.

Lemma rstrip_idem s : rstrip (rstrip s) = rstrip s.
Proof.
  induction s as [|a s IH]; simpl; [reflexivity|].
  destruct (rstrip s) as [|b r] eqn:E.
  - destruct (isspace a) eqn:Ea; simpl; [reflexivity | now rewrite Ea].
  - change (rstrip (String a (String b r)) = String a (String b r)).
    cbn [rstrip]. cbn [rstrip] in IH. now rewrite IH.
Qed.


Lemma lstrip_starts_clean s : starts_clean (lstrip s) = true.
Proof.
  induction s as [|a s IH]; simpl; [reflexivity|].
  destruct (isspace a) eqn:Ea; [exact IH | simpl; now rewrite Ea].
Qed.

Lemma rstrip_starts_clean s : starts_clean s = true -> starts_clean (rstrip s) = true.
Proof.
  destruct s as [|a s]; simpl; [reflexivity|]. intros Ha.
  destruct (rstrip s); [|exact Ha].
  destruct (isspace a) eqn:Ea; [discriminate | simpl; now rewrite Ea].
Qed.

Lemma lstrip_clean s : starts_clean s = true -> lstrip s = s.
Proof.
  destruct s as [|a s]; simpl; [reflexivity|].
  destruct (isspace a); [discriminate | reflexivity].
Qed.

Lemma strip_idem s : strip (strip s) = strip s.
Proof.
  unfold strip.
  rewrite (lstrip_clean (rstrip (lstrip s))).
  - apply rstrip_idem.
  - apply rstrip_starts_clean, lstrip_starts_clean.
Qed.

End PyStrFacts.

(** ** Target selection: examples *)

Example clean_domain_ex1 :
  clean_domain "https://www.Example.com:8443/status" = "www.example.com".
Proof. reflexivity. Qed.

Example clean_domain_ex2 : clean_domain "  Foo.COM?x=1 " = "foo.com".
Proof. reflexivity. Qed.

Example clean_domain_ex3 : clean_domain "a://b://c" = "b".
Proof. reflexivity. Qed.

Example get_parent_domain_ex1 : get_parent_domain "www.example.com" = "example.com".
Proof. reflexivity. Qed.

Example get_parent_domain_ex2 : get_parent_domain "foo.co.uk" = "co.uk".
Proof. reflexivity. Qed.

Example split_ex1 : PyStr.split "://" "a://b:///c" = ["a"; "b"; "/c"].
Proof. reflexivity. Qed.


(** ** The pieces that [clean_domain] and [get_parent_domain] index exist *)

Module SplitFacts.
Import PyStr.

Lemma split_go_length sep s skip cur : 1 <= length (split_go sep s skip cur).
Proof.
  revert skip cur. induction s as [|c s IH]; intros skip cur; cbn [split_go].
  - cbn. lia.
  - destruct skip as [|k]; [|apply IH].
    destruct (String.prefix sep (String c s)); [cbn [length]; lia | apply IH].
Qed.

(** [s.split(sep)] always has a piece [0]. *)
Lemma split_first_exists sep s : exists piece, split sep s !! 0 = Some piece.
Proof.
  unfold split. pose proof (split_go_length sep s 0 EmptyString) as H.
  destruct (split_go sep s 0 EmptyString) as [|piece l]; [cbn in H; lia|].
  now exists piece.
Qed.

Lemma split_go_contains sep s cur :
  sep <> EmptyString -> contains sep s = true -> 2 <= length (split_go sep s 0 cur).
Proof.
  intros Hsep. revert cur. induction s as [|c s IH]; intros cur; cbn [contains split_go].
  - destruct sep; [contradiction | discriminate].
  - destruct (String.prefix sep (String c s)).
    + intros _. cbn [length].
      pose proof (split_go_length sep s (String.length sep - 1) EmptyString). lia.
    + cbn [orb]. apply IH.
Qed.

(** When [sep in s], [s.split(sep)] has a piece [1]: the index that
    [clean_domain] reads after its test for ["://"]. *)
Lemma split_second_exists sep s :
  sep <> EmptyString -> contains sep s = true ->
  exists piece, split sep s !! 1 = Some piece.
Proof.
  intros Hsep Hc. unfold split.
  pose proof (split_go_contains sep s EmptyString Hsep Hc) as H.
  destruct (split_go sep s 0 EmptyString) as [|p0 [|p1 l]]; cbn in H; try lia.
  now exists p1.
Qed.

End SplitFacts.

(** ** Cutting a URL and splitting a host name into labels *)

Module UrlFacts.
Import PyStr PyStrAux PyStrFacts.

Lemma append_assoc s1 s2 s3 : (s1 ++ s2) ++ s3 = s1 ++ s2 ++ s3.
Proof.
  induction s1 as [|a s1 IH]; [reflexivity|]. now rewrite !append_cons, IH.
Qed.

Lemma has_char_app c s1 s2 : has_char c (s1 ++ s2) = has_char c s1 || has_char c s2.
Proof.
  induction s1 as [|a s1 IH]; [reflexivity|]. rewrite append_cons. cbn [has_char].
  destruct (ascii_dec c a); [reflexivity | exact IH].
Qed.

Lemma take_until_walk c s t :
  has_char c s = false -> take_until c (s ++ t) = s ++ take_until c t.
Proof.
  induction s as [|a s IH]; [reflexivity|]. rewrite !append_cons. cbn [has_char take_until].
  destruct (ascii_dec c a); [discriminate|]. intros H. now rewrite IH.
Qed.

(** A separator that starts with [c] does not occur where [c] does not. *)
Lemma split_go_walk c sep s rest cur :
  has_char c s = false ->
  split_go (String c sep) (s ++ rest) 0 cur = split_go (String c sep) rest 0 (cur ++ s).
Proof.
  revert cur. induction s as [|a s IH]; intros cur.
  - intros _. now rewrite append_empty_l, append_empty_r.
  - cbn [has_char]. destruct (ascii_dec c a) as [|Hne]; [discriminate|]. intros H.
    rewrite append_cons. cbn [split_go String.prefix].
    destruct (ascii_dec c a); [contradiction|].
    rewrite (IH _ H). now rewrite append_assoc_char.
Qed.

Lemma contains_app sep pre rest :
  sep <> EmptyString -> contains sep (pre ++ sep ++ rest) = true.
Proof.
  intros Hsep. induction pre as [|a pre IH].
  - rewrite append_empty_l. destruct sep as [|c sep]; [contradiction|].
    rewrite append_cons. cbn [contains]. rewrite <- append_cons, prefix_app. reflexivity.
  - rewrite append_cons. cbn [contains]. rewrite IH. apply orb_true_r.
Qed.

(** The first piece of a split extends what has been read so far by a
    part of the string that is empty or starts where the string starts. *)
Lemma first_piece_extends sep s cur :
  exists q, item (split_go sep s 0 cur) 0 = cur ++ q.
Proof.
  revert cur. induction s as [|a s IH]; intros cur; cbn [split_go].
  - exists EmptyString. now rewrite append_empty_r.
  - destruct (String.prefix sep (String a s)).
    + exists EmptyString. now rewrite append_empty_r.
    + destruct (IH (cur ++ String a EmptyString)) as [q Hq].
      exists (String a q). now rewrite Hq, append_assoc_char.
Qed.

Lemma first_piece_shape sep s cur :
  exists q, item (split_go sep s 0 cur) 0 = cur ++ q /\
            (q = EmptyString \/ exists c t t', s = String c t /\ q = String c t').
Proof.
  destruct s as [|a s]; cbn [split_go].
  - exists EmptyString. split; [now rewrite append_empty_r | now left].
  - destruct (String.prefix sep (String a s)).
    + exists EmptyString. split; [now rewrite append_empty_r | now left].
    + destruct (first_piece_extends sep s (cur ++ String a EmptyString)) as [q Hq].
      exists (String a q). split; [now rewrite Hq, append_assoc_char|].
      right. now exists a, s, q.
Qed.

Lemma split_go_scheme_sep rest cur :
  split_go "://" ("://" ++ rest) 0 cur = cur :: split_go "://" rest 0 EmptyString.
Proof.
  change ("://" ++ rest) with (String ":" ("//" ++ rest)). cbn [split_go].
  change (String ":" ("//" ++ rest)) with ("://" ++ rest). rewrite prefix_app.
  reflexivity.
Qed.

Lemma split_scheme scheme rest :
  has_char ":" scheme = false ->
  split "://" (scheme ++ "://" ++ rest) = scheme :: split "://" rest.
Proof.
  intros H. unfold split.
  now rewrite (split_go_walk ":" "//" scheme _ _ H), split_go_scheme_sep, append_empty_l.
Qed.

(** What is left of [host ++ q] after the path, the query and the port
    have been cut off, when [q] is empty or starts with [:], [/] or [?]. *)
Lemma cut_tail host q :
  has_char ":" host = false -> has_char "/" host = false -> has_char "?" host = false ->
  (q = EmptyString \/
   exists c t, q = String c t /\ (c = ":" \/ c = "/" \/ c = "?")%char) ->
  (let cut := take_until "?" (take_until "/" (host ++ q)) in
   if has_char ":" cut then take_until ":" cut else cut) = host.
Proof.
  intros Hc Hs Hq Hshape. cbv zeta.
  rewrite (take_until_walk "/" host q Hs), (take_until_walk "?" host _ Hq).
  rewrite has_char_app, Hc. cbn [orb].
  destruct Hshape as [Hq0|(c & t & Hq0 & Hc0)]; subst q.
  - cbn. now rewrite append_empty_r.
  - destruct Hc0 as [Hc0|[Hc0|Hc0]]; subst c; cbn.
    + rewrite (take_until_walk ":" host _ Hc). cbn. now rewrite append_empty_r.
    + now rewrite append_empty_r.
    + now rewrite append_empty_r.
Qed.

(** *** Labels *)

Lemma split_go_dot rest cur :
  split_go "." ("." ++ rest) 0 cur = cur :: split_go "." rest 0 EmptyString.
Proof.
  change ("." ++ rest) with (String "." rest). cbn [split_go String.prefix].
  destruct (ascii_dec "." "."); [|contradiction]. now rewrite prefix_empty.
Qed.

Lemma split_join_labels labels :
  labels <> [] ->
  Forall (fun label => has_char "." label = false) labels ->
  split "." (join "." labels) = labels.
Proof.
  unfold split, join. induction labels as [|l labels IH]; [contradiction|].
  intros _ Hall. apply Forall_cons in Hall as [Hl Hall].
  destruct labels as [|l2 labels].
  - cbn [String.concat].
    rewrite <- (append_empty_r l) at 1. rewrite (split_go_walk "." _ _ _ _ Hl).
    reflexivity.
  - change (String.concat "." (l :: l2 :: labels))
      with (l ++ "." ++ String.concat "." (l2 :: labels)).
    rewrite (split_go_walk "." _ _ _ _ Hl), split_go_dot, append_empty_l.
    f_equal. apply IH; [discriminate | exact Hall].
Qed.

End UrlFacts.

(** ** Target selection: [clean_domain] *)

Section CleanDomain.
Import PyStr PyStrAux PyStrFacts.


Lemma clean_domain_unfold s : clean_domain s = lower (strip (strip_url s)).
Proof. reflexivity. Qed.

Lemma strip_url_no_colon s : has_char ":" (strip_url s) = false.
Proof.
  unfold strip_url. rewrite contains_char.
  match goal with |- context [if has_char ":" ?v then _ else _] =>
    destruct (has_char ":" v) eqn:E end.
  - rewrite split_char_head. apply take_until_no_char.
  - exact E.
Qed.

Lemma strip_url_no_slash s : has_char "/" (strip_url s) = false.
Proof.
  unfold strip_url. rewrite !split_char_head.
  match goal with |- context [take_until "?" (take_until "/" ?w)] =>
    assert (H : has_char "/" (take_until "?" (take_until "/" w)) = false)
      by apply take_until_keeps_absent, take_until_no_char
  end.
  destruct (contains ":" _); [|exact H]. now apply take_until_keeps_absent.
Qed.

Lemma strip_url_no_qmark s : has_char "?" (strip_url s) = false.
Proof.
  unfold strip_url. rewrite !split_char_head.
  match goal with |- context [take_until "?" ?w] =>
    assert (H : has_char "?" (take_until "?" w) = false) by apply take_until_no_char
  end.
  destruct (contains ":" _); [|exact H]. now apply take_until_keeps_absent.
Qed.

(** A string without [:], [/] and [?] passes the three cutting steps
    unchanged. *)
Lemma strip_url_fixed t :
  has_char ":" t = false -> has_char "/" t = false -> has_char "?" t = false ->
  strip_url t = t.
Proof.
  intros Hc Hs Hq. unfold strip_url.
  rewrite (contains_no_first_char ":" "//" t Hc).
  rewrite !split_char_head.
  rewrite (take_until_absent "/" t Hs), (take_until_absent "?" t Hq).
  rewrite contains_char, Hc. reflexivity.
Qed.

Lemma clean_domain_chars s (d : ascii) :
  (forall c, lower_char c = d -> c = d) ->
  has_char d (strip_url s) = false ->
  has_char d (clean_domain s) = false.
Proof.
  intros Hd H. rewrite clean_domain_unfold.
  now apply lower_keeps_absent, strip_keeps_absent.
Qed.

(** C9: [clean_domain] is idempotent: cleaning an already cleaned host name
    changes nothing, since the result holds no scheme separator, path,
    query or port, carries no surrounding white space and is lower case. *)
Theorem clean_domain_idempotent (s : string) :
  clean_domain (clean_domain s) = clean_domain s.
Proof.
  rewrite (clean_domain_unfold (clean_domain s)).
  rewrite strip_url_fixed.
  - rewrite clean_domain_unfold.
    now rewrite strip_lower, strip_idem, lower_idem.
  - apply clean_domain_chars; [exact lower_char_colon | apply strip_url_no_colon].
  - apply clean_domain_chars; [exact lower_char_slash | apply strip_url_no_slash].
  - apply clean_domain_chars; [exact lower_char_qmark | apply strip_url_no_qmark].
Qed.

End CleanDomain.

(** ** The alert state machine: after the first loop *)

Module FinishFacts.
Import NotificationManager ManagerAux.

(** [NotificationService] has no attribute [send]. *)
Lemma service_send_raises title message :
  service_send title message = inl (AttributeError "NotificationService" "send").
Proof. reflexivity. Qed.

Lemma send_aggregated_alert_raises d alerts :
  exists e, _send_aggregated_alert d alerts = inl e.
Proof.
  unfold _send_aggregated_alert. destruct (digest_lines alerts _); eauto.
Qed.

Lemma send_all_raises groups :
  groups <> [] -> exists e, send_all groups = ([], Some e).
Proof.
  destruct groups as [|[d alerts] rest]; [congruence|]. intros _.
  cbn [send_all]. destruct (send_aggregated_alert_raises d alerts) as [e ->]. eauto.
Qed.

Lemma send_all_sent groups : fst (send_all groups) = [].
Proof.
  destruct groups as [|[d alerts] rest]; [reflexivity|].
  cbn [send_all]. now destruct (send_aggregated_alert_raises d alerts) as [e ->].
Qed.

Lemma digest_lines_named alerts lines :
  Forall (fun alert => is_Some (monitor alert)) alerts ->
  exists lines', digest_lines alerts lines = inr lines'.
Proof.
  intros H. revert lines. induction H as [|alert alerts [m Hm] _ IH]; intros lines.
  - cbn. eauto.
  - cbn [digest_lines]. unfold alert_lines. rewrite Hm. apply IH.
Qed.

Lemma send_aggregated_alert_named d alerts :
  Forall (fun alert => is_Some (monitor alert)) alerts ->
  _send_aggregated_alert d alerts = inl (AttributeError "NotificationService" "send").
Proof.
  intros H. unfold _send_aggregated_alert.
  destruct (digest_lines_named alerts
              ["Found " ++ PyStr.of_int (Z.of_nat (length alerts)) ++ " issues for **"
               ++ d ++ "**:"] H) as [lines ->].
  apply service_send_raises.
Qed.

Lemma finish_state s :
  out_state (finish s) = fold_left (fun st i => delete i st) (removed_ids s) (scan_state s).
Proof. unfold finish. destruct (alerts_to_send s); [reflexivity|]. now destruct (send_all _). Qed.

Lemma finish_results s : out_results (finish s) = seen_results s.
Proof. unfold finish. destruct (alerts_to_send s); [reflexivity|]. now destruct (send_all _). Qed.

Lemma finish_alerts s : out_alerts (finish s) = alerts_to_send s.
Proof. unfold finish. destruct (alerts_to_send s); [reflexivity|]. now destruct (send_all _). Qed.

Lemma finish_digests s : out_digests (finish s) = domain_groups (alerts_to_send s).
Proof. unfold finish. destruct (alerts_to_send s); [reflexivity|]. now destruct (send_all _). Qed.

(** The effects of steps 2 to 4: the resolved lines, the write of the
    state, and the line that tells that there is nothing to send.  Nothing
    is ever handed to the notification service. *)
Lemma finish_effects s :
  out_effects (finish s) =
  (scan_log s ++ map LogResolved (removed_ids s) ++ [SaveState (out_state (finish s))] ++
   match alerts_to_send s with [] => [LogNoAlerts] | _ :: _ => [] end)%list.
Proof.
  rewrite finish_state. unfold finish, removed_ids.
  destruct (alerts_to_send s) as [|a l].
  - cbn [out_effects]. now rewrite <- !app_assoc.
  - pose proof (send_all_sent (domain_groups (a :: l))) as H.
    destruct (send_all _) as [sent raised]. cbn [fst] in H. subst sent.
    cbn [out_effects]. now rewrite <- !app_assoc.
Qed.

Lemma finish_raised s :
  out_raised (finish s) =
  match alerts_to_send s with
  | [] => None
  | _ :: _ => snd (send_all (domain_groups (alerts_to_send s)))
  end.
Proof. unfold finish. destruct (alerts_to_send s); [reflexivity|]. now destruct (send_all _). Qed.

End FinishFacts.

(** ** The alert state machine: a clock that stands still *)

Module BridgeFacts.
Import NotificationManager ManagerAux.

Lemma is_issue_non_ok res : is_issue res = true <-> non_ok res.
Proof.
  unfold is_issue, non_ok. cbn [existsb]. rewrite !orb_true_iff, !String.eqb_eq.
  intuition congruence.
Qed.

Lemma get_issue_id_named res :
  is_Some (monitor res) -> _get_issue_id res = inr (key res).
Proof. intros [m Hm]. unfold _get_issue_id, key. now rewrite Hm. Qed.

Lemma get_issue_id_inr res issue_id :
  _get_issue_id res = inr issue_id -> issue_id = key res /\ is_Some (monitor res).
Proof.
  unfold _get_issue_id, key. destruct (monitor res) as [m|]; [|discriminate].
  intros [= <-]. eauto.
Qed.

(** With a clock that stands still, one step of the loop on a result that
    names its monitor is the pure step. *)
Lemma scan_result_steady now s k res :
  (is_issue res = true -> is_Some (monitor res)) ->
  exists k', scan_result (steady now) s k res = inr (Steady.step now s res, k').
Proof.
  intros Hnamed. unfold scan_result, Steady.step.
  destruct (is_issue res); [|eauto].
  destruct (Hnamed eq_refl) as [m Hm].
  rewrite (get_issue_id_named res) by eauto.
  destruct (scan_state s !! key res) as [data|].
  - unfold steady, expired, resent. destruct (_ <? _)%Z; cbn [count]; eauto.
  - rewrite Hm. unfold steady, created. rewrite Hm. cbn [default]. eauto.
Qed.

Lemma named_issue results res :
  named results -> In res results -> is_issue res = true -> is_Some (monitor res).
Proof.
  intros H Hin Hi. unfold named in H. rewrite Forall_forall in H.
  apply H; [now apply list_elem_of_In | now apply is_issue_non_ok].
Qed.

Lemma scan_results_steady now results :
  named results ->
  forall s k,
    scan_results (steady now) results s k = (fold_left (Steady.step now) results s, None).
Proof.
  induction results as [|res results IH]; intros Hnamed s k; [reflexivity|].
  cbn [scan_results fold_left].
  destruct (scan_result_steady now s k res) as [k' ->].
  { intros Hi. apply (named_issue (res :: results)); [exact Hnamed | now left | exact Hi]. }
  apply IH. unfold named in *. now inversion Hnamed.
Qed.

(** When the clock stands still and every non-ok result names its monitor,
    a call is the pure loop followed by the clean-up and the rest. *)
Lemma process_and_send_steady now st results :
  named results ->
  process_and_send (steady now) st results = Steady.run now st results.
Proof.
  intros H. unfold process_and_send, Steady.run.
  now rewrite (scan_results_steady now results H).
Qed.

(** A call stops at the first non-ok result without monitor, before the
    clean-up and the write of the state. *)
Lemma named_prefix_named results : named (named_prefix results).
Proof.
  unfold named. induction results as [|res results IH]; [constructor|].
  cbn [named_prefix]. destruct (nameless res) eqn:E; [constructor|].
  constructor; [|exact IH]. intros Hn. apply is_issue_non_ok in Hn.
  unfold nameless in E. rewrite Hn in E. destruct (monitor res); [eauto|discriminate].
Qed.

Lemma named_prefix_all results : named results -> named_prefix results = results.
Proof.
  unfold named. induction 1 as [|res results Hres _ IH]; [reflexivity|].
  cbn [named_prefix]. unfold nameless.
  destruct (is_issue res) eqn:Hi; cbn [andb]; [|now rewrite IH].
  destruct (Hres (proj1 (is_issue_non_ok res) Hi)) as [m ->]. now rewrite IH.
Qed.

Lemma named_prefix_In results res : In res (named_prefix results) -> In res results.
Proof.
  induction results as [|r results IH]; [auto|]. cbn [named_prefix].
  destruct (nameless r); [intros []|]. intros [<-|H]; [now left | right; auto].
Qed.

Lemma scan_results_prefix now results :
  forall s k,
    let s1 := fold_left (Steady.step now) (named_prefix results) s in
    scan_results (steady now) results s k =
    match drop (length (named_prefix results)) results with
    | [] => (s1, None)
    | rest => (stopped s1 rest, Some (KeyError "monitor"))
    end.
Proof.
  induction results as [|res results IH]; intros s k; [reflexivity|].
  cbn [scan_results named_prefix]. destruct (nameless res) eqn:E.
  - cbn [length drop fold_left]. unfold nameless in E. apply andb_true_iff in E as [Hi Hm].
    unfold scan_result, _get_issue_id. rewrite Hi.
    destruct (monitor res); [discriminate | reflexivity].
  - destruct (scan_result_steady now s k res) as [k' ->].
    { intros Hi. unfold nameless in E. rewrite Hi in E.
      destruct (monitor res); [eauto | discriminate]. }
    cbn [length drop fold_left]. apply IH.
Qed.

(** A call at a clock that stands still: the pure loop over the results
    before the first non-ok result without monitor, and then the rest of
    the call or the exception. *)
Lemma process_and_send_prefix now st results :
  let o := process_and_send (steady now) st results in
  let pre := named_prefix results in
  let s1 := fold_left (Steady.step now) pre (mkScan st ∅ [] [] []) in
  (named results /\ o = Steady.run now st results) \/
  (exists rest,
     results = (pre ++ rest)%list /\ rest <> [] /\
     o = mkOutcome (scan_state s1) (seen_results s1 ++ rest)%list (alerts_to_send s1) []
                   (scan_log s1) (Some (KeyError "monitor"))).
Proof.
  cbv zeta. unfold process_and_send. rewrite scan_results_prefix. cbv zeta.
  destruct (drop (length (named_prefix results)) results) as [|r rest] eqn:E.
  - left. assert (Hall : named_prefix results = results).
    { rewrite <- (take_drop (length (named_prefix results)) results) at 2.
      rewrite E, app_nil_r. clear E.
      induction results as [|res results IH]; [reflexivity|].
      cbn [named_prefix]. destruct (nameless res); [reflexivity|].
      cbn [length take]. now rewrite <- IH. }
    split; [rewrite <- Hall; apply named_prefix_named|].
    unfold Steady.run. now rewrite Hall.
  - right. exists (r :: rest). split; [|split; [discriminate | reflexivity]].
    rewrite <- E. rewrite <- (take_drop (length (named_prefix results)) results) at 1.
    f_equal. clear E. induction results as [|res results IH]; [reflexivity|].
    cbn [named_prefix]. destruct (nameless res); [reflexivity|].
    cbn [length take]. now rewrite IH.
Qed.

End BridgeFacts.

(** ** The alert state machine: one pair through one cycle *)

Module ManagerFacts.
Import NotificationManager ManagerAux FinishFacts.

Lemma resend_window_pos : (0 < resend_window)%Z.
Proof. reflexivity. Qed.

Lemma expired_just_sent now data : last_sent data = now -> expired now data = false.
Proof.
  intros H. unfold expired. rewrite H. apply Z.ltb_ge.
  pose proof resend_window_pos. lia.
Qed.

Lemma expired_resent now data : expired now (resent now data) = false.
Proof. now apply expired_just_sent. Qed.

Lemma expired_created now res : expired now (created now res) = false.
Proof. now apply expired_just_sent. Qed.

(** Once a pair has met its first non-ok result, later results of the same
    cycle change nothing. *)
Lemma settle_settled now before res first :
  settle now (settle now before (Some res)) first = settle now before (Some res).
Proof.
  destruct first as [res'|]; [|now destruct before].
  destruct before as [data|]; simpl.
  - destruct (expired now data) eqn:E; [now rewrite expired_resent | now rewrite E].
  - now rewrite expired_created.
Qed.

Lemma alert_for_settled now before res first :
  alert_for now (settle now before (Some res)) first = [].
Proof.
  destruct first as [res'|]; [|now destruct before].
  destruct before as [data|]; simpl.
  - destruct (expired now data) eqn:E; [now rewrite expired_resent | now rewrite E].
  - now rewrite expired_created.
Qed.

Lemma scan_result_state now s res issue_id :
  scan_state (Steady.step now s res) !! issue_id =
  if is_issue res && has_id issue_id res
  then settle now (scan_state s !! issue_id) (Some res)
  else scan_state s !! issue_id.
Proof.
  unfold Steady.step, has_id. destruct (is_issue res); simpl; [|reflexivity].
  destruct (String.eqb_spec (key res) issue_id) as [<-|Hne].
  - destruct (scan_state s !! key res) as [data|] eqn:E; simpl.
    + destruct (expired now data); simpl.
      * now rewrite lookup_insert_eq.
      * exact E.
    + now rewrite lookup_insert_eq.
  - destruct (scan_state s !! key res) as [data|] eqn:E; simpl.
    + destruct (expired now data); simpl;
        [now rewrite lookup_insert_ne | reflexivity].
    + now rewrite lookup_insert_ne.
Qed.

Lemma scan_result_alerts now s res :
  alerts_to_send (Steady.step now s res) =
  (alerts_to_send s ++
   if is_issue res
   then alert_for now (scan_state s !! key res) (Some res)
   else [])%list.
Proof.
  unfold Steady.step. destruct (is_issue res); simpl; [|now rewrite app_nil_r].
  destruct (scan_state s !! key res) as [data|]; simpl; [|reflexivity].
  destruct (expired now data); simpl;
    [reflexivity | now rewrite app_nil_r].
Qed.

Lemma scan_result_current now s res :
  dom (current_issues (Steady.step now s res)) =
  dom (current_issues s) ∪ (if is_issue res then {[ key res ]} else ∅).
Proof.
  unfold Steady.step. destruct (is_issue res); simpl; [|now rewrite union_empty_r_L].
  destruct (scan_state s !! key res) as [data|]; simpl.
  - destruct (expired now data); simpl;
      rewrite dom_insert_L; apply union_comm_L.
  - rewrite dom_insert_L; apply union_comm_L.
Qed.

Lemma first_issue_cons issue_id res results :
  first_issue issue_id (res :: results) =
  if is_issue res && has_id issue_id res then Some res else first_issue issue_id results.
Proof. reflexivity. Qed.

(** The record of a pair after the first loop. *)
Lemma fold_scan_state now results s issue_id :
  scan_state (fold_left (Steady.step now) results s) !! issue_id =
  settle now (scan_state s !! issue_id) (first_issue issue_id results).
Proof.
  revert s. induction results as [|res results IH]; intros s; cbn [fold_left].
  - now destruct (scan_state s !! issue_id).
  - rewrite IH, scan_result_state, first_issue_cons.
    destruct (is_issue res && has_id issue_id res); [|reflexivity].
    apply settle_settled.
Qed.

Lemma filter_has_id_alert_for now before res issue_id :
  List.filter (has_id issue_id) (alert_for now before (Some res)) =
  if has_id issue_id res then alert_for now before (Some res) else [].
Proof.
  unfold alert_for.
  destruct before as [data|]; [destruct (expired now data)|]; simpl;
    unfold has_id; simpl; change (key (set_alert_count _ res))
      with (key res);
    destruct (String.eqb (key res) issue_id); reflexivity.
Qed.

(** The alerts of a pair selected by the first loop. *)
Lemma fold_scan_alerts now results s issue_id :
  List.filter (has_id issue_id) (alerts_to_send (fold_left (Steady.step now) results s)) =
  (List.filter (has_id issue_id) (alerts_to_send s) ++
   alert_for now (scan_state s !! issue_id) (first_issue issue_id results))%list.
Proof.
  revert s. induction results as [|res results IH]; intros s; cbn [fold_left].
  - destruct (scan_state s !! issue_id); simpl; now rewrite app_nil_r.
  - rewrite IH, scan_result_state, scan_result_alerts, first_issue_cons.
    rewrite List.filter_app, <- app_assoc. f_equal.
    destruct (is_issue res) eqn:Hi; cbn [andb List.filter app].
    + rewrite filter_has_id_alert_for.
      destruct (has_id issue_id res) eqn:Hid.
      * unfold has_id in Hid. apply String.eqb_eq in Hid. rewrite Hid.
        now rewrite alert_for_settled, app_nil_r.
      * reflexivity.
    + reflexivity.
Qed.

Lemma fold_scan_current now results s :
  dom (current_issues (fold_left (Steady.step now) results s)) =
  dom (current_issues s) ∪ issue_ids results.
Proof.
  revert s. induction results as [|res results IH]; intros s; simpl.
  - unfold issue_ids. simpl. now rewrite union_empty_r_L.
  - rewrite IH, scan_result_current. unfold issue_ids. simpl.
    destruct (is_issue res); simpl.
    + now rewrite union_assoc_L.
    + now rewrite union_empty_r_L.
Qed.

Lemma first_issue_Some issue_id results res :
  first_issue issue_id results = Some res ->
  In res results /\ is_issue res = true /\ key res = issue_id.
Proof.
  intros H. apply find_some in H as [Hin Hb].
  apply andb_true_iff in Hb as [Hi Hid]. apply String.eqb_eq in Hid. auto.
Qed.

Lemma first_issue_found res results :
  In res results -> is_issue res = true ->
  exists res0, first_issue (key res) results = Some res0.
Proof.
  intros Hin Hi.
  destruct (first_issue (key res) results) as [res0|] eqn:E; [eauto|].
  pose proof (find_none _ _ E res Hin) as Hn. cbv beta in Hn.
  unfold has_id in Hn. now rewrite Hi, String.eqb_refl in Hn.
Qed.

Lemma elem_issue_ids issue_id results :
  issue_id ∈ issue_ids results <->
  exists res, In res results /\ is_issue res = true /\ key res = issue_id.
Proof.
  unfold issue_ids. rewrite elem_of_list_to_set, list_elem_of_In, in_map_iff.
  split.
  - intros [res [Hid Hin]]. apply filter_In in Hin as [Hin Hi]. eauto.
  - intros [res [Hin [Hi Hid]]]. exists res. split; [exact Hid|].
    apply filter_In. auto.
Qed.

Lemma first_issue_None issue_id results :
  first_issue issue_id results = None <-> issue_id ∉ issue_ids results.
Proof.
  rewrite elem_issue_ids. split.
  - intros Hn [res [Hin [Hi Hid]]].
    destruct (first_issue_found res results Hin Hi) as [res0 H0].
    rewrite Hid in H0. congruence.
  - intros Hn. destruct (first_issue issue_id results) as [res|] eqn:E; [|reflexivity].
    exfalso. apply Hn. exists res. now apply first_issue_Some.
Qed.

(** The clean-up loop. *)
Lemma fold_delete_lookup (l : list string) (st : gmap string IssueRecord) k :
  fold_left (fun st i => delete i st) l st !! k =
  if decide (k ∈ l) then None else st !! k.
Proof.
  revert st. induction l as [|i l IH]; intros st; cbn [fold_left].
  - case_decide as H; [|reflexivity]. now apply elem_of_nil in H.
  - rewrite IH. destruct (decide (k ∈ l)) as [Hl|Hl].
    + rewrite decide_True; [reflexivity | now apply elem_of_cons; right].
    + destruct (decide (k = i)) as [->|Hne].
      * rewrite lookup_delete_eq, decide_True; [reflexivity | now apply elem_of_cons; left].
      * rewrite lookup_delete_ne by congruence.
        rewrite decide_False; [reflexivity|].
        intros [?|?]%elem_of_cons; contradiction.
Qed.

Lemma elem_ids_to_remove (st : gmap string IssueRecord) (cur : gmap string CheckResult) k :
  k ∈ ids_to_remove st cur <-> is_Some (st !! k) /\ cur !! k = None.
Proof.
  unfold ids_to_remove. rewrite list_elem_of_filter, list_elem_of_In, in_map_iff.
  split.
  - intros [Hc [[k' v] [Hk Hin]]]. simpl in Hk. subst k'.
    apply list_elem_of_In, elem_of_map_to_list in Hin. eauto.
  - intros [[v Hv] Hc]. split; [exact Hc|]. exists (k, v). split; [reflexivity|].
    now apply list_elem_of_In, elem_of_map_to_list.
Qed.

Lemma out_state_unfold now st results :
  out_state (Steady.run now st results) =
  let s := fold_left (Steady.step now) results (mkScan st ∅ [] [] []) in
  fold_left (fun st i => delete i st)
            (ids_to_remove (scan_state s) (current_issues s)) (scan_state s).
Proof. unfold Steady.run. apply finish_state. Qed.

Lemma out_alerts_unfold now st results :
  out_alerts (Steady.run now st results) =
  alerts_to_send (fold_left (Steady.step now) results (mkScan st ∅ [] [] [])).
Proof. unfold Steady.run. apply finish_alerts. Qed.

(** The record of a pair after a whole call. *)
Lemma out_state_lookup now st results issue_id :
  out_state (Steady.run now st results) !! issue_id =
  match first_issue issue_id results with
  | Some res => settle now (st !! issue_id) (Some res)
  | None => None
  end.
Proof.
  rewrite out_state_unfold. cbv zeta. rewrite fold_delete_lookup.
  set (s := fold_left _ _ _).
  assert (Hcur : current_issues s !! issue_id = None <-> first_issue issue_id results = None).
  { rewrite first_issue_None, <- not_elem_of_dom. unfold s.
    rewrite fold_scan_current. simpl. now rewrite dom_empty_L, union_empty_l_L. }
  assert (Hst : scan_state s !! issue_id =
                settle now (st !! issue_id) (first_issue issue_id results)).
  { unfold s. now rewrite fold_scan_state. }
  destruct (decide (issue_id ∈ ids_to_remove (scan_state s) (current_issues s)))
    as [Hin|Hnin].
  - apply elem_ids_to_remove in Hin as [_ Hc]. apply Hcur in Hc. now rewrite Hc.
  - rewrite Hst. destruct (first_issue issue_id results) as [res|] eqn:E; [reflexivity|].
    simpl. destruct (st !! issue_id) as [data|] eqn:Est; [|reflexivity].
    exfalso. apply Hnin, elem_ids_to_remove. split.
    + rewrite Hst. simpl. eauto.
    + now apply Hcur.
Qed.

(** The alerts of a pair after a whole call. *)
Lemma out_alerts_filter now st results issue_id :
  List.filter (has_id issue_id) (out_alerts (Steady.run now st results)) =
  alert_for now (st !! issue_id) (first_issue issue_id results).
Proof. rewrite out_alerts_unfold, fold_scan_alerts. reflexivity. Qed.

End ManagerFacts.

(** ** The alert state machine: grouping by domain *)

Module GroupFacts.
Import NotificationManager ManagerAux.

Lemma group_of_append d alert groups d' :
  group_of d' (group_append d alert groups) =
  if String.eqb d d'
  then Some (default [] (group_of d groups) ++ [alert])%list
  else group_of d' groups.
Proof.
  induction groups as [|[d0 g0] groups IH]; cbn [group_append group_of].
  - reflexivity.
  - destruct (String.eqb_spec d0 d) as [->|Hne]; cbn [group_of].
    + destruct (String.eqb d d'); reflexivity.
    + destruct (String.eqb_spec d0 d') as [->|Hne'].
      * destruct (String.eqb_spec d d') as [->|_]; [contradiction | reflexivity].
      * exact IH.
Qed.

Lemma group_keys_append d alert groups :
  map fst (group_append d alert groups) =
  match group_of d groups with
  | Some _ => map fst groups
  | None => (map fst groups ++ [d])%list
  end.
Proof.
  induction groups as [|[d0 g0] groups IH]; cbn [group_append group_of map fst].
  - reflexivity.
  - destruct (String.eqb_spec d0 d) as [->|Hne]; cbn [map fst]; [reflexivity|].
    rewrite IH. now destruct (group_of d groups).
Qed.

Lemma group_of_None d groups : group_of d groups = None <-> ~ In d (map fst groups).
Proof.
  induction groups as [|[d0 g0] groups IH]; cbn [group_of map fst In].
  - tauto.
  - destruct (String.eqb_spec d0 d) as [->|Hne].
    + split; [discriminate | intros H; exfalso; apply H; now left].
    + rewrite IH. tauto.
Qed.

Lemma group_of_In d g groups :
  NoDup (map fst groups) -> (In (d, g) groups <-> group_of d groups = Some g).
Proof.
  induction groups as [|[d0 g0] groups IH]; cbn [group_of map fst In]; intros Hnd.
  - split; [tauto | discriminate].
  - apply NoDup_cons in Hnd as [Hfresh Hnd].
    destruct (String.eqb_spec d0 d) as [->|Hne].
    + split.
      * intros [H|H]; [congruence|].
        exfalso. apply Hfresh, list_elem_of_In, in_map_iff. now exists (d, g).
      * intros H. left. congruence.
    + rewrite <- (IH Hnd). split; [intros [H|H]; [congruence | exact H] | tauto].
Qed.

Lemma domain_groups_snoc alerts alert :
  domain_groups (alerts ++ [alert]) =
  group_append (domain alert) alert (domain_groups alerts).
Proof. unfold domain_groups. now rewrite fold_left_app. Qed.

Lemma domain_groups_keys alerts : NoDup (map fst (domain_groups alerts)).
Proof.
  induction alerts as [|alert alerts IH] using rev_ind.
  - constructor.
  - rewrite domain_groups_snoc, group_keys_append.
    destruct (group_of (domain alert) (domain_groups alerts)) eqn:E; [exact IH|].
    apply group_of_None in E. apply NoDup_app; repeat split.
    + exact IH.
    + intros x Hx Hin. apply list_elem_of_In in Hin as [<-|[]].
      apply E. now apply list_elem_of_In.
    + apply NoDup_singleton.
Qed.

(** The group of a domain holds its alerts, in the order of the alerts. *)
Lemma domain_groups_group_of alerts d :
  group_of d (domain_groups alerts) =
  match List.filter (in_domain d) alerts with
  | [] => None
  | g => Some g
  end.
Proof.
  induction alerts as [|alert alerts IH] using rev_ind.
  - reflexivity.
  - rewrite domain_groups_snoc, group_of_append, List.filter_app.
    cbn [List.filter]. unfold in_domain at 2.
    destruct (String.eqb_spec (domain alert) d) as [->|Hne].
    + rewrite IH.
      destruct (List.filter _ alerts); reflexivity.
    + rewrite app_nil_r. exact IH.
Qed.

Lemma domain_groups_In alerts d g :
  In (d, g) (domain_groups alerts) <->
  g = List.filter (in_domain d) alerts /\ g <> [].
Proof.
  rewrite (group_of_In d g _ (domain_groups_keys alerts)), domain_groups_group_of.
  destruct (List.filter (in_domain d) alerts) as [|a l]; split.
  - discriminate.
  - intros [-> H]. contradiction.
  - intros [= <-]. split; [reflexivity | discriminate].
  - intros [-> _]. reflexivity.
Qed.

(** Every alert is filed in the group of its domain. *)
Lemma domain_groups_member alerts alert :
  In alert alerts ->
  exists g, In (domain alert, g) (domain_groups alerts) /\ In alert g.
Proof.
  intros Hin. exists (List.filter (in_domain (domain alert)) alerts).
  assert (Hm : In alert (List.filter (in_domain (domain alert)) alerts)).
  { apply filter_In. split; [exact Hin|]. unfold in_domain. apply String.eqb_refl. }
  split; [|exact Hm]. apply domain_groups_In. split; [reflexivity|].
  intros E. rewrite E in Hm. destruct Hm.
Qed.

End GroupFacts.

(** ** The alert state machine: effects of a call, and silent runs *)

Module RunFacts.
Import NotificationManager ManagerAux FinishFacts BridgeFacts ManagerFacts.

Lemma saves_app e1 e2 : saves (e1 ++ e2) = (saves e1 ++ saves e2)%list.
Proof. apply omap_app. Qed.

Lemma sends_app e1 e2 : sends (e1 ++ e2) = (sends e1 ++ sends e2)%list.
Proof. apply omap_app. Qed.

Lemma saves_resolved l : saves (map LogResolved l) = [].
Proof. induction l as [|i l IH]; [reflexivity | exact IH]. Qed.

Lemma sends_resolved l : sends (map LogResolved l) = [].
Proof. induction l as [|i l IH]; [reflexivity | exact IH]. Qed.

(** The first loop only logs. *)
Lemma scan_result_log now s res :
  saves (scan_log (Steady.step now s res)) = saves (scan_log s) /\
  sends (scan_log (Steady.step now s res)) = sends (scan_log s).
Proof.
  unfold Steady.step. destruct (is_issue res); [|auto].
  destruct (scan_state s !! key res) as [data|]; [|auto].
  destruct (expired now data); cbn [scan_log];
    rewrite saves_app, sends_app; cbn; now rewrite !app_nil_r.
Qed.

Lemma fold_scan_log now results s :
  saves (scan_log (fold_left (Steady.step now) results s)) = saves (scan_log s) /\
  sends (scan_log (fold_left (Steady.step now) results s)) = sends (scan_log s).
Proof.
  revert s. induction results as [|res results IH]; intros s; cbn [fold_left].
  - auto.
  - destruct (IH (Steady.step now s res)) as [-> ->]. apply scan_result_log.
Qed.

Lemma out_digests_unfold now st results :
  out_digests (Steady.run now st results) =
  domain_groups (out_alerts (Steady.run now st results)).
Proof. unfold Steady.run. now rewrite finish_digests, finish_alerts. Qed.

(** The state is written exactly once in a call, after the clean-up; then
    comes the line that tells that there is nothing to send, or the attempt
    to send, which hands over nothing. *)
Lemma out_effects_split now st results :
  let o := Steady.run now st results in
  exists logs,
    saves logs = [] /\ sends logs = [] /\
    out_effects o =
    (logs ++ [SaveState (out_state o)] ++
     match out_alerts o with
     | [] => [LogNoAlerts]
     | _ :: _ => []
     end)%list.
Proof.
  cbv zeta. unfold Steady.run.
  set (s := fold_left _ _ _).
  exists (scan_log s ++ map LogResolved (removed_ids s))%list.
  destruct (fold_scan_log now results (mkScan st ∅ [] [] [])) as [Hsv Hsd].
  fold s in Hsv, Hsd. cbn [scan_log] in Hsv, Hsd.
  rewrite saves_app, sends_app, saves_resolved, sends_resolved, Hsv, Hsd.
  repeat split.
  rewrite finish_effects, finish_alerts. now rewrite <- !app_assoc.
Qed.

(** A result whose record is inside the resend window is snoozed. *)
Lemma scan_result_snoozed now s res :
  (is_issue res = true ->
   exists data, scan_state s !! key res = Some data /\ expired now data = false) ->
  scan_state (Steady.step now s res) = scan_state s /\
  alerts_to_send (Steady.step now s res) = alerts_to_send s /\
  scan_log (Steady.step now s res) = (scan_log s ++ snooze_log (scan_state s) [res])%list.
Proof.
  intros H. unfold Steady.step, snooze_log. cbn [List.filter].
  destruct (is_issue res); [|cbn; now rewrite app_nil_r].
  destruct (H eq_refl) as [data [Hd He]]. rewrite Hd.
  rewrite He. cbn. rewrite Hd. auto.
Qed.

Lemma snooze_log_cons st res results :
  snooze_log st (res :: results) = (snooze_log st [res] ++ snooze_log st results)%list.
Proof.
  unfold snooze_log. cbn [List.filter]. destruct (is_issue res); reflexivity.
Qed.

Lemma fold_scan_snoozed now results s :
  (forall res, In res results -> is_issue res = true ->
   exists data, scan_state s !! key res = Some data /\ expired now data = false) ->
  let s' := fold_left (Steady.step now) results s in
  scan_state s' = scan_state s /\
  alerts_to_send s' = alerts_to_send s /\
  scan_log s' = (scan_log s ++ snooze_log (scan_state s) results)%list.
Proof.
  revert s. induction results as [|res results IH]; intros s H; cbn [fold_left].
  - cbn. now rewrite app_nil_r.
  - destruct (scan_result_snoozed now s res) as [Hst [Hal Hlog]].
    { intros Hi. apply H; [now left | exact Hi]. }
    destruct (IH (Steady.step now s res)) as [Hst' [Hal' Hlog']].
    { intros r Hin Hi. rewrite Hst. apply H; [now right | exact Hi]. }
    cbv zeta in *. rewrite Hst', Hal', Hlog', Hst, Hal, Hlog.
    repeat split. now rewrite (snooze_log_cons _ res results), app_assoc.
Qed.

Lemma sends_snooze_log st results : sends (snooze_log st results) = [].
Proof.
  unfold snooze_log. induction (List.filter is_issue results) as [|r l IH];
    [reflexivity | exact IH].
Qed.

(** A state whose keys are the current issues, all inside the resend
    window, is left alone and nothing is sent. *)
Lemma settled_run_silent now (st : gmap string IssueRecord) results :
  named results ->
  dom st = issue_ids results ->
  (forall res, In res results -> is_issue res = true ->
   exists data, st !! key res = Some data /\ expired now data = false) ->
  silent_run now st results.
Proof.
  intros Hnamed Hdom Hset.
  destruct (fold_scan_snoozed now results (mkScan st ∅ [] [] []) Hset)
    as [Hst [Hal Hlog]]. cbv zeta in Hst, Hal, Hlog. cbn in Hst, Hal, Hlog.
  assert (Hrm : ids_to_remove st
                  (current_issues (fold_left (Steady.step now) results
                                             (mkScan st ∅ [] [] []))) = []).
  { destruct (ids_to_remove _ _) as [|k l] eqn:E; [reflexivity|].
    assert (Hk : k ∈ ids_to_remove st
                  (current_issues (fold_left (Steady.step now) results
                                             (mkScan st ∅ [] [] [])))).
    { rewrite E. now left. }
    apply elem_ids_to_remove in Hk as [Hsome Hnone].
    apply not_elem_of_dom in Hnone. rewrite fold_scan_current in Hnone.
    apply elem_of_dom in Hsome. rewrite Hdom in Hsome.
    exfalso. apply Hnone, elem_of_union. now right. }
  unfold silent_run. cbv zeta. rewrite (process_and_send_steady now st results Hnamed).
  unfold Steady.run, finish.
  rewrite Hst, Hal, Hlog, Hrm.
  cbn [fold_left map app out_alerts out_digests out_state out_effects out_raised].
  rewrite <- !app_assoc. cbn [app].
  split; [reflexivity|]. split; [reflexivity|]. split; [reflexivity|].
  split; [rewrite sends_app; now rewrite sends_snooze_log|].
  split; [reflexivity|]. split; [reflexivity|].
  apply Forall_forall. intros res Hin Hi. apply list_elem_of_In in Hin.
  destruct (Hset res Hin Hi) as [data [Hd He]]. exists data. split; [exact Hd|].
  unfold expired in He. now apply Z.ltb_ge in He.
Qed.

(** The results a call leaves behind differ from the ones it was given
    only in [alert_count]. *)
Lemma scan_result_seen now s res :
  exists res', seen_results (Steady.step now s res) = (seen_results s ++ [res'])%list /\
               same_report res res'.
Proof.
  unfold Steady.step. destruct (is_issue res).
  - destruct (scan_state s !! key res) as [data|].
    + destruct (expired now data); eexists; split;
        try reflexivity; now destruct res.
    + eexists; split; [reflexivity | now destruct res].
  - eexists; split; [reflexivity | now destruct res].
Qed.

Lemma fold_scan_seen now results s :
  exists results',
    seen_results (fold_left (Steady.step now) results s) = (seen_results s ++ results')%list /\
    Forall2 same_report results results'.
Proof.
  revert s. induction results as [|res results IH]; intros s; cbn [fold_left].
  - exists []. split; [now rewrite app_nil_r | constructor].
  - destruct (scan_result_seen now s res) as [res' [Hs Hr]].
    destruct (IH (Steady.step now s res)) as [results' [Hs' Hr']].
    exists (res' :: results'). split; [|now constructor].
    now rewrite Hs', Hs, <- app_assoc.
Qed.

Lemma out_results_same now st results :
  Forall2 same_report results (out_results (Steady.run now st results)).
Proof.
  destruct (fold_scan_seen now results (mkScan st ∅ [] [] [])) as [results' [Hs Hr]].
  unfold Steady.run. rewrite finish_results, Hs. exact Hr.
Qed.

Lemma same_report_issue a b : same_report a b -> is_issue b = is_issue a.
Proof. intros ->. reflexivity. Qed.

Lemma same_report_id a b : same_report a b -> key b = key a.
Proof. intros ->. reflexivity. Qed.

Lemma same_report_issue_ids l l' : Forall2 same_report l l' -> issue_ids l' = issue_ids l.
Proof.
  unfold issue_ids. induction 1 as [|a b l l' Hab Hl IH]; [reflexivity|].
  cbn [List.filter]. rewrite (same_report_issue a b Hab).
  destruct (is_issue a); cbn [map list_to_set]; [|exact IH].
  now rewrite (same_report_id a b Hab), IH.
Qed.

Lemma same_report_In l l' b :
  Forall2 same_report l l' -> In b l' -> exists a, In a l /\ same_report a b.
Proof.
  induction 1 as [|a0 b0 l l' Hab Hl IH]; intros Hin; [destruct Hin|].
  destruct Hin as [<-|Hin].
  - exists a0. split; [now left | exact Hab].
  - destruct (IH Hin) as [a [Ha Hr]]. exists a. split; [now right | exact Hr].
Qed.

End RunFacts.

(** ** The alert state machine: one pair through one cycle, whatever the
    clock reads *)

Module ClockFacts.
Import NotificationManager ManagerAux FinishFacts BridgeFacts ManagerFacts.

Lemma resend_window_value : resend_window = 86400000000%Z.
Proof. reflexivity. Qed.

Lemma has_id_count issue_id n res :
  has_id issue_id (set_alert_count n res) = has_id issue_id res.
Proof. reflexivity. Qed.

(** A result that is not a non-ok result of the pair leaves the pair
    alone. *)
Lemma scan_result_frame clock s k res s' k' issue_id :
  scan_result clock s k res = inr (s', k') ->
  is_issue res && has_id issue_id res = false ->
  scan_state s' !! issue_id = scan_state s !! issue_id /\
  List.filter (has_id issue_id) (alerts_to_send s') =
    List.filter (has_id issue_id) (alerts_to_send s) /\
  current_issues s' !! issue_id = current_issues s !! issue_id.
Proof.
  unfold scan_result. destruct (is_issue res) eqn:Hi; cbn [andb].
  - destruct (_get_issue_id res) as [e|id] eqn:Hid; [discriminate|].
    apply get_issue_id_inr in Hid as [-> [m Hm]].
    unfold has_id at 1. intros Hstep Hne. apply String.eqb_neq in Hne.
    destruct (scan_state s !! key res) as [data|].
    + destruct (_ <? _)%Z; injection Hstep as <- <-;
        cbn [scan_state alerts_to_send current_issues];
        rewrite ?List.filter_app; cbn [List.filter]; rewrite ?has_id_count;
        unfold has_id at 2; rewrite ?(proj2 (String.eqb_neq _ _) Hne), ?app_nil_r;
        rewrite ?lookup_insert_ne by exact Hne; auto.
    + rewrite Hm in Hstep. injection Hstep as <- <-.
      cbn [scan_state alerts_to_send current_issues].
      rewrite List.filter_app. cbn [List.filter]. rewrite has_id_count.
      unfold has_id at 2. rewrite (proj2 (String.eqb_neq _ _) Hne), app_nil_r.
      rewrite !lookup_insert_ne by exact Hne. auto.
  - intros [= <- <-] _. auto.
Qed.

(** The first non-ok result of a pair without record creates the record
    from two readings of the clock and is alerted with count 1. *)
Lemma scan_result_new clock s k res s' k' :
  scan_result clock s k res = inr (s', k') ->
  is_issue res = true ->
  scan_state s !! key res = None ->
  exists m,
    monitor res = Some m /\
    scan_state s' !! key res = Some (mkIssue (clock k) (clock (S k)) 1 m (domain res)) /\
    List.filter (has_id (key res)) (alerts_to_send s') =
      (List.filter (has_id (key res)) (alerts_to_send s) ++ [set_alert_count 1 res])%list /\
    is_Some (current_issues s' !! key res).
Proof.
  unfold scan_result. intros Hstep Hi Hst. rewrite Hi in Hstep.
  destruct (_get_issue_id res) as [e|id] eqn:Hid; [discriminate|].
  apply get_issue_id_inr in Hid as [-> [m Hm]].
  rewrite Hst, Hm in Hstep. injection Hstep as <- <-. exists m.
  cbn [scan_state alerts_to_send current_issues].
  rewrite List.filter_app. cbn [List.filter]. rewrite has_id_count.
  unfold has_id at 2. rewrite String.eqb_refl, !lookup_insert_eq. eauto.
Qed.

(** The first non-ok result of a pair with a record: the reading of the
    clock decides. *)
Lemma scan_result_known clock s k res s' k' data :
  scan_result clock s k res = inr (s', k') ->
  is_issue res = true ->
  scan_state s !! key res = Some data ->
  is_Some (current_issues s' !! key res) /\
  if (resend_window <? clock k - last_sent data)%Z
  then
    scan_state s' !! key res =
      Some (mkIssue (first_seen data) (clock (S k)) (count data + 1)
                    (issue_monitor data) (issue_domain data)) /\
    List.filter (has_id (key res)) (alerts_to_send s') =
      (List.filter (has_id (key res)) (alerts_to_send s)
       ++ [set_alert_count (count data + 1) res])%list
  else
    scan_state s' = scan_state s /\ alerts_to_send s' = alerts_to_send s.
Proof.
  unfold scan_result. intros Hstep Hi Hst. rewrite Hi in Hstep.
  destruct (_get_issue_id res) as [e|id] eqn:Hid; [discriminate|].
  apply get_issue_id_inr in Hid as [-> [m Hm]].
  rewrite Hst in Hstep.
  destruct (_ <? _)%Z; injection Hstep as <- <-;
    cbn [scan_state alerts_to_send current_issues count];
    rewrite !lookup_insert_eq; (split; [eauto|]); [|auto].
  rewrite List.filter_app. cbn [List.filter]. rewrite has_id_count.
  unfold has_id at 2. rewrite String.eqb_refl. auto.
Qed.

Lemma scan_result_settled clock s k res s' k' issue_id data :
  scan_result clock s k res = inr (s', k') ->
  scan_state s !! issue_id = Some data ->
  inside clock data ->
  scan_state s' !! issue_id = Some data /\
  List.filter (has_id issue_id) (alerts_to_send s') =
    List.filter (has_id issue_id) (alerts_to_send s).
Proof.
  intros Hstep Hst Hin.
  destruct (is_issue res && has_id issue_id res) eqn:E.
  - apply andb_true_iff in E as [Hi Hid]. unfold has_id in Hid.
    apply String.eqb_eq in Hid. subst issue_id.
    destruct (scan_result_known clock s k res s' k' data Hstep Hi Hst) as [_ H].
    assert (Hle : (resend_window <? clock k - last_sent data)%Z = false)
      by (apply Z.ltb_ge, Hin).
    rewrite Hle in H. destruct H as [-> ->]. auto.
  - destruct (scan_result_frame clock s k res s' k' issue_id Hstep E) as (-> & -> & _).
    auto.
Qed.

Lemma scan_results_settled clock results issue_id data :
  inside clock data ->
  forall s k s',
    scan_results clock results s k = (s', None) ->
    scan_state s !! issue_id = Some data ->
    scan_state s' !! issue_id = Some data /\
    List.filter (has_id issue_id) (alerts_to_send s') =
      List.filter (has_id issue_id) (alerts_to_send s).
Proof.
  intros Hin. induction results as [|res results IH]; intros s k s' Hrun Hst.
  - injection Hrun as <-. auto.
  - cbn [scan_results] in Hrun.
    destruct (scan_result clock s k res) as [e|[s1 k1]] eqn:Hstep; [discriminate|].
    destruct (scan_result_settled clock s k res s1 k1 issue_id data Hstep Hst Hin)
      as [Hst1 Hal1].
    destruct (IH s1 k1 s' Hrun Hst1) as [Hst' Hal']. split; [exact Hst'|congruence].
Qed.

(** Records are created and changed by the first loop, never removed. *)
Lemma scan_result_keeps clock s k res s' k' issue_id :
  scan_result clock s k res = inr (s', k') ->
  is_Some (scan_state s !! issue_id) ->
  is_Some (scan_state s' !! issue_id).
Proof.
  intros Hstep Hs.
  destruct (is_issue res && has_id issue_id res) eqn:E.
  - apply andb_true_iff in E as [Hi Hid]. unfold has_id in Hid.
    apply String.eqb_eq in Hid. subst issue_id. destruct Hs as [data Hd].
    destruct (scan_result_known clock s k res s' k' data Hstep Hi Hd) as [_ H].
    destruct (_ <? _)%Z; destruct H as [H _]; rewrite H; eauto.
  - destruct (scan_result_frame clock s k res s' k' issue_id Hstep E) as (-> & _ & _).
    exact Hs.
Qed.

Lemma scan_results_keeps clock results issue_id :
  forall s k s',
    scan_results clock results s k = (s', None) ->
    is_Some (scan_state s !! issue_id) ->
    is_Some (scan_state s' !! issue_id).
Proof.
  induction results as [|res results IH]; intros s k s' Hrun Hs.
  - now injection Hrun as <-.
  - cbn [scan_results] in Hrun.
    destruct (scan_result clock s k res) as [e|[s1 k1]] eqn:Hstep; [discriminate|].
    apply (IH s1 k1 s' Hrun). exact (scan_result_keeps clock s k res s1 k1 _ Hstep Hs).
Qed.

Lemma scan_results_has clock results issue_id first :
  first_issue issue_id results = Some first ->
  forall s k s',
    scan_results clock results s k = (s', None) ->
    is_Some (scan_state s' !! issue_id).
Proof.
  induction results as [|res results IH]; intros Hfirst s k s' Hrun; [discriminate|].
  cbn [scan_results] in Hrun. rewrite first_issue_cons in Hfirst.
  destruct (scan_result clock s k res) as [e|[s1 k1]] eqn:Hstep; [discriminate|].
  destruct (is_issue res && has_id issue_id res) eqn:E.
  - apply andb_true_iff in E as [Hi Hid]. unfold has_id in Hid.
    apply String.eqb_eq in Hid. subst issue_id.
    apply (scan_results_keeps clock results _ s1 k1 s' Hrun).
    destruct (scan_state s !! key res) as [data|] eqn:Hst.
    + destruct (scan_result_known clock s k res s1 k1 data Hstep Hi Hst) as [_ H].
      destruct (_ <? _)%Z; destruct H as [H _]; rewrite H; eauto.
    + destruct (scan_result_new clock s k res s1 k1 Hstep Hi Hst) as (m & _ & H & _).
      rewrite H. eauto.
  - exact (IH Hfirst s1 k1 s' Hrun).
Qed.

(** The first loop only logs. *)
Lemma scan_result_logs clock s k res s' k' :
  scan_result clock s k res = inr (s', k') ->
  saves (scan_log s') = saves (scan_log s) /\ sends (scan_log s') = sends (scan_log s).
Proof.
  unfold scan_result. destruct (is_issue res).
  - destruct (_get_issue_id res) as [e|id]; [discriminate|].
    destruct (scan_state s !! id) as [data|].
    + destruct (_ <? _)%Z; intros [= <- <-]; cbn [scan_log];
        unfold saves, sends; rewrite !omap_app; cbn; now rewrite !app_nil_r.
    + destruct (monitor res); [|discriminate]. intros [= <- <-]. auto.
  - intros [= <- <-]. auto.
Qed.

Lemma scan_results_logs clock results :
  forall s k s' raised,
    scan_results clock results s k = (s', raised) ->
    saves (scan_log s') = saves (scan_log s) /\ sends (scan_log s') = sends (scan_log s).
Proof.
  induction results as [|res results IH]; intros s k s' raised Hrun.
  - injection Hrun as <- <-. auto.
  - cbn [scan_results] in Hrun.
    destruct (scan_result clock s k res) as [e|[s1 k1]] eqn:Hstep.
    + injection Hrun as <- <-. auto.
    + destruct (IH s1 k1 s' raised Hrun) as [-> ->].
      exact (scan_result_logs clock s k res s1 k1 Hstep).
Qed.

Lemma scan_results_alerts_named clock results :
  forall s k s' raised,
    scan_results clock results s k = (s', raised) ->
    Forall labelled (alerts_to_send s) ->
    Forall labelled (alerts_to_send s').
Proof.
  induction results as [|res results IH]; intros s k s' raised Hrun Hall.
  - now injection Hrun as <- <-.
  - cbn [scan_results] in Hrun.
    destruct (scan_result clock s k res) as [e|[s1 k1]] eqn:Hstep.
    + now injection Hrun as <- <-.
    + apply (IH s1 k1 s' raised Hrun). clear Hrun IH.
      unfold scan_result in Hstep. destruct (is_issue res).
      * destruct (_get_issue_id res) as [e|id] eqn:Hid; [discriminate|].
        apply get_issue_id_inr in Hid as [-> Hm].
        destruct (scan_state s !! key res) as [data|].
        -- destruct (_ <? _)%Z; injection Hstep as <- <-; cbn [alerts_to_send];
             [|exact Hall]. apply Forall_app. split; [exact Hall|].
           repeat constructor; cbn; eauto.
        -- destruct Hm as [m Hm]. rewrite Hm in Hstep. injection Hstep as <- <-.
           cbn [alerts_to_send]. apply Forall_app. split; [exact Hall|].
           repeat constructor; cbn; rewrite ?Hm; eauto.
      * now injection Hstep as <- <-.
Qed.

(** The alerts are among the results seen, in their order. *)
Lemma scan_results_sublist clock results :
  forall s k s' raised,
    scan_results clock results s k = (s', raised) ->
    alerts_to_send s `sublist_of` seen_results s ->
    alerts_to_send s' `sublist_of` seen_results s'.
Proof.
  induction results as [|res results IH]; intros s k s' raised Hrun Hsub.
  - now injection Hrun as <- <-.
  - cbn [scan_results] in Hrun.
    destruct (scan_result clock s k res) as [e|[s1 k1]] eqn:Hstep.
    + injection Hrun as <- <-. cbn [alerts_to_send seen_results].
      now apply sublist_inserts_r.
    + apply (IH s1 k1 s' raised Hrun). clear Hrun IH.
      unfold scan_result in Hstep. destruct (is_issue res).
      * destruct (_get_issue_id res) as [e|id]; [discriminate|].
        destruct (scan_state s !! id) as [data|].
        -- destruct (_ <? _)%Z; injection Hstep as <- <-;
             cbn [alerts_to_send seen_results];
             [now apply sublist_app | now apply sublist_inserts_r].
        -- destruct (monitor res); [|discriminate]. injection Hstep as <- <-.
           cbn [alerts_to_send seen_results]. now apply sublist_app.
      * injection Hstep as <- <-. cbn [alerts_to_send seen_results].
        now apply sublist_inserts_r.
Qed.

(** The pairs with a non-ok result so far. *)
Lemma scan_results_current clock results issue_id :
  forall s k s',
    scan_results clock results s k = (s', None) ->
    (is_Some (current_issues s' !! issue_id) <->
     is_Some (current_issues s !! issue_id) \/ is_Some (first_issue issue_id results)).
Proof.
  induction results as [|res results IH]; intros s k s' Hrun.
  - injection Hrun as <-. cbn. split; [auto|]. intros [H|[x Hx]]; [exact H|discriminate].
  - cbn [scan_results] in Hrun.
    destruct (scan_result clock s k res) as [e|[s1 k1]] eqn:Hstep; [discriminate|].
    rewrite (IH s1 k1 s' Hrun), first_issue_cons.
    destruct (is_issue res && has_id issue_id res) eqn:E.
    + apply andb_true_iff in E as [Hi Hid]. unfold has_id in Hid.
      apply String.eqb_eq in Hid. subst issue_id.
      assert (Hc : is_Some (current_issues s1 !! key res)).
      { destruct (scan_state s !! key res) as [data|] eqn:Hst.
        - exact (proj1 (scan_result_known clock s k res s1 k1 data Hstep Hi Hst)).
        - destruct (scan_result_new clock s k res s1 k1 Hstep Hi Hst) as (m & _ & _ & _ & H).
          exact H. }
      split; eauto.
    + destruct (scan_result_frame clock s k res s1 k1 issue_id Hstep E) as (_ & _ & ->).
      tauto.
Qed.


Lemma calm_inside clock j data :
  calm clock -> last_sent data = clock j -> inside clock data.
Proof. intros Hcalm Heq i. rewrite Heq, resend_window_value. apply Hcalm. Qed.

(** A pair without record, through the first loop. *)
Lemma scan_results_new clock results issue_id first :
  calm clock ->
  first_issue issue_id results = Some first ->
  forall s k s',
    scan_results clock results s k = (s', None) ->
    scan_state s !! issue_id = None ->
    exists j m,
      monitor first = Some m /\
      scan_state s' !! issue_id
        = Some (mkIssue (clock j) (clock (S j)) 1 m (domain first)) /\
      List.filter (has_id issue_id) (alerts_to_send s') =
        (List.filter (has_id issue_id) (alerts_to_send s) ++ [set_alert_count 1 first])%list.
Proof.
  intros Hcalm. induction results as [|res results IH]; intros Hfirst s k s' Hrun Hst;
    [discriminate|].
  cbn [scan_results] in Hrun. rewrite first_issue_cons in Hfirst.
  destruct (scan_result clock s k res) as [e|[s1 k1]] eqn:Hstep; [discriminate|].
  destruct (is_issue res && has_id issue_id res) eqn:E.
  - injection Hfirst as ->.
    apply andb_true_iff in E as [Hi Hid]. unfold has_id in Hid.
    apply String.eqb_eq in Hid. subst issue_id.
    destruct (scan_result_new clock s k first s1 k1 Hstep Hi Hst) as (m & Hm & Hs1 & Ha1 & _).
    assert (Hin : inside clock (mkIssue (clock k) (clock (S k)) 1 m (domain first)))
      by (apply (calm_inside clock (S k)); [exact Hcalm | reflexivity]).
    destruct (scan_results_settled clock results (key first) _ Hin s1 k1 s' Hrun Hs1)
      as [Hs' Ha'].
    exists k, m. split; [exact Hm|]. split; [exact Hs'|]. congruence.
  - destruct (scan_result_frame clock s k res s1 k1 issue_id Hstep E) as (H1 & H2 & _).
    destruct (IH Hfirst s1 k1 s' Hrun) as (j & m & Hm & Hs' & Ha'); [congruence|].
    exists j, m. split; [exact Hm|]. split; [exact Hs'|]. congruence.
Qed.


(** With every non-ok result naming its monitor the first loop runs to its
    end. *)
Lemma scan_result_returns clock s k res :
  (is_issue res = true -> is_Some (monitor res)) ->
  exists s' k', scan_result clock s k res = inr (s', k').
Proof.
  intros Hnamed. unfold scan_result. destruct (is_issue res); [|eauto].
  destruct (Hnamed eq_refl) as [m Hm].
  rewrite (get_issue_id_named res) by eauto.
  destruct (scan_state s !! key res) as [data|].
  - destruct (_ <? _)%Z; eauto.
  - rewrite Hm. eauto.
Qed.

Lemma scan_results_returns clock results :
  named results ->
  forall s k, exists s', scan_results clock results s k = (s', None).
Proof.
  induction results as [|res results IH]; intros Hnamed s k; [cbn; eauto|].
  cbn [scan_results].
  destruct (scan_result_returns clock s k res) as (s1 & k1 & ->).
  { intros Hi. apply (named_issue (res :: results)); [exact Hnamed | now left | exact Hi]. }
  apply IH. unfold named in *. now inversion Hnamed.
Qed.

(** The record of a pair after the clean-up. *)
Lemma finish_lookup s issue_id :
  out_state (finish s) !! issue_id =
  match current_issues s !! issue_id with
  | Some _ => scan_state s !! issue_id
  | None => None
  end.
Proof.
  rewrite finish_state, fold_delete_lookup. unfold removed_ids.
  destruct (decide (issue_id ∈ ids_to_remove (scan_state s) (current_issues s)))
    as [Hin|Hnin].
  - apply elem_ids_to_remove in Hin as [_ ->]. reflexivity.
  - destruct (current_issues s !! issue_id) eqn:Hc; [reflexivity|].
    destruct (scan_state s !! issue_id) eqn:Hs; [|reflexivity].
    exfalso. apply Hnin, elem_ids_to_remove. split; [eauto | exact Hc].
Qed.

(** The only exception of the first loop is the missing key, and a non-ok
    result without monitor raises it. *)
Lemma scan_result_raised clock s k res e :
  scan_result clock s k res = inl e -> e = KeyError "monitor".
Proof.
  unfold scan_result. destruct (is_issue res); [|discriminate].
  unfold _get_issue_id. destruct (monitor res) as [m|]; [|now intros [= <-]].
  destruct (scan_state s !! _) as [data|]; [|discriminate].
  destruct (_ <? _)%Z; discriminate.
Qed.

Lemma scan_results_raises clock results :
  Exists (fun res => non_ok res /\ monitor res = None) results ->
  forall s k, exists s', scan_results clock results s k = (s', Some (KeyError "monitor")).
Proof.
  induction 1 as [res rest [Hbad Hnone]|res rest _ IH]; intros s k; cbn [scan_results].
  - unfold scan_result, _get_issue_id.
    rewrite (proj2 (is_issue_non_ok res) Hbad), Hnone. eauto.
  - destruct (scan_result clock s k res) as [e|[s1 k1]] eqn:Hstep; [|apply IH].
    rewrite (scan_result_raised clock s k res e Hstep). eauto.
Qed.

(** A call on results one of which is non-ok and has no monitor ends with
    the exception, before the state is written. *)
Lemma call_raises clock st results :
  Exists (fun res => non_ok res /\ monitor res = None) results ->
  out_raised (process_and_send clock st results) = Some (KeyError "monitor") /\
  saves (out_effects (process_and_send clock st results)) = [] /\
  sends (out_effects (process_and_send clock st results)) = [].
Proof.
  intros Hbad. unfold process_and_send.
  destruct (scan_results_raises clock results Hbad (mkScan st ∅ [] [] []) 0) as [s Hs].
  rewrite Hs. cbn [out_raised out_effects].
  destruct (scan_results_logs clock results _ _ _ _ Hs) as [-> ->]. auto.
Qed.

Section Call.
Variable clock : Clock.
Variable st : gmap string IssueRecord.
Variable results : list CheckResult.
Hypothesis Hnamed : named results.

Lemma call_finishes :
  exists s, scan_results clock results (mkScan st ∅ [] [] []) 0 = (s, None) /\
            process_and_send clock st results = finish s.
Proof.
  destruct (scan_results_returns clock results Hnamed (mkScan st ∅ [] [] []) 0) as [s Hs].
  exists s. split; [exact Hs|]. unfold process_and_send. now rewrite Hs.
Qed.

Lemma call_digests :
  out_digests (process_and_send clock st results)
  = domain_groups (out_alerts (process_and_send clock st results)).
Proof.
  destruct call_finishes as (s & _ & ->). now rewrite finish_digests, finish_alerts.
Qed.


Lemma call_current issue_id first :
  first_issue issue_id results = Some first ->
  forall s, scan_results clock results (mkScan st ∅ [] [] []) 0 = (s, None) ->
            out_state (finish s) !! issue_id = scan_state s !! issue_id.
Proof.
  intros Hfirst s Hs. rewrite finish_lookup.
  pose proof (scan_results_current clock results issue_id _ _ _ Hs) as Hc.
  destruct (proj2 Hc) as [x ->]; [right; rewrite Hfirst; eauto | reflexivity].
Qed.

(** A pair without record that reports a non-ok status. *)
Lemma call_new issue_id first :
  calm clock ->
  st !! issue_id = None ->
  first_issue issue_id results = Some first ->
  exists j m,
    monitor first = Some m /\
    out_state (process_and_send clock st results) !! issue_id
      = Some (mkIssue (clock j) (clock (S j)) 1 m (domain first)) /\
    List.filter (has_id issue_id) (out_alerts (process_and_send clock st results))
      = [set_alert_count 1 first].
Proof.
  intros Hcalm Hst Hfirst. destruct call_finishes as (s & Hs & ->).
  rewrite (call_current issue_id first Hfirst s Hs), finish_alerts.
  destruct (scan_results_new clock results issue_id first Hcalm Hfirst _ _ _ Hs Hst)
    as (j & m & Hm & Hs' & Ha'). eauto.
Qed.



End Call.

End ClockFacts.

(** ** Running computations *)

Module EffFacts.
Import Eff EventAux.

Lemma bind_inr {A B} (m : M A) (f : A -> M B) h a ev r ev' :
  m h = (inr a, ev) -> f a (h ++ ev)%list = (r, ev') ->
  bind m f h = (r, (ev ++ ev')%list).
Proof. intros Hm Hf. unfold bind. now rewrite Hm, Hf. Qed.

Lemma bind_inl {A B} (m : M A) (f : A -> M B) h e ev :
  m h = (inl e, ev) -> bind m f h = (inl e, ev).
Proof. intros Hm. unfold bind. now rewrite Hm. Qed.

Lemma try_catch_inr {A} (m : M A) handler h a ev :
  m h = (inr a, ev) -> try_catch m handler h = (inr a, ev).
Proof. intros Hm. unfold try_catch. now rewrite Hm. Qed.

Lemma try_catch_inl {A} (m : M A) handler h e ev r ev' :
  m h = (inl e, ev) -> handler e (h ++ ev)%list = (r, ev') ->
  try_catch m handler h = (r, (ev ++ ev')%list).
Proof. intros Hm Hh. unfold try_catch. now rewrite Hm, Hh. Qed.

(** *** Computations whose events satisfy a predicate *)

Section Emits.
Variable P : Event -> Prop.

Lemma emits_ret {A} (a : A) : emits P (ret a).
Proof. intros h. constructor. Qed.

Lemma emits_raise {A} e : emits P (@raise A e).
Proof. intros h. constructor. Qed.

Lemma emits_ask {A} ev (answer : list Event -> Exn + A) :
  P ev -> emits P (ask ev answer).
Proof. intros H h. cbn. now repeat constructor. Qed.

Lemma emits_emit ev : P ev -> emits P (emit ev).
Proof. intros H h. cbn. now repeat constructor. Qed.

Lemma emits_bind {A B} (m : M A) (f : A -> M B) :
  emits P m -> (forall a, emits P (f a)) -> emits P (bind m f).
Proof.
  intros Hm Hf h. unfold bind. specialize (Hm h).
  destruct (m h) as [[e|a] ev]; [exact Hm|].
  specialize (Hf a (h ++ ev)%list). destruct (f a _) as [r ev'].
  cbn in *. now apply Forall_app.
Qed.

Lemma emits_try_catch {A} (m : M A) handler :
  emits P m -> (forall e, emits P (handler e)) -> emits P (try_catch m handler).
Proof.
  intros Hm Hh h. unfold try_catch. specialize (Hm h).
  destruct (m h) as [[e|a] ev]; [|exact Hm].
  specialize (Hh e (h ++ ev)%list). destruct (handler e _) as [r ev'].
  cbn in *. now apply Forall_app.
Qed.

Lemma emits_for_each {A S} (l : list A) (body : A -> S -> M S) acc :
  (forall x acc, emits P (body x acc)) -> emits P (for_each l body acc).
Proof.
  intros Hb. revert acc. induction l as [|x l IH]; intros acc; cbn [for_each].
  - apply emits_ret.
  - apply emits_bind; [apply Hb | exact IH].
Qed.

End Emits.

Lemma emits_weaken (P Q : Event -> Prop) {A} (m : M A) :
  (forall ev, P ev -> Q ev) -> emits P m -> emits Q m.
Proof. intros HPQ Hm h. eapply Forall_impl; [apply Hm | exact HPQ]. Qed.

(** *** Computations with neutral events *)

Lemma quiet_ret {A} (a : A) : quiet (ret a).
Proof. apply emits_ret. Qed.

Lemma quiet_raise {A} e : quiet (@raise A e).
Proof. apply emits_raise. Qed.

Lemma quiet_ask {A} ev (answer : list Event -> Exn + A) :
  neutral ev -> quiet (ask ev answer).
Proof. apply emits_ask. Qed.

Lemma quiet_emit ev : neutral ev -> quiet (emit ev).
Proof. apply emits_emit. Qed.

Lemma quiet_bind {A B} (m : M A) (f : A -> M B) :
  quiet m -> (forall a, quiet (f a)) -> quiet (bind m f).
Proof. apply emits_bind. Qed.

Lemma quiet_try_catch {A} (m : M A) handler :
  quiet m -> (forall e, quiet (handler e)) -> quiet (try_catch m handler).
Proof. apply emits_try_catch. Qed.

Lemma quiet_for_each {A S} (l : list A) (body : A -> S -> M S) acc :
  (forall x acc, quiet (body x acc)) -> quiet (for_each l body acc).
Proof. apply emits_for_each. Qed.

(** *** Computations that never raise *)

Lemma total_ret {A} (a : A) : total (ret a).
Proof. intros h. now exists a. Qed.

Lemma total_emit ev : total (emit ev).
Proof. intros h. now exists tt. Qed.

Lemma total_bind {A B} (m : M A) (f : A -> M B) :
  total m -> (forall a, total (f a)) -> total (bind m f).
Proof.
  intros Hm Hf h. unfold bind. destruct (Hm h) as [a Ha].
  destruct (m h) as [[e|a'] ev]; cbn in Ha; [discriminate|].
  destruct (Hf a' (h ++ ev)%list) as [b Hb]. destruct (f a' _) as [r ev'].
  now exists b.
Qed.

Lemma total_try_catch {A} (m : M A) handler :
  (forall e, total (handler e)) -> total (try_catch m handler).
Proof.
  intros Hh h. unfold try_catch.
  destruct (m h) as [[e|a] ev]; [|now exists a].
  destruct (Hh e (h ++ ev)%list) as [b Hb]. destruct (handler e _) as [r ev'].
  now exists b.
Qed.

Lemma total_for_each {A S} (l : list A) (body : A -> S -> M S) acc :
  (forall x acc, total (body x acc)) -> total (for_each l body acc).
Proof.
  intros Hb. revert acc. induction l as [|x l IH]; intros acc; cbn [for_each].
  - apply total_ret.
  - apply total_bind; [apply Hb | exact IH].
Qed.

(** A loop whose body keeps an invariant of the loop variables keeps it. *)
Lemma for_each_invariant {A S} (I : S -> Prop) (l : list A) (body : A -> S -> M S) acc h :
  I acc ->
  (forall x acc h acc' ev, In x l -> I acc -> body x acc h = (inr acc', ev) -> I acc') ->
  forall acc' ev, for_each l body acc h = (inr acc', ev) -> I acc'.
Proof.
  revert acc h. induction l as [|x l IH]; intros acc h Hacc Hb acc' ev; cbn [for_each].
  - intros [= <- _]. exact Hacc.
  - unfold bind. destruct (body x acc h) as [[e|acc1] ev1] eqn:E1; [discriminate|].
    destruct (for_each l body acc1 _) as [r ev2] eqn:E2. intros [= -> _].
    eapply IH; [| |exact E2].
    + eapply Hb; [now left | exact Hacc | exact E1].
    + intros x0 a0 h0 a0' ev0 Hin. apply Hb. now right.
Qed.

(** *** Counting events *)

Lemma tally_app c ev1 ev2 : tally c (ev1 ++ ev2) = tally c ev1 + tally c ev2.
Proof. unfold tally. now rewrite List.filter_app, length_app. Qed.

Lemma tally_neutral c evs : Forall neutral evs -> tally c evs = 0.
Proof.
  unfold tally. induction 1 as [|ev evs Hev _ IH]; [reflexivity|].
  cbn [List.filter]. now rewrite (Hev c).
Qed.

Lemma neutral_no_connection ev : neutral ev -> no_connection ev = true.
Proof.
  intros H. destruct ev as [| | |m t|]; try reflexivity.
  destruct m; try reflexivity.
  - specialize (H (Calls MSsl)). discriminate.
  - specialize (H (Calls MSecurity)). discriminate.
Qed.

Lemma neutral_pool ns q t : neutral (EvPoolQuery ns q t).
Proof. intros []; reflexivity. Qed.

Lemma neutral_doh q t : neutral (EvDohQuery q t).
Proof. intros []; reflexivity. Qed.

Lemma neutral_system q t : neutral (EvSystemQuery q t).
Proof. intros []; reflexivity. Qed.

Lemma neutral_info text : neutral (EvLog LInfo text).
Proof. intros []; reflexivity. Qed.

End EffFacts.

(** ** The alert state machine: the properties of the specification *)

Module ManagerSpec.
Import NotificationManager ManagerAux FinishFacts BridgeFacts ManagerFacts GroupFacts
       RunFacts ClockFacts.

Lemma settle_is_Some now before res : is_Some (settle now before (Some res)).
Proof. destruct before; simpl; eauto. Qed.

Lemma settle_not_expired now before res data :
  settle now before (Some res) = Some data -> expired now data = false.
Proof.
  destruct before as [d|]; simpl.
  - destruct (expired now d) eqn:E; intros [= <-];
      [apply expired_resent | exact E].
  - intros [= <-]. apply expired_created.
Qed.

Lemma out_state_dom now st results :
  dom (out_state (Steady.run now st results)) = issue_ids results.
Proof.
  apply set_eq. intros k. rewrite elem_of_dom, out_state_lookup.
  destruct (first_issue k results) as [res|] eqn:E.
  - split; [|intros _; apply settle_is_Some].
    intros _. destruct (decide (k ∈ issue_ids results)) as [Hin|Hnin]; [exact Hin|].
    apply first_issue_None in Hnin. congruence.
  - apply first_issue_None in E. split; [intros [x Hx]; discriminate | contradiction].
Qed.



Lemma non_ok_first_issue res results :
  In res results -> non_ok res ->
  exists first,
    first_issue (key res) results = Some first /\
    In first results /\ non_ok first /\ key first = key res.
Proof.
  intros Hin Hn. apply is_issue_non_ok in Hn.
  destruct (first_issue_found res results Hin Hn) as [first Hf].
  exists first. split; [exact Hf|].
  apply first_issue_Some in Hf as (H1 & H2 & H3).
  split; [exact H1|]. split; [now apply is_issue_non_ok | exact H3].
Qed.




(** C10: the result that [check_domain] returns for a WHOIS entry without
    expiration date, with the domain the scan loop writes into it, has the
    status error and no [monitor] key.  On every result sequence that holds
    it, whatever the clock and the state, the process step ends with
    [KeyError] in the first loop, before the clean-up: the state is not
    written and nothing is sent; on the sequence of this result alone
    nothing is logged either and no record is made for it. *)
Theorem result_without_monitor_is_not_saved clock st machine target registrar d :
  let res :=
    set_domain d
      (DomainMonitor.as_result
         (fst (DomainMonitor.check_domain machine target
                 (inr (DomainMonitor.mkWhois DomainMonitor.DateNone registrar))))) in
  res = mkResult d None "error" (Some "Could not retrieve expiration date")
                 None None None None None /\
  (forall results,
     In res results ->
     let o := process_and_send clock st results in
     out_raised o = Some (KeyError "monitor") /\
     saves (out_effects o) = [] /\
     sends (out_effects o) = []) /\
  out_effects (process_and_send clock st [res]) = [] /\
  out_state (process_and_send clock st [res]) = st.
Proof.
  cbv zeta. split; [reflexivity|]. split; [|split; reflexivity].
  intros results Hin. apply call_raises, Exists_exists.
  eexists. split; [apply list_elem_of_In; exact Hin|].
  split; [right; right; reflexivity | reflexivity].
Qed.

Lemma out_state_settled now st results res :
  In res results -> is_issue res = true ->
  exists data,
    out_state (Steady.run now st results) !! key res = Some data /\
    expired now data = false.
Proof.
  intros Hin Hi. rewrite out_state_lookup.
  destruct (first_issue_found res results Hin Hi) as [first ->].
  destruct (settle_is_Some now (st !! key res) first) as [data Hd].
  exists data. split; [exact Hd|]. exact (settle_not_expired _ _ _ _ Hd).
Qed.

Lemma same_report_named l l' : Forall2 same_report l l' -> named l -> named l'.
Proof.
  unfold named. induction 1 as [|a b l l' Hab _ IH]; intros Hl; [constructor|].
  inversion Hl as [|? ? Ha Hl']; subst. constructor; [|now apply IH].
  rewrite Hab. exact Ha.
Qed.

(** The second of two calls at the same instant alerts nothing, sends
    nothing and leaves the state alone, also when the calls stop at a
    result without monitor. *)
Lemma second_run_changes_nothing now st results :
  let o1 := process_and_send (steady now) st results in
  let o2 := process_and_send (steady now) (out_state o1) results in
  out_alerts o2 = [] /\ sends (out_effects o2) = [] /\ out_state o2 = out_state o1.
Proof.
  cbv zeta.
  destruct (process_and_send_prefix now st results) as [[Hnamed H1]|(rest & Hsplit & Hrest & H1)];
    cbv zeta in H1; rewrite H1.
  - destruct (settled_run_silent now (out_state (Steady.run now st results)) results Hnamed)
      as (_ & Ha & _ & Hs & Hst & _).
    + apply out_state_dom.
    + intros res Hin Hi. now apply out_state_settled.
    + auto.
  - cbn [out_state].
    set (pre := named_prefix results) in *.
    set (st1 := scan_state (fold_left (Steady.step now) pre (mkScan st ∅ [] [] []))).
    destruct (process_and_send_prefix now st1 results)
      as [[Hnamed _]|(rest' & _ & _ & H2)].
    { exfalso. unfold pre in Hsplit.
      rewrite (named_prefix_all results Hnamed) in Hsplit.
      apply (f_equal (@length CheckResult)) in Hsplit. rewrite length_app in Hsplit.
      destruct rest; [congruence | cbn [length] in Hsplit; lia]. }
    cbv zeta in H2. rewrite H2. cbn [out_alerts out_effects out_state]. fold pre.
    destruct (fold_scan_snoozed now pre (mkScan st1 ∅ [] [] [])) as (Hs & Ha & Hl).
    { intros res Hin Hi. cbn [scan_state]. unfold st1.
      rewrite fold_scan_state. cbn [scan_state].
      destruct (first_issue_found res pre Hin Hi) as [first ->].
      destruct (settle_is_Some now (st !! key res) first) as [data Hd].
      exists data. split; [exact Hd|]. exact (settle_not_expired _ _ _ _ Hd). }
    cbv zeta in Hs, Ha, Hl. rewrite Hs, Ha, Hl. cbn [scan_state alerts_to_send scan_log app].
    split; [reflexivity|]. split; [apply sends_snooze_log | reflexivity].
Qed.

(** C4: when the process step is run twice with no time in between, only
    the first run can select alerts.  The second run, on the results as
    given or as the first run left them (it writes [alert_count] into the
    results it alerts on), snoozes every non-ok pair: its log is one snooze
    line per non-ok result, no record changes, the state is written back as
    it was and nothing is sent.  This holds when every non-ok result names
    its monitor; when one does not, both runs stop there, and the second
    one still alerts nothing and changes no record. *)
Theorem second_run_snoozes_every_pair now st results :
  let o1 := process_and_send (steady now) st results in
  let o2 := process_and_send (steady now) (out_state o1) results in
  (named results ->
   silent_run now (out_state o1) results /\
   silent_run now (out_state o1) (out_results o1)) /\
  out_alerts o2 = [] /\
  sends (out_effects o2) = [] /\
  out_state o2 = out_state o1.
Proof.
  cbv zeta. split; [|apply second_run_changes_nothing].
  intros Hnamed. rewrite (process_and_send_steady now st results Hnamed). split.
  - apply settled_run_silent; [exact Hnamed | apply out_state_dom|].
    intros res Hin Hi. now apply out_state_settled.
  - pose proof (out_results_same now st results) as Hsame.
    apply settled_run_silent.
    + exact (same_report_named _ _ Hsame Hnamed).
    + rewrite out_state_dom. symmetry. now apply same_report_issue_ids.
    + intros res' Hin' Hi'.
      destruct (same_report_In _ _ res' Hsame Hin') as [res [Hin Hr]].
      rewrite (same_report_id _ _ Hr).
      apply out_state_settled; [exact Hin|].
      now rewrite <- (same_report_issue _ _ Hr).
Qed.

End ManagerSpec.

(** ** The alert state machine: digests *)

Module DigestSpec.
Import NotificationManager ManagerAux FinishFacts BridgeFacts ManagerFacts GroupFacts
       RunFacts ClockFacts.

Lemma out_alerts_sublist clock st results :
  out_alerts (process_and_send clock st results)
    `sublist_of` out_results (process_and_send clock st results).
Proof.
  unfold process_and_send.
  destruct (scan_results clock results (mkScan st ∅ [] [] []) 0) as [s raised] eqn:Hrun.
  pose proof (scan_results_sublist clock results _ _ _ _ Hrun (sublist_nil_l _)) as H.
  destruct raised; [exact H|]. now rewrite finish_alerts, finish_results.
Qed.

Lemma out_alerts_labelled clock st results :
  Forall labelled (out_alerts (process_and_send clock st results)).
Proof.
  unfold process_and_send.
  destruct (scan_results clock results (mkScan st ∅ [] [] []) 0) as [s raised] eqn:Hrun.
  pose proof (scan_results_alerts_named clock results _ _ _ _ Hrun (Forall_nil_2 _)) as H.
  destruct raised; [exact H|]. now rewrite finish_alerts.
Qed.

Lemma out_alerts_In now st results alert :
  In alert (out_alerts (Steady.run now st results)) <->
  In alert (alert_for now (st !! key alert) (first_issue (key alert) results)).
Proof.
  rewrite <- out_alerts_filter, filter_In. unfold has_id.
  rewrite String.eqb_refl. tauto.
Qed.

(** C2 (as the code has it): the alerts of a cycle are results of the
    cycle, in the order of the result sequence, and, when the clock stands
    still, the first non-ok results of the pairs that are New or due for a
    Resend.  The alerts that share a domain make up exactly one digest,
    whose entries keep that order (the entries are not sorted); no digest
    is empty; and the line of an entry ends with its annotation, [(New)]
    when its count is 1 and [(Repeated Nx)] when its count N exceeds 1. *)
Theorem digests_group_alerts_by_domain clock st results :
  named results ->
  let o := process_and_send clock st results in
  (forall now,
     clock = steady now ->
     forall alert,
       In alert (out_alerts o) <->
       In alert (alert_for now (st !! key alert) (first_issue (key alert) results))) /\
  out_alerts o `sublist_of` out_results o /\
  NoDup (map fst (out_digests o)) /\
  (forall d g,
     In (d, g) (out_digests o) <->
     g = List.filter (in_domain d) (out_alerts o) /\ g <> []) /\
  (forall alert,
     In alert (out_alerts o) ->
     exists n m lines,
       alert_count alert = Some n /\
       monitor alert = Some m /\
       (n = 1%Z -> cnt alert = "(New)") /\
       ((1 < n)%Z -> cnt alert = "(Repeated " ++ PyStr.of_int n ++ "x)") /\
       alert_lines alert = inr lines /\
       head lines =
         Some (icon alert ++ " **" ++ PyStr.upper m ++ "**: "
               ++ default "Unknown Error" (message alert) ++ " " ++ cnt alert)).
Proof.
  intros Hnamed. cbv zeta.
  split.
  { intros now -> alert. rewrite (process_and_send_steady now st results Hnamed).
    apply out_alerts_In. }
  split; [apply out_alerts_sublist|].
  split; [rewrite (call_digests clock st results Hnamed); apply domain_groups_keys|].
  split; [intros d g; rewrite (call_digests clock st results Hnamed);
          apply domain_groups_In|].
  intros alert Hin.
  pose proof (out_alerts_labelled clock st results) as Hall.
  rewrite Forall_forall in Hall.
  destruct (Hall alert (proj2 (list_elem_of_In _ _) Hin)) as [[m Hm] [n Hn]].
  exists n, m. eexists. split; [exact Hn|]. split; [exact Hm|].
  split; [|split; [|split; [unfold alert_lines; rewrite Hm; reflexivity | reflexivity]]];
    unfold cnt; rewrite Hn; change (default 0%Z (Some n)) with n.
  - intros ->. reflexivity.
  - intros H. apply Z.ltb_lt in H. now rewrite H.
Qed.

(** C2, as stated, fails: a warning of the certificate check followed by
    a critical result of the DNS check of the same domain make one digest
    whose entries stand in the order of the results, the warning before
    the critical one and [ssl] before [dns]. *)
Lemma digest_entries_not_sorted :
  out_digests (process_and_send (steady 0) ∅ [Samples.ssl_warning; Samples.dns_critical]) =
    [("a.com", [set_alert_count 1 Samples.ssl_warning;
                set_alert_count 1 Samples.dns_critical])] /\
  spec_sorted [set_alert_count 1 Samples.ssl_warning;
               set_alert_count 1 Samples.dns_critical] = false.
Proof. split; vm_compute; reflexivity. Qed.

End DigestSpec.

(** ** The alert state machine: concrete instances *)

Module ManagerInstances.
Import NotificationManager ManagerAux ManagerSpec DigestSpec Samples.

Lemma named_samples (results : list CheckResult) :
  Forall (fun res => is_Some (monitor res)) results -> named results.
Proof. unfold named. intros H. eapply Forall_impl; [exact H | auto]. Qed.





(** Two alerts of one domain make one digest. *)
Lemma digests_group_alerts_by_domain_witness :
  named [ssl_warning; dns_critical] /\
  NoDup (map fst (out_digests (process_and_send (steady 0) ∅ [ssl_warning; dns_critical]))).
Proof.
  assert (H0 : named [ssl_warning; dns_critical])
    by (apply named_samples; repeat constructor; eauto).
  split; [exact H0|].
  destruct (digests_group_alerts_by_domain (steady 0) ∅ [ssl_warning; dns_critical] H0)
    as (_ & _ & H & _).
  exact H.
Defined.

(** A record sent 24h - 1s ago is snoozed: the record stays and no digest
    is built. *)
Example snoozed_one_second_before_the_window_closes :
  out_state (process_and_send (steady day_minus_1s) ssl_state [ssl_warning]) !! "a.com:ssl"
    = Some ssl_record /\
  out_digests (process_and_send (steady day_minus_1s) ssl_state [ssl_warning]) = [].
Proof. split; vm_compute; reflexivity. Qed.

(** A pair that reports twice in one cycle is alerted once. *)
Example second_report_of_a_pair_is_snoozed :
  out_alerts (process_and_send (steady 7) ∅ [ssl_warning; ssl_warning])
    = [set_alert_count 1 ssl_warning].
Proof. vm_compute. reflexivity. Qed.

(** The two fields of a new record are two readings of the clock: with a
    clock that advances by one microsecond per reading they differ. *)
Example new_record_has_two_stamps :
  out_state (process_and_send ticking ∅ [ssl_warning]) !! "a.com:ssl"
    = Some (mkIssue 0 1 1 "ssl" "a.com").
Proof. vm_compute. reflexivity. Qed.

(** A call that selects an alert writes the state and then fails to send:
    [NotificationService] has no method [send]. *)
Example alert_is_not_sent :
  out_raised (process_and_send (steady 7) ∅ [ssl_warning])
    = Some (AttributeError "NotificationService" "send") /\
  sends (out_effects (process_and_send (steady 7) ∅ [ssl_warning])) = [] /\
  saves (out_effects (process_and_send (steady 7) ∅ [ssl_warning]))
    = [{[ "a.com:ssl" := mkIssue 7 7 1 "ssl" "a.com" ]}].
Proof. repeat split; vm_compute; reflexivity. Qed.

End ManagerInstances.

(** ** The resilient resolver *)

Module ResolverSpec.
Import Eff EventAux EffFacts RobustResolver.

Lemma neutral_doh_warning text : neutral (EvLog LWarning ("DoH resolution failed for " ++ text)).
Proof. intros []; reflexivity. Qed.

Lemma quiet_resolve_doh w qname rdtype : quiet (_resolve_doh w qname rdtype).
Proof.
  unfold _resolve_doh. apply quiet_try_catch.
  - apply quiet_bind; [apply quiet_ask, neutral_doh|].
    intros data. destruct (doh_status data) as [[| |]|], (doh_answer data) as [answer|];
      try apply quiet_raise.
    destruct (map snd _); [apply quiet_raise | apply quiet_ret].
  - intros e. apply quiet_bind; [|intros _; apply quiet_raise].
    apply quiet_emit, neutral_doh_warning.
Qed.

Lemma quiet_resolve w qname rdtype : quiet (resolve w qname rdtype).
Proof.
  intros h. unfold resolve. cbv zeta. apply quiet_try_catch.
  - apply quiet_ask, neutral_pool.
  - intros e. destruct (authoritative_negative e);
      [apply quiet_raise | apply quiet_resolve_doh].
Qed.

Lemma quiet_get_ip w d : quiet (get_ip w d).
Proof.
  unfold get_ip. apply quiet_try_catch; [|intros e; apply quiet_raise].
  apply quiet_bind; [apply quiet_resolve|].
  intros [|rdata answers]; [apply quiet_raise | apply quiet_ret].
Qed.

Lemma quiet_get_connectable_hostname w d : quiet (get_connectable_hostname w d).
Proof.
  unfold get_connectable_hostname. apply quiet_try_catch.
  - apply quiet_bind; [apply quiet_get_ip | intros _; apply quiet_ret].
  - intros _. apply quiet_try_catch; [|intros _; apply quiet_ret].
    cbv zeta. apply quiet_bind; [apply quiet_get_ip|]. intros _.
    apply quiet_bind; [apply quiet_emit, neutral_info | intros _; apply quiet_ret].
Qed.

Lemma total_get_connectable_hostname w d : total (get_connectable_hostname w d).
Proof.
  unfold get_connectable_hostname. apply total_try_catch. intros _.
  apply total_try_catch. intros _. apply total_ret.
Qed.

(** What the fallback returns: the A records of a well-formed answer, or
    an exception. *)
Lemma resolve_doh_outcome w qname rdtype h :
  fst (_resolve_doh w qname rdtype h) =
  match w_doh w h qname rdtype with
  | inl text => inl (mkExn OtherException text)
  | inr data =>
      match doh_status data, doh_answer data with
      | Some 0%Z, Some answer =>
          match map snd (filter (fun ans => fst ans = 1%Z) answer) with
          | [] => inl (mkExn OtherException ("DoH Refused or No Data: " ++ status_text data))
          | answers => inr answers
          end
      | _, _ => inl (mkExn OtherException ("DoH Refused or No Data: " ++ status_text data))
      end
  end.
Proof.
  unfold _resolve_doh, try_catch, bind, ask, raise, ret, log, emit.
  destruct (w_doh w h qname rdtype) as [text|data]; [reflexivity|].
  destruct (doh_status data) as [[| |]|], (doh_answer data) as [answer|]; try reflexivity.
  destruct (map snd _); reflexivity.
Qed.

Lemma resolve_doh_queries w qname rdtype h :
  doh_queries (snd (_resolve_doh w qname rdtype h)) = [(qname, rdtype)] /\
  pool_queries (snd (_resolve_doh w qname rdtype h)) = [].
Proof.
  unfold _resolve_doh, try_catch, bind, ask, raise, ret, log, emit.
  destruct (w_doh w h qname rdtype) as [text|data]; [split; reflexivity|].
  destruct (doh_status data) as [[| |]|], (doh_answer data) as [answer|];
    try (split; reflexivity).
  destruct (map snd _); split; reflexivity.
Qed.

Lemma pool_queries_cons_pool ns q t evs :
  pool_queries (EvPoolQuery ns q t :: evs) = (q, t) :: pool_queries evs.
Proof. reflexivity. Qed.

Lemma doh_queries_cons_pool ns q t evs :
  doh_queries (EvPoolQuery ns q t :: evs) = doh_queries evs.
Proof. reflexivity. Qed.

(** An exception of the fallback is never an authoritative negative. *)
Lemma resolve_doh_inconclusive w qname rdtype h e :
  fst (_resolve_doh w qname rdtype h) = inl e -> authoritative_negative e = false.
Proof.
  rewrite resolve_doh_outcome.
  destruct (w_doh w h qname rdtype) as [text|data]; [now intros [= <-]|].
  destruct (doh_status data) as [[| |]|], (doh_answer data) as [answer|];
    try (now intros [= <-]).
  destruct (map snd _); [now intros [= <-] | discriminate].
Qed.

(** C3: when the attempt against the resolver pool fails with an
    authoritative negative (NXDOMAIN or no such record), [resolve] raises
    that very exception and makes no DNS-over-HTTPS query; when it fails for
    any other reason, [resolve] makes exactly one DNS-over-HTTPS query, for
    the same name and record type, and returns what that fallback returns:
    if the fallback fails too, its exception is raised, and that exception
    is not an authoritative negative.  The pool is queried once in either
    case. *)
Theorem resolve_falls_back_once_unless_authoritative w qname rdtype h e :
  w_pool w h (w_shuffle w h resolvers) qname rdtype = inl e ->
  let run := resolve w qname rdtype h in
  let h' := (h ++ [EvPoolQuery (w_shuffle w h resolvers) qname rdtype])%list in
  pool_queries (snd run) = [(qname, rdtype)] /\
  if authoritative_negative e
  then fst run = inl e /\ doh_queries (snd run) = []
  else doh_queries (snd run) = [(qname, rdtype)] /\
       fst run = fst (_resolve_doh w qname rdtype h') /\
       (forall text, w_doh w h' qname rdtype = inl text ->
                     fst run = inl (mkExn OtherException text)) /\
       (forall e', fst (_resolve_doh w qname rdtype h') = inl e' -> fst run = inl e') /\
       (forall e', fst run = inl e' -> authoritative_negative e' = false).
Proof.
  intros Hpool. cbv zeta.
  set (h' := (h ++ [EvPoolQuery (w_shuffle w h resolvers) qname rdtype])%list).
  assert (Hrun : resolve w qname rdtype h =
                 let '(r, ev') :=
                   (if authoritative_negative e then raise e
                    else _resolve_doh w qname rdtype) h' in
                 (r, EvPoolQuery (w_shuffle w h resolvers) qname rdtype :: ev')).
  { unfold resolve, try_catch, ask. cbv zeta. now rewrite Hpool. }
  rewrite Hrun. clear Hrun.
  destruct (authoritative_negative e) eqn:Ha.
  - cbn. auto.
  - destruct (resolve_doh_queries w qname rdtype h') as [Hd Hp].
    pose proof (resolve_doh_outcome w qname rdtype h') as Ho.
    pose proof (resolve_doh_inconclusive w qname rdtype h') as Hinc.
    destruct (_resolve_doh w qname rdtype h') as [r ev'].
    cbn [fst snd] in *.
    rewrite pool_queries_cons_pool, doh_queries_cons_pool, Hd, Hp.
    split; [reflexivity|]. split; [reflexivity|]. split; [reflexivity|].
    split; [intros text Ht; now rewrite Ho, Ht|]. split; [auto|].
    exact Hinc.
Qed.

End ResolverSpec.

(** ** The blacklist monitor *)

Module BlacklistSpec.
Import Eff EventAux EffFacts BlacklistMonitor.

Lemma neutral_rbl_warning text : neutral (EvLog LWarning ("RBL " ++ text)).
Proof. intros []; reflexivity. Qed.

Lemma neutral_blacklist_error text :
  neutral (EvLog LError ("Error checking blacklist for " ++ text)).
Proof. intros []; reflexivity. Qed.

(** One answer: a reserved address leaves [listed_in] as it is, any other
    address adds the RBL unless it is there already. *)
Lemma scan_answer_outcome rbl d result_ip listed_in h :
  fst (scan_answer rbl d result_ip listed_in h) =
  inr (if reserved result_ip then listed_in
       else if mem rbl listed_in then listed_in
       else (listed_in ++ [rbl])%list).
Proof.
  unfold scan_answer, reserved.
  destruct (PyStr.startswith result_ip "127.255.255."); [reflexivity|].
  cbn [orb].
  destruct (mem result_ip ["127.0.0.10"; "127.0.0.11"]); [reflexivity|].
  destruct (mem rbl listed_in); reflexivity.
Qed.

Lemma quiet_scan_answer rbl d result_ip listed_in :
  quiet (scan_answer rbl d result_ip listed_in).
Proof.
  unfold scan_answer.
  destruct (PyStr.startswith result_ip "127.255.255.").
  - apply quiet_bind; [|intros _; apply quiet_ret].
    apply quiet_emit, neutral_rbl_warning.
  - destruct (mem result_ip _); [apply quiet_ret|].
    destruct (mem rbl listed_in); apply quiet_ret.
Qed.

Lemma total_scan_answer rbl d result_ip listed_in :
  total (scan_answer rbl d result_ip listed_in).
Proof.
  intros h. eexists. apply scan_answer_outcome.
Qed.

Lemma quiet_query_rbl w d reversed_ip rbl acc :
  quiet (query_rbl w d reversed_ip rbl acc).
Proof.
  destruct acc as [listed_in errors]. unfold query_rbl. apply quiet_try_catch.
  - apply quiet_bind; [apply quiet_ask, neutral_system|]. intros answers.
    apply quiet_bind; [|intros l; apply quiet_ret].
    apply quiet_for_each. intros a l. apply quiet_scan_answer.
  - intros e. destruct (exn_class e); apply quiet_ret.
Qed.

Lemma total_query_rbl w d reversed_ip rbl acc :
  total (query_rbl w d reversed_ip rbl acc).
Proof.
  destruct acc as [listed_in errors]. unfold query_rbl. apply total_try_catch.
  intros e. destruct (exn_class e); apply total_ret.
Qed.

Lemma quiet_check_blacklist w d : quiet (check_blacklist w d).
Proof.
  unfold check_blacklist. apply quiet_try_catch.
  - apply quiet_bind.
    + apply quiet_try_catch; [|intros e; apply quiet_ret].
      apply quiet_bind; [apply ResolverSpec.quiet_get_ip | intros ip; apply quiet_ret].
    + intros [e|ip]; [apply quiet_ret|].
      apply quiet_bind; [|intros acc; apply quiet_ret].
      apply quiet_for_each. intros rbl acc. apply quiet_query_rbl.
  - intros e. apply quiet_bind; [|intros _; apply quiet_ret].
    apply quiet_emit, neutral_blacklist_error.
Qed.

Lemma total_check_blacklist w d : total (check_blacklist w d).
Proof.
  unfold check_blacklist. apply total_try_catch. intros e.
  apply total_bind; [apply total_emit | intros _; apply total_ret].
Qed.

Lemma mem_In x l : mem x l = true <-> In x l.
Proof.
  unfold mem. rewrite existsb_exists. split.
  - intros [y [Hy He]]. apply String.eqb_eq in He. now subst.
  - intros H. exists x. split; [exact H | apply String.eqb_refl].
Qed.

Lemma query_rbl_genuine w d reversed_ip rbl acc h acc' ev :
  In rbl rbls -> genuine w (fst acc) ->
  query_rbl w d reversed_ip rbl acc h = (inr acc', ev) ->
  genuine w (fst acc').
Proof.
  destruct acc as [listed_in errors]. cbn [fst]. intros Hrbl Hgen.
  unfold query_rbl, try_catch, bind, ask.
  destruct (w_system w h (reversed_ip ++ "." ++ rbl) "A") as [e|answers] eqn:Hsys.
  - destruct (exn_class e); cbn; intros [= <- _]; exact Hgen.
  - destruct (for_each answers (scan_answer rbl d) listed_in _) as [[e|l] ev1] eqn:Hloop.
    + destruct (exn_class e); cbn; intros [= <- _]; exact Hgen.
    + cbn. intros [= <- _]. cbn [fst].
      eapply (for_each_invariant (genuine w)); [exact Hgen | | exact Hloop].
      intros a l0 h0 l1 ev0 Ha Hl0 Hrun.
      pose proof (scan_answer_outcome rbl d a l0 h0) as Ho.
      rewrite Hrun in Ho. cbn [fst] in Ho. injection Ho as ->.
      destruct (reserved a) eqn:Hres; [exact Hl0|].
      destruct (mem rbl l0); [exact Hl0|].
      intros x [Hx|[<-|[]]]%in_app_or; [now apply Hl0|].
      split; [exact Hrbl|]. now exists h, reversed_ip, answers, a.
Qed.

Lemma only_reserved_not_listing w rbl :
  only_reserved_answers w rbl -> ~ gave_listing w rbl.
Proof.
  intros Hres (h & reversed_ip & answers & a & Hsys & Ha & Hna).
  specialize (Hres h reversed_ip answers Hsys).
  rewrite forallb_forall in Hres. rewrite (Hres a Ha) in Hna. discriminate.
Qed.

(** C8: an RBL answer that is a reserved address (one that starts with
    [127.255.255.], or [127.0.0.10], or [127.0.0.11]) adds nothing to
    [listed_in].  The check always returns a result; every RBL it lists
    gave an answer that is not reserved, so an RBL that only ever answers
    with reserved addresses is not listed; and the status is critical only
    when some RBL is listed, that is, only on an answer that is not
    reserved. *)
Theorem reserved_answers_are_not_listings w d h :
  (forall rbl result_ip listed_in h',
     reserved result_ip = true ->
     fst (scan_answer rbl d result_ip listed_in h') = inr listed_in) /\
  exists res evs,
    check_blacklist w d h = (inr res, evs) /\
    (forall rbl, In rbl (listed res) -> In rbl rbls /\ gave_listing w rbl) /\
    (forall rbl, only_reserved_answers w rbl -> ~ In rbl (listed res)) /\
    (status res = "critical" <-> listed res <> []).
Proof.
  split.
  { intros rbl a l h' Hres. now rewrite scan_answer_outcome, Hres. }
  assert (Hmain : exists res evs,
             check_blacklist w d h = (inr res, evs) /\
             genuine w (listed res) /\
             (status res = "critical" <-> listed res <> [])).
  { unfold check_blacklist. unfold try_catch at 1. unfold bind at 1.
    unfold try_catch at 1. unfold bind at 1.
    destruct (RobustResolver.get_ip w d h) as [[e|ip] ev1].
    - cbn. do 2 eexists. split; [reflexivity|]. split.
      + intros rbl [].
      + cbn. split; [discriminate | intros H; now contradiction H].
    - cbn [ret].
      set (reversed_ip := PyStr.join "." (rev (PyStr.split "." ip))).
      set (h1 := (h ++ (ev1 ++ []))%list).
      unfold bind at 1.
      destruct (total_for_each rbls (query_rbl w d reversed_ip) ([], [])
                  (total_query_rbl w d reversed_ip) h1) as [acc Hacc].
      destruct (for_each rbls (query_rbl w d reversed_ip) ([], []) h1)
        as [r ev2] eqn:Hloop.
      cbn [fst] in Hacc. subst r. cbn.
      do 2 eexists. split; [reflexivity|].
      assert (Hgen : genuine w (fst acc)).
      { eapply (for_each_invariant (fun a => genuine w (fst a))); [| |exact Hloop].
        - intros rbl [].
        - intros rbl a0 h0 a1 ev0 Hin Ha0 Hrun.
          exact (query_rbl_genuine w d reversed_ip rbl a0 h0 a1 ev0 Hin Ha0 Hrun). }
      split; [exact Hgen|].
      unfold listed. cbn. destruct (fst acc); split; try discriminate; try reflexivity.
      intros H. now contradiction H. }
  destruct Hmain as (res & evs & Hrun & Hgen & Hst).
  exists res, evs. split; [exact Hrun|]. split; [exact Hgen|]. split; [|exact Hst].
  intros rbl Hres Hin. apply (only_reserved_not_listing w rbl Hres).
  now apply Hgen.
Qed.

End BlacklistSpec.

(** ** The blacklist monitor: the shape of its result *)

Module BlacklistFacts.
Import Eff EventAux EffFacts.

Lemma check_blacklist_outcome w d h :
  exists res evs,
    BlacklistMonitor.check_blacklist w d h = (inr res, evs) /\
    monitor res = Some "blacklist" /\
    match fst (RobustResolver.get_ip w d h) with
    | inl e =>
        status res = "error" /\
        message res = Some ("Could not resolve domain: " ++ exn_text e) /\
        listed_in res = None
    | inr address =>
        ip res = Some address /\
        checked_rbls res = Some 6%Z /\
        exists rbls_listed,
          listed_in res = Some rbls_listed /\
          status res = (match rbls_listed with [] => "ok" | _ :: _ => "critical" end)
    end.
Proof.
  unfold BlacklistMonitor.check_blacklist.
  unfold try_catch at 1. unfold bind at 1. unfold try_catch at 1. unfold bind at 1.
  destruct (RobustResolver.get_ip w d h) as [[e|address] ev1]; cbn [fst].
  - cbn. do 2 eexists. split; [reflexivity|]. cbn. auto.
  - cbn [ret].
    set (reversed_ip := PyStr.join "." (rev (PyStr.split "." address))).
    set (h1 := (h ++ (ev1 ++ []))%list).
    unfold bind at 1.
    destruct (total_for_each BlacklistMonitor.rbls
                (BlacklistMonitor.query_rbl w d reversed_ip) ([], [])
                (BlacklistSpec.total_query_rbl w d reversed_ip) h1) as [acc Hacc].
    destruct (for_each BlacklistMonitor.rbls (BlacklistMonitor.query_rbl w d reversed_ip)
                ([], []) h1) as [r ev2].
    cbn [fst] in Hacc. subst r. cbn.
    do 2 eexists. split; [reflexivity|]. cbn.
    split; [reflexivity|]. split; [reflexivity|]. split; [reflexivity|].
    exists (fst acc). split; reflexivity.
Qed.

End BlacklistFacts.

(** ** The scan loop: the steps of one domain *)

Module CliFacts.
Import Eff EventAux EffFacts Cli CliAux.

Lemma scan_domain_unfold cfg w raw_domain all_results :
  scan_domain cfg w raw_domain all_results =
  (let d := clean_domain raw_domain in
   log LInfo ("Checking " ++ d ++ "...") ;;;
   connectable_host <- get_connectable_hostname w d ;;
   checks cfg w d connectable_host (get_parent_domain d) all_results).
Proof. reflexivity. Qed.

Lemma grows_by_bind m1 m2 P1 P2 :
  grows_by m1 P1 -> grows_by m2 P2 ->
  grows_by (fun all_results => bind (m1 all_results) m2)
           (fun n evs => exists n1 n2 ev1 ev2,
                n = n1 + n2 /\ evs = (ev1 ++ ev2)%list /\ P1 n1 ev1 /\ P2 n2 ev2).
Proof.
  intros H1 H2 all_results h.
  destruct (H1 all_results h) as (new1 & ev1 & Hr1 & Hp1).
  destruct (H2 (all_results ++ new1)%list (h ++ ev1)%list) as (new2 & ev2 & Hr2 & Hp2).
  exists (new1 ++ new2)%list, (ev1 ++ ev2)%list. split.
  - rewrite (bind_inr _ _ _ _ _ _ _ Hr1 Hr2). now rewrite app_assoc.
  - exists (length new1), (length new2), ev1, ev2. rewrite length_app. auto.
Qed.

Lemma grows_by_weaken step (P Q : nat -> list Event -> Prop) :
  (forall n evs, P n evs -> Q n evs) -> grows_by step P -> grows_by step Q.
Proof.
  intros HPQ H all_results h. destruct (H all_results h) as (new & evs & Hr & Hp).
  exists new, evs. auto.
Qed.

(** *** The account of each step *)

Lemma counts_whois_failure text :
  counts WhoisFailures (EvLog LError ("Domain monitor failed for " ++ text)) = true.
Proof. apply PyStrFacts.prefix_app. Qed.

Lemma counts_ssl_skip text :
  counts SslSkips (EvLog LWarning ("Skipping SSL check for " ++ text)) = true.
Proof. apply PyStrFacts.prefix_app. Qed.

Lemma counts_security_skip text :
  counts SecuritySkips (EvLog LWarning ("Skipping Security check for " ++ text)) = true.
Proof. apply PyStrFacts.prefix_app. Qed.

Ltac tally_cases :=
  intros [[]| | |]; unfold tally; cbn [List.filter];
  rewrite ?counts_whois_failure, ?counts_ssl_skip, ?counts_security_skip;
  reflexivity.

Lemma domain_step_grows cfg w d parent_domain :
  grows_by (domain_step cfg w d parent_domain)
    (fun n evs => exists k,
         n + k = b2n (domain_enabled cfg) /\
         forall c, tally c evs =
                   match c with
                   | Calls MDomain => b2n (domain_enabled cfg)
                   | WhoisFailures => k
                   | _ => 0
                   end).
Proof.
  intros all_results h. unfold domain_step.
  destruct (domain_enabled cfg).
  - unfold try_catch, bind, ask, log, emit, ret.
    destruct (w_check_domain w h parent_domain) as [e|res].
    + exists [], [EvAdapter MDomain parent_domain;
                  EvLog LError ("Domain monitor failed for " ++ d ++ ": " ++ exn_text e)].
      split; [rewrite ?app_nil_r; reflexivity|]. exists 1. split; [reflexivity|].
      tally_cases.
    + eexists [_], [EvAdapter MDomain parent_domain].
      split; [reflexivity|]. exists 0. split; [reflexivity|].
      tally_cases.
  - exists [], []. split; [rewrite ?app_nil_r; reflexivity|]. exists 0. split; [reflexivity|].
    tally_cases.
Qed.

Lemma ssl_step_grows cfg w d connectable_host :
  (forall h target, exists res, w_check_ssl w h target = inr res) ->
  grows_by (ssl_step cfg w d connectable_host)
    (fun n evs => n = b2n (ssl_enabled cfg) /\
       exists k, k <= b2n (ssl_enabled cfg) /\
         forall c, tally c evs =
                   match c with
                   | Calls MSsl => b2n (ssl_enabled cfg) - k
                   | SslSkips => k
                   | _ => 0
                   end).
Proof.
  intros Hssl all_results h. unfold ssl_step.
  destruct (ssl_enabled cfg).
  - destruct (truthy connectable_host) as [host|].
    + unfold bind, ask, ret. destruct (Hssl h host) as [res ->].
      eexists [_], [EvAdapter MSsl host]. split; [reflexivity|].
      split; [reflexivity|]. exists 0. split; [cbn; lia|].
      tally_cases.
    + unfold bind, log, emit, ret.
      eexists [_], [EvLog LWarning _]. split; [reflexivity|].
      split; [reflexivity|]. exists 1. split; [cbn; lia|].
      tally_cases.
  - exists [], []. split; [rewrite ?app_nil_r; reflexivity|].
    split; [reflexivity|]. exists 0. split; [cbn; lia|].
    tally_cases.
Qed.

Lemma dns_step_grows cfg w d parent_domain :
  (forall h target, exists res, w_check_dns w h target = inr res) ->
  grows_by (dns_step cfg w d parent_domain)
    (fun n evs => n = b2n (dns_enabled cfg) /\
       forall c, tally c evs =
                 match c with
                 | Calls MDns => b2n (dns_enabled cfg)
                 | _ => 0
                 end).
Proof.
  intros Hdns all_results h. unfold dns_step.
  destruct (dns_enabled cfg).
  - unfold bind, ask, ret. cbv zeta. destruct (Hdns h parent_domain) as [res ->].
    eexists [_], [EvAdapter MDns parent_domain]. split; [reflexivity|].
    split; [reflexivity|]. tally_cases.
  - exists [], []. split; [rewrite ?app_nil_r; reflexivity|].
    split; [reflexivity|]. tally_cases.
Qed.

Lemma security_step_grows cfg w d connectable_host :
  (forall h target, exists res, w_check_security w h target = inr res) ->
  grows_by (security_step cfg w d connectable_host)
    (fun n evs => n = b2n (security_enabled cfg) /\
       exists k, k <= b2n (security_enabled cfg) /\
         forall c, tally c evs =
                   match c with
                   | Calls MSecurity => b2n (security_enabled cfg) - k
                   | SecuritySkips => k
                   | _ => 0
                   end).
Proof.
  intros Hsec all_results h. unfold security_step.
  destruct (security_enabled cfg).
  - destruct (truthy connectable_host) as [host|].
    + unfold bind, ask, ret. destruct (Hsec h host) as [res ->].
      eexists [_], [EvAdapter MSecurity host]. split; [reflexivity|].
      split; [reflexivity|]. exists 0. split; [cbn; lia|].
      tally_cases.
    + unfold bind, log, emit, ret.
      eexists [_], [EvLog LWarning _]. split; [reflexivity|].
      split; [reflexivity|]. exists 1. split; [cbn; lia|].
      tally_cases.
  - exists [], []. split; [rewrite ?app_nil_r; reflexivity|].
    split; [reflexivity|]. exists 0. split; [cbn; lia|].
    tally_cases.
Qed.

Lemma blacklist_step_grows cfg w d :
  grows_by (blacklist_step cfg w d)
    (fun n evs => n = b2n (blacklist_enabled cfg) /\
       forall c, tally c evs =
                 match c with
                 | Calls MBlacklist => b2n (blacklist_enabled cfg)
                 | _ => 0
                 end).
Proof.
  intros all_results h. unfold blacklist_step.
  destruct (blacklist_enabled cfg).
  - destruct (BlacklistSpec.total_check_blacklist w d (h ++ [EvAdapter MBlacklist d])%list)
      as [res Hres].
    pose proof (BlacklistSpec.quiet_check_blacklist w d (h ++ [EvAdapter MBlacklist d])%list)
      as Hq.
    destruct (BlacklistMonitor.check_blacklist w d (h ++ [EvAdapter MBlacklist d])%list)
      as [r evs] eqn:Hrun.
    cbn [fst snd] in Hres, Hq. subst r.
    exists [set_domain d res], (EvAdapter MBlacklist d :: evs). split.
    + unfold bind at 1. unfold bind at 1. unfold emit at 1. rewrite Hrun.
      unfold ret. cbn [app]. now rewrite app_nil_r.
    + split; [reflexivity|]. intros c.
      change (EvAdapter MBlacklist d :: evs) with ([EvAdapter MBlacklist d] ++ evs)%list.
      rewrite tally_app, (tally_neutral c evs Hq), Nat.add_0_r.
      revert c. tally_cases.
  - exists [], []. split; [rewrite ?app_nil_r; reflexivity|].
    split; [reflexivity|]. tally_cases.
Qed.

(** *** The account of one domain and of the cycle *)

Lemma cycle_tally_add cfg n1 n2 l1 l2 ev1 ev2 :
  cycle_tally cfg n1 l1 ev1 -> cycle_tally cfg n2 l2 ev2 ->
  cycle_tally cfg (n1 + n2) (l1 + l2) (ev1 ++ ev2).
Proof.
  unfold cycle_tally. intros (A1 & B1 & C1 & D1 & E1 & F1) (A2 & B2 & C2 & D2 & E2 & F2).
  rewrite !tally_app, !Nat.mul_add_distr_l. repeat split; lia.
Qed.

Lemma cycle_tally_neutral cfg evs : Forall neutral evs -> cycle_tally cfg 0 0 evs.
Proof.
  intros H. unfold cycle_tally. rewrite !(tally_neutral _ evs H), !Nat.mul_0_r.
  repeat split; reflexivity.
Qed.

Lemma checks_tally cfg w d connectable_host parent_domain :
  unguarded_adapters_return w ->
  grows_by (checks cfg w d connectable_host parent_domain) (cycle_tally cfg 1).
Proof.
  intros (Hssl & Hdns & Hsec). unfold checks.
  eapply grows_by_weaken;
    [|apply grows_by_bind;
       [apply domain_step_grows
       |apply grows_by_bind;
          [apply (ssl_step_grows cfg w d connectable_host Hssl)
          |apply grows_by_bind;
             [apply (dns_step_grows cfg w d parent_domain Hdns)
             |apply grows_by_bind;
                [apply (security_step_grows cfg w d connectable_host Hsec)
                |apply blacklist_step_grows]]]]].
  cbv beta. intros n evs.
  intros (n1 & n1' & ev1 & ev1' & -> & -> & (k & Hk & T1) &
          n2 & n2' & ev2 & ev2' & -> & -> & (-> & ks & Hks & T2) &
          n3 & n3' & ev3 & ev3' & -> & -> & (-> & T3) &
          n4 & n5 & ev4 & ev5 & -> & -> & (-> & kt & Hkt & T4) & (-> & T5)).
  unfold cycle_tally, n_enabled.
  rewrite !tally_app, !T1, !T2, !T3, !T4, !T5, !Nat.mul_1_r.
  repeat split; lia.
Qed.

Lemma scan_domain_tally cfg w raw_domain :
  unguarded_adapters_return w ->
  grows_by (scan_domain cfg w raw_domain) (cycle_tally cfg 1).
Proof.
  intros Hw all_results h. rewrite scan_domain_unfold. cbv zeta.
  set (d := clean_domain raw_domain).
  set (line := EvLog LInfo ("Checking " ++ d ++ "...")).
  destruct (ResolverSpec.total_get_connectable_hostname w d (h ++ [line])%list)
    as [connectable_host Hc].
  pose proof (ResolverSpec.quiet_get_connectable_hostname w d (h ++ [line])%list) as Hq.
  destruct (get_connectable_hostname w d (h ++ [line])%list) as [r evc] eqn:Hrun.
  cbn [fst snd] in Hc, Hq. subst r.
  destruct (checks_tally cfg w d connectable_host (get_parent_domain d) Hw all_results
              ((h ++ [line]) ++ evc)%list) as (new & evs & Hchecks & Ht).
  exists new, ([line] ++ evc ++ evs)%list. split.
  - unfold bind at 1. unfold log, emit. fold line.
    unfold bind at 1. rewrite Hrun, Hchecks. reflexivity.
  - change 1 with (0 + (0 + 1)). change (length new) with (0 + (0 + length new)).
    apply cycle_tally_add; [|apply cycle_tally_add; [|exact Ht]];
      apply cycle_tally_neutral; [|exact Hq].
    repeat constructor. apply neutral_info.
Qed.

Lemma scan_cycle_tally cfg w domains :
  unguarded_adapters_return w ->
  grows_by (for_each domains (scan_domain cfg w)) (cycle_tally cfg (length domains)).
Proof.
  intros Hw. induction domains as [|raw_domain domains IH]; cbn [for_each length].
  - intros all_results h. exists [], []. split; [unfold ret; now rewrite app_nil_r|].
    apply cycle_tally_neutral. constructor.
  - eapply grows_by_weaken;
      [|apply grows_by_bind; [apply (scan_domain_tally cfg w raw_domain Hw) | exact IH]].
    cbv beta. intros n evs (n1 & n2 & ev1 & ev2 & -> & -> & H1 & H2).
    change (S (length domains)) with (1 + length domains).
    now apply cycle_tally_add.
Qed.

End CliFacts.

(** ** The scan loop: domains that do not resolve *)

Module TargetSpec.
Import Eff EventAux EffFacts Cli CliAux CliFacts.

Lemma bind_inv_inr {A B} (m : M A) (f : A -> M B) h b ev :
  bind m f h = (inr b, ev) ->
  exists a ev1 ev2,
    m h = (inr a, ev1) /\ f a (h ++ ev1)%list = (inr b, ev2) /\ ev = (ev1 ++ ev2)%list.
Proof.
  unfold bind. destruct (m h) as [[e|a] ev1]; [discriminate|].
  destruct (f a _) as [r ev2] eqn:Hf. intros [= -> <-]. now exists a, ev1, ev2.
Qed.

(** When both look-ups fail there is no connectable host. *)
Lemma unresolved_connectable w d h e1 e2 :
  fst (RobustResolver.get_ip w d h) = inl e1 ->
  fst (RobustResolver.get_ip w ("www." ++ d) (h ++ snd (RobustResolver.get_ip w d h))%list)
    = inl e2 ->
  get_connectable_hostname w d h =
  (inr None,
   (snd (RobustResolver.get_ip w d h) ++
    snd (RobustResolver.get_ip w ("www." ++ d)
           (h ++ snd (RobustResolver.get_ip w d h))%list) ++ [])%list).
Proof.
  intros H1 H2. unfold get_connectable_hostname.
  unfold try_catch at 1. unfold bind at 1.
  destruct (RobustResolver.get_ip w d h) as [r1 ev1]. cbn [fst snd] in *. subst r1.
  unfold try_catch at 1. cbv zeta. unfold bind at 1.
  destruct (RobustResolver.get_ip w ("www." ++ d) (h ++ ev1)%list) as [r2 ev2].
  cbn [fst snd] in *. subst r2. reflexivity.
Qed.

Lemma ssl_step_unresolved cfg w d all_results h :
  ssl_step cfg w d None all_results h =
  if ssl_enabled cfg
  then (inr (all_results ++ [dns_failed_result d "ssl"])%list,
        [EvLog LWarning ("Skipping SSL check for " ++ d ++ ": DNS resolution failed.")])
  else (inr all_results, []).
Proof. unfold ssl_step. destruct (ssl_enabled cfg); reflexivity. Qed.

Lemma security_step_unresolved cfg w d all_results h :
  security_step cfg w d None all_results h =
  if security_enabled cfg
  then (inr (all_results ++ [dns_failed_result d "security"])%list,
        [EvLog LWarning ("Skipping Security check for " ++ d ++ ": DNS resolution failed.")])
  else (inr all_results, []).
Proof. unfold security_step. destruct (security_enabled cfg); reflexivity. Qed.

(** *** No connection is attempted *)

Lemma emits_domain_step cfg w d parent_domain all_results :
  emits offline_event (domain_step cfg w d parent_domain all_results).
Proof.
  unfold domain_step. destruct (domain_enabled cfg); [|apply emits_ret].
  apply emits_try_catch.
  - cbv zeta. apply emits_bind; [now apply emits_ask | intros res; apply emits_ret].
  - intros e. apply emits_bind; [now apply emits_emit | intros _; apply emits_ret].
Qed.

Lemma emits_dns_step cfg w d parent_domain all_results :
  emits offline_event (dns_step cfg w d parent_domain all_results).
Proof.
  unfold dns_step. destruct (dns_enabled cfg); [|apply emits_ret].
  cbv zeta. apply emits_bind; [now apply emits_ask | intros res; apply emits_ret].
Qed.

Lemma emits_blacklist_step cfg w d all_results :
  emits offline_event (blacklist_step cfg w d all_results).
Proof.
  unfold blacklist_step. destruct (blacklist_enabled cfg); [|apply emits_ret].
  apply emits_bind; [|intros res; apply emits_ret].
  apply emits_bind; [now apply emits_emit|]. intros _.
  eapply emits_weaken; [exact neutral_no_connection|].
  apply BlacklistSpec.quiet_check_blacklist.
Qed.

Lemma emits_ssl_step_unresolved cfg w d all_results :
  emits offline_event (ssl_step cfg w d None all_results).
Proof.
  intros h. rewrite ssl_step_unresolved. destruct (ssl_enabled cfg); now repeat constructor.
Qed.

Lemma emits_security_step_unresolved cfg w d all_results :
  emits offline_event (security_step cfg w d None all_results).
Proof.
  intros h. rewrite security_step_unresolved.
  destruct (security_enabled cfg); now repeat constructor.
Qed.

Lemma emits_checks_unresolved cfg w d parent_domain all_results :
  emits offline_event (checks cfg w d None parent_domain all_results).
Proof.
  unfold checks.
  apply emits_bind; [apply emits_domain_step|]. intros a1.
  apply emits_bind; [apply emits_ssl_step_unresolved|]. intros a2.
  apply emits_bind; [apply emits_dns_step|]. intros a3.
  apply emits_bind; [apply emits_security_step_unresolved|]. intros a4.
  apply emits_blacklist_step.
Qed.

(** *** The synthetic results are in the result sequence *)

Lemma extends_dns_step cfg w d parent_domain : extends (dns_step cfg w d parent_domain).
Proof.
  intros all_results h all' evs. unfold dns_step.
  destruct (dns_enabled cfg).
  - cbv zeta. unfold bind, ask, ret.
    destruct (w_check_dns w h parent_domain); [discriminate|].
    intros [= <- _]. eauto.
  - intros [= <- _]. exists []. now rewrite app_nil_r.
Qed.

Lemma extends_blacklist_step cfg w d : extends (blacklist_step cfg w d).
Proof.
  intros all_results h all' evs. unfold blacklist_step.
  destruct (blacklist_enabled cfg).
  - intros H. apply bind_inv_inr in H as (res & ev1 & ev2 & _ & H & _).
    unfold ret in H. injection H as <- _. eauto.
  - intros [= <- _]. exists []. now rewrite app_nil_r.
Qed.

Lemma checks_unresolved_results cfg w d parent_domain all_results h results evs :
  checks cfg w d None parent_domain all_results h = (inr results, evs) ->
  (ssl_enabled cfg = true -> In (dns_failed_result d "ssl") results) /\
  (security_enabled cfg = true -> In (dns_failed_result d "security") results).
Proof.
  unfold checks. intros H.
  apply bind_inv_inr in H as (a1 & ev1 & ev1' & _ & H & _).
  apply bind_inv_inr in H as (a2 & ev2 & ev2' & H2 & H & _).
  apply bind_inv_inr in H as (a3 & ev3 & ev3' & H3 & H & _).
  apply bind_inv_inr in H as (a4 & ev4 & ev4' & H4 & H5 & _).
  rewrite ssl_step_unresolved in H2. rewrite security_step_unresolved in H4.
  apply extends_dns_step in H3 as [new3 ->].
  apply extends_blacklist_step in H5 as [new5 ->].
  split; intros Hen; rewrite Hen in *.
  - injection H2 as <- _.
    assert (Hin : In (dns_failed_result d "ssl")
                     ((a1 ++ [dns_failed_result d "ssl"]) ++ new3)).
    { apply in_or_app. left. apply in_or_app. right. now left. }
    destruct (security_enabled cfg); injection H4 as <- _.
    + apply in_or_app. left. apply in_or_app. left. exact Hin.
    + apply in_or_app. left. exact Hin.
  - injection H4 as <- _. apply in_or_app. left. apply in_or_app. right. now left.
Qed.

(** *** The checks run to their end when the DNS adapter returns *)

Lemma total_checks_unresolved cfg w d parent_domain all_results :
  (forall h target, exists res, w_check_dns w h target = inr res) ->
  total (checks cfg w d None parent_domain all_results).
Proof.
  intros Hdns. unfold checks.
  apply total_bind.
  { unfold domain_step. destruct (domain_enabled cfg); [|apply total_ret].
    apply total_try_catch. intros e.
    apply total_bind; [apply total_emit | intros _; apply total_ret]. }
  intros a1. apply total_bind.
  { intros h. rewrite ssl_step_unresolved. destruct (ssl_enabled cfg); eexists; reflexivity. }
  intros a2. apply total_bind.
  { intros h. unfold dns_step. destruct (dns_enabled cfg); [|eexists; reflexivity].
    cbv zeta. unfold bind, ask, ret. destruct (Hdns h parent_domain) as [res ->].
    eexists; reflexivity. }
  intros a3. apply total_bind.
  { intros h. rewrite security_step_unresolved.
    destruct (security_enabled cfg); eexists; reflexivity. }
  intros a4. unfold blacklist_step. destruct (blacklist_enabled cfg); [|apply total_ret].
  apply total_bind; [|intros res; apply total_ret].
  apply total_bind; [apply total_emit | intros _; apply BlacklistSpec.total_check_blacklist].
Qed.

(** C7: when the look-up of the cleaned host name and that of its [www.]
    name both fail, there is no connectable target; the certificate step
    and the security step then append the synthetic result, status
    [critical] and message [DNS Resolution Failed], and log a warning
    instead of invoking their adapter.  In the scan of such a domain no
    certificate or security adapter is invoked at all; its synthetic
    results are in the result sequence once the scan of the domain returns,
    which it does whenever the DNS adapter returns. *)
Theorem unresolved_domain_gets_synthetic_results cfg w raw_domain all_results h e1 e2 :
  let d := clean_domain raw_domain in
  let h0 := (h ++ [EvLog LInfo ("Checking " ++ d ++ "...")])%list in
  fst (RobustResolver.get_ip w d h0) = inl e1 ->
  fst (RobustResolver.get_ip w ("www." ++ d) (h0 ++ snd (RobustResolver.get_ip w d h0))%list)
    = inl e2 ->
  fst (get_connectable_hostname w d h0) = inr None /\
  (forall all h',
     ssl_step cfg w d None all h' =
     if ssl_enabled cfg
     then (inr (all ++ [mkResult d (Some "ssl") "critical" (Some "DNS Resolution Failed")
                          (Some (DetailsDict
                                   [("error", "Could not resolve hostname or www subdomain")]))
                          None None None None])%list,
           [EvLog LWarning ("Skipping SSL check for " ++ d ++ ": DNS resolution failed.")])
     else (inr all, [])) /\
  (forall all h',
     security_step cfg w d None all h' =
     if security_enabled cfg
     then (inr (all ++ [mkResult d (Some "security") "critical" (Some "DNS Resolution Failed")
                          (Some (DetailsDict
                                   [("error", "Could not resolve hostname or www subdomain")]))
                          None None None None])%list,
           [EvLog LWarning ("Skipping Security check for " ++ d ++ ": DNS resolution failed.")])
     else (inr all, [])) /\
  let run := scan_domain cfg w raw_domain all_results h in
  Forall (fun ev => no_connection ev = true) (snd run) /\
  (forall results,
     fst run = inr results ->
     (ssl_enabled cfg = true -> In (dns_failed_result d "ssl") results) /\
     (security_enabled cfg = true -> In (dns_failed_result d "security") results)) /\
  ((forall h' target, exists res, w_check_dns w h' target = inr res) ->
   exists results, fst run = inr results).
Proof.
  cbv zeta. intros H1 H2.
  set (d := clean_domain raw_domain) in *.
  set (line := EvLog LInfo ("Checking " ++ d ++ "...")) in *.
  pose proof (unresolved_connectable w d (h ++ [line])%list e1 e2 H1 H2) as Hc.
  split; [now rewrite Hc|].
  split; [intros all h'; apply ssl_step_unresolved|].
  split; [intros all h'; apply security_step_unresolved|].
  pose proof (ResolverSpec.quiet_get_connectable_hostname w d (h ++ [line])%list) as Hq.
  rewrite Hc in Hq. cbn [snd] in Hq.
  set (evc := (snd (RobustResolver.get_ip w d (h ++ [line])) ++ _)%list) in *.
  assert (Hrun : scan_domain cfg w raw_domain all_results h =
                 let '(r, ev) := checks cfg w d None (get_parent_domain d) all_results
                                        ((h ++ [line]) ++ evc)%list in
                 (r, ([line] ++ evc ++ ev)%list)).
  { rewrite scan_domain_unfold. cbv zeta. fold d.
    unfold bind at 1. unfold log, emit. fold line. unfold bind at 1. rewrite Hc.
    now destruct (checks cfg w d None (get_parent_domain d) all_results _). }
  rewrite Hrun. clear Hrun.
  pose proof (emits_checks_unresolved cfg w d (get_parent_domain d) all_results
                ((h ++ [line]) ++ evc)%list) as He.
  pose proof (checks_unresolved_results cfg w d (get_parent_domain d) all_results
                ((h ++ [line]) ++ evc)%list) as Hres.
  pose proof (fun Hdns => total_checks_unresolved cfg w d (get_parent_domain d) all_results
                Hdns ((h ++ [line]) ++ evc)%list) as Htot.
  destruct (checks cfg w d None (get_parent_domain d) all_results _) as [r ev].
  cbn [fst snd] in *.
  split.
  - apply Forall_app. split; [now repeat constructor|].
    apply Forall_app. split; [|exact He].
    eapply Forall_impl; [exact Hq | exact neutral_no_connection].
  - split; [|exact Htot].
    intros results ->. now apply (Hres results ev).
Qed.

End TargetSpec.

(** ** The scan loop: what each step appends *)

Module BlockFacts.
Import Eff EventAux EffFacts Cli CliAux MoreAux.

Lemma appends_bind m1 m2 P1 P2 :
  appends m1 P1 -> appends m2 P2 ->
  appends (fun all_results => bind (m1 all_results) m2)
          (fun new => exists new1 new2, new = (new1 ++ new2)%list /\ P1 new1 /\ P2 new2).
Proof.
  intros H1 H2 all_results h all' evs H.
  apply TargetSpec.bind_inv_inr in H as (a & ev1 & ev2 & Ha & Hb & _).
  apply H1 in Ha as (new1 & -> & Hp1).
  apply H2 in Hb as (new2 & -> & Hp2).
  exists (new1 ++ new2)%list. rewrite app_assoc. eauto 6.
Qed.

Lemma appends_skip (P : list CheckResult -> Prop)
    (all_results all' : list CheckResult) (evs : list Event) :
  P [] ->
  (inr all_results : Exn + list CheckResult, @nil Event) = (inr all', evs) ->
  exists new, all' = (all_results ++ new)%list /\ P new.
Proof.
  intros HP [= <- _]. exists []. rewrite app_nil_r. auto.
Qed.

Lemma from_answer_parent d target answer :
  from_answer d answer
    (if String.eqb target d then set_domain d answer
     else set_message ("(Parent: " ++ target ++ ") " ++ get_message (set_domain d answer))
                      (set_domain d answer)).
Proof.
  unfold from_answer. destruct (String.eqb target d); cbn.
  - repeat split; auto.
  - repeat split; auto. right. exists ("(Parent: " ++ target ++ ") ").
    now rewrite !UrlFacts.append_assoc.
Qed.

Lemma from_answer_checked d host answer :
  from_answer d answer
    (set_domain d (if String.eqb host d then answer
                   else set_message ("(Checked " ++ host ++ ") " ++ get_message answer)
                                    answer)).
Proof.
  unfold from_answer. destruct (String.eqb host d); cbn.
  - repeat split; auto.
  - repeat split; auto. right. exists ("(Checked " ++ host ++ ") ").
    now rewrite !UrlFacts.append_assoc.
Qed.

Lemma produced_domain w d m res : produced w d m res -> domain res = d.
Proof.
  destruct m; cbn.
  - intros (h & t & a & _ & H & _). exact H.
  - intros [->|(h & t & a & _ & H & _)]; [reflexivity | exact H].
  - intros (h & t & a & _ & H & _). exact H.
  - intros [->|(h & t & a & _ & H & _)]; [reflexivity | exact H].
  - intros (h & a & _ & ->). reflexivity.
Qed.

Lemma domain_step_block cfg w d parent_domain :
  appends (domain_step cfg w d parent_domain)
          (fun new => length new <= b2n (domain_enabled cfg) /\
                      Forall (produced w d MDomain) new).
Proof.
  intros all_results h all' evs. unfold domain_step.
  destruct (domain_enabled cfg);
    [|apply appends_skip; split; [cbn; lia | constructor]].
  cbv zeta. unfold try_catch, bind, ask, ret, log, emit.
  destruct (w_check_domain w h parent_domain) as [e|answer] eqn:Hw.
  - intros [= <- _]. exists []. rewrite app_nil_r.
    split; [reflexivity|]. split; [cbn; lia | constructor].
  - intros [= <- _]. eexists. split; [reflexivity|]. split; [cbn; lia|].
    constructor; [|constructor]. exists h, parent_domain, answer. split; [exact Hw|].
    apply from_answer_parent.
Qed.

Lemma ssl_step_block cfg w d connectable_host :
  appends (ssl_step cfg w d connectable_host)
          (Forall2 (produced w d) (one_if (ssl_enabled cfg) MSsl)).
Proof.
  intros all_results h all' evs. unfold ssl_step.
  destruct (ssl_enabled cfg); [|apply appends_skip; constructor].
  destruct (truthy connectable_host) as [host|].
  - cbv zeta. unfold bind, ask, ret.
    destruct (w_check_ssl w h host) as [e|answer] eqn:Hw; [discriminate|].
    intros [= <- _]. eexists. split; [reflexivity|].
    constructor; [|constructor]. right. exists h, host, answer. split; [exact Hw|].
    apply from_answer_checked.
  - unfold bind, log, emit, ret. intros [= <- _].
    eexists. split; [reflexivity|]. constructor; [|constructor]. now left.
Qed.

Lemma dns_step_block cfg w d parent_domain :
  appends (dns_step cfg w d parent_domain)
          (Forall2 (produced w d) (one_if (dns_enabled cfg) MDns)).
Proof.
  intros all_results h all' evs. unfold dns_step.
  destruct (dns_enabled cfg); [|apply appends_skip; constructor].
  cbv zeta. unfold bind, ask, ret.
  destruct (w_check_dns w h parent_domain) as [e|answer] eqn:Hw; [discriminate|].
  intros [= <- _]. eexists. split; [reflexivity|].
  constructor; [|constructor]. exists h, parent_domain, answer. split; [exact Hw|].
  apply from_answer_parent.
Qed.

Lemma security_step_block cfg w d connectable_host :
  appends (security_step cfg w d connectable_host)
          (Forall2 (produced w d) (one_if (security_enabled cfg) MSecurity)).
Proof.
  intros all_results h all' evs. unfold security_step.
  destruct (security_enabled cfg); [|apply appends_skip; constructor].
  destruct (truthy connectable_host) as [host|].
  - cbv zeta. unfold bind, ask, ret.
    destruct (w_check_security w h host) as [e|answer] eqn:Hw; [discriminate|].
    intros [= <- _]. eexists. split; [reflexivity|].
    constructor; [|constructor]. right. exists h, host, answer. split; [exact Hw|].
    apply from_answer_checked.
  - unfold bind, log, emit, ret. intros [= <- _].
    eexists. split; [reflexivity|]. constructor; [|constructor]. now left.
Qed.

Lemma blacklist_step_block cfg w d :
  appends (blacklist_step cfg w d)
          (Forall2 (produced w d) (one_if (blacklist_enabled cfg) MBlacklist)).
Proof.
  intros all_results h all' evs. unfold blacklist_step.
  destruct (blacklist_enabled cfg); [|apply appends_skip; constructor].
  intros H. apply TargetSpec.bind_inv_inr in H as (res & ev1 & ev2 & Hres & H & _).
  unfold ret in H. injection H as <- _.
  apply TargetSpec.bind_inv_inr in Hres as (u & ev3 & ev4 & _ & Hres & _).
  eexists. split; [reflexivity|]. constructor; [|constructor].
  eexists _, res. split; [|reflexivity]. now rewrite Hres.
Qed.

Lemma enabled_later_split cfg :
  enabled_later cfg =
  (one_if (ssl_enabled cfg) MSsl ++ one_if (dns_enabled cfg) MDns
   ++ one_if (security_enabled cfg) MSecurity
   ++ one_if (blacklist_enabled cfg) MBlacklist)%list.
Proof.
  unfold enabled_later, later_monitors, one_if. cbn [List.filter enabled].
  now destruct (ssl_enabled cfg), (dns_enabled cfg), (security_enabled cfg),
              (blacklist_enabled cfg).
Qed.

Lemma checks_block cfg w d connectable_host parent_domain :
  appends (checks cfg w d connectable_host parent_domain) (domain_block cfg w d).
Proof.
  intros all_results h all' evs H.
  pose proof (appends_bind _ _ _ _ (domain_step_block cfg w d parent_domain)
                (appends_bind _ _ _ _ (ssl_step_block cfg w d connectable_host)
                   (appends_bind _ _ _ _ (dns_step_block cfg w d parent_domain)
                      (appends_bind _ _ _ _ (security_step_block cfg w d connectable_host)
                         (blacklist_step_block cfg w d))))) as Happ.
  apply Happ in H as (new & -> & n1 & r1 & -> & [L1 B1] & n2 & r2 & -> & B2 &
                      n3 & r3 & -> & B3 & n4 & n5 & -> & B4 & B5).
  eexists. split; [reflexivity|].
  exists n1, (n2 ++ n3 ++ n4 ++ n5)%list. split; [reflexivity|].
  split; [exact L1|]. split; [exact B1|].
  rewrite enabled_later_split. repeat apply Forall2_app; assumption.
Qed.

Lemma scan_domain_block cfg w raw_domain :
  appends (scan_domain cfg w raw_domain) (domain_block cfg w (clean_domain raw_domain)).
Proof.
  intros all_results h all' evs. rewrite CliFacts.scan_domain_unfold. cbv zeta.
  intros H.
  apply TargetSpec.bind_inv_inr in H as (u & ev1 & ev2 & _ & H & _).
  apply TargetSpec.bind_inv_inr in H as (host & ev3 & ev4 & _ & H & _).
  now apply checks_block in H.
Qed.

Lemma for_each_blocks cfg w domains :
  forall all_results h all' evs,
    for_each domains (scan_domain cfg w) all_results h = (inr all', evs) ->
    exists blocks,
      all' = (all_results ++ concat blocks)%list /\
      Forall2 (fun raw_domain block => domain_block cfg w (clean_domain raw_domain) block)
              domains blocks.
Proof.
  induction domains as [|raw domains IH]; intros all_results h all' evs H.
  - injection H as <- _. exists []. cbn. rewrite app_nil_r. split; [reflexivity | constructor].
  - cbn [for_each] in H.
    apply TargetSpec.bind_inv_inr in H as (a & ev1 & ev2 & Ha & Hb & _).
    apply scan_domain_block in Ha as (new & -> & Hblock).
    apply IH in Hb as (blocks & -> & Hall).
    exists (new :: blocks). cbn [concat]. rewrite app_assoc.
    split; [reflexivity | now constructor].
Qed.

(** A block holds results of its domain only, at most one per enabled
    monitor. *)
Lemma domain_block_labels cfg w d block :
  domain_block cfg w d block ->
  Forall (fun res => domain res = d) block /\ length block <= n_enabled cfg.
Proof.
  intros (whois & rest & -> & Hlen & Hw & Hr). split.
  - apply Forall_app. split.
    + eapply Forall_impl; [exact Hw|]. intros res. apply produced_domain.
    + clear -Hr. induction Hr as [|m res ms rest Hm _ IH]; constructor; [|exact IH].
      exact (produced_domain _ _ _ _ Hm).
  - rewrite length_app, <- (Forall2_length _ _ _ Hr).
    unfold n_enabled, enabled_later, later_monitors. cbn [List.filter enabled].
    destruct (ssl_enabled cfg), (dns_enabled cfg), (security_enabled cfg),
             (blacklist_enabled cfg); cbn [length b2n] in *; lia.
Qed.

End BlockFacts.

(** ** The scan loop with the adapters of the repository *)

Module RepositoryFacts.
Import Eff EventAux EffFacts Cli CliAux MoreAux BlockFacts Repository.

(** The WHOIS adapter never raises. *)
Lemma check_domain_returns lib h target :
  exists answer,
    check_domain lib h target = inr answer /\
    (monitor answer = Some "domain" \/
     monitor answer = None /\ status answer = "error").
Proof.
  unfold check_domain, DomainMonitor.check_domain. eexists. split; [reflexivity|].
  destruct (l_whois lib h target) as [e|entry]; [now left|].
  cbv zeta. destruct (DomainMonitor.expiration_date entry) as [|date|[|date dates]];
    cbn; auto.
Qed.

(** Once its socket exists, the certificate adapter does not raise. *)
Lemma check_ssl_returns lib h target :
  l_socket lib h target = None ->
  exists answer, check_ssl lib h target = inr answer /\ monitor answer = Some "ssl".
Proof.
  intros Hs. unfold check_ssl, SSLMonitor.check_ssl. rewrite Hs.
  destruct (l_peer lib h target) as [e|cert]; cbn; eauto.
Qed.

Lemma check_security_returns lib h target :
  exists answer, check_security lib h target = inr answer /\ monitor answer = Some "security".
Proof.
  unfold check_security, SecurityMonitor.check_security. eexists. split; [reflexivity|].
  destruct (l_head lib h target) as [[text|text|text]|headers];
    [destruct (l_head_unverified lib h target)|..]; reflexivity.
Qed.

(** The DNS adapter never raises and never reports an error. *)
Lemma check_dns_returns r h target :
  exists answer,
    check_dns r h target = inr answer /\
    monitor answer = Some "dns" /\
    (status answer = "ok" \/ status answer = "warning").
Proof.
  unfold check_dns, DNSMonitor.check_dns, try_catch, bind, ask, ret. cbv zeta.
  cbn [w_system with_adapters].
  destruct (r_system r h target "TXT") as [e1|records]; cbn [app fst snd];
    destruct (r_system r _ ("_dmarc." ++ target) "TXT") as [e2|records2];
    cbn [app fst snd DnsResults.as_result];
    (eexists; split; [reflexivity|]; split; [reflexivity|]); cbn [status];
    match goal with |- context [if ?b then _ else _] => destruct b end; auto.
Qed.

Lemma repository_adapters_return r lib :
  (forall h host, l_socket lib h host = None) ->
  unguarded_adapters_return (world r lib).
Proof.
  intros Hs. repeat split; intros h target; cbn [world with_adapters w_check_ssl w_check_dns
                                                  w_check_security].
  - destruct (check_ssl_returns lib h target (Hs h target)) as (a & -> & _). eauto.
  - destruct (check_dns_returns r h target) as (a & -> & _). eauto.
  - destruct (check_security_returns lib h target) as (a & -> & _). eauto.
Qed.

Lemma produced_labelled r lib d m res :
  produced (world r lib) d m res -> labelled_as m res.
Proof.
  unfold labelled_as. destruct m; cbn [produced kind_name world with_adapters w_check_domain
                                    w_check_ssl w_check_dns w_check_security].
  - intros (h & t & a & Ha & _ & Hm & Hs & _).
    destruct (check_domain_returns lib h t) as (a' & Ha' & Hc).
    rewrite Ha in Ha'. injection Ha' as <-. rewrite Hm, Hs.
    destruct Hc as [Hc|[Hc1 Hc2]]; auto.
  - intros [->|(h & t & a & Ha & _ & Hm & _)]; [now left|].
    unfold check_ssl in Ha.
    destruct (fst (SSLMonitor.check_ssl _ _ _ _)) as [e|rep] eqn:E; [discriminate|].
    injection Ha as <-. left. rewrite Hm. cbn.
    unfold SSLMonitor.check_ssl in E. destruct (l_socket lib h t); [discriminate|].
    destruct (l_peer lib h t); injection E as <-; reflexivity.
  - intros (h & t & a & Ha & _ & Hm & _).
    destruct (check_dns_returns r h t) as (a' & Ha' & Hc & _).
    rewrite Ha in Ha'. injection Ha' as <-. left. now rewrite Hm.
  - intros [->|(h & t & a & Ha & _ & Hm & _)]; [now left|].
    destruct (check_security_returns lib h t) as (a' & Ha' & Hc).
    rewrite Ha in Ha'. injection Ha' as <-. left. now rewrite Hm.
  - intros (h & a & Ha & ->). left.
    destruct (BlacklistFacts.check_blacklist_outcome (world r lib) d h)
      as (res & evs & Hrun & Hm & _).
    rewrite Hrun in Ha. injection Ha as <-. exact Hm.
Qed.

(** *** The handler of the loop never runs *)

Lemma neutral_no_failure ev : neutral ev -> no_failure ev.
Proof. intros H. apply H. Qed.

Lemma no_failure_domain_step cfg w d parent_domain all_results :
  (forall h target, exists answer, w_check_domain w h target = inr answer) ->
  emits no_failure (domain_step cfg w d parent_domain all_results).
Proof.
  intros Hw h. unfold domain_step. destruct (domain_enabled cfg); [|constructor].
  cbv zeta. unfold try_catch, bind, ask, ret.
  destruct (Hw h parent_domain) as [answer ->]. cbn. now repeat constructor.
Qed.

Lemma no_failure_ssl_step cfg w d connectable_host all_results :
  emits no_failure (ssl_step cfg w d connectable_host all_results).
Proof.
  intros h. unfold ssl_step. destruct (ssl_enabled cfg); [|constructor].
  destruct (truthy connectable_host) as [host|].
  - cbv zeta. unfold bind, ask, ret.
    destruct (w_check_ssl w h host); cbn; now repeat constructor.
  - cbn. now repeat constructor.
Qed.

Lemma no_failure_dns_step cfg w d parent_domain all_results :
  emits no_failure (dns_step cfg w d parent_domain all_results).
Proof.
  intros h. unfold dns_step. destruct (dns_enabled cfg); [|constructor].
  cbv zeta. unfold bind, ask, ret.
  destruct (w_check_dns w h parent_domain); cbn; now repeat constructor.
Qed.

Lemma no_failure_security_step cfg w d connectable_host all_results :
  emits no_failure (security_step cfg w d connectable_host all_results).
Proof.
  intros h. unfold security_step. destruct (security_enabled cfg); [|constructor].
  destruct (truthy connectable_host) as [host|].
  - cbv zeta. unfold bind, ask, ret.
    destruct (w_check_security w h host); cbn; now repeat constructor.
  - cbn. now repeat constructor.
Qed.

Lemma no_failure_blacklist_step cfg w d all_results :
  emits no_failure (blacklist_step cfg w d all_results).
Proof.
  unfold blacklist_step. destruct (blacklist_enabled cfg); [|apply emits_ret].
  apply emits_bind; [|intros res; apply emits_ret].
  apply emits_bind; [apply emits_emit; reflexivity|]. intros _.
  apply (emits_weaken neutral); [exact neutral_no_failure|].
  apply BlacklistSpec.quiet_check_blacklist.
Qed.

Lemma no_failure_scan_domain cfg w raw_domain all_results :
  (forall h target, exists answer, w_check_domain w h target = inr answer) ->
  emits no_failure (scan_domain cfg w raw_domain all_results).
Proof.
  intros Hw. rewrite CliFacts.scan_domain_unfold. cbv zeta.
  apply emits_bind; [apply emits_emit; reflexivity|]. intros _.
  apply emits_bind.
  { apply (emits_weaken neutral); [exact neutral_no_failure|].
    apply ResolverSpec.quiet_get_connectable_hostname. }
  intros host. unfold checks.
  apply emits_bind; [now apply no_failure_domain_step|]. intros a1.
  apply emits_bind; [apply no_failure_ssl_step|]. intros a2.
  apply emits_bind; [apply no_failure_dns_step|]. intros a3.
  apply emits_bind; [apply no_failure_security_step|]. intros a4.
  apply no_failure_blacklist_step.
Qed.

Lemma no_failure_tally evs : Forall no_failure evs -> tally WhoisFailures evs = 0.
Proof.
  unfold tally. induction 1 as [|ev evs Hev _ IH]; [reflexivity|].
  cbn [List.filter]. unfold no_failure in Hev. now rewrite Hev.
Qed.

(** *** One result per enabled monitor *)

Lemma domain_step_one cfg w d parent_domain :
  (forall h target, exists answer, w_check_domain w h target = inr answer) ->
  appends (domain_step cfg w d parent_domain)
          (Forall2 (produced w d) (one_if (domain_enabled cfg) MDomain)).
Proof.
  intros Hw all_results h all' evs. unfold domain_step.
  destruct (domain_enabled cfg); [|apply appends_skip; constructor].
  cbv zeta. unfold try_catch, bind, ask, ret.
  destruct (Hw h parent_domain) as [answer Ha]. rewrite Ha.
  intros [= <- _]. eexists. split; [reflexivity|].
  constructor; [|constructor]. exists h, parent_domain, answer. split; [exact Ha|].
  apply from_answer_parent.
Qed.

Lemma enabled_monitors_split cfg :
  enabled_monitors cfg = (one_if (domain_enabled cfg) MDomain ++ enabled_later cfg)%list.
Proof.
  unfold enabled_monitors, enabled_later, one_if. cbn [List.filter enabled].
  now destruct (domain_enabled cfg).
Qed.

Lemma scan_domain_full cfg w raw_domain :
  (forall h target, exists answer, w_check_domain w h target = inr answer) ->
  appends (scan_domain cfg w raw_domain)
          (Forall2 (produced w (clean_domain raw_domain)) (enabled_monitors cfg)).
Proof.
  intros Hw all_results h all' evs. rewrite CliFacts.scan_domain_unfold. cbv zeta.
  intros H.
  apply TargetSpec.bind_inv_inr in H as (u & ev1 & ev2 & _ & H & _).
  apply TargetSpec.bind_inv_inr in H as (host & ev3 & ev4 & _ & H & _).
  set (d := clean_domain raw_domain) in *.
  pose proof (appends_bind _ _ _ _ (domain_step_one cfg w d (get_parent_domain d) Hw)
                (appends_bind _ _ _ _ (ssl_step_block cfg w d host)
                   (appends_bind _ _ _ _ (dns_step_block cfg w d (get_parent_domain d))
                      (appends_bind _ _ _ _ (security_step_block cfg w d host)
                         (blacklist_step_block cfg w d))))) as Happ.
  apply Happ in H as (new & -> & n1 & r1 & -> & B1 & n2 & r2 & -> & B2 &
                      n3 & r3 & -> & B3 & n4 & n5 & -> & B4 & B5).
  eexists. split; [reflexivity|].
  rewrite enabled_monitors_split, enabled_later_split.
  repeat apply Forall2_app; assumption.
Qed.

Lemma for_each_full cfg w domains :
  (forall h target, exists answer, w_check_domain w h target = inr answer) ->
  forall all_results h all' evs,
    for_each domains (scan_domain cfg w) all_results h = (inr all', evs) ->
    exists blocks,
      all' = (all_results ++ concat blocks)%list /\
      Forall2 (fun raw_domain block =>
                 Forall2 (produced w (clean_domain raw_domain)) (enabled_monitors cfg) block)
              domains blocks.
Proof.
  intros Hw. induction domains as [|raw domains IH]; intros all_results h all' evs H.
  - injection H as <- _. exists []. cbn. rewrite app_nil_r. split; [reflexivity | constructor].
  - cbn [for_each] in H.
    apply TargetSpec.bind_inv_inr in H as (a & ev1 & ev2 & Ha & Hb & _).
    apply (scan_domain_full cfg w raw Hw) in Ha as (new & -> & Hblock).
    apply IH in Hb as (blocks & -> & Hall).
    exists (new :: blocks). cbn [concat]. rewrite app_assoc.
    split; [reflexivity | now constructor].
Qed.

End RepositoryFacts.

(** ** The scan loop: faults of the adapters *)

Module CliSpec.
Import Eff EventAux EffFacts Cli CliAux MoreAux BlockFacts Repository RepositoryFacts.
Import SecurityMonitor.

(** C1, as stated, fails.  In a world in which the HTTP request of the
    security check times out, the adapter catches the exception itself and
    the result appended for [example.com] has the status warning, not
    error.  And in a world in which the socket of the certificate check
    cannot be created, the exception leaves the adapter, nothing in the
    loop catches it, and the cycle ends with it: no result, and the second
    domain is never scanned. *)
Lemma timeout_is_a_warning_and_socket_fault_ends_the_cycle :
  l_head Samples.http_times_out [] "example.com" = inl (Timeout "Read timed out.") /\
  (exists results,
     fst (scan_cycle Samples.all_monitors
            (world Samples.only_example_com Samples.http_times_out) ["example.com"] [])
     = inr results /\
     In (mkResult "example.com" (Some "security") "warning" (Some "Connection Timeout")
                  None None None None None) results /\
     Forall (fun res => monitor res = Some "security" -> status res <> "error") results) /\
  fst (scan_cycle Samples.all_monitors
         (world Samples.only_example_com Samples.no_sockets)
         ["example.com"; "example.org"] [])
  = inl (mkExn OtherException "[Errno 24] Too many open files").
Proof.
  split; [reflexivity|]. split.
  - eexists. split; [vm_compute; reflexivity|]. split.
    + do 3 right. now left.
    + repeat constructor; cbn; intros; discriminate.
  - vm_compute. reflexivity.
Qed.

(** C1 (as the code has it): with the adapters of the repository, a fault
    of the query that an adapter makes is caught inside the adapter and
    converted into its result: with the status error for a failed WHOIS
    query, TLS connection or HTTP connection, warning for an HTTP time-out
    and for failed TXT look-ups (which count as missing records), and
    warning or critical for a certificate that the HTTP request rejects.
    The loop itself converts nothing: its one handler, around the WHOIS
    step, never runs.  When the socket of the certificate check can be
    created, the cycle runs to its end, and for every configured domain, in
    order, it appends exactly one result per enabled monitor, labelled with
    the cleaned domain and, but for the WHOIS result without expiration
    date, with the name of the monitor; every enabled adapter is invoked
    for every domain (the connection checks, or skipped with their
    synthetic result). *)
Theorem adapter_faults_become_results cfg r lib domains h :
  (forall h' host, l_socket lib h' host = None) ->
  let w := world r lib in
  (forall h' target e,
     l_whois lib h' target = inl e ->
     w_check_domain w h' target
     = inr (mkResult "" (Some "domain") "error" (Some (exn_text e))
                     None None None None None)) /\
  (forall h' target e,
     l_peer lib h' target = inl e ->
     w_check_ssl w h' target
     = inr (mkResult "" (Some "ssl") "error" (Some (exn_text e)) None None None None None)) /\
  (forall h' target text,
     l_head lib h' target = inl (OtherError text) ->
     w_check_security w h' target
     = inr (mkResult "" (Some "security") "error" (Some "Connection Failed")
                     (Some (DetailsStr text)) None None None None)) /\
  (forall h' target text,
     l_head lib h' target = inl (Timeout text) ->
     w_check_security w h' target
     = inr (mkResult "" (Some "security") "warning" (Some "Connection Timeout")
                     None None None None None)) /\
  (forall h' target text,
     l_head lib h' target = inl (SSLError text) ->
     exists status message,
       w_check_security w h' target
       = inr (mkResult "" (Some "security") status (Some message)
                       (Some (DetailsStr text)) None None None None) /\
       (status = "warning" \/ status = "critical")) /\
  (forall h' target e1 e2,
     r_system r h' target "TXT" = inl e1 ->
     r_system r (h' ++ [EvSystemQuery target "TXT"])%list ("_dmarc." ++ target) "TXT"
     = inl e2 ->
     w_check_dns w h' target
     = inr (mkResult "" (Some "dns") "warning" None None None None None None)) /\
  exists results evs blocks,
    scan_cycle cfg w domains h = (inr results, evs) /\
    tally WhoisFailures evs = 0 /\
    cycle_tally cfg (length domains) (length results) evs /\
    length results = n_enabled cfg * length domains /\
    results = concat blocks /\
    Forall2 (fun raw_domain block =>
               Forall2 (fun m res =>
                          domain res = clean_domain raw_domain /\
                          produced w (clean_domain raw_domain) m res /\
                          (monitor res = Some (kind_name m) \/
                           m = MDomain /\ monitor res = None /\ status res = "error"))
                       (enabled_monitors cfg) block)
            domains blocks.
Proof.
  intros Hs w.
  split.
  { intros h' target e He. cbn [w world with_adapters w_check_domain].
    unfold Repository.check_domain, DomainMonitor.check_domain. now rewrite He. }
  split.
  { intros h' target e He. cbn [w world with_adapters w_check_ssl].
    unfold Repository.check_ssl, SSLMonitor.check_ssl. now rewrite (Hs h' target), He. }
  split.
  { intros h' target text He. cbn [w world with_adapters w_check_security].
    unfold Repository.check_security, SecurityMonitor.check_security. now rewrite He. }
  split.
  { intros h' target text He. cbn [w world with_adapters w_check_security].
    unfold Repository.check_security, SecurityMonitor.check_security. now rewrite He. }
  split.
  { intros h' target text He. cbn [w world with_adapters w_check_security].
    unfold Repository.check_security, SecurityMonitor.check_security. rewrite He.
    destruct (l_head_unverified lib h' target); do 2 eexists; (split; [reflexivity|]); auto. }
  split.
  { intros h' target e1 e2 H1 H2. cbn [w world with_adapters w_check_dns].
    unfold Repository.check_dns, DNSMonitor.check_dns, try_catch, bind, ask, ret. cbv zeta.
    cbn [w_system with_adapters]. rewrite H1. cbn [app fst snd]. rewrite H2. reflexivity. }
  assert (Hw : forall h' target, exists answer, w_check_domain w h' target = inr answer).
  { intros h' target. destruct (check_domain_returns lib h' target) as (a & Ha & _). eauto. }
  destruct (CliFacts.scan_cycle_tally cfg w domains (repository_adapters_return r lib Hs) [] h)
    as (results & evs & Hrun & Ht).
  cbn [app] in Hrun.
  assert (Hnone : tally WhoisFailures evs = 0).
  { apply no_failure_tally.
    pose proof (emits_for_each no_failure domains (scan_domain cfg w) []
                  (fun raw acc => no_failure_scan_domain cfg w raw acc Hw) h) as He.
    now rewrite Hrun in He. }
  destruct (for_each_full cfg w domains Hw [] h results evs Hrun) as (blocks & Hres & Hall).
  cbn [app] in Hres.
  exists results, evs, blocks. split; [exact Hrun|]. split; [exact Hnone|].
  split; [exact Ht|]. split.
  { destruct Ht as [Ht _]. rewrite Hnone in Ht. lia. }
  split; [exact Hres|].
  eapply Forall2_impl; [exact Hall|]. intros raw block Hb. cbv beta in *.
  eapply Forall2_impl; [exact Hb|]. intros m res Hp. cbv beta in *.
  split; [exact (produced_domain _ _ _ _ Hp)|]. split; [exact Hp|].
  exact (produced_labelled r lib _ m res Hp).
Qed.

(** With every query of an adapter answered but the WHOIS query, which
    times out, the cycle over two domains runs to its end. *)
Lemma adapter_faults_become_results_witness :
  (forall h' host, l_socket Samples.whois_times_out h' host = None) /\
  exists results evs,
    scan_cycle Samples.all_monitors Samples.whois_down
               ["example.com"; "https://Example.org/"] [] = (inr results, evs) /\
    tally WhoisFailures evs = 0 /\
    length results = 10.
Proof.
  assert (Hs : forall h' host, l_socket Samples.whois_times_out h' host = None)
    by reflexivity.
  split; [exact Hs|].
  destruct (adapter_faults_become_results Samples.all_monitors Samples.only_example_com
              Samples.whois_times_out ["example.com"; "https://Example.org/"] [] Hs)
    as (_ & _ & _ & _ & _ & _ & results & evs & blocks & Hrun & Hnone & _ & Hlen & _).
  exists results, evs. split; [exact Hrun|]. split; [exact Hnone | exact Hlen].
Defined.

End CliSpec.

(** ** The resolver and the scan loop: concrete instances *)

Module CliInstances.
Import Eff EventAux Cli RobustResolver Samples.

(** With every resolver out of reach the pool attempt times out and the
    fallback is tried once; where the pool answers that the name does not
    exist, that answer is final. *)
Lemma resolve_falls_back_once_unless_authoritative_witness :
  (w_pool offline [] (w_shuffle offline [] resolvers) "example.com" "A" = inl timed_out /\
   fst (resolve offline "example.com" "A" []) = inl refused /\
   doh_queries (snd (resolve offline "example.com" "A" [])) = [("example.com", "A")]) /\
  (w_pool whois_down [] (w_shuffle whois_down [] resolvers) "nohost.org" "A" = inl not_listed /\
   fst (resolve whois_down "nohost.org" "A" []) = inl not_listed /\
   doh_queries (snd (resolve whois_down "nohost.org" "A" [])) = []).
Proof.
  assert (H1 : w_pool offline [] (w_shuffle offline [] resolvers) "example.com" "A"
               = inl timed_out) by reflexivity.
  assert (H2 : w_pool whois_down [] (w_shuffle whois_down [] resolvers) "nohost.org" "A"
               = inl not_listed) by reflexivity.
  split.
  - split; [exact H1|].
    destruct (ResolverSpec.resolve_falls_back_once_unless_authoritative
                offline "example.com" "A" [] timed_out H1) as [_ H].
    change (authoritative_negative timed_out) with false in H.
    destruct H as (Hd & _ & Hf & _). split; [|exact Hd]. now apply Hf.
  - split; [exact H2|].
    destruct (ResolverSpec.resolve_falls_back_once_unless_authoritative
                whois_down "nohost.org" "A" [] not_listed H2) as [_ H].
    change (authoritative_negative not_listed) with true in H.
    exact H.
Defined.

(** With every resolver out of reach neither [example.org] nor
    [www.example.org] resolves, and the scan of the domain returns. *)
Lemma unresolved_domain_gets_synthetic_results_witness :
  fst (get_ip offline "example.org" [EvLog LInfo "Checking example.org..."])
    = inl (mkExn OtherException
             "Failed to resolve IP for example.org: Connection refused") /\
  fst (get_ip offline "www.example.org"
         ([EvLog LInfo "Checking example.org..."] ++
          snd (get_ip offline "example.org" [EvLog LInfo "Checking example.org..."]))%list)
    = inl (mkExn OtherException
             "Failed to resolve IP for www.example.org: Connection refused") /\
  fst (get_connectable_hostname offline "example.org"
         [EvLog LInfo "Checking example.org..."]) = inr None /\
  exists results,
    fst (scan_domain all_monitors offline "https://Example.org/" [] []) = inr results /\
    In (dns_failed_result "example.org" "ssl") results /\
    In (dns_failed_result "example.org" "security") results.
Proof.
  split; [reflexivity|]. split; [reflexivity|].
  pose proof (TargetSpec.unresolved_domain_gets_synthetic_results
                all_monitors offline "https://Example.org/" [] []
                (mkExn OtherException
                   "Failed to resolve IP for example.org: Connection refused")
                (mkExn OtherException
                   "Failed to resolve IP for www.example.org: Connection refused")) as H.
  cbv zeta in H.
  specialize (H eq_refl eq_refl).
  destruct H as (Hc & _ & _ & _ & Hres & Htot).
  split; [exact Hc|].
  destruct Htot as [results Hr].
  { intros h' target. eexists. reflexivity. }
  exists results. split; [exact Hr|].
  destruct (Hres results Hr) as [Hssl Hsec].
  split; [now apply Hssl | now apply Hsec].
Defined.

(** An RBL that answers with a blocked-query code and a policy listing
    lists nothing; one genuine answer among them makes the status
    critical. *)
Example reserved_answers_leave_the_status_ok :
  fst (BlacklistMonitor.check_blacklist
         (spamhaus_answers ["127.255.255.254"; "127.0.0.10"]) "example.com" [])
  = inr (mkResult "" (Some "blacklist") "ok" (Some "Not listed in any common RBL") None None
                  (Some "93.184.216.34") (Some []) (Some 6%Z)).
Proof. vm_compute. reflexivity. Qed.

Example genuine_answer_is_a_listing :
  fst (BlacklistMonitor.check_blacklist
         (spamhaus_answers ["127.0.0.11"; "127.0.0.2"]) "example.com" [])
  = inr (mkResult "" (Some "blacklist") "critical" (Some "Listed in 1 blacklists") None None
                  (Some "93.184.216.34") (Some ["zen.spamhaus.org"]) (Some 6%Z)).
Proof. vm_compute. reflexivity. Qed.

End CliInstances.

(** ** Further properties of the code *)

Module MoreProperties.
Import Eff EventAux EffFacts.

(** X1: [get_connectable_hostname] never raises: it returns the domain when
    its look-up succeeds, else [www.domain] when that look-up succeeds, else
    [None]; the second look-up is only made after the first has failed. *)
Theorem connectable_hostname_is_domain_or_www w d h :
  exists connectable_host evs,
    get_connectable_hostname w d h = (inr connectable_host, evs) /\
    match RobustResolver.get_ip w d h with
    | (inr _, ev1) => connectable_host = Some d /\ evs = ev1
    | (inl _, ev1) =>
        match RobustResolver.get_ip w ("www." ++ d) (h ++ ev1)%list with
        | (inr _, ev2) =>
            connectable_host = Some ("www." ++ d) /\
            evs = (ev1 ++ ev2 ++
                   [EvLog LInfo ("Root " ++ d ++ " not reachable, falling back to "
                                 ++ "www." ++ d)])%list
        | (inl _, ev2) => connectable_host = None /\ evs = (ev1 ++ ev2)%list
        end
    end.
Proof.
  unfold get_connectable_hostname, try_catch, bind, ret, log, emit. cbv zeta.
  destruct (RobustResolver.get_ip w d h) as [[e1|ip1] ev1].
  - destruct (RobustResolver.get_ip w ("www." ++ d) (h ++ ev1)%list) as [[e2|ip2] ev2].
    + do 2 eexists. split; [reflexivity|]. split; [reflexivity|].
      now rewrite app_nil_r.
    + do 2 eexists. split; [reflexivity|]. split; [reflexivity|].
      reflexivity.
  - do 2 eexists. split; [reflexivity|]. split; [reflexivity|]. apply app_nil_r.
Qed.

(** X2: [check_blacklist] never raises: it returns a result of the
    blacklist monitor whose status is [error] when the domain does not
    resolve, and [ok] or [critical] with the resolved address otherwise. *)
Theorem check_blacklist_always_returns w d h :
  exists res evs,
    BlacklistMonitor.check_blacklist w d h = (inr res, evs) /\
    monitor res = Some "blacklist" /\
    match fst (RobustResolver.get_ip w d h) with
    | inl e =>
        status res = "error" /\
        message res = Some ("Could not resolve domain: " ++ exn_text e) /\
        listed_in res = None
    | inr address =>
        ip res = Some address /\
        checked_rbls res = Some 6%Z /\
        exists rbls_listed,
          listed_in res = Some rbls_listed /\
          status res = (match rbls_listed with [] => "ok" | _ :: _ => "critical" end)
    end.
Proof. exact (BlacklistFacts.check_blacklist_outcome w d h). Qed.

Import NotificationManager ManagerAux ManagerFacts ClockFacts.

(** X3: a pair that reports a non-ok status and has no record is New: a
    record is created with count 1, whose [first_seen] and [last_sent] are
    two successive readings of the clock, and the first non-ok result of
    the pair is alerted with count 1, whatever else the cycle holds.  (The
    results name their monitors, and no two readings of the clock during
    the call lie more than 24 hours apart.) *)
Theorem absent_pair_becomes_new clock st results res :
  named results ->
  calm clock ->
  In res results ->
  non_ok res ->
  st !! key res = None ->
  exists first j m,
    first_issue (key res) results = Some first /\
    monitor first = Some m /\
    out_state (process_and_send clock st results) !! key res
      = Some (mkIssue (clock j) (clock (S j)) 1 m (domain first)) /\
    List.filter (has_id (key res)) (out_alerts (process_and_send clock st results))
      = [set_alert_count 1 first].
Proof.
  intros Hnamed Hcalm Hin Hn Hst.
  destruct (ManagerSpec.non_ok_first_issue res results Hin Hn) as (first & Hf & _).
  destruct (call_new clock st results Hnamed (key res) first Hcalm Hst Hf)
    as (j & m & Hm & Hs & Ha).
  exists first, j, m. auto.
Qed.

Lemma absent_pair_becomes_new_witness :
  named [Samples.ssl_ok; Samples.ssl_warning] /\
  calm Samples.ticking /\
  In Samples.ssl_warning [Samples.ssl_ok; Samples.ssl_warning] /\
  non_ok Samples.ssl_warning /\
  (∅ : gmap string IssueRecord) !! key Samples.ssl_warning = None /\
  exists first j m,
    out_state (process_and_send Samples.ticking ∅
                 [Samples.ssl_ok; Samples.ssl_warning]) !! "a.com:ssl"
      = Some (mkIssue (Samples.ticking j) (Samples.ticking (S j)) 1 m (domain first)).
Proof.
  assert (H0 : named [Samples.ssl_ok; Samples.ssl_warning]).
  { unfold named. repeat constructor; cbn; eauto. }
  assert (Hc : calm Samples.ticking).
  { intros i j. unfold Samples.ticking. lia. }
  assert (H1 : In Samples.ssl_warning [Samples.ssl_ok; Samples.ssl_warning])
    by (right; now left).
  assert (H2 : non_ok Samples.ssl_warning) by (now left).
  assert (H3 : (∅ : gmap string IssueRecord) !! key Samples.ssl_warning = None)
    by reflexivity.
  split; [exact H0|]. split; [exact Hc|]. split; [exact H1|]. split; [exact H2|].
  split; [exact H3|].
  destruct (absent_pair_becomes_new Samples.ticking ∅ [Samples.ssl_ok; Samples.ssl_warning]
              Samples.ssl_warning H0 Hc H1 H2 H3) as (first & j & m & _ & _ & Hs & _).
  exists first, j, m. exact Hs.
Defined.

Import PyStr PyStrAux PyStrFacts UrlFacts.

(** X4: for an input of the form [scheme://host] followed by nothing or by
    a port, a path or a query, where the scheme holds no colon and the host
    none of [:], [/] and [?], the cleaned name is the host, stripped and in
    lower case. *)
Theorem clean_domain_of_url scheme host tail :
  has_char ":" scheme = false ->
  has_char ":" host = false -> has_char "/" host = false -> has_char "?" host = false ->
  (tail = EmptyString \/
   exists c t, tail = String c t /\ (c = ":" \/ c = "/" \/ c = "?")%char) ->
  clean_domain (scheme ++ "://" ++ host ++ tail) = lower (strip host).
Proof.
  intros Hscheme Hc Hs Hq Htail.
  rewrite clean_domain_unfold. do 2 f_equal. unfold strip_url.
  rewrite (contains_app "://" scheme (host ++ tail)) by discriminate.
  rewrite (split_scheme scheme (host ++ tail) Hscheme).
  change (item (scheme :: split "://" (host ++ tail)) 1)
    with (item (split "://" (host ++ tail)) 0).
  destruct (first_piece_shape "://" tail host) as (q & Hp & Hshape).
  assert (Hpiece : item (split "://" (host ++ tail)) 0 = host ++ q).
  { unfold split. now rewrite (split_go_walk ":" "//" host tail _ Hc), append_empty_l. }
  rewrite !Hpiece, !split_char_head, contains_char.
  apply (cut_tail host q Hc Hs Hq).
  destruct Hshape as [->|(c & t & t' & -> & ->)]; [now left|].
  right. destruct Htail as [Hnil|(c0 & t0 & [= -> ->] & Hc0)]; [discriminate|].
  now exists c0, t'.
Qed.

Lemma clean_domain_of_url_witness :
  has_char ":" "https" = false /\
  has_char ":" "www.Example.com" = false /\
  clean_domain ("https" ++ "://" ++ "www.Example.com" ++ ":8443/status?page=1")
    = "www.example.com".
Proof.
  split; [reflexivity|]. split; [reflexivity|].
  apply (clean_domain_of_url "https" "www.Example.com" ":8443/status?page=1");
    try reflexivity.
  right. exists ":"%char, "8443/status?page=1". split; [reflexivity | now left].
Defined.

(** X5: for a host name made of labels without dots, the parent domain is
    the name itself when there are at most two labels, and the last two
    labels joined by a dot when there are more. *)
Theorem parent_domain_of_labels labels :
  labels <> [] ->
  Forall (fun label => has_char "." label = false) labels ->
  (length labels <= 2 -> get_parent_domain (join "." labels) = join "." labels) /\
  (forall front a b,
     labels = (front ++ [a; b])%list -> front <> [] ->
     get_parent_domain (join "." labels) = a ++ "." ++ b).
Proof.
  intros Hne Hall. unfold get_parent_domain.
  rewrite (split_join_labels labels Hne Hall). split.
  - intros Hlen. destruct (Nat.ltb_spec 2 (length labels)); [lia | reflexivity].
  - intros front a b -> Hfront.
    rewrite length_app. cbn [length].
    destruct front as [|f front]; [contradiction|]. cbn [length].
    destruct (Nat.ltb_spec 2 (S (length front) + 2)); [|lia].
    unfold item.
    rewrite !lookup_app_r by (cbn [length]; lia).
    replace (S (length front) + 2 - 2 - length (f :: front)) with 0 by (cbn; lia).
    replace (S (length front) + 2 - 1 - length (f :: front)) with 1 by (cbn; lia).
    reflexivity.
Qed.

Lemma parent_domain_of_labels_witness :
  ["www"; "example"; "com"] <> [] /\
  Forall (fun label => has_char "." label = false) ["www"; "example"; "com"] /\
  get_parent_domain "www.example.com" = "example.com".
Proof.
  assert (H1 : ["www"; "example"; "com"] <> []) by discriminate.
  assert (H2 : Forall (fun label => has_char "." label = false) ["www"; "example"; "com"])
    by (repeat constructor).
  split; [exact H1|]. split; [exact H2|].
  exact (proj2 (parent_domain_of_labels ["www"; "example"; "com"] H1 H2)
               ["www"] "example" "com" eq_refl ltac:(discriminate)).
Defined.

End MoreProperties.

(** ** The order and the labels of the results of a scan cycle *)

Module ScanOrder.
Import Eff EventAux EffFacts Cli CliAux MoreAux BlockFacts.

(** X6: the results of a scan cycle come in blocks, one per configured
    domain and in the order of the configuration.  A block holds at most
    one result of the WHOIS check and then exactly one result per enabled
    monitor among certificate, DNS, security and blacklist, in this order:
    each is an answer of the adapter of its monitor, labelled with the
    cleaned name of the domain, or, for the two connection checks, the
    result that stands for a host name that does not resolve.  So every
    result of a block carries the cleaned name of its domain, and a block
    holds at most one result per enabled monitor. *)
Theorem results_come_in_domain_blocks cfg w domains h results :
  fst (scan_cycle cfg w domains h) = inr results ->
  exists blocks,
    results = concat blocks /\
    Forall2 (fun raw_domain block =>
               (exists whois rest,
                  block = (whois ++ rest)%list /\
                  length whois <= b2n (domain_enabled cfg) /\
                  Forall (produced w (clean_domain raw_domain) MDomain) whois /\
                  Forall2 (produced w (clean_domain raw_domain))
                          (List.filter (enabled cfg) [MSsl; MDns; MSecurity; MBlacklist])
                          rest) /\
               Forall (fun res => domain res = clean_domain raw_domain) block /\
               length block <= n_enabled cfg)
            domains blocks.
Proof.
  unfold scan_cycle. intros H.
  destruct (for_each domains (scan_domain cfg w) [] h) as [r evs] eqn:E.
  cbn [fst] in H. subst r.
  apply for_each_blocks in E as (blocks & -> & Hall).
  exists blocks. split; [reflexivity|].
  eapply Forall2_impl; [exact Hall|]. intros raw block Hb. cbv beta in *.
  split; [exact Hb | exact (domain_block_labels cfg w _ block Hb)].
Qed.

Lemma results_come_in_domain_blocks_witness :
  exists results,
    fst (scan_cycle Samples.all_monitors Samples.whois_down
           ["example.com"; "https://Example.org/"] []) = inr results /\
    exists blocks,
      results = concat blocks /\
      Forall2 (fun raw_domain block =>
                 Forall (fun res => domain res = clean_domain raw_domain) block /\
                 length block <= 5)
              ["example.com"; "https://Example.org/"] blocks.
Proof.
  eexists. split; [vm_compute; reflexivity|].
  destruct (results_come_in_domain_blocks Samples.all_monitors Samples.whois_down
              ["example.com"; "https://Example.org/"] [] _ eq_refl) as (blocks & Hc & Hall).
  exists blocks. split; [exact Hc|].
  eapply Forall2_impl; [exact Hall|]. intros raw block (_ & H1 & H2). auto.
Defined.

End ScanOrder.

(** ** Further properties of the resolver and of the blacklist monitor *)

Module ResolverMore.
Import Eff EventAux EffFacts RobustResolver MoreAux.

(** X7: [resolve] asks the pool exactly once; it returns the answer of the
    pool when there is one, and it sends a DNS-over-HTTPS request, exactly
    one, if and only if the pool failed with an exception other than
    NXDOMAIN and NoAnswer. *)
Theorem doh_is_asked_only_after_an_inconclusive_failure w qname rdtype h :
  let run := resolve w qname rdtype h in
  let pool := w_pool w h (w_shuffle w h resolvers) qname rdtype in
  pool_queries (snd run) = [(qname, rdtype)] /\
  (forall answers,
     pool = inr answers ->
     run = (inr answers, [EvPoolQuery (w_shuffle w h resolvers) qname rdtype])) /\
  (doh_queries (snd run) = [(qname, rdtype)] <->
   exists e, pool = inl e /\ authoritative_negative e = false) /\
  (doh_queries (snd run) = [] <->
   (exists answers, pool = inr answers) \/
   (exists e, pool = inl e /\ authoritative_negative e = true)).
Proof.
  cbv zeta. unfold resolve, try_catch, ask.
  destruct (w_pool w h (w_shuffle w h resolvers) qname rdtype) as [e|answers] eqn:Hpool.
  - destruct (authoritative_negative e) eqn:Hauth.
    + cbn. split; [reflexivity|]. split; [discriminate|]. split.
      * split; [discriminate|]. intros (e' & [= <-] & He'). congruence.
      * split; [|reflexivity]. intros _. right. eauto.
    + pose proof (ResolverSpec.resolve_doh_queries w qname rdtype
                    (h ++ [EvPoolQuery (w_shuffle w h resolvers) qname rdtype])%list)
        as [Hd Hp].
      destruct (_resolve_doh w qname rdtype _) as [r ev]. cbn [snd app] in *.
      rewrite ResolverSpec.pool_queries_cons_pool, ResolverSpec.doh_queries_cons_pool, Hd, Hp.
      split; [reflexivity|]. split; [discriminate|]. split.
      * split; [eauto | reflexivity].
      * split; [discriminate|].
        intros [[answers [=]] | (e' & [= <-] & He')]. congruence.
  - cbn. split; [reflexivity|]. split; [now intros ? [= <-]|]. split.
    + split; [discriminate|]. intros (e & [=] & _).
    + split; [|reflexivity]. intros _. left. eauto.
Qed.

Lemma get_ip_fst w d h :
  fst (get_ip w d h) =
  match fst (resolve w d "A" h) with
  | inr (rdata :: _) => inr rdata
  | inr [] =>
      inl (mkExn OtherException
             ("Failed to resolve IP for " ++ d ++ ": " ++ "No A records found"))
  | inl e =>
      inl (mkExn OtherException ("Failed to resolve IP for " ++ d ++ ": " ++ exn_text e))
  end.
Proof.
  unfold get_ip, try_catch, bind.
  destruct (resolve w d "A" h) as [[e|[|rdata rest]] ev]; reflexivity.
Qed.

Lemma resolve_fst w qname rdtype h :
  fst (resolve w qname rdtype h) =
  match w_pool w h (w_shuffle w h resolvers) qname rdtype with
  | inr answers => inr answers
  | inl e =>
      if authoritative_negative e then inl e
      else fst (_resolve_doh w qname rdtype
                  (h ++ [EvPoolQuery (w_shuffle w h resolvers) qname rdtype])%list)
  end.
Proof.
  unfold resolve, try_catch, ask.
  destruct (w_pool w h (w_shuffle w h resolvers) qname rdtype) as [e|answers]; [|reflexivity].
  destruct (authoritative_negative e); [reflexivity|].
  now destruct (_resolve_doh w qname rdtype _).
Qed.

Lemma wrapped_text d text :
  PyStr.startswith ("Failed to resolve IP for " ++ d ++ ": " ++ text)
                   ("Failed to resolve IP for " ++ d ++ ": ") = true.
Proof.
  unfold PyStr.startswith.
  replace ("Failed to resolve IP for " ++ d ++ ": " ++ text)
    with (("Failed to resolve IP for " ++ d ++ ": ") ++ text).
  - apply PyStrFacts.prefix_app.
  - now rewrite <- !UrlFacts.append_assoc.
Qed.

Ltac get_ip_fails :=
  split;
  [ intros address; split; [discriminate|];
    intros [(rest' & H') | (e' & data' & answer' & rest' & H1 & H2 & H3 & H4 & H5 & H6)];
    congruence
  | intros e' [= <-]; split; [reflexivity | apply wrapped_text] ].

(** X8: [get_ip] returns an address exactly when the pool answers with at
    least one record (the first one is returned), or when the pool fails
    inconclusively and the DNS-over-HTTPS body has status 0 and at least
    one answer of type 1 (the first such is returned).  Every failure,
    an authoritative NXDOMAIN included, leaves as a plain exception whose
    text starts with [Failed to resolve IP for <domain>: ]. *)
Theorem get_ip_outcome w d h :
  let nameservers := w_shuffle w h resolvers in
  (forall address,
     fst (get_ip w d h) = inr address <->
     (exists rest, w_pool w h nameservers d "A" = inr (address :: rest)) \/
     (exists e data answer rest,
        w_pool w h nameservers d "A" = inl e /\
        authoritative_negative e = false /\
        w_doh w (h ++ [EvPoolQuery nameservers d "A"])%list d "A" = inr data /\
        doh_status data = Some 0%Z /\
        doh_answer data = Some answer /\
        map snd (filter (fun ans => fst ans = 1%Z) answer) = address :: rest)) /\
  (forall e,
     fst (get_ip w d h) = inl e ->
     exn_class e = OtherException /\
     PyStr.startswith (exn_text e) ("Failed to resolve IP for " ++ d ++ ": ") = true).
Proof.
  cbv zeta. rewrite get_ip_fst, resolve_fst.
  destruct (w_pool w h (w_shuffle w h resolvers) d "A") as [e|[|rdata rest]] eqn:Hpool.
  - destruct (authoritative_negative e) eqn:Hauth; [get_ip_fails|].
    rewrite ResolverSpec.resolve_doh_outcome.
    destruct (w_doh w _ d "A") as [text|data] eqn:Hdoh; [get_ip_fails|].
    destruct (doh_status data) as [[| |]|] eqn:Hs; try get_ip_fails.
    destruct (doh_answer data) as [answer|] eqn:Ha; try get_ip_fails.
    destruct (map snd (filter (fun ans => fst ans = 1%Z) answer)) as [|rdata rest] eqn:Hm;
      [get_ip_fails|].
    split; [|discriminate].
    intros address. split.
    + intros [= <-]. right. exists e, data, answer, rest. repeat split; auto.
    + intros [(rest' & H') | (e' & data' & answer' & rest' & H1 & H2 & H3 & H4 & H5 & H6)];
        congruence.
  - get_ip_fails.
  - split; [|discriminate].
    intros address. split.
    + intros [= <-]. left. eauto.
    + intros [(rest' & H') | (e' & data' & answer' & rest' & H1 & H2 & H3 & H4 & H5 & H6)];
        congruence.
Qed.

End ResolverMore.

Module BlacklistMore.
Import Eff EventAux EffFacts RobustResolver BlacklistMonitor MoreAux.

Lemma scan_answer_returns rbl d result_ip listed_in h listed_in' ev :
  scan_answer rbl d result_ip listed_in h = (inr listed_in', ev) ->
  listed_in' = listed_in \/
  (mem rbl listed_in = false /\ listed_in' = (listed_in ++ [rbl])%list).
Proof.
  intros H. pose proof (BlacklistSpec.scan_answer_outcome rbl d result_ip listed_in h) as Ho.
  rewrite H in Ho. cbn [fst] in Ho. injection Ho as ->.
  destruct (reserved result_ip); [now left|].
  destruct (mem rbl listed_in) eqn:Hm; [now left | now right].
Qed.

Lemma scan_answer_keeps_distinct rbl d result_ip listed_in h listed_in' ev :
  NoDup listed_in ->
  scan_answer rbl d result_ip listed_in h = (inr listed_in', ev) ->
  NoDup listed_in'.
Proof.
  intros Hnd H. apply scan_answer_returns in H as [->|[Hm ->]]; [exact Hnd|].
  apply NoDup_app. split; [exact Hnd|]. split.
  - intros x Hx [->|[]]%list_elem_of_In.
    apply list_elem_of_In, BlacklistSpec.mem_In in Hx. congruence.
  - apply NoDup_singleton.
Qed.

Lemma query_rbl_keeps_distinct w d reversed_ip rbl acc h acc' ev :
  NoDup (fst acc) ->
  query_rbl w d reversed_ip rbl acc h = (inr acc', ev) ->
  NoDup (fst acc').
Proof.
  destruct acc as [listed_in errors]. cbn [fst]. intros Hnd.
  unfold query_rbl, try_catch. unfold bind at 1. unfold ask.
  destruct (w_system w h _ "A") as [e|answers].
  - destruct (exn_class e); cbn; intros [= <- _]; exact Hnd.
  - unfold bind.
    destruct (for_each answers (scan_answer rbl d) listed_in _) as [[e|l] ev1] eqn:E.
    + destruct (exn_class e); cbn; intros [= <- _]; exact Hnd.
    + cbn. intros [= <- _]. cbn [fst].
      eapply (for_each_invariant (fun l => NoDup l)); [exact Hnd| |exact E].
      intros x l0 h0 l1 ev0 _ Hl0 Hs. eapply scan_answer_keeps_distinct; eauto.
Qed.

(** X9: an RBL is listed at most once in the result of [check_blacklist],
    however many addresses it answers with: the listed RBLs are distinct,
    there are at most six of them, and the message of a listed domain
    counts them. *)
Theorem listed_rbls_are_distinct w d h :
  exists res evs,
    check_blacklist w d h = (inr res, evs) /\
    NoDup (listed res) /\
    (forall rbl, In rbl (listed res) -> In rbl rbls) /\
    length (listed res) <= 6 /\
    (listed res <> [] ->
     message res = Some ("Listed in " ++ PyStr.of_int (Z.of_nat (length (listed res)))
                         ++ " blacklists")).
Proof.
  destruct (BlacklistSpec.reserved_answers_are_not_listings w d h)
    as (_ & res & evs & Hrun & Hgen & _ & _).
  exists res, evs. split; [exact Hrun|].
  assert (Hsub : forall rbl, In rbl (listed res) -> In rbl rbls)
    by (intros rbl Hin; now apply Hgen in Hin).
  assert (Hnd : NoDup (listed res) /\
                (listed res <> [] ->
                 message res = Some ("Listed in " ++ PyStr.of_int (Z.of_nat (length (listed res)))
                                     ++ " blacklists"))).
  { revert Hrun. unfold check_blacklist.
    unfold try_catch at 1. unfold bind at 1. unfold try_catch at 1. unfold bind at 1.
    destruct (get_ip w d h) as [[e|address] ev1].
    - cbn. intros [= <- _]. cbn. split; [constructor | congruence].
    - cbn [ret].
      set (reversed_ip := PyStr.join "." (rev (PyStr.split "." address))).
      set (h1 := (h ++ (ev1 ++ []))%list).
      unfold bind at 1.
      destruct (for_each rbls (query_rbl w d reversed_ip) ([], []) h1) as [[e|acc] ev2] eqn:E.
      + exfalso.
        destruct (total_for_each rbls (query_rbl w d reversed_ip) ([], [])
                    (BlacklistSpec.total_query_rbl w d reversed_ip) h1) as [acc Hacc].
        rewrite E in Hacc. discriminate.
      + cbn. intros [= <- _]. unfold listed. cbn.
        split.
        * eapply (for_each_invariant (fun acc => NoDup (fst acc))); [| |exact E].
          -- constructor.
          -- intros x a h0 a' ev0 _ Ha Hq. eapply query_rbl_keeps_distinct; eauto.
        * destruct (fst acc); [congruence | reflexivity]. }
  destruct Hnd as [Hnd Hmsg]. split; [exact Hnd|]. split; [exact Hsub|]. split; [|exact Hmsg].
  change 6 with (length rbls).
  apply NoDup_incl_length; [|exact Hsub].
  now apply NoDup_ListNoDup.
Qed.

(** *** The queries sent to the RBLs *)

Lemma system_queries_app ev1 ev2 :
  system_queries (ev1 ++ ev2) = (system_queries ev1 ++ system_queries ev2)%list.
Proof. unfold system_queries. apply omap_app. Qed.

Lemma system_queries_none evs : Forall not_system evs -> system_queries evs = [].
Proof.
  induction 1 as [|ev evs Hev _ IH]; [reflexivity|].
  change (ev :: evs) with ([ev] ++ evs)%list. rewrite system_queries_app, IH.
  destruct ev; try reflexivity. contradiction.
Qed.

Lemma not_system_get_ip w d : emits not_system (get_ip w d).
Proof.
  unfold get_ip. apply emits_try_catch; [|intros e; apply emits_raise].
  apply emits_bind; [|intros [|rdata answers]; [apply emits_raise | apply emits_ret]].
  intros h. unfold resolve. cbv zeta. apply emits_try_catch.
  - now apply emits_ask.
  - intros e. destruct (authoritative_negative e); [apply emits_raise|].
    unfold _resolve_doh. apply emits_try_catch.
    + apply emits_bind; [now apply emits_ask|].
      intros data. destruct (doh_status data) as [[| |]|], (doh_answer data) as [answer|];
        try apply emits_raise.
      destruct (map snd _); [apply emits_raise | apply emits_ret].
    + intros e'. apply emits_bind; [now apply emits_emit | intros _; apply emits_raise].
Qed.

Lemma not_system_scan_answer rbl d result_ip listed_in :
  emits not_system (scan_answer rbl d result_ip listed_in).
Proof.
  unfold scan_answer.
  destruct (PyStr.startswith result_ip "127.255.255.").
  - apply emits_bind; [now apply emits_emit | intros _; apply emits_ret].
  - destruct (mem result_ip _); [apply emits_ret|].
    destruct (mem rbl listed_in); apply emits_ret.
Qed.

Lemma query_rbl_queries w d reversed_ip rbl acc h :
  system_queries (snd (query_rbl w d reversed_ip rbl acc h))
  = [(reversed_ip ++ "." ++ rbl, "A")].
Proof.
  destruct acc as [listed_in errors].
  unfold query_rbl, try_catch. unfold bind at 1. unfold ask.
  set (query := reversed_ip ++ "." ++ rbl).
  destruct (w_system w h query "A") as [e|answers].
  - destruct (exn_class e); reflexivity.
  - unfold bind.
    pose proof (emits_for_each not_system answers (scan_answer rbl d) listed_in
                  (not_system_scan_answer rbl d) (h ++ [EvSystemQuery query "A"])%list) as Hq.
    destruct (for_each answers (scan_answer rbl d) listed_in _) as [[e|l] ev1];
      cbn [snd] in Hq.
    + destruct (exn_class e); unfold ret; cbn [snd]; rewrite ?app_nil_r;
        rewrite system_queries_app, (system_queries_none ev1 Hq); reflexivity.
    + unfold ret. cbn [snd]. rewrite ?app_nil_r.
      rewrite system_queries_app, (system_queries_none ev1 Hq). reflexivity.
Qed.

Lemma for_each_rbl_queries w d reversed_ip l :
  forall acc h,
    system_queries (snd (for_each l (query_rbl w d reversed_ip) acc h))
    = map (fun rbl => (reversed_ip ++ "." ++ rbl, "A")) l.
Proof.
  induction l as [|rbl l IH]; intros acc h; [reflexivity|].
  cbn [for_each map]. unfold bind.
  pose proof (query_rbl_queries w d reversed_ip rbl acc h) as Hq.
  destruct (BlacklistSpec.total_query_rbl w d reversed_ip rbl acc h) as [acc' Hacc].
  destruct (query_rbl w d reversed_ip rbl acc h) as [r ev1]. cbn [fst snd] in *. subst r.
  specialize (IH acc' (h ++ ev1)%list).
  destruct (for_each l (query_rbl w d reversed_ip) acc' _) as [r ev2]. cbn [snd] in *.
  now rewrite system_queries_app, Hq, IH.
Qed.

(** X10: once the domain has resolved to a dotted address, [check_blacklist]
    sends exactly one query to every RBL, in the order of the list, for the
    name made of the labels of the address in reverse order followed by the
    RBL; an RBL that fails or answers does not stop the queries to the
    others. *)
Theorem every_rbl_is_queried_once w d h labels :
  labels <> [] ->
  Forall (fun label => PyStrAux.has_char "." label = false) labels ->
  fst (get_ip w d h) = inr (PyStr.join "." labels) ->
  system_queries (snd (check_blacklist w d h))
  = map (fun rbl => (PyStr.join "." (rev labels) ++ "." ++ rbl, "A")) rbls.
Proof.
  intros Hne Hall Hip.
  pose proof (not_system_get_ip w d h) as Hq.
  unfold check_blacklist.
  unfold try_catch at 1. unfold bind at 1. unfold try_catch at 1. unfold bind at 1.
  destruct (get_ip w d h) as [r ev1]. cbn [fst snd] in *. subst r.
  cbn [ret]. rewrite (UrlFacts.split_join_labels labels Hne Hall).
  set (reversed_ip := PyStr.join "." (rev labels)).
  set (h1 := (h ++ (ev1 ++ []))%list).
  unfold bind at 1.
  pose proof (for_each_rbl_queries w d reversed_ip rbls ([], []) h1) as Hrbl.
  destruct (total_for_each rbls (query_rbl w d reversed_ip) ([], [])
              (BlacklistSpec.total_query_rbl w d reversed_ip) h1) as [acc Hacc].
  destruct (for_each rbls (query_rbl w d reversed_ip) ([], []) h1) as [r ev2].
  cbn [fst snd] in *. subst r. cbn [snd ret].
  rewrite !app_nil_r, system_queries_app, (system_queries_none ev1 Hq), Hrbl.
  reflexivity.
Qed.

Lemma every_rbl_is_queried_once_witness :
  ["93"; "184"; "216"; "34"] <> [] /\
  fst (get_ip Samples.whois_down "example.com" []) = inr "93.184.216.34" /\
  system_queries (snd (check_blacklist Samples.whois_down "example.com" []))
  = [("34.216.184.93.zen.spamhaus.org", "A");
     ("34.216.184.93.bl.spamcop.net", "A");
     ("34.216.184.93.cbl.abuseat.org", "A");
     ("34.216.184.93.dnsbl.sorbs.net", "A");
     ("34.216.184.93.b.barracudacentral.org", "A");
     ("34.216.184.93.dnsbl-1.uceprotect.net", "A")].
Proof.
  assert (H1 : ["93"; "184"; "216"; "34"] <> []) by discriminate.
  assert (H2 : Forall (fun label => PyStrAux.has_char "." label = false)
                      ["93"; "184"; "216"; "34"]) by (repeat constructor).
  assert (H3 : fst (get_ip Samples.whois_down "example.com" [])
               = inr (PyStr.join "." ["93"; "184"; "216"; "34"])) by reflexivity.
  split; [exact H1|]. split; [exact H3|].
  exact (every_rbl_is_queried_once Samples.whois_down "example.com" []
           ["93"; "184"; "216"; "34"] H1 H2 H3).
Defined.


End BlacklistMore.

(** ** Further properties of the alert state machine *)

Module ManagerMore.
Import NotificationManager ManagerAux FinishFacts BridgeFacts ManagerFacts RunFacts
       ClockFacts MoreAux.

Lemma scan_results_ok clock results :
  Forall (fun res => ~ non_ok res) results ->
  forall s k,
    scan_results clock results s k =
    (mkScan (scan_state s) (current_issues s) (alerts_to_send s)
            (seen_results s ++ results)%list (scan_log s), None).
Proof.
  induction 1 as [|res results Hres _ IH]; intros s k; cbn [scan_results].
  - rewrite app_nil_r. now destruct s.
  - unfold scan_result.
    destruct (is_issue res) eqn:Hi; [now apply is_issue_non_ok in Hi|].
    rewrite IH. cbn [scan_state current_issues alerts_to_send seen_results scan_log].
    now rewrite <- app_assoc.
Qed.

(** X11: a cycle in which no result is critical, error or warning resolves
    every open issue, whatever the clock reads: the call returns, the state
    is written back empty, one resolved line is logged per record the state
    held, nothing is sent, and the results are left as they were. *)
Theorem cycle_without_issues_clears_the_state clock st results :
  Forall (fun res => ~ non_ok res) results ->
  let o := process_and_send clock st results in
  out_raised o = None /\
  out_state o = ∅ /\
  out_alerts o = [] /\
  out_digests o = [] /\
  out_results o = results /\
  sends (out_effects o) = [] /\
  exists resolved,
    out_effects o = (map LogResolved resolved ++ [SaveState ∅; LogNoAlerts])%list /\
    NoDup resolved /\
    forall issue_id, In issue_id resolved <-> is_Some (st !! issue_id).
Proof.
  intros Hok o. unfold o, process_and_send.
  rewrite (scan_results_ok clock results Hok).
  cbn [scan_state current_issues alerts_to_send seen_results scan_log app].
  assert (Hstate : fold_left (fun st i => delete i st) (ids_to_remove st ∅) st
                   = (∅ : gmap string IssueRecord)).
  { apply map_eq. intros k. rewrite fold_delete_lookup, lookup_empty.
    case_decide as Hin; [reflexivity|].
    destruct (st !! k) eqn:E; [|reflexivity].
    exfalso. apply Hin, elem_ids_to_remove. split; [eauto | apply lookup_empty]. }
  unfold finish.
  cbn [scan_state current_issues alerts_to_send seen_results scan_log app
       out_raised out_state out_alerts out_digests out_results out_effects].
  rewrite Hstate.
  split; [reflexivity|]. split; [reflexivity|]. split; [reflexivity|].
  split; [reflexivity|]. split; [reflexivity|].
  split.
  { rewrite !sends_app, sends_resolved. reflexivity. }
  exists (ids_to_remove st ∅). split; [now rewrite <- app_assoc|]. split.
  - unfold ids_to_remove. apply NoDup_filter, NoDup_fst_map_to_list.
  - intros issue_id. rewrite <- list_elem_of_In, elem_ids_to_remove.
    rewrite lookup_empty. tauto.
Qed.

Lemma cycle_without_issues_clears_the_state_witness :
  Forall (fun res => ~ non_ok res) [Samples.ssl_ok] /\
  out_state (process_and_send (steady Samples.day_plus_1s) Samples.ssl_state [Samples.ssl_ok])
    = ∅.
Proof.
  assert (H : Forall (fun res => ~ non_ok res) [Samples.ssl_ok]).
  { repeat constructor. intros [H|[H|H]]; discriminate. }
  split; [exact H|].
  destruct (cycle_without_issues_clears_the_state
              (steady Samples.day_plus_1s) Samples.ssl_state [Samples.ssl_ok] H)
    as (_ & Hs & _).
  exact Hs.
Defined.

Lemma distinct_ids (alerts : list CheckResult) :
  (forall issue_id, length (List.filter (has_id issue_id) alerts) <= 1) ->
  List.NoDup (map key alerts).
Proof.
  induction alerts as [|a alerts IH]; intros Hone; [constructor|].
  cbn [map]. constructor.
  - specialize (Hone (key a)). cbn [List.filter] in Hone.
    unfold has_id at 1 in Hone. rewrite String.eqb_refl in Hone. cbn [length] in Hone.
    intros Hin. apply in_map_iff in Hin as (b & Hb & Hin).
    assert (Hf : In b (List.filter (has_id (key a)) alerts)).
    { apply filter_In. split; [exact Hin|]. unfold has_id. now apply String.eqb_eq. }
    destruct (List.filter (has_id (key a)) alerts); [contradiction | cbn in Hone; lia].
  - apply IH. intros issue_id. specialize (Hone issue_id). cbn [List.filter] in Hone.
    destruct (has_id issue_id a); cbn [length] in Hone; lia.
Qed.

Lemma alert_for_length now before first : length (alert_for now before first) <= 1.
Proof.
  unfold alert_for. destruct first, before; cbn; try lia.
  destruct (expired now _); cbn; lia.
Qed.

(** The alerts of a call at a clock that stands still are the alerts of
    the pure loop over the results up to the point where the call stops. *)
Lemma out_alerts_prefix now st results :
  exists pre,
    (forall res, In res pre -> In res results) /\
    out_alerts (process_and_send (steady now) st results)
    = out_alerts (Steady.run now st pre).
Proof.
  destruct (process_and_send_prefix now st results) as [[_ H]|(rest & _ & _ & H)];
    cbv zeta in H; rewrite H.
  - exists results. auto.
  - exists (named_prefix results). split; [apply named_prefix_In|].
    now rewrite out_alerts_unfold.
Qed.

(** X12: a cycle alerts a pair at most once, however many results report
    it: the alerts selected by [process_and_send] have pairwise distinct
    issue ids, each of them is the id of a pair that reports a non-ok
    status, and so there are at most as many alerts as such pairs. *)
Theorem at_most_one_alert_per_pair now st results :
  let o := process_and_send (steady now) st results in
  NoDup (map key (out_alerts o)) /\
  (forall issue_id, length (List.filter (has_id issue_id) (out_alerts o)) <= 1) /\
  (forall alert, In alert (out_alerts o) -> key alert ∈ issue_ids results) /\
  (forall alert, In alert (out_alerts o) ->
                 exists res, In res results /\ non_ok res /\ key res = key alert) /\
  length (out_alerts o) <= size (issue_ids results).
Proof.
  intros o. unfold o. clear o.
  destruct (out_alerts_prefix now st results) as (pre & Hpre & ->).
  set (alerts := out_alerts (Steady.run now st pre)).
  assert (Hone : forall issue_id, length (List.filter (has_id issue_id) alerts) <= 1).
  { intros issue_id. unfold alerts. rewrite out_alerts_filter. apply alert_for_length. }
  assert (Hnd : NoDup (map key alerts))
    by now apply NoDup_ListNoDup, distinct_ids.
  assert (Hres : forall alert, In alert alerts ->
                   exists res, In res results /\ is_issue res = true /\ key res = key alert).
  { intros alert Ha.
    assert (Hf : In alert (List.filter (has_id (key alert)) alerts)).
    { apply filter_In. split; [exact Ha|]. unfold has_id. apply String.eqb_refl. }
    unfold alerts in Hf. rewrite out_alerts_filter in Hf.
    destruct (first_issue (key alert) pre) as [first|] eqn:Hfirst.
    - apply first_issue_Some in Hfirst as (Hr & Hi & Hid). eauto.
    - destruct (st !! key alert); contradiction. }
  assert (Hin : forall alert, In alert alerts -> key alert ∈ issue_ids results).
  { intros alert Ha. apply elem_issue_ids. exact (Hres alert Ha). }
  split; [exact Hnd|]. split; [exact Hone|]. split; [exact Hin|]. split.
  { intros alert Ha. destruct (Hres alert Ha) as (res & H1 & H2 & H3).
    exists res. split; [exact H1|]. split; [now apply is_issue_non_ok | exact H3]. }
  rewrite <- (length_map key).
  rewrite <- (size_list_to_set (C := gset string) (map key alerts)) by exact Hnd.
  apply subseteq_size. intros issue_id Hid.
  apply elem_of_list_to_set, list_elem_of_In, in_map_iff in Hid as (alert & <- & Ha).
  now apply Hin.
Qed.





(** The state a call leaves is the state it wrote. *)
Lemma call_effects clock st results :
  named results ->
  let o := process_and_send clock st results in
  exists logs,
    saves logs = [] /\ sends logs = [] /\
    out_effects o =
    (logs ++ [SaveState (out_state o)] ++
     match out_alerts o with [] => [LogNoAlerts] | _ :: _ => [] end)%list.
Proof.
  intros Hnamed. cbv zeta.
  destruct (call_finishes clock st results Hnamed) as (s & Hs & ->).
  exists (scan_log s ++ map LogResolved (removed_ids s))%list.
  destruct (scan_results_logs clock results _ _ _ _ Hs) as [Hsv Hsd].
  cbn [scan_log] in Hsv, Hsd.
  rewrite saves_app, sends_app, saves_resolved, sends_resolved, Hsv, Hsd.
  repeat split. rewrite finish_effects, finish_alerts. now rewrite <- !app_assoc.
Qed.

(** X27: after a call on results whose non-ok ones all name their monitor,
    whatever the clock reads, the keys of the state are exactly the ids
    [domain:monitor] of the results whose status is warning, critical or
    error, and that state is written to the store exactly once, alerts or
    no alerts: the write follows the log lines of the two loops and is
    followed only by the line that tells that there are no alerts. *)
Theorem persisted_keys_are_current_issues clock st results :
  named results ->
  let o := process_and_send clock st results in
  (forall issue_id,
     is_Some (out_state o !! issue_id) <->
     exists res m,
       In res results /\
       (status res = "warning" \/ status res = "critical" \/ status res = "error") /\
       monitor res = Some m /\
       issue_id = domain res ++ ":" ++ m) /\
  saves (out_effects o) = [out_state o] /\
  exists logs,
    saves logs = [] /\ sends logs = [] /\
    out_effects o =
    (logs ++ [SaveState (out_state o)] ++
     match out_alerts o with [] => [LogNoAlerts] | _ :: _ => [] end)%list.
Proof.
  intros Hnamed. cbv zeta.
  destruct (call_effects clock st results Hnamed) as (logs & Hsv & Hsd & Heff).
  split; [|split; [|eauto]].
  - intros issue_id.
    destruct (call_finishes clock st results Hnamed) as (s & Hs & Ho).
    rewrite Ho, finish_lookup.
    pose proof (scan_results_current clock results issue_id _ _ _ Hs) as Hc.
    cbn [current_issues] in Hc. rewrite lookup_empty in Hc.
    split.
    + intros Hsome.
      destruct (current_issues s !! issue_id) eqn:E; [|destruct Hsome; discriminate].
      destruct (proj1 Hc) as [[x Hx]|[first Hf]]; [eauto | discriminate |].
      apply first_issue_Some in Hf as (Hin & Hi & Hid).
      destruct (named_issue results first Hnamed Hin Hi) as [m Hm].
      exists first, m. split; [exact Hin|]. split; [now apply is_issue_non_ok|].
      split; [exact Hm|]. rewrite <- Hid. unfold key, pair_id. now rewrite Hm.
    + intros (res & m & Hin & Hn & Hm & ->).
      assert (Hkey : key res = domain res ++ ":" ++ m)
        by (unfold key, pair_id; now rewrite Hm).
      rewrite <- Hkey in Hc |- *.
      destruct (ManagerSpec.non_ok_first_issue res results Hin Hn) as (first & Hf & _).
      destruct (proj2 Hc) as [x ->]; [right; rewrite Hf; eauto|].
      exact (scan_results_has clock results (key res) first Hf _ _ _ Hs).
  - rewrite Heff, !saves_app, Hsv. cbn [app saves omap].
    now destruct (out_alerts _).
Qed.

Lemma persisted_keys_are_current_issues_witness :
  named [Samples.ssl_warning; Samples.ssl_ok] /\
  saves (out_effects (process_and_send (steady 3) ∅ [Samples.ssl_warning; Samples.ssl_ok]))
  = [out_state (process_and_send (steady 3) ∅ [Samples.ssl_warning; Samples.ssl_ok])].
Proof.
  assert (H : named [Samples.ssl_warning; Samples.ssl_ok]).
  { unfold named. repeat constructor; cbn; eauto. }
  split; [exact H|].
  destruct (persisted_keys_are_current_issues (steady 3) ∅
              [Samples.ssl_warning; Samples.ssl_ok] H) as (_ & Hs & _).
  exact Hs.
Defined.

(** X28: a call never hands a message to the notification service.  When
    it has selected an alert it ends with an exception; when moreover every
    non-ok result names its monitor, that exception is the [AttributeError]
    of the call [self.service.send], raised after the state was written.  A
    call that selects no alert, on results that name their monitors,
    returns. *)
Theorem no_digest_is_ever_sent clock st results :
  let o := process_and_send clock st results in
  sends (out_effects o) = [] /\
  (out_alerts o <> [] -> exists e, out_raised o = Some e) /\
  (named results ->
   (out_alerts o <> [] ->
    out_raised o = Some (AttributeError "NotificationService" "send") /\
    saves (out_effects o) = [out_state o]) /\
   (out_alerts o = [] -> out_raised o = None)).
Proof.
  cbv zeta. unfold process_and_send.
  destruct (scan_results clock results (mkScan st ∅ [] [] []) 0) as [s raised] eqn:Hrun.
  destruct (scan_results_logs clock results _ _ _ _ Hrun) as [Hsv Hsd].
  cbn [scan_log] in Hsv, Hsd.
  pose proof (scan_results_alerts_named clock results _ _ _ _ Hrun (Forall_nil_2 _)) as Hlab.
  assert (Hsends : sends (out_effects (finish s)) = []).
  { rewrite finish_effects, !sends_app, Hsd, sends_resolved.
    now destruct (alerts_to_send s). }
  assert (Hraise : alerts_to_send s <> [] ->
                   out_raised (finish s) = Some (AttributeError "NotificationService" "send")).
  { intros Hne. rewrite finish_raised.
    destruct (alerts_to_send s) as [|a l] eqn:Ea; [congruence|]. rewrite <- Ea in *.
    destruct (domain_groups (alerts_to_send s)) as [|[d g] groups] eqn:Eg.
    - exfalso. destruct (GroupFacts.domain_groups_member (alerts_to_send s) a)
        as (g & Hg & _); [rewrite Ea; now left|]. now rewrite Eg in Hg.
    - cbn [send_all]. rewrite send_aggregated_alert_named; [reflexivity|].
      assert (Hg : In (d, g) (domain_groups (alerts_to_send s))) by (rewrite Eg; now left).
      apply GroupFacts.domain_groups_In in Hg as [-> _].
      apply List.Forall_forall. intros alert Hin. apply filter_In in Hin as [Hin _].
      rewrite Forall_forall in Hlab.
      exact (proj1 (Hlab alert (proj2 (list_elem_of_In _ _) Hin))). }
  destruct raised as [e|].
  - cbn [out_effects out_alerts out_raised]. split; [exact Hsd|]. split; [eauto|].
    intros Hnamed. exfalso.
    destruct (scan_results_returns clock results Hnamed (mkScan st ∅ [] [] []) 0) as [s' Hs'].
    congruence.
  - rewrite finish_alerts. split; [exact Hsends|]. split.
    + intros Hne. rewrite (Hraise Hne). eauto.
    + intros Hnamed. split.
      * intros Hne. split; [exact (Hraise Hne)|].
        rewrite finish_effects, !saves_app, Hsv, saves_resolved. cbn [app saves omap].
        now destruct (alerts_to_send s).
      * intros Hnone. rewrite finish_raised, Hnone. reflexivity.
Qed.

End ManagerMore.

(** ** The text of a digest *)

Module DigestMore.
Import NotificationManager ManagerAux FinishFacts.

Lemma shown_details_length alert : length (shown_details alert) <= 3.
Proof.
  unfold shown_details. destruct (details alert) as [[dets|text|entries|]|]; cbn [length];
    try lia.
  rewrite length_take. lia.
Qed.

Lemma alert_lines_named alert m :
  monitor alert = Some m ->
  alert_lines alert =
  inr ((icon alert ++ " **" ++ PyStr.upper m ++ "**: "
          ++ default "Unknown Error" (message alert) ++ " " ++ cnt alert)
       :: map (fun d => "   - " ++ d) (shown_details alert)).
Proof.
  intros Hm. unfold alert_lines, shown_details. rewrite Hm.
  now destruct (details alert) as [[dets|text|entries|]|].
Qed.

Lemma digest_lines_blocks alerts :
  Forall (fun alert => is_Some (monitor alert)) alerts ->
  forall lines,
  exists blocks,
    digest_lines alerts lines = inr (lines ++ concat blocks)%list /\
    Forall2 (fun alert block => alert_lines alert = inr block) alerts blocks.
Proof.
  induction 1 as [|alert alerts [m Hm] _ IH]; intros lines.
  - exists []. cbn. split; [now rewrite app_nil_r | constructor].
  - cbn [digest_lines]. rewrite (alert_lines_named alert m Hm).
    match goal with
    | |- context [digest_lines alerts ?l] => destruct (IH l) as (blocks & Hl & Hb)
    end.
    eexists (_ :: blocks). split.
    + rewrite Hl. cbn [concat]. now rewrite <- app_assoc.
    + constructor; [exact (alert_lines_named alert m Hm) | exact Hb].
Qed.

(** X26: the digest of a domain starts with a line that counts the alerts;
    every alert then takes one entry line, which names its monitor in upper
    case, followed by at most three detail lines: the first three items of
    a list of details, a string of details as it is, and nothing for
    details of any other kind or for no details.  The text is built and
    then not delivered: handing it to the notification service raises
    [AttributeError]. *)
Theorem digest_shows_at_most_three_details d alerts :
  Forall (fun alert => is_Some (monitor alert)) alerts ->
  exists blocks,
    digest_lines alerts
      ["Found " ++ PyStr.of_int (Z.of_nat (length alerts)) ++ " issues for **" ++ d ++ "**:"]
    = inr (("Found " ++ PyStr.of_int (Z.of_nat (length alerts)) ++ " issues for **" ++ d
              ++ "**:") :: concat blocks) /\
    Forall2 (fun alert block =>
               exists m details_shown,
                 monitor alert = Some m /\
                 block = (icon alert ++ " **" ++ PyStr.upper m ++ "**: "
                            ++ default "Unknown Error" (message alert) ++ " " ++ cnt alert)
                         :: map (fun d => "   - " ++ d) details_shown /\
                 details_shown = shown_details alert /\
                 length details_shown <= 3)
            alerts blocks /\
    _send_aggregated_alert d alerts = inl (AttributeError "NotificationService" "send").
Proof.
  intros Hall.
  destruct (digest_lines_blocks alerts Hall
              ["Found " ++ PyStr.of_int (Z.of_nat (length alerts)) ++ " issues for **" ++ d
               ++ "**:"]) as (blocks & Hl & Hb).
  exists blocks. split; [exact Hl|]. split; [|now apply send_aggregated_alert_named].
  clear Hl. induction Hb as [|alert block alerts blocks Hblock Hb IH]; [constructor|].
  inversion Hall as [|? ? [m Hm] Hall']; subst. constructor; [|now apply IH].
  exists m, (shown_details alert). split; [exact Hm|].
  rewrite (alert_lines_named alert m Hm) in Hblock. injection Hblock as <-.
  split; [reflexivity|]. split; [reflexivity | apply shown_details_length].
Qed.

Lemma digest_shows_at_most_three_details_witness :
  Forall (fun alert => is_Some (monitor alert)) [Samples.ssl_warning] /\
  _send_aggregated_alert "a.com" [Samples.ssl_warning]
  = inl (AttributeError "NotificationService" "send").
Proof.
  assert (H : Forall (fun alert => is_Some (monitor alert)) [Samples.ssl_warning])
    by (repeat constructor; cbn; eauto).
  split; [exact H|].
  destruct (digest_shows_at_most_three_details "a.com" [Samples.ssl_warning] H)
    as (blocks & _ & _ & Hs).
  exact Hs.
Defined.

End DigestMore.

(** ** Further properties of the target selection *)

Module TargetMore.
Import Eff EventAux EffFacts PyStr PyStrAux PyStrFacts UrlFacts Cli CliAux TargetAux.

(** X23: the cleaned name is a bare host name: it holds no colon, slash or
    question mark, so no scheme, port, path or query is left in it; it has
    no upper-case ASCII letter; and it has no white space at either end. *)
Theorem clean_domain_is_a_bare_name raw_domain :
  has_char ":" (clean_domain raw_domain) = false /\
  has_char "/" (clean_domain raw_domain) = false /\
  has_char "?" (clean_domain raw_domain) = false /\
  lower (clean_domain raw_domain) = clean_domain raw_domain /\
  strip (clean_domain raw_domain) = clean_domain raw_domain.
Proof.
  split; [apply clean_domain_chars; [exact lower_char_colon | apply strip_url_no_colon]|].
  split; [apply clean_domain_chars; [exact lower_char_slash | apply strip_url_no_slash]|].
  split; [apply clean_domain_chars; [exact lower_char_qmark | apply strip_url_no_qmark]|].
  rewrite clean_domain_unfold. split.
  - apply lower_idem.
  - now rewrite strip_lower, strip_idem.
Qed.

(** *** The labels of a name *)

Lemma split_go_dot_step c s cur :
  split_go "." (String c s) 0 cur =
  if ascii_dec "." c
  then cur :: split_go "." s 0 EmptyString
  else split_go "." s 0 (cur ++ String c EmptyString).
Proof.
  cbn [split_go String.prefix String.length Nat.sub].
  destruct (ascii_dec "." c); [now rewrite prefix_empty | reflexivity].
Qed.

Lemma split_go_dot_free s :
  forall cur,
    has_char "." cur = false ->
    Forall (fun label => has_char "." label = false) (split_go "." s 0 cur).
Proof.
  induction s as [|c s IH]; intros cur Hcur.
  - cbn. now repeat constructor.
  - rewrite split_go_dot_step. destruct (ascii_dec "." c) as [Hc|Hc].
    + constructor; [exact Hcur | now apply IH].
    + apply IH. rewrite has_char_app, Hcur. cbn [has_char orb].
      destruct (ascii_dec "." c); [contradiction | reflexivity].
Qed.

Lemma labels_dot_free d : Forall (fun label => has_char "." label = false) (labels d).
Proof. now apply split_go_dot_free. Qed.

Lemma item_dot_free l i :
  Forall (fun label => has_char "." label = false) l ->
  has_char "." (item l i) = false.
Proof.
  intros Hall. unfold item. destruct (l !! i) as [x|] eqn:Hx; [|reflexivity].
  cbn. rewrite List.Forall_forall in Hall. apply Hall.
  apply list_elem_of_In. eapply list_elem_of_lookup_2; eauto.
Qed.

(** X24: the parent domain has at most two labels and is its own parent:
    a name of one or two labels is returned as it is, and the name made of
    the last two labels of a longer one has exactly two labels. *)
Theorem parent_domain_is_its_own_parent d :
  length (labels (get_parent_domain d)) <= 2 /\
  get_parent_domain (get_parent_domain d) = get_parent_domain d /\
  (length (labels d) <= 2 -> get_parent_domain d = d) /\
  (2 < length (labels d) -> length (labels (get_parent_domain d)) = 2).
Proof.
  assert (Hlong : 2 < length (labels d) ->
                  exists a b, get_parent_domain d = a ++ "." ++ b /\
                              labels (a ++ "." ++ b) = [a; b]).
  { intros Hlen. unfold get_parent_domain. fold (labels d).
    destruct (Nat.ltb_spec 2 (length (labels d))); [|lia].
    eexists _, _. split; [reflexivity|].
    apply (split_join_labels [_; _]); [discriminate|].
    repeat constructor; apply item_dot_free, labels_dot_free. }
  assert (Hshort : length (labels d) <= 2 -> get_parent_domain d = d).
  { intros Hlen. unfold get_parent_domain. fold (labels d).
    destruct (Nat.ltb_spec 2 (length (labels d))); [lia | reflexivity]. }
  destruct (Nat.le_gt_cases (length (labels d)) 2) as [Hle|Hgt].
  - rewrite (Hshort Hle). split; [exact Hle|]. split; [now apply Hshort|].
    split; [reflexivity | lia].
  - destruct (Hlong Hgt) as (a & b & Hp & Hl). rewrite Hp.
    assert (Hfix : get_parent_domain (a ++ "." ++ b) = a ++ "." ++ b).
    { unfold get_parent_domain. fold (labels (a ++ "." ++ b)). now rewrite Hl. }
    rewrite Hl, Hfix. cbn [length].
    split; [lia|]. split; [reflexivity|]. split; [lia | reflexivity].
Qed.

(** *** The targets of the adapters *)

Lemma neutral_on_target d ev : neutral ev -> on_target d ev.
Proof.
  intros Hn. destruct ev as [| | |m target|]; try exact I.
  specialize (Hn (Calls m)). destruct m; discriminate.
Qed.

Lemma connectable_cases w d h host :
  fst (get_connectable_hostname w d h) = inr host ->
  host = Some d \/ host = Some ("www." ++ d) \/ host = None.
Proof.
  unfold get_connectable_hostname, try_catch, bind, ret, log, emit. cbv zeta.
  destruct (RobustResolver.get_ip w d h) as [[e1|ip1] ev1].
  - destruct (RobustResolver.get_ip w ("www." ++ d) _) as [[e2|ip2] ev2]; cbn;
      intros [= <-]; auto.
  - cbn. intros [= <-]. auto.
Qed.

Lemma truthy_cases d host host' :
  host = Some d \/ host = Some ("www." ++ d) \/ host = None ->
  truthy host = Some host' -> host' = d \/ host' = "www." ++ d.
Proof.
  intros [H|[H|H]]; subst host; cbn.
  - destruct d; [discriminate|]. intros [= <-]. now left.
  - intros [= <-]. now right.
  - discriminate.
Qed.

Lemma on_target_checks cfg w d host all_results :
  host = Some d \/ host = Some ("www." ++ d) \/ host = None ->
  emits (on_target d) (checks cfg w d host (get_parent_domain d) all_results).
Proof.
  intros Hhost. unfold checks.
  apply emits_bind.
  { unfold domain_step. destruct (domain_enabled cfg); [|apply emits_ret].
    apply emits_try_catch.
    - cbv zeta. apply emits_bind; [now apply emits_ask | intros res; apply emits_ret].
    - intros e. apply emits_bind; [now apply emits_emit | intros _; apply emits_ret]. }
  intros a1. apply emits_bind.
  { unfold ssl_step. destruct (ssl_enabled cfg); [|apply emits_ret].
    destruct (truthy host) as [host'|] eqn:Ht.
    - cbv zeta. apply emits_bind; [|intros res; apply emits_ret].
      apply emits_ask. exact (truthy_cases d host host' Hhost Ht).
    - apply emits_bind; [now apply emits_emit | intros _; apply emits_ret]. }
  intros a2. apply emits_bind.
  { unfold dns_step. destruct (dns_enabled cfg); [|apply emits_ret].
    cbv zeta. apply emits_bind; [now apply emits_ask | intros res; apply emits_ret]. }
  intros a3. apply emits_bind.
  { unfold security_step. destruct (security_enabled cfg); [|apply emits_ret].
    destruct (truthy host) as [host'|] eqn:Ht.
    - cbv zeta. apply emits_bind; [|intros res; apply emits_ret].
      apply emits_ask. exact (truthy_cases d host host' Hhost Ht).
    - apply emits_bind; [now apply emits_emit | intros _; apply emits_ret]. }
  intros a4. unfold blacklist_step. destruct (blacklist_enabled cfg); [|apply emits_ret].
  apply emits_bind; [|intros res; apply emits_ret].
  apply emits_bind; [now apply emits_emit|]. intros _.
  eapply emits_weaken; [exact (neutral_on_target d)|].
  apply BlacklistSpec.quiet_check_blacklist.
Qed.

Lemma on_target_scan_domain cfg w raw_domain all_results h :
  Forall (on_target (clean_domain raw_domain)) (snd (scan_domain cfg w raw_domain all_results h)).
Proof.
  rewrite CliFacts.scan_domain_unfold. cbv zeta.
  set (d := clean_domain raw_domain).
  unfold bind at 1. unfold log, emit. unfold bind at 1.
  pose proof (ResolverSpec.quiet_get_connectable_hostname w d
                (h ++ [EvLog LInfo ("Checking " ++ d ++ "...")])%list) as Hq.
  pose proof (connectable_cases w d (h ++ [EvLog LInfo ("Checking " ++ d ++ "...")])%list)
    as Hcases.
  destruct (get_connectable_hostname w d _) as [[e|host] ev1]; cbn [fst snd] in *.
  - constructor; [exact I|]. eapply Forall_impl; [exact Hq | apply neutral_on_target].
  - pose proof (on_target_checks cfg w d host all_results (Hcases host eq_refl)
                  ((h ++ [EvLog LInfo ("Checking " ++ d ++ "...")]) ++ ev1)%list) as Hc.
    destruct (checks cfg w d host (get_parent_domain d) all_results _) as [r ev2].
    cbn [snd] in *. constructor; [exact I|].
    apply Forall_app. split; [|exact Hc].
    eapply Forall_impl; [exact Hq | apply neutral_on_target].
Qed.

(** X25: every adapter is invoked on the target the scan loop selects for
    its kind.  Whatever the resolver and the adapters answer, each adapter
    invocation of a cycle belongs to one of the configured domains, and for
    that domain, cleaned, the WHOIS and DNS adapters are invoked on its
    parent domain, the certificate and security adapters on the domain or
    on its [www] name, and the blacklist adapter on the domain itself. *)
Theorem adapters_are_invoked_on_their_targets cfg w domains h :
  Forall (fun ev =>
            match ev with
            | EvAdapter _ _ =>
                exists raw_domain,
                  In raw_domain domains /\ on_target (clean_domain raw_domain) ev
            | _ => True
            end)
         (snd (scan_cycle cfg w domains h)).
Proof.
  unfold scan_cycle. generalize (@nil CheckResult) as all_results. revert h.
  induction domains as [|raw domains IH]; intros h all_results; [constructor|].
  cbn [for_each]. unfold bind.
  pose proof (on_target_scan_domain cfg w raw all_results h) as Hfirst.
  destruct (scan_domain cfg w raw all_results h) as [[e|all'] ev1]; cbn [snd] in *.
  - eapply Forall_impl; [exact Hfirst|].
    intros ev Hev. destruct ev; try exact I. exists raw. split; [now left | exact Hev].
  - specialize (IH (h ++ ev1)%list all').
    destruct (for_each domains (scan_domain cfg w) all' _) as [r ev2]. cbn [snd] in *.
    apply Forall_app. split.
    + eapply Forall_impl; [exact Hfirst|].
      intros ev Hev. destruct ev; try exact I. exists raw. split; [now left | exact Hev].
    + eapply Forall_impl; [exact IH|].
      intros ev Hev. destruct ev; try exact I.
      destruct Hev as (raw' & Hin & Hev). exists raw'. split; [now right | exact Hev].
Qed.

End TargetMore.

(** ** The statistics of the report *)

Module ReportSpec.
Import HTMLGenerator ReportAux.

Lemma number_cons p r results :
  number p (r :: results) = ((if p r then 1 else 0) + number p results)%Z.
Proof.
  unfold number. cbn [List.filter]. destruct (p r); cbn [length]; lia.
Qed.

Lemma bucket_in r : bucket r ∈ buckets.
Proof.
  unfold bucket, buckets. cbv zeta.
  destruct (String.eqb _ "ok"); [set_solver|].
  destruct (String.eqb _ "warning"); set_solver.
Qed.

Lemma incr_at key counter n :
  counter !! key = Some n -> incr key counter = Some (<[key := (n + 1)%Z]> counter).
Proof. unfold incr. now intros ->. Qed.

(** The key of the global counter that one result increments. *)
Lemma global_step (st : gmap string Z) r f :
  dom st = buckets ->
  (forall k, k ∈ buckets -> st !! k = Some (f k)) ->
  let s := default "ok" (row_status r) in
  let s := if String.eqb s "error" then "critical" else s in
  (if decide (is_Some (st !! s)) then incr s st else incr "critical" st)
  = Some (<[bucket r := (f (bucket r) + 1)%Z]> st) /\
  (String.eqb s "ok" = String.eqb (bucket r) "ok").
Proof.
  intros Hdom Hf. cbv zeta. unfold bucket. cbv zeta.
  set (s := default "ok" (row_status r)).
  assert (Hok : st !! "ok" = Some (f "ok")) by (apply Hf; set_solver).
  assert (Hw : st !! "warning" = Some (f "warning")) by (apply Hf; set_solver).
  assert (Hc : st !! "critical" = Some (f "critical")) by (apply Hf; set_solver).
  destruct (String.eqb_spec s "error") as [He|He].
  - rewrite He. cbn [String.eqb Ascii.eqb Bool.eqb andb].
    destruct (decide (is_Some (st !! "critical"))) as [_|Hn];
      [|exfalso; apply Hn; eauto].
    split; [now apply incr_at | reflexivity].
  - destruct (String.eqb_spec s "ok") as [Hs|Hs].
    + rewrite Hs. destruct (decide (is_Some (st !! "ok"))) as [_|Hn];
        [|exfalso; apply Hn; eauto].
      split; [now apply incr_at | reflexivity].
    + destruct (String.eqb_spec s "warning") as [Hs'|Hs'].
      * rewrite Hs'. destruct (decide (is_Some (st !! "warning"))) as [_|Hn];
          [|exfalso; apply Hn; eauto].
        split; [now apply incr_at | reflexivity].
      * destruct (decide (is_Some (st !! s))) as [Hin|_].
        -- apply elem_of_dom in Hin. rewrite Hdom in Hin.
           assert (s = "critical") as ->.
           { unfold buckets in Hin.
             apply elem_of_union in Hin as [Hin|Hin];
               [apply elem_of_union in Hin as [Hin|Hin]|];
               apply elem_of_singleton in Hin; congruence. }
           split; [now apply incr_at | reflexivity].
        -- split; [now apply incr_at | reflexivity].
Qed.

(** What one result does to the category counter. *)
Lemma category_step (st : gmap string Z) r g :
  dom st = categories ->
  (forall k, k ∈ categories -> st !! k = Some (g k)) ->
  (if negb (String.eqb (bucket r) "ok")
   then if decide (is_Some (st !! category r)) then incr (category r) st else Some st
   else Some st)
  = Some (if negb (String.eqb (bucket r) "ok") && bool_decide (category r ∈ categories)
          then <[category r := (g (category r) + 1)%Z]> st
          else st).
Proof.
  intros Hdom Hg. destruct (negb (String.eqb (bucket r) "ok")); [|reflexivity].
  cbn [andb]. destruct (decide (is_Some (st !! category r))) as [Hin|Hout].
  - apply elem_of_dom in Hin. rewrite Hdom in Hin.
    rewrite bool_decide_eq_true_2 by exact Hin.
    apply incr_at. now apply Hg.
  - rewrite bool_decide_eq_false_2; [reflexivity|].
    intros Hin. apply Hout. rewrite <- Hdom in Hin. now apply elem_of_dom in Hin.
Qed.

Lemma count_result_spec acc r f g :
  dom (stats acc) = buckets ->
  dom (cat_stats acc) = categories ->
  (forall k, k ∈ buckets -> stats acc !! k = Some (f k)) ->
  (forall k, k ∈ categories -> cat_stats acc !! k = Some (g k)) ->
  exists acc',
    count_result acc r = Some acc' /\
    dom (stats acc') = buckets /\
    dom (cat_stats acc') = categories /\
    (forall k, k ∈ buckets ->
               stats acc' !! k = Some (f k + if counted_in k r then 1 else 0)%Z) /\
    (forall k, k ∈ categories ->
               cat_stats acc' !! k = Some (g k + if filed_under k r then 1 else 0)%Z).
Proof.
  intros Hd1 Hd2 Hf Hg. unfold count_result.
  destruct (global_step (stats acc) r f Hd1 Hf) as [Hglobal Hok]. cbv zeta in Hglobal, Hok.
  cbv zeta. rewrite Hglobal, Hok.
  change (PyStr.lower (default "unknown" (row_monitor r))) with (category r).
  rewrite (category_step (cat_stats acc) r g Hd2 Hg).
  eexists. split; [reflexivity|]. cbn [stats cat_stats].
  split; [|split; [|split]].
  - rewrite dom_insert_L, Hd1.
    apply subseteq_union_1_L, singleton_subseteq_l, bucket_in.
  - destruct (negb _ && bool_decide _) eqn:Hb; [|exact Hd2].
    apply andb_true_iff in Hb as [_ Hb%bool_decide_eq_true].
    rewrite dom_insert_L, Hd2.
    now apply subseteq_union_1_L, singleton_subseteq_l.
  - intros k Hk. unfold counted_in.
    destruct (String.eqb_spec (bucket r) k) as [<-|Hne].
    + now rewrite lookup_insert_eq.
    + rewrite lookup_insert_ne by exact Hne. rewrite (Hf k Hk). f_equal. lia.
  - intros k Hk. unfold filed_under.
    destruct (negb (String.eqb (bucket r) "ok")); cbn [andb].
    + destruct (String.eqb_spec (category r) k) as [<-|Hne].
      * rewrite bool_decide_eq_true_2 by exact Hk. now rewrite lookup_insert_eq.
      * destruct (bool_decide _).
        -- rewrite lookup_insert_ne by exact Hne. rewrite (Hg k Hk). f_equal. lia.
        -- rewrite (Hg k Hk). f_equal. lia.
    + rewrite (Hg k Hk). f_equal. lia.
Qed.

Lemma count_all_spec results :
  forall acc f g,
    dom (stats acc) = buckets ->
    dom (cat_stats acc) = categories ->
    (forall k, k ∈ buckets -> stats acc !! k = Some (f k)) ->
    (forall k, k ∈ categories -> cat_stats acc !! k = Some (g k)) ->
    exists st,
      count_all acc results = Some st /\
      dom (stats st) = buckets /\
      dom (cat_stats st) = categories /\
      (forall k, k ∈ buckets ->
                 stats st !! k = Some (f k + number (counted_in k) results)%Z) /\
      (forall k, k ∈ categories ->
                 cat_stats st !! k = Some (g k + number (filed_under k) results)%Z).
Proof.
  induction results as [|r results IH]; intros acc f g Hd1 Hd2 Hf Hg.
  - exists acc. split; [reflexivity|]. split; [exact Hd1|]. split; [exact Hd2|].
    split; intros k Hk; unfold number; cbn; rewrite Z.add_0_r; auto.
  - cbn [count_all].
    destruct (count_result_spec acc r f g Hd1 Hd2 Hf Hg)
      as (acc' & -> & Hd1' & Hd2' & Hf' & Hg').
    destruct (IH acc' _ _ Hd1' Hd2' Hf' Hg') as (st & Hst & E1 & E2 & F1 & F2).
    exists st. split; [exact Hst|]. split; [exact E1|]. split; [exact E2|].
    split; intros k Hk; rewrite number_cons.
    + rewrite (F1 k Hk). f_equal. lia.
    + rewrite (F2 k Hk). f_equal. lia.
Qed.

Lemma generate_spec results :
  exists st,
    generate results = Some st /\
    dom (stats st) = buckets /\
    dom (cat_stats st) = categories /\
    (forall k, k ∈ buckets -> stats st !! k = Some (number (counted_in k) results)) /\
    (forall k, k ∈ categories -> cat_stats st !! k = Some (number (filed_under k) results)).
Proof.
  unfold generate. cbv zeta.
  destruct (count_all_spec results
              (mkStats {[ "ok" := 0%Z; "warning" := 0%Z; "critical" := 0%Z ]}
                       {[ "domain" := 0%Z; "ssl" := 0%Z; "security" := 0%Z;
                          "blacklist" := 0%Z ]})
              (fun _ => 0%Z) (fun _ => 0%Z))
    as (st & Hst & E1 & E2 & F1 & F2).
  - cbn [stats]. unfold buckets. rewrite !dom_insert_L, dom_singleton_L. set_solver.
  - cbn [cat_stats]. unfold categories. rewrite !dom_insert_L, dom_singleton_L. set_solver.
  - cbn [stats]. intros k Hk. unfold buckets in Hk.
    apply elem_of_union in Hk as [Hk|Hk%elem_of_singleton];
      [apply elem_of_union in Hk as [Hk%elem_of_singleton|Hk%elem_of_singleton]|];
      subst k; reflexivity.
  - cbn [cat_stats]. intros k Hk. unfold categories in Hk.
    apply elem_of_union in Hk as [Hk|Hk%elem_of_singleton];
      [apply elem_of_union in Hk as [Hk|Hk%elem_of_singleton];
       [apply elem_of_union in Hk as [Hk%elem_of_singleton|Hk%elem_of_singleton]|]|];
      subst k; reflexivity.
  - exists st. split; [exact Hst|]. split; [exact E1|]. split; [exact E2|].
    split; intros k Hk; [rewrite (F1 k Hk) | rewrite (F2 k Hk)]; reflexivity.
Qed.

Lemma bucket_cases r : bucket r = "ok" \/ bucket r = "warning" \/ bucket r = "critical".
Proof.
  unfold bucket. cbv zeta.
  destruct (String.eqb _ "ok"); [now left|].
  destruct (String.eqb _ "warning"); [right; now left | right; now right].
Qed.

Lemma buckets_partition results :
  (number (counted_in "ok") results + number (counted_in "warning") results
   + number (counted_in "critical") results = Z.of_nat (length results))%Z.
Proof.
  induction results as [|r results IH]; [reflexivity|].
  rewrite !number_cons. cbn [length]. rewrite Nat2Z.inj_succ. unfold counted_in at 1 3 5.
  destruct (bucket_cases r) as [Hb|[Hb|Hb]]; rewrite Hb;
    cbn [String.eqb Ascii.eqb Bool.eqb andb]; lia.
Qed.

Lemma categories_bound results :
  (number (filed_under "domain") results + number (filed_under "ssl") results
   + number (filed_under "security") results + number (filed_under "blacklist") results
   <= number (counted_in "warning") results + number (counted_in "critical") results)%Z.
Proof.
  induction results as [|r results IH]; [reflexivity|].
  rewrite !number_cons. unfold filed_under at 1 3 5 7. unfold counted_in at 1 3.
  destruct (bucket_cases r) as [Hb|[Hb|Hb]]; rewrite Hb; cbn [String.eqb Ascii.eqb Bool.eqb andb negb]; [lia| |].
  - destruct (String.eqb_spec (category r) "domain") as [->|]; [cbn; lia|].
    destruct (String.eqb_spec (category r) "ssl") as [->|]; [cbn; lia|].
    destruct (String.eqb_spec (category r) "security") as [->|]; [cbn; lia|].
    destruct (String.eqb (category r) "blacklist"); lia.
  - destruct (String.eqb_spec (category r) "domain") as [->|]; [cbn; lia|].
    destruct (String.eqb_spec (category r) "ssl") as [->|]; [cbn; lia|].
    destruct (String.eqb_spec (category r) "security") as [->|]; [cbn; lia|].
    destruct (String.eqb (category r) "blacklist"); lia.
Qed.

(** X14: the counting loop of [generate] never fails on a missing key and
    counts every result in exactly one of the buckets [ok], [warning] and
    [critical]: a result without a status counts as ok, and a result with
    the status error or any status other than ok and warning counts as
    critical, so the three numbers add up to the number of results. *)
Theorem report_counts_every_result_once results :
  exists st,
    generate results = Some st /\
    dom (stats st) = {[ "ok"; "warning"; "critical" ]} /\
    stats st !! "ok" = Some (number (counted_in "ok") results) /\
    stats st !! "warning" = Some (number (counted_in "warning") results) /\
    stats st !! "critical" = Some (number (counted_in "critical") results) /\
    (number (counted_in "ok") results + number (counted_in "warning") results
     + number (counted_in "critical") results = Z.of_nat (length results))%Z.
Proof.
  destruct (generate_spec results) as (st & Hst & E1 & _ & F1 & _).
  exists st. split; [exact Hst|]. split; [exact E1|].
  split; [apply F1; unfold buckets; set_solver|].
  split; [apply F1; unfold buckets; set_solver|].
  split; [apply F1; unfold buckets; set_solver|].
  apply buckets_partition.
Qed.

(** X15: the category counter of [generate] keeps the four keys [domain],
    [ssl], [security] and [blacklist]; under each it counts the results
    that are not ok and whose lower-cased monitor name is the key.  A
    result of any other monitor, the DNS monitor included, is counted in
    no category, so the four numbers add up to at most the number of
    warning and critical results. *)
Theorem report_categories_count_the_problems results :
  exists st,
    generate results = Some st /\
    dom (cat_stats st) = {[ "domain"; "ssl"; "security"; "blacklist" ]} /\
    (forall key, key ∈ categories ->
                 cat_stats st !! key = Some (number (filed_under key) results)) /\
    cat_stats st !! "dns" = None /\
    (number (filed_under "domain") results + number (filed_under "ssl") results
     + number (filed_under "security") results + number (filed_under "blacklist") results
     <= number (counted_in "warning") results + number (counted_in "critical") results)%Z.
Proof.
  destruct (generate_spec results) as (st & Hst & _ & E2 & _ & F2).
  exists st. split; [exact Hst|]. split; [exact E2|]. split; [exact F2|].
  split; [|apply categories_bound].
  apply not_elem_of_dom. rewrite E2. unfold categories.
  intros Hin. repeat (apply elem_of_union in Hin as [Hin|Hin]);
    apply elem_of_singleton in Hin; discriminate.
Qed.

End ReportSpec.

(** ** The notification channels *)

Module ServiceSpec.
Import NotificationService ServiceAux.

Lemma calls_app a b : calls (a ++ b) = (calls a ++ calls b)%list.
Proof. unfold calls. apply List.filter_app. Qed.

Lemma logged_app a b : logged (a ++ b) = (logged a ++ logged b)%list.
Proof. unfold logged. apply List.filter_app. Qed.

Lemma calls_all l : forallb is_call l = true -> calls l = l.
Proof.
  unfold calls. induction l as [|a l IH]; [reflexivity|]. cbn [forallb List.filter].
  intros H. apply andb_true_iff in H as [Ha Hl]. now rewrite Ha, IH.
Qed.

Lemma logged_none l : forallb is_call l = true -> logged l = [].
Proof.
  unfold logged. induction l as [|a l IH]; [reflexivity|]. cbn [forallb List.filter].
  intros H. apply andb_true_iff in H as [Ha Hl]. now rewrite Ha, IH.
Qed.

(** The operations made are the first ones planned, the first of all
    among them. *)
Lemma perform_made remote planned :
  forall h, exists n, fst (perform remote planned h) = take (S n) planned.
Proof.
  induction planned as [|call rest IH]; intros h; [exists 0; reflexivity|].
  cbn [perform]. destruct (remote h call).
  - exists 0. cbn. now rewrite take_0.
  - destruct (IH (h ++ [call])%list) as [n Hn].
    destruct (perform remote rest (h ++ [call])%list) as [made raised].
    cbn [fst] in *. subst made. exists (S n). reflexivity.
Qed.

Lemma perform_refused planned h :
  fst (perform unreachable planned h) = take 1 planned.
Proof. destruct planned as [|call rest]; [reflexivity|]. cbn. now rewrite take_0. Qed.

Lemma forallb_take {A} (f : A -> bool) n (l : list A) :
  forallb f l = true -> forallb f (take n l) = true.
Proof.
  revert n. induction l as [|a l IH]; intros [|n] H; try reflexivity.
  cbn [forallb take] in *. apply andb_true_iff in H as [Ha Hl].
  now rewrite Ha, IH.
Qed.

Lemma begins_with_none : begins_with (fun _ _ => []) [] 0.
Proof. intros remote h. split; [exists []; reflexivity | split; reflexivity]. Qed.

Lemma outcome_logged raised done failed : is_call (outcome raised done failed) = false.
Proof. now destruct raised. Qed.

Lemma begins_with_attempt first rest done failed :
  forallb is_call (first :: rest) = true ->
  begins_with (fun remote h => attempt remote (first :: rest) done failed h) [first] 1.
Proof.
  intros Hc remote h. unfold attempt.
  assert (Hshape : forall r h0,
             calls (let (made, raised) := perform r (first :: rest) h0 in
                    (made ++ [outcome raised done failed])%list)
             = fst (perform r (first :: rest) h0) /\
             length (logged (let (made, raised) := perform r (first :: rest) h0 in
                             (made ++ [outcome raised done failed])%list)) = 1).
  { intros r h0. destruct (perform_made r (first :: rest) h0) as [n Hn].
    destruct (perform r (first :: rest) h0) as [made raised]. cbn [fst] in *.
    assert (Hm : forallb is_call made = true) by (rewrite Hn; now apply forallb_take).
    rewrite calls_app, logged_app, (calls_all made Hm), (logged_none made Hm).
    unfold calls, logged. cbn [List.filter]. rewrite outcome_logged. cbn.
    now rewrite app_nil_r. }
  split; [|split].
  - destruct (Hshape remote h) as [-> _].
    destruct (perform_made remote (first :: rest) h) as [n ->].
    exists (take n rest). reflexivity.
  - exact (proj2 (Hshape remote h)).
  - destruct (Hshape unreachable h) as [-> _]. rewrite perform_refused.
    cbn. now rewrite take_0.
Qed.

Lemma begins_with_github s config title body level :
  exists first lines,
    begins_with (fun remote => _send_github_issue s config remote title body level)
                first lines /\
    length first <= lines /\
    lines = (if truthy (py_or (GITHUB_TOKEN s) (config_get config "github" "token")) is Some _
             then 1 else 0)
            * (if truthy (py_or (GITHUB_REPO s) (config_get config "github" "repo")) is Some _
               then 1 else 0)
            * (if String.eqb level "critical" then 1 else 0).
Proof.
  unfold _send_github_issue. cbv zeta.
  destruct (truthy (py_or (GITHUB_TOKEN s) _));
    [|exists [], 0; split; [apply begins_with_none | split; [cbn; lia | reflexivity]]].
  destruct (truthy (py_or (GITHUB_REPO s) _));
    [|exists [], 0; split; [apply begins_with_none | split; [cbn; lia | reflexivity]]].
  destruct (String.eqb level "critical");
    [|exists [], 0; split; [apply begins_with_none | split; [cbn; lia | reflexivity]]].
  eexists [_], 1. split; [now apply begins_with_attempt | split; [cbn; lia | reflexivity]].
Qed.

Lemma begins_with_gitlab s config title body level :
  exists first lines,
    begins_with (fun remote => _send_gitlab_issue s config remote title body level)
                first lines /\
    length first <= lines /\
    lines = (if truthy (py_or (GITLAB_TOKEN s) (config_get config "gitlab" "token")) is Some _
             then 1 else 0)
            * (if truthy (py_or (GITLAB_PROJECT_ID s) (config_get config "gitlab" "project_id")) is Some _
               then 1 else 0)
            * (if String.eqb level "critical" then 1 else 0).
Proof.
  unfold _send_gitlab_issue. cbv zeta.
  destruct (truthy (py_or (GITLAB_TOKEN s) _));
    [|exists [], 0; split; [apply begins_with_none | split; [cbn; lia | reflexivity]]].
  destruct (truthy (py_or (GITLAB_PROJECT_ID s) _));
    [|exists [], 0; split; [apply begins_with_none | split; [cbn; lia | reflexivity]]].
  destruct (String.eqb level "critical");
    [|exists [], 0; split; [apply begins_with_none | split; [cbn; lia | reflexivity]]].
  eexists [_], 1. split; [now apply begins_with_attempt | split; [cbn; lia | reflexivity]].
Qed.

Lemma begins_with_telegram s config title message :
  exists first lines,
    begins_with (fun remote => _send_telegram s config remote title message) first lines /\
    length first <= lines /\
    lines = (if truthy (py_or (TELEGRAM_BOT_TOKEN s) (config_get config "telegram" "bot_token")) is Some _
             then 1 else 0)
            * (if truthy (py_or (TELEGRAM_CHAT_ID s) (config_get config "telegram" "chat_id")) is Some _
               then 1 else 0).
Proof.
  unfold _send_telegram. cbv zeta.
  destruct (truthy (py_or (TELEGRAM_BOT_TOKEN s) _));
    [|exists [], 0; split; [apply begins_with_none | split; [cbn; lia | reflexivity]]].
  destruct (truthy (py_or (TELEGRAM_CHAT_ID s) _));
    [|exists [], 0; split; [apply begins_with_none | split; [cbn; lia | reflexivity]]].
  eexists [_], 1. split; [now apply begins_with_attempt | split; [cbn; lia | reflexivity]].
Qed.

Lemma begins_with_teams s config title message level :
  exists first lines,
    begins_with (fun remote => _send_teams s config remote title message level)
                first lines /\
    length first <= lines /\
    lines = (if truthy (py_or (TEAMS_WEBHOOK_URL s) (config_get config "teams" "webhook_url")) is Some _
             then 1 else 0).
Proof.
  unfold _send_teams. cbv zeta.
  destruct (truthy (py_or (TEAMS_WEBHOOK_URL s) _));
    [|exists [], 0; split; [apply begins_with_none | split; [cbn; lia | reflexivity]]].
  eexists [_], 1. split; [now apply begins_with_attempt | split; [cbn; lia | reflexivity]].
Qed.

Lemma begins_with_webhook s config timestamp title message level :
  exists first lines,
    begins_with (fun remote => _send_webhook s config remote timestamp title message level)
                first lines /\
    length first <= lines /\
    lines = (if truthy (py_or (GENERIC_WEBHOOK_URL s) (config_get config "webhook" "url")) is Some _
             then 1 else 0).
Proof.
  unfold _send_webhook. cbv zeta.
  destruct (truthy (py_or (GENERIC_WEBHOOK_URL s) _));
    [|exists [], 0; split; [apply begins_with_none | split; [cbn; lia | reflexivity]]].
  eexists [_], 1. split; [now apply begins_with_attempt | split; [cbn; lia | reflexivity]].
Qed.

(** The mail channel: nothing is asked of the mail server when a header is
    refused; otherwise the connection comes first. *)
Lemma smtp_session_shape remote srv port body h :
  forallb is_call body = true ->
  exists more,
    fst (smtp_session remote srv port body h) = Connect srv port :: more /\
    forallb is_call more = true /\
    (remote = unreachable -> more = []).
Proof.
  intros Hb. unfold smtp_session. destruct (remote h (Connect srv port)) eqn:Hc.
  - exists []. split; [reflexivity|]. split; [reflexivity|]. reflexivity.
  - destruct (perform_made remote body (h ++ [Connect srv port])%list) as [n Hn].
    destruct (perform remote body (h ++ [Connect srv port])%list) as [made raised].
    cbn [fst] in Hn. subst made.
    exists (take (S n) body ++ [Quit srv])%list.
    split; [now destruct (remote _ (Quit srv))|]. split.
    + rewrite forallb_app, (forallb_take _ _ _ Hb). reflexivity.
    + intros ->. discriminate.
Qed.

Lemma begins_with_email s title body :
  exists first lines,
    begins_with (fun remote => _send_email s remote title body) first lines /\
    length first <= lines /\
    lines = (if truthy (py_or (EMAIL_SMTP_SERVER s) None) is Some _ then 1 else 0)
            * (if truthy (py_or (EMAIL_TO s) None) is Some _ then 1 else 0).
Proof.
  assert (Hor : forall a, truthy (py_or a None) = truthy a) by (now intros [[|c t]|]).
  rewrite !Hor. unfold _send_email. cbv zeta.
  destruct (truthy (EMAIL_SMTP_SERVER s)) as [srv|];
    [|exists [], 0; split; [apply begins_with_none | split; [cbn; lia | reflexivity]]].
  destruct (truthy (EMAIL_TO s)) as [to|];
    [|exists [], 0; split; [apply begins_with_none | split; [cbn; lia | reflexivity]]].
  destruct (refused_header title || _ || _).
  - exists [], 1. split; [|split; [cbn; lia | reflexivity]].
    intros remote h. split; [exists []; reflexivity | split; reflexivity].
  - exists [Connect srv (EMAIL_SMTP_PORT s)], 1. split; [|split; [cbn; lia | reflexivity]].
    intros remote h.
    set (planned := (_ ++ [SendMail srv _ to title body])%list).
    assert (Hp : forallb is_call planned = true).
    { unfold planned. destruct (truthy (EMAIL_USER s)); [|reflexivity].
      destruct (truthy (EMAIL_PASSWORD s)); reflexivity. }
    assert (Hshape : forall r,
               exists more,
                 calls (let (made, raised) := smtp_session r srv (EMAIL_SMTP_PORT s) planned h in
                        (made ++ [outcome raised "Email sent." "Email notification failed: "])%list)
                 = Connect srv (EMAIL_SMTP_PORT s) :: more /\
                 length (logged (let (made, raised) :=
                                   smtp_session r srv (EMAIL_SMTP_PORT s) planned h in
                                 (made ++ [outcome raised "Email sent."
                                                   "Email notification failed: "])%list)) = 1 /\
                 (r = unreachable -> more = [])).
    { intros r.
      destruct (smtp_session_shape r srv (EMAIL_SMTP_PORT s) planned h Hp)
        as (more & Hm & Hc & Hu).
      destruct (smtp_session r srv (EMAIL_SMTP_PORT s) planned h) as [made raised].
      cbn [fst] in Hm. subst made. exists more.
      assert (Hall : forallb is_call (Connect srv (EMAIL_SMTP_PORT s) :: more) = true)
        by exact Hc.
      rewrite calls_app, logged_app, (calls_all _ Hall), (logged_none _ Hall).
      unfold calls, logged. cbn [List.filter]. rewrite outcome_logged. cbn [negb app length].
      rewrite app_nil_r. auto. }
    split; [|split].
    + destruct (Hshape remote) as (more & -> & _). exists more. reflexivity.
    + destruct (Hshape remote) as (more & _ & Hl & _). exact Hl.
    + destruct (Hshape unreachable) as (more & -> & _ & Hu). now rewrite (Hu eq_refl).
Qed.

(** X16: the channels fail independently.  Whatever the remote services
    answer, a call of [send_notification] logs its opening line and exactly
    one line per channel that it enters (the channels whose settings are
    complete, the two issue trackers for a critical alert only), and every
    operation that is made when all operations are refused, the first
    operation of each channel entered, is made, in the same order: the
    failure of one channel keeps no other channel from being tried.  There
    are at most six such operations, at most one per channel. *)
Theorem a_failing_channel_does_not_stop_the_others
    s config remote timestamp title message level h h' :
  let run := send_notification s config remote timestamp title message level h in
  let refused := send_notification s config unreachable timestamp title message level h' in
  calls refused `sublist_of` calls run /\
  length (logged run) = 1 + entered s config level /\
  length (logged refused) = 1 + entered s config level /\
  length (calls refused) <= entered s config level /\
  entered s config level <= 6.
Proof.
  cbv zeta. unfold send_notification. cbv zeta.
  destruct (begins_with_github s config title message level) as (f1 & n1 & B1 & L1 & E1).
  destruct (begins_with_gitlab s config title message level) as (f2 & n2 & B2 & L2 & E2).
  destruct (begins_with_telegram s config title message) as (f3 & n3 & B3 & L3 & E3).
  destruct (begins_with_teams s config title message level) as (f4 & n4 & B4 & L4 & E4).
  destruct (begins_with_email s title message) as (f5 & n5 & B5 & L5 & E5).
  destruct (begins_with_webhook s config timestamp title message level)
    as (f6 & n6 & B6 & L6 & E6).
  assert (Hentered : entered s config level = n1 + n2 + n3 + n4 + n5 + n6).
  { unfold entered. cbv zeta. now rewrite E1, E2, E3, E4, E5, E6. }
  unfold begins_with in B1, B2, B3, B4, B5, B6.
  rewrite !calls_app, !logged_app, !length_app, Hentered.
  change (calls [Log LInfo ("Sending notification: " ++ title ++ " [" ++ level ++ "]")])
    with (@nil Action).
  change (length (logged
                    [Log LInfo ("Sending notification: " ++ title ++ " [" ++ level ++ "]")]))
    with 1.
  cbn [app].
  repeat match goal with
         | |- context [calls (_send_github_issue s config remote title message level ?x)] =>
             let m := fresh "m" in
             destruct (B1 remote x) as ((m & ->) & -> & _)
         | |- context [calls (_send_gitlab_issue s config remote title message level ?x)] =>
             let m := fresh "m" in
             destruct (B2 remote x) as ((m & ->) & -> & _)
         | |- context [calls (_send_telegram s config remote title message ?x)] =>
             let m := fresh "m" in
             destruct (B3 remote x) as ((m & ->) & -> & _)
         | |- context [calls (_send_teams s config remote title message level ?x)] =>
             let m := fresh "m" in
             destruct (B4 remote x) as ((m & ->) & -> & _)
         | |- context [calls (_send_email s remote title message ?x)] =>
             let m := fresh "m" in
             destruct (B5 remote x) as ((m & ->) & -> & _)
         | |- context [calls (_send_webhook s config remote timestamp title message level ?x)] =>
             let m := fresh "m" in
             destruct (B6 remote x) as ((m & ->) & -> & _)
         end.
  repeat match goal with
         | |- context [calls (_send_github_issue s config unreachable title message level ?x)] =>
             destruct (B1 unreachable x) as (_ & -> & ->)
         | |- context [calls (_send_gitlab_issue s config unreachable title message level ?x)] =>
             destruct (B2 unreachable x) as (_ & -> & ->)
         | |- context [calls (_send_telegram s config unreachable title message ?x)] =>
             destruct (B3 unreachable x) as (_ & -> & ->)
         | |- context [calls (_send_teams s config unreachable title message level ?x)] =>
             destruct (B4 unreachable x) as (_ & -> & ->)
         | |- context [calls (_send_email s unreachable title message ?x)] =>
             destruct (B5 unreachable x) as (_ & -> & ->)
         | |- context [calls (_send_webhook s config unreachable timestamp title message
                                            level ?x)] =>
             destruct (B6 unreachable x) as (_ & -> & ->)
         end.
  split; [|split; [lia|split; [lia|split]]].
  - repeat apply sublist_app; try (apply sublist_inserts_r; reflexivity).
  - cbn [length]. lia.
  - rewrite E1, E2, E3, E4, E5, E6.
    repeat match goal with |- context [if ?b then _ else _] => destruct b end; cbn; lia.
Qed.

Lemma Forall_perform (P : Action -> Prop) remote planned :
  Forall P planned -> forall h, Forall P (fst (perform remote planned h)).
Proof.
  induction 1 as [|call rest Hc _ IH]; intros h; [constructor|].
  cbn [perform]. destruct (remote h call); [now repeat constructor|].
  specialize (IH (h ++ [call])%list).
  destruct (perform remote rest (h ++ [call])%list) as [made raised].
  now constructor.
Qed.

Lemma Forall_attempt (P : Action -> Prop) remote planned done failed h :
  Forall P planned -> (forall level text, P (Log level text)) ->
  Forall P (attempt remote planned done failed h).
Proof.
  intros Hc Hl. unfold attempt.
  pose proof (Forall_perform P remote planned Hc h) as Hm.
  destruct (perform remote planned h) as [made raised].
  apply Forall_app. split; [exact Hm|]. repeat constructor. destruct raised; apply Hl.
Qed.

Lemma mail_actions s remote title message h :
  Forall (fun a =>
            opens_issue a = false /\
            (is_mail a = true ->
             is_Some (truthy (EMAIL_SMTP_SERVER s)) /\ is_Some (truthy (EMAIL_TO s))))
         (_send_email s remote title message h).
Proof.
  unfold _send_email. cbv zeta.
  destruct (truthy (EMAIL_SMTP_SERVER s)) as [srv|] eqn:Hsrv; [|constructor].
  destruct (truthy (EMAIL_TO s)) as [to|] eqn:Hto; [|constructor].
  destruct (refused_header title || _ || _).
  { repeat constructor; discriminate. }
  set (planned := (_ ++ [SendMail srv _ to title message])%list).
  assert (Hp : Forall (fun a => opens_issue a = false) planned).
  { unfold planned. destruct (truthy (EMAIL_USER s)); [|now repeat constructor].
    destruct (truthy (EMAIL_PASSWORD s)); now repeat constructor. }
  unfold smtp_session.
  destruct (remote h (Connect srv (EMAIL_SMTP_PORT s))).
  { repeat constructor; try discriminate; eauto. }
  pose proof (Forall_perform _ remote planned Hp (h ++ [Connect srv (EMAIL_SMTP_PORT s)])%list)
    as Hm.
  destruct (perform remote planned (h ++ [Connect srv (EMAIL_SMTP_PORT s)])%list)
    as [made raised].
  cbn [fst] in Hm.
  assert (Hall : Forall (fun a =>
              opens_issue a = false /\
              (is_mail a = true -> is_Some (Some srv) /\ is_Some (Some to)))
            (Connect srv (EMAIL_SMTP_PORT s) :: made ++ [Quit srv])).
  { constructor; [split; [reflexivity | eauto]|].
    apply Forall_app. split.
    - eapply Forall_impl; [exact Hm|]. intros a Ha. cbv beta in *. split; [exact Ha | eauto].
    - repeat constructor; eauto. }
  destruct (remote _ (Quit srv)); (apply Forall_app; split; [exact Hall|]);
    repeat constructor; destruct raised; try discriminate; reflexivity.
Qed.

(** X17: what [send_notification] never does.  It opens an issue on GitHub
    or GitLab only for the level [critical], and then under the title
    prefixed with [[CRITICAL]]; and it asks something of a mail server only
    when the environment names both the SMTP server and the recipient,
    whatever the configuration file holds. *)
Theorem issues_are_opened_only_for_critical_alerts
    s config remote timestamp title message level h :
  Forall (fun a =>
            (opens_issue a = true ->
             level = "critical" /\ issue_title a = Some ("[CRITICAL] " ++ title)) /\
            (is_mail a = true ->
             is_Some (truthy (EMAIL_SMTP_SERVER s)) /\ is_Some (truthy (EMAIL_TO s))))
         (send_notification s config remote timestamp title message level h).
Proof.
  unfold send_notification. cbv zeta.
  repeat apply Forall_app_2.
  - repeat constructor; discriminate.
  - unfold _send_github_issue. cbv zeta.
    destruct (truthy (py_or (GITHUB_TOKEN s) _)); [|constructor].
    destruct (truthy (py_or (GITHUB_REPO s) _)); [|constructor].
    destruct (String.eqb_spec level "critical") as [->|]; [|constructor].
    apply Forall_attempt; [|intros; split; discriminate].
    repeat constructor; try discriminate; intros _; split; reflexivity.
  - unfold _send_gitlab_issue. cbv zeta.
    destruct (truthy (py_or (GITLAB_TOKEN s) _)); [|constructor].
    destruct (truthy (py_or (GITLAB_PROJECT_ID s) _)); [|constructor].
    destruct (String.eqb_spec level "critical") as [->|]; [|constructor].
    apply Forall_attempt; [|intros; split; discriminate].
    repeat constructor; try discriminate; intros _; split; reflexivity.
  - unfold _send_telegram. cbv zeta.
    destruct (truthy (py_or (TELEGRAM_BOT_TOKEN s) _)); [|constructor].
    destruct (truthy (py_or (TELEGRAM_CHAT_ID s) _)); [|constructor].
    apply Forall_attempt; [|intros; split; discriminate].
    repeat constructor; discriminate.
  - unfold _send_teams. cbv zeta.
    destruct (truthy (py_or (TEAMS_WEBHOOK_URL s) _)); [|constructor].
    apply Forall_attempt; [|intros; split; discriminate].
    repeat constructor; discriminate.
  - eapply Forall_impl; [apply mail_actions|]. cbv beta. intros a [Ha Hm].
    split; [rewrite Ha; discriminate | exact Hm].
  - unfold _send_webhook. cbv zeta.
    destruct (truthy (py_or (GENERIC_WEBHOOK_URL s) _)); [|constructor].
    apply Forall_attempt; [|intros; split; discriminate].
    repeat constructor; discriminate.
Qed.

Lemma py_or_set a b : is_Some (truthy a) -> py_or a b = a.
Proof. destruct a as [[|c t]|]; intros [x Hx]; try discriminate. reflexivity. Qed.

(** X18: the environment takes priority over the configuration file.
    When the environment gives a non-empty value for every token,
    identifier and URL that a channel can also read from the file, the
    file has no influence on what [send_notification] does. *)
Theorem environment_takes_priority
    s config1 config2 remote timestamp title message level h :
  environment_complete s ->
  send_notification s config1 remote timestamp title message level h =
  send_notification s config2 remote timestamp title message level h.
Proof.
  unfold environment_complete. intros Henv.
  repeat (apply Forall_cons in Henv as [? Henv]).
  unfold send_notification, _send_github_issue, _send_gitlab_issue, _send_telegram,
    _send_teams, _send_webhook. cbv zeta.
  rewrite !py_or_set by assumption. reflexivity.
Qed.

Lemma environment_takes_priority_witness :
  environment_complete
    (mkSettings (Some "t") (Some "me/repo") "https://gitlab.com" (Some "g") (Some "7")
                (Some "b") (Some "42") (Some "https://teams.example/hook")
                None 587 None None None None (Some "https://hook.example/")) /\
  send_notification
    (mkSettings (Some "t") (Some "me/repo") "https://gitlab.com" (Some "g") (Some "7")
                (Some "b") (Some "42") (Some "https://teams.example/hook")
                None 587 None None None None (Some "https://hook.example/"))
    {[ "github" := {[ "token" := "other" ]} ]} reachable "2026" "Alert" "text" "critical" []
  = send_notification
    (mkSettings (Some "t") (Some "me/repo") "https://gitlab.com" (Some "g") (Some "7")
                (Some "b") (Some "42") (Some "https://teams.example/hook")
                None 587 None None None None (Some "https://hook.example/"))
    ∅ reachable "2026" "Alert" "text" "critical" [].
Proof.
  assert (H : environment_complete
                (mkSettings (Some "t") (Some "me/repo") "https://gitlab.com" (Some "g")
                            (Some "7") (Some "b") (Some "42")
                            (Some "https://teams.example/hook")
                            None 587 None None None None (Some "https://hook.example/"))).
  { unfold environment_complete. repeat (apply List.Forall_cons; [cbn; eauto|]).
    apply List.Forall_nil. }
  split; [exact H|].
  apply (environment_takes_priority _ _ _ _ _ _ _ _ _ H).
Defined.

(** A title of two lines is refused as the subject of the mail: the mail
    channel logs the error and asks nothing of the mail server, while the
    webhook after it is still posted to. *)
Example refused_subject_reaches_no_mail_server :
  let s := mkSettings None None "https://gitlab.com" None None None None None
                      (Some "smtp.example.com") 587 None None None (Some "ops@example.com")
                      (Some "https://hook.example/") in
  let title := "Alert" ++ PyStr.newline ++ "Bcc: x@example.com" in
  List.filter is_mail (send_notification s ∅ reachable "2026" title "text" "warning" []) = [] /\
  In (Log LError ("Email notification failed: " ++ header_error))
     (send_notification s ∅ reachable "2026" title "text" "warning" []) /\
  length (calls (send_notification s ∅ reachable "2026" title "text" "warning" [])) = 1.
Proof. cbv zeta. repeat split; vm_compute; auto. Qed.

End ServiceSpec.

(** ** The analysis endpoint *)

Module ApiSpec.
Import Eff EventAux EffFacts Api ApiAux NotificationManager.

(** One optional check adds at most one entry when it returns. *)
Lemma optional_check (enabled : bool) (name : string) (check : M CheckResult)
    (results : list (string * CheckResult)) h results' evs :
  (if enabled
   then res <- check ;; ret (results ++ [(name, res)])%list
   else ret results) h = (inr results', evs) ->
  exists new, results' = (results ++ new)%list /\ length new = b2n enabled.
Proof.
  destruct enabled; intros H.
  - apply TargetSpec.bind_inv_inr in H as (res & ev1 & ev2 & _ & H & _).
    injection H as <- _. now exists [(name, res)].
  - injection H as <- _. exists []. now rewrite app_nil_r.
Qed.

Lemma analyze_domain_shape w timestamp req h resp tasks :
  fst (analyze_domain w timestamp req h) = inr (resp, tasks) ->
  exists results,
    length results = requested req /\
    resp = mkResponse (req_domain req) timestamp results
                      (Z.of_nat (length (concat (map issue_of results)))) /\
    tasks = match concat (map issue_of results) with
            | [] => []
            | _ :: _ =>
                [mkTask ("DomainMate Alert: " ++ req_domain req)
                        ("Issues found for " ++ req_domain req ++ ":" ++ PyStr.newline
                         ++ PyStr.join PyStr.newline (concat (map issue_of results)))
                        (level_of (concat (map issue_of results)))]
            end.
Proof.
  destruct (analyze_domain w timestamp req h) as [r evs] eqn:E. cbn [fst]. intros ->.
  unfold analyze_domain in E. cbv zeta in E.
  apply TargetSpec.bind_inv_inr in E as (r1 & ? & ? & H1 & E & _).
  apply TargetSpec.bind_inv_inr in E as (r2 & ? & ? & H2 & E & _).
  apply TargetSpec.bind_inv_inr in E as (r3 & ? & ? & H3 & E & _).
  apply TargetSpec.bind_inv_inr in E as (r4 & ? & ? & H4 & E & _).
  apply TargetSpec.bind_inv_inr in E as (r5 & ? & ? & H5 & E & _).
  apply optional_check in H1 as (n1 & -> & L1).
  apply optional_check in H2 as (n2 & -> & L2).
  apply optional_check in H3 as (n3 & -> & L3).
  apply optional_check in H4 as (n4 & -> & L4).
  apply optional_check in H5 as (n5 & -> & L5).
  injection E as <- <-. eexists. split; [|split; reflexivity].
  rewrite !length_app, L1, L2, L3, L4, L5. unfold requested. cbn [length]. lia.
Qed.

Lemma issue_of_length entry :
  length (issue_of entry) = b2n (is_issue (snd entry)).
Proof.
  destruct entry as [name res]. unfold issue_of, is_issue, BlacklistMonitor.mem.
  cbn [snd existsb].
  destruct (String.eqb (status res) "critical"); [reflexivity|].
  destruct (String.eqb (status res) "error"); [reflexivity|]. cbn [orb].
  destruct (String.eqb (status res) "warning"); reflexivity.
Qed.

Lemma issues_length results :
  length (concat (map issue_of results))
  = length (List.filter is_issue (map snd results)).
Proof.
  induction results as [|entry results IH]; [reflexivity|].
  cbn [map concat List.filter]. rewrite length_app, issue_of_length, IH.
  destruct (is_issue (snd entry)); reflexivity.
Qed.

Lemma failure_line name res :
  is_failure res = true ->
  exists line,
    issue_of (name, res) = [line] /\
    (PyStr.contains "critical" line || PyStr.contains "error" line) = true.
Proof.
  unfold is_failure, issue_of. intros Hf. rewrite Hf.
  eexists. split; [reflexivity|].
  assert (Hre : forall st,
             "[" ++ PyStr.upper name ++ "] Status: " ++ st ++ " - "
             ++ default "Check details" (message res)
             = ("[" ++ PyStr.upper name ++ "] Status: ") ++ st
               ++ (" - " ++ default "Check details" (message res)))
    by (intros st; now rewrite !UrlFacts.append_assoc).
  rewrite Hre.
  unfold BlacklistMonitor.mem in Hf. cbn [existsb] in Hf.
  destruct (String.eqb_spec (status res) "critical") as [->|_].
  - rewrite UrlFacts.contains_app by discriminate. reflexivity.
  - destruct (String.eqb_spec (status res) "error") as [->|_]; [|discriminate].
    rewrite (UrlFacts.contains_app "error") by discriminate.
    apply orb_true_r.
Qed.

Lemma level_of_failure results :
  Exists (fun res => is_failure res = true) (map snd results) ->
  level_of (concat (map issue_of results)) = "critical".
Proof.
  intros Hex. unfold level_of.
  replace (existsb _ (concat (map issue_of results))) with true; [reflexivity|].
  symmetry. apply existsb_exists.
  apply Exists_exists in Hex as (res & Hin & Hf).
  apply list_elem_of_In, in_map_iff in Hin as ([name res'] & Hsnd & Hin). cbn [snd] in Hsnd. subst res'.
  destruct (failure_line name res Hf) as (line & Hline & Hc).
  exists line. split; [|exact Hc].
  apply in_concat. exists (issue_of (name, res)). split.
  - apply in_map_iff. eauto.
  - rewrite Hline. now left.
Qed.

(** X19: when [analyze_domain] returns, it has run exactly the checks the
    request asks for; [issues_found] is the number of results whose status
    is critical, error or warning; no notification is queued when that
    number is zero, and otherwise exactly one is queued, titled with the
    domain, at the level [critical] or [warning], and at the level
    [critical] whenever a result has the status critical or error. *)
Theorem analyze_queues_one_alert_for_the_issues w timestamp req h resp tasks :
  fst (analyze_domain w timestamp req h) = inr (resp, tasks) ->
  length (resp_results resp) = requested req /\
  issues_found resp
  = Z.of_nat (length (List.filter is_issue (map snd (resp_results resp)))) /\
  (issues_found resp = 0%Z -> tasks = []) /\
  ((0 < issues_found resp)%Z ->
   exists task,
     tasks = [task] /\
     task_title task = "DomainMate Alert: " ++ req_domain req /\
     (task_level task = "critical" \/ task_level task = "warning") /\
     (Exists (fun res => is_failure res = true) (map snd (resp_results resp)) ->
      task_level task = "critical")).
Proof.
  intros H. apply analyze_domain_shape in H as (results & Hlen & -> & ->).
  cbn [resp_results issues_found].
  split; [exact Hlen|]. split; [now rewrite issues_length|].
  pose proof (level_of_failure results) as Hlevel.
  destruct (concat (map issue_of results)) as [|line issues] eqn:Hissues.
  - split; [reflexivity|]. cbn. lia.
  - split; [cbn; lia|]. intros _. eexists. split; [reflexivity|]. cbn [task_title task_level].
    split; [reflexivity|]. split; [|exact Hlevel].
    unfold level_of. destruct (existsb _ _); [now left | now right].
Qed.

Lemma analyze_queues_one_alert_for_the_issues_witness :
  exists resp tasks,
    fst (analyze_domain Samples.offline "2026-01-01T00:00:00" (full_request "example.org") [])
    = inr (resp, tasks) /\
    length (resp_results resp) = 5 /\
    issues_found resp = 2%Z.
Proof.
  destruct (fst (analyze_domain Samples.offline "2026-01-01T00:00:00"
                   (full_request "example.org") []))
    as [e|[resp tasks]] eqn:E.
  - vm_compute in E. discriminate.
  - exists resp, tasks. split; [reflexivity|].
    destruct (analyze_queues_one_alert_for_the_issues _ _ _ _ _ _ E) as (H1 & H2 & _).
    split; [exact H1|]. rewrite H2.
    vm_compute in E. injection E as <- _. reflexivity.
Defined.

End ApiSpec.

(** ** The DNS monitor and the expiry checks *)

Module MonitorSpec.
Import Eff EventAux EffFacts PyStrMore DNSMonitor MonitorAux.

Lemma fold_spf_step records :
  forall spf txt,
    fold_left spf_step records (spf, txt) =
    (entry_of (last (List.filter (fun v => PyStr.startswith v "v=spf1")
                                 (map txt_val records))) spf,
     (txt ++ map txt_val records)%list).
Proof.
  induction records as [|r records IH]; intros spf txt.
  - cbn. now rewrite app_nil_r.
  - cbn [fold_left map List.filter]. unfold spf_step at 2.
    destruct (PyStr.startswith (txt_val r) "v=spf1"); rewrite IH, <- app_assoc.
    + rewrite last_cons. now destruct (last _).
    + reflexivity.
Qed.

Lemma fold_dmarc_step records :
  forall dmarc,
    fold_left dmarc_step records dmarc =
    entry_of (last (List.filter (fun v => PyStr.startswith v "v=DMARC1")
                                (map txt_val records))) dmarc.
Proof.
  induction records as [|r records IH]; intros dmarc; [reflexivity|].
  cbn [fold_left map List.filter]. unfold dmarc_step at 2.
  destruct (PyStr.startswith (txt_val r) "v=DMARC1"); rewrite IH.
  - rewrite last_cons. now destruct (last _).
  - reflexivity.
Qed.

Lemma has_record_matching prefix answer :
  has_record prefix answer = true <-> is_Some (last (matching prefix answer)).
Proof.
  unfold has_record, matching. destruct answer as [e|records].
  - split; [discriminate | intros [x Hx]; discriminate].
  - induction records as [|r records IH]; cbn [existsb map List.filter].
    + split; [discriminate | intros [x Hx]; discriminate].
    + destruct (PyStr.startswith (txt_val r) prefix); cbn [orb].
      * split; [|reflexivity]. intros _. rewrite last_cons. destruct (last _); eauto.
      * exact IH.
Qed.

Lemma entry_of_status found :
  String.eqb (entry_status (entry_of found (mkEntry "missing" None))) "missing"
  = negb (bool_decide (is_Some found)).
Proof. destruct found; reflexivity. Qed.

(** X20: [check_dns] never raises and never reports an error: it asks the
    system resolver for the TXT records of the domain and of
    [_dmarc.<domain>], in this order, whether or not the first look-up
    failed.  SPF is present when a record of the domain, its quotes
    stripped, starts with [v=spf1], and DMARC when a record of
    [_dmarc.<domain>] starts with [v=DMARC1]; the last such record is the
    one kept; a failed look-up counts as no record; and the status is ok
    when both are present and warning otherwise. *)
Theorem check_dns_warns_unless_both_records_exist w d h :
  let spf_answer := w_system w h d "TXT" in
  let dmarc_answer :=
    w_system w (h ++ [EvSystemQuery d "TXT"])%list ("_dmarc." ++ d) "TXT" in
  exists spf dmarc txt status,
    check_dns w d h
    = (inr (DnsChecked spf dmarc txt status),
       [EvSystemQuery d "TXT"; EvSystemQuery ("_dmarc." ++ d) "TXT"]) /\
    spf = match last (matching "v=spf1" spf_answer) with
          | Some v => mkEntry "present" (Some v)
          | None => mkEntry "missing" None
          end /\
    dmarc = match last (matching "v=DMARC1" dmarc_answer) with
            | Some v => mkEntry "present" (Some v)
            | None => mkEntry "missing" None
            end /\
    txt = match spf_answer with
          | inr records => map txt_val records
          | inl _ => []
          end /\
    status = (if has_record "v=spf1" spf_answer && has_record "v=DMARC1" dmarc_answer
              then "ok" else "warning").
Proof.
  cbv zeta.
  assert (Hstatus : forall a1 a2,
             (if String.eqb (entry_status (entry_of (last (matching "v=spf1" a1))
                                                    (mkEntry "missing" None))) "missing"
                 || String.eqb (entry_status (entry_of (last (matching "v=DMARC1" a2))
                                                       (mkEntry "missing" None))) "missing"
              then "warning" else "ok")
             = (if has_record "v=spf1" a1 && has_record "v=DMARC1" a2
                then "ok" else "warning")).
  { intros a1 a2. rewrite !entry_of_status.
    pose proof (has_record_matching "v=spf1" a1) as H1.
    pose proof (has_record_matching "v=DMARC1" a2) as H2.
    destruct (has_record "v=spf1" a1), (has_record "v=DMARC1" a2);
      repeat match goal with
             | |- context [bool_decide (is_Some ?x)] =>
                 first [ rewrite (bool_decide_eq_true_2 (is_Some x)) by (now apply H1 || now apply H2)
                       | rewrite (bool_decide_eq_false_2 (is_Some x))
                           by (intros Hx; (apply H1 in Hx || apply H2 in Hx); discriminate) ]
             end; reflexivity. }
  unfold check_dns, try_catch, bind, ask, ret. cbv zeta.
  destruct (w_system w h d "TXT") as [e1|records] eqn:H1; cbn [app fst snd];
    rewrite ?app_nil_r;
    destruct (w_system w (h ++ [EvSystemQuery d "TXT"])%list ("_dmarc." ++ d) "TXT")
      as [e2|records2] eqn:H2; cbn [app fst snd];
    rewrite ?fold_spf_step, ?fold_dmarc_step; cbn [app fst snd].
  - do 4 eexists. repeat split; reflexivity.
  - do 4 eexists. split; [reflexivity|]. split; [reflexivity|].
    split; [reflexivity|]. split; [reflexivity|].
    exact (Hstatus (inl e1) (inr records2)).
  - do 4 eexists. split; [reflexivity|]. split; [reflexivity|].
    split; [reflexivity|]. split; [reflexivity|].
    exact (Hstatus (inr records) (inl e2)).
  - do 4 eexists. split; [reflexivity|]. split; [reflexivity|].
    split; [reflexivity|]. split; [reflexivity|].
    exact (Hstatus (inr records) (inr records2)).
Qed.

End MonitorSpec.

Module ExpirySpec.
Import Expiry.

Lemma day_pos : (0 < day)%Z.
Proof. reflexivity. Qed.

(** Whole days, rounded down, against a threshold in days. *)
Lemma days_below expiration_date now n :
  (days_between expiration_date now <? n)%Z = (expiration_date - now <? n * day)%Z.
Proof.
  unfold days_between. pose proof day_pos as Hd.
  destruct (Z.ltb_spec ((expiration_date - now) / day) n) as [H|H];
    destruct (Z.ltb_spec (expiration_date - now) (n * day)) as [H'|H']; try reflexivity.
  - exfalso. rewrite (Z.mul_comm n day) in H'.
    apply (Z.div_le_lower_bound _ _ _ Hd) in H'. lia.
  - exfalso. rewrite (Z.mul_comm n day) in H'.
    apply (Z.div_lt_upper_bound _ _ _ Hd) in H'. lia.
Qed.

(** The status the two expiry checks derive from the days left. *)
Lemma status_by_time_left expiration_date now :
  let left := (expiration_date - now)%Z in
  let days := days_between expiration_date now in
  let status :=
    if (days <? 7)%Z then "critical"
    else if (days <? 30)%Z then "warning" else "ok" in
  (status = "critical" <-> (left < 7 * day)%Z) /\
  (status = "warning" <-> (7 * day <= left < 30 * day)%Z) /\
  (status = "ok" <-> (30 * day <= left)%Z).
Proof.
  cbv zeta. rewrite !days_below. pose proof day_pos.
  destruct (Z.ltb_spec (expiration_date - now) (7 * day));
    destruct (Z.ltb_spec (expiration_date - now) (30 * day));
    repeat split; intros; try discriminate; try reflexivity; lia.
Qed.

Import SSLMonitor.

(** X21: [check_ssl] compares [notAfter], a GMT time, with the reading of
    the local wall clock.  For a certificate it reports critical exactly
    when the time left until the certificate expires is less than 7 days
    plus the offset of the local zone from UTC (an expired certificate
    included), warning exactly when it is at least 7 and less than 30 days
    plus the offset, and ok from 30 days plus the offset on; the days
    reported are the whole days, rounded down, of the time left minus the
    offset.  On a machine whose local time is UTC the thresholds are 7 and
    30 days of time left.  A failed connection is reported with the status
    error and the text of the exception, and logged; an exception of the
    creation of the socket is raised to the caller. *)
Theorem certificate_status_by_time_left machine d cert :
  let left := (not_after cert - instant machine)%Z in
  let shift := utc_offset machine in
  (exists report,
     check_ssl machine d None (inr cert) = (inr report, []) /\
     ssl_monitor report = "ssl" /\
     ssl_days_until_expiry report = Some ((left - shift) / 86400000000)%Z /\
     (ssl_status report = "critical" <-> (left < 7 * 86400000000 + shift)%Z) /\
     (ssl_status report = "warning" <->
      (7 * 86400000000 + shift <= left < 30 * 86400000000 + shift)%Z) /\
     (ssl_status report = "ok" <-> (30 * 86400000000 + shift <= left)%Z)) /\
  (forall e,
     check_ssl machine d None (inl e)
     = (inr (mkSslReport "ssl" "error" (Some (exn_text e)) None None None None),
        [(LError, "Error checking SSL for " ++ d ++ ": " ++ exn_text e)])) /\
  (forall e peer, check_ssl machine d (Some e) peer = (inl e, [])).
Proof.
  cbv zeta. split; [|split; reflexivity].
  eexists. split; [reflexivity|]. cbn [ssl_monitor ssl_days_until_expiry ssl_status].
  split; [reflexivity|].
  pose proof (status_by_time_left (not_after cert) (datetime_now machine)) as H.
  cbv zeta in H. unfold datetime_now in *. change day with 86400000000%Z in H.
  split.
  { unfold days_between. change day with 86400000000%Z. do 2 f_equal. lia. }
  destruct (days_between (not_after cert) (instant machine + utc_offset machine) <? 7)%Z
    eqn:H7;
    destruct (days_between (not_after cert) (instant machine + utc_offset machine) <? 30)%Z
      eqn:H30;
    destruct H as (Hc & Hw & Ho); (split; [|split]);
    (etransitivity; [eassumption|]); lia.
Qed.

Import DomainMonitor.

Lemma days_until_wall date now : days_until date now = days_between (wall date) now.
Proof.
  unfold days_until. destruct (tzinfo date) as [tz|]; [|reflexivity].
  unfold days_between. f_equal. lia.
Qed.

(** X22: [check_domain] takes the expiration date of the WHOIS entry, the
    first one when the entry holds a list, and compares its wall-clock
    reading with the reading of the local wall clock, whatever the zone of
    the date: it reports critical exactly when the gap between the two
    readings is less than 7 days, warning exactly when the gap is at least
    7 and less than 30 days, and ok from 30 days on.  For a date that
    carries its zone the gap is the time left until the domain expires plus
    the offset of the zone of the date minus the offset of the local zone:
    the thresholds are 7 and 30 days of time left exactly when the two
    offsets agree.  An entry without a date gives an error result that has
    no [monitor] key and is not logged; an empty list of dates and a failed
    WHOIS query give an error result of the monitor [domain]. *)
Theorem domain_status_by_time_left machine d w :
  (forall date,
     (expiration_date w = DateOne date \/
      exists rest, expiration_date w = DateList (date :: rest)) ->
     let gap := (wall date - (instant machine + utc_offset machine))%Z in
     exists report,
       check_domain machine d (inr w) = (report, []) /\
       domain_monitor report = Some "domain" /\
       domain_expiration_date report = Some date /\
       domain_days_until_expiry report = Some (gap / 86400000000)%Z /\
       (domain_status report = "critical" <-> (gap < 7 * 86400000000)%Z) /\
       (domain_status report = "warning" <->
        (7 * 86400000000 <= gap < 30 * 86400000000)%Z) /\
       (domain_status report = "ok" <-> (30 * 86400000000 <= gap)%Z) /\
       (forall tz,
          tzinfo date = Some tz ->
          let left := (wall date - tz - instant machine)%Z in
          gap = (left + tz - utc_offset machine)%Z /\
          (domain_status report = "critical" <->
           (left < 7 * 86400000000 + utc_offset machine - tz)%Z) /\
          (domain_status report = "ok" <->
           (30 * 86400000000 + utc_offset machine - tz <= left)%Z))) /\
  (expiration_date w = DateNone ->
   check_domain machine d (inr w)
   = (mkDomainReport None "error" (Some "Could not retrieve expiration date")
                     None None None None, [])) /\
  (expiration_date w = DateList [] ->
   fst (check_domain machine d (inr w)) = error_report "list index out of range") /\
  (forall e, fst (check_domain machine d (inl e)) = error_report (exn_text e)).
Proof.
  split; [|split; [|split]].
  - intros date Hdate. cbv zeta.
    set (now := (instant machine + utc_offset machine)%Z).
    assert (Hrun : check_domain machine d (inr w) =
                   (mkDomainReport (Some "domain")
                      (if (days_between (wall date) now <? 7)%Z then "critical"
                       else if (days_between (wall date) now <? 30)%Z then "warning"
                            else "ok")
                      None (Some date) (Some (days_between (wall date) now))
                      (Some (registrar w)) (Some w), [])).
    { unfold check_domain. cbv zeta. fold now.
      destruct Hdate as [Hd|[rest Hd]]; rewrite Hd; rewrite days_until_wall;
        unfold datetime_now; fold now;
        destruct (days_between (wall date) now <? 7)%Z,
                 (days_between (wall date) now <? 30)%Z;
        reflexivity. }
    eexists. split; [exact Hrun|].
    cbn [domain_monitor domain_days_until_expiry domain_status domain_expiration_date].
    split; [reflexivity|]. split; [reflexivity|]. split; [reflexivity|].
    pose proof (status_by_time_left (wall date) now) as H. cbv zeta in H.
    change day with 86400000000%Z in H. destruct H as (Hc & Hw & Ho).
    split; [exact Hc|]. split; [exact Hw|]. split; [exact Ho|].
    intros tz _. split; [lia|]. split; (etransitivity; [eassumption|]); lia.
  - intros Hd. unfold check_domain. cbv zeta. now rewrite Hd.
  - intros Hd. unfold check_domain. cbv zeta. now rewrite Hd.
  - reflexivity.
Qed.

(** A date ten days ahead, given in UTC, on a machine two hours east of
    UTC: the first date of the list counts, and nine whole days are
    reported. *)
Lemma domain_status_by_time_left_witness :
  expiration_date
    (mkWhois (DateList [mkDate (10 * day) (Some 0%Z); mkDate (400 * day) None])
             (Some "Example Registrar"))
  = DateList [mkDate (10 * day) (Some 0%Z); mkDate (400 * day) None] /\
  exists report,
    check_domain (mkMachine 0 7200000000) "example.com"
                 (inr (mkWhois (DateList [mkDate (10 * day) (Some 0%Z);
                                          mkDate (400 * day) None])
                               (Some "Example Registrar")))
    = (report, []) /\
    domain_monitor report = Some "domain" /\
    domain_days_until_expiry report = Some 9%Z.
Proof.
  split; [reflexivity|].
  destruct (proj1 (domain_status_by_time_left (mkMachine 0 7200000000) "example.com"
                     (mkWhois (DateList [mkDate (10 * day) (Some 0%Z);
                                         mkDate (400 * day) None])
                              (Some "Example Registrar")))
                  (mkDate (10 * day) (Some 0%Z))
                  (or_intror (ex_intro _ [mkDate (400 * day) None] eq_refl)))
    as (report & Hrun & Hm & _ & Hdays & _).
  exists report. split; [exact Hrun|]. split; [exact Hm|].
  rewrite Hdays. reflexivity.
Defined.

End ExpirySpec.
